(** * Glass: the streaming request orchestration subsystem

    A shallow embedding of the provider payload adapter (the OpenAI provider
    module), of the ask orchestrator (class [AskService]) and of the
    reasoning-effort normalisation of the settings service, with the
    properties the specification states about them.

    Conventions of the embedding.
    - A JavaScript string is a [string] of code units below 256 (Latin-1);
      [toLowerCase] and [trim] are exact on that range.
    - A JavaScript number is [NaN], an infinity or a finite value carried as
      a rational: every finite double is a rational, and the only number
      operations the code uses (comparison, [Math.max], truthiness) are exact.
    - A JavaScript value is a JSON-like tree ([JsVal]); functions, symbols and
      accessors do not occur.  An object is its list of own properties; the
      enumeration order of properties is not observable by the code below.
    - Host services ([JSON.parse], the network, the window, the repositories)
      are inputs of the model: section variables or oracle fields. *)

From Stdlib Require Import Bool Arith List ZArith QArith Lia String Ascii.
From Stdlib Require Import DecimalString.
Import ListNotations.
Close Scope Q_scope.
Open Scope string_scope.

(** ** JavaScript strings *)

Module JsString.

Definition code (c : ascii) : nat := nat_of_ascii c.

(** [String.prototype.toLowerCase] on one Latin-1 code unit: A-Z and the
    accented capitals U+00C0..U+00DE (without the multiplication sign U+00D7)
    move up by 32. *)
Definition lowerChar (c : ascii) : ascii :=
  let n := code c in
  if (((65 <=? n) && (n <=? 90))
      || ((192 <=? n) && (n <=? 222) && negb (n =? 215)))%nat
  then ascii_of_nat (n + 32) else c.

Fixpoint toLowerCase (s : string) : string :=
  match s with
  | EmptyString => EmptyString
  | String c r => String (lowerChar c) (toLowerCase r)
  end.

(** White space and line terminators of ECMAScript below 256:
    TAB, LF, VT, FF, CR, SP and NBSP. *)
Definition isWhite (c : ascii) : bool :=
  let n := code c in
  (((9 <=? n) && (n <=? 13)) || (n =? 32) || (n =? 160))%nat.

Fixpoint trimStart (s : string) : string :=
  match s with
  | EmptyString => EmptyString
  | String c r => if isWhite c then trimStart r else s
  end.

Fixpoint trimEnd (s : string) : string :=
  match s with
  | EmptyString => EmptyString
  | String c r =>
      match trimEnd r with
      | EmptyString => if isWhite c then EmptyString else String c EmptyString
      | r' => String c r'
      end
  end.

Definition trim (s : string) : string := trimEnd (trimStart s).

(** [s.startsWith(p)] *)
Definition startsWith (s p : string) : bool := String.prefix p s.

(** [s.includes(p)] *)
Fixpoint includes (s p : string) : bool :=
  String.prefix p s ||
  match s with
  | EmptyString => false
  | String _ r => includes r p
  end.

(** [s.slice(n)] for a non-negative [n]. *)
Fixpoint slice_from (n : nat) (s : string) : string :=
  match n, s with
  | O, _ => s
  | S k, EmptyString => EmptyString
  | S k, String _ r => slice_from k r
  end.

(** A string is truthy when it is not empty. *)
Definition nonEmpty (s : string) : bool :=
  match s with EmptyString => false | _ => true end.

Definition LF : string := String (ascii_of_nat 10) EmptyString.

(** [parts.join(sep)] on strings. *)
Fixpoint join (sep : string) (parts : list string) : string :=
  match parts with
  | [] => EmptyString
  | [x] => x
  | x :: rest => x ++ sep ++ join sep rest
  end.

(** [s.split('\n')]: never empty, one more piece than there are line feeds. *)
Fixpoint splitLF (s : string) : list string :=
  match s with
  | EmptyString => [EmptyString]
  | String c r =>
      if (code c =? 10)%nat then EmptyString :: splitLF r
      else match splitLF r with
           | [] => [String c EmptyString]
           | x :: xs => String c x :: xs
           end
  end.

(** The decimal spelling of an array index. *)
Definition ofNat (n : nat) : string := NilZero.string_of_uint (Nat.to_uint n).

End JsString.
Import JsString.

(** ** JavaScript numbers and values *)

Inductive JsNumber : Type :=
| NaN
| PosInf
| NegInf
| Fin (q : Q).

Module JsNum.

Definition ofZ (z : Z) : JsNumber := Fin (inject_Z z).

(** [Number.isFinite] *)
Definition isFinite (n : JsNumber) : bool :=
  match n with Fin _ => true | _ => false end.

(** [n > 0] *)
Definition gtZero (n : JsNumber) : bool :=
  match n with
  | Fin q => negb (Qle_bool q 0%Q)
  | PosInf => true
  | _ => false
  end.

(** Truthiness: every number but zero and NaN. *)
Definition truthy (n : JsNumber) : bool :=
  match n with
  | Fin q => negb (Qeq_bool q 0%Q)
  | NaN => false
  | _ => true
  end.

(** [Math.max(a, b)] *)
Definition max (a b : JsNumber) : JsNumber :=
  match a, b with
  | NaN, _ | _, NaN => NaN
  | PosInf, _ | _, PosInf => PosInf
  | NegInf, x | x, NegInf => x
  | Fin x, Fin y => if Qle_bool x y then Fin y else Fin x
  end.

End JsNum.

#[warnings="-register-all"]
Inductive JsVal : Type :=
| JUndefined
| JNull
| JBool (b : bool)
| JNum (n : JsNumber)
| JStr (s : string)
| JArr (elems : list JsVal) (extra : list (string * JsVal))
| JObj (props : list (string * JsVal)).

Definition Props : Type := list (string * JsVal).

Module Js.

(** Own-property lookup in a property list. *)
Fixpoint lookup (k : string) (ps : Props) : JsVal :=
  match ps with
  | [] => JUndefined
  | (k', v) :: rest => if String.eqb k k' then v else lookup k rest
  end.

Fixpoint has (k : string) (ps : Props) : bool :=
  match ps with
  | [] => false
  | (k', _) :: rest => String.eqb k k' || has k rest
  end.

(** Assignment of one property: an existing key keeps its place. *)
Fixpoint set (k : string) (v : JsVal) (ps : Props) : Props :=
  match ps with
  | [] => [(k, v)]
  | (k', v') :: rest =>
      if String.eqb k k' then (k, v) :: rest else (k', v') :: set k v rest
  end.

(** [{ ...a, ...b }]: the properties of [b] assigned over those of [a]. *)
Definition spread (a b : Props) : Props :=
  fold_left (fun acc kv => set (fst kv) (snd kv) acc) b a.

(** The object literal with the given entries, in order. *)
Definition literal (entries : Props) : Props := spread [] entries.

Fixpoint indexed (i : nat) (l : list JsVal) : Props :=
  match l with
  | [] => []
  | x :: r => (ofNat i, x) :: indexed (S i) r
  end.

(** The own enumerable properties copied by [{ ...v }]. *)
Definition ownProps (v : JsVal) : Props :=
  match v with
  | JObj ps => ps
  | JArr l extra => spread (indexed 0 l) extra
  | _ => []
  end.

(** [v.k] for a name [k] that is neither an index nor [length];
    reading a property of a primitive gives [undefined]
    (the code reads properties only after a null check or through [?.]). *)
Definition get (v : JsVal) (k : string) : JsVal :=
  match v with
  | JObj ps => lookup k ps
  | JArr _ extra => lookup k extra
  | _ => JUndefined
  end.

(** [v?.[0]] *)
Definition first (v : JsVal) : JsVal :=
  match v with
  | JArr l _ => nth 0 l JUndefined
  | JObj ps => lookup "0" ps
  | JStr (String c _) => JStr (String c EmptyString)
  | _ => JUndefined
  end.

Definition truthy (v : JsVal) : bool :=
  match v with
  | JUndefined | JNull => false
  | JBool b => b
  | JNum n => JsNum.truthy n
  | JStr s => nonEmpty s
  | JArr _ _ | JObj _ => true
  end.

(** [typeof v === 'object'] (true of [null] and of arrays). *)
Definition typeofObject (v : JsVal) : bool :=
  match v with
  | JNull | JArr _ _ | JObj _ => true
  | _ => false
  end.

(** [v && typeof v === 'object'] *)
Definition isObjectLike (v : JsVal) : bool :=
  match v with
  | JArr _ _ | JObj _ => true
  | _ => false
  end.

(** [v === 'lit'] *)
Definition isStr (v : JsVal) (lit : string) : bool :=
  match v with
  | JStr s => String.eqb s lit
  | _ => false
  end.

End Js.

(** ** The provider payload adapter (OpenAI provider module) *)

Module Adapter.

Definition isGpt5Model (model : JsVal) : bool :=
  match model with
  | JStr m => startsWith (toLowerCase m) "gpt-5"
  | _ => false
  end.

Definition normalizeMessage (message : JsVal) : JsVal :=
  if negb (Js.isObjectLike message) then message
  else if Js.isStr (Js.get message "role") "system"
       then JObj (Js.set "role" (JStr "developer") (Js.ownProps message))
       else message.

(** The result is the list of the returned array; a non-array gives [[]]. *)
Definition normalizeMessagesForModel (model messages : JsVal) : list JsVal :=
  match messages with
  | JArr l _ =>
      if negb (isGpt5Model model) then l else map normalizeMessage l
  | _ => []
  end.

Record TokenOptions : Type := { forceLegacyMaxTokens : bool }.

Definition usableNumber (v : JsVal) : bool :=
  match v with
  | JNum n => JsNum.truthy n
  | _ => false
  end.

Definition buildTokenPayload (model maxTokens : JsVal) (options : TokenOptions)
  : Props :=
  if negb (usableNumber maxTokens) then []
  else if forceLegacyMaxTokens options then [("max_tokens", maxTokens)]
  else if isGpt5Model model then [("max_completion_tokens", maxTokens)]
  else [("max_tokens", maxTokens)].

Definition REASONING_EFFORT_VALUES : list string :=
  ["none"; "low"; "medium"; "high"; "xhigh"].

Definition inList (x : string) (l : list string) : bool :=
  existsb (String.eqb x) l.

Definition effortCandidate (reasoningEffort : JsVal) : string :=
  match reasoningEffort with
  | JStr s => toLowerCase (trim s)
  | _ => EmptyString
  end.

(** [None] is JavaScript's [null]. *)
Definition normalizeReasoningEffort (reasoningEffort : JsVal) : option string :=
  let candidate := effortCandidate reasoningEffort in
  if String.eqb candidate "minimal" then Some "none"
  else if String.eqb candidate "x-high" || String.eqb candidate "x_high"
          || String.eqb candidate "x high" then Some "xhigh"
  else if inList candidate REASONING_EFFORT_VALUES then Some candidate
  else None.

Definition buildReasoningPayload (model reasoningEffort : JsVal) : Props :=
  if negb (isGpt5Model model) then []
  else match normalizeReasoningEffort reasoningEffort with
       | Some effort =>
           if nonEmpty effort
           then [("reasoning", JObj [("effort", JStr effort)])]
           else []
       | None => []
       end.

Definition buildResponsesTokenPayload (maxTokens : JsVal) : Props :=
  if negb (usableNumber maxTokens) then []
  else [("max_output_tokens", maxTokens)].

Definition buildTemperaturePayload (model temperature : JsVal) : Props :=
  match temperature with
  | JNum _ => if isGpt5Model model then [] else [("temperature", temperature)]
  | _ => []
  end.

Definition normalizeResponsesRole (role : JsVal) : JsVal :=
  if Js.isStr role "assistant" || Js.isStr role "system"
     || Js.isStr role "developer"
  then role else JStr "user".

Definition inputText (text : JsVal) : JsVal :=
  JObj [("type", JStr "input_text"); ("text", text)].

Definition inputImage (url : JsVal) : JsVal :=
  JObj [("type", JStr "input_image"); ("image_url", url)].

Definition isString (v : JsVal) : bool :=
  match v with JStr _ => true | _ => false end.

(** [JNull] is the dropped part. *)
Definition normalizeResponsesContentPart (part : JsVal) : JsVal :=
  match part with
  | JStr _ => inputText part
  | JArr _ _ | JObj _ =>
      let type := Js.get part "type" in
      if Js.isStr type "text" && isString (Js.get part "text")
      then inputText (Js.get part "text")
      else if Js.isStr type "input_text" && isString (Js.get part "text")
      then inputText (Js.get part "text")
      else
        let imageUrl :=
          match Js.get part "image_url" with
          | JStr u => JStr u
          | other => Js.get other "url"
          end in
        if Js.isStr type "image_url" && Js.truthy imageUrl && isString imageUrl
        then inputImage imageUrl
        else if Js.isStr type "input_image"
                && isString (Js.get part "image_url")
        then inputImage (Js.get part "image_url")
        else JNull
  | _ => JNull
  end.

Definition responsesMessage (message : JsVal) : JsVal :=
  let rawContent := Js.get message "content" in
  let contentArray :=
    match rawContent with
    | JArr l _ => l
    | _ => [rawContent]
    end in
  let content :=
    filter Js.truthy (map normalizeResponsesContentPart contentArray) in
  let content :=
    match content with
    | [] => [inputText (JStr EmptyString)]
    | _ => content
    end in
  JObj [("role", normalizeResponsesRole (Js.get message "role"));
        ("content", JArr content [])].

Definition convertMessagesToResponsesInput (model messages : JsVal)
  : list JsVal :=
  map responsesMessage
      (filter Js.isObjectLike (normalizeMessagesForModel model messages)).

(** The options of [createStreamingLLM]; a field left out is [JUndefined]. *)
Record LLMOptions : Type := {
  apiKey : JsVal;
  model : JsVal;
  temperature : JsVal;
  maxTokens : JsVal;
  usePortkey : JsVal;
  portkeyVirtualKey : JsVal;
  reasoningEffort : JsVal
}.

(** A default parameter value replaces [undefined] only. *)
Definition orDefault (v d : JsVal) : JsVal :=
  match v with JUndefined => d | _ => v end.

(** What [streamChat] hands to [fetch]: the endpoint and the body object
    before [JSON.stringify].  (The headers carry the credentials only.) *)
Record Request : Type := { url : string; body : Props }.

Definition streamChatRequest (o : LLMOptions) (messages : JsVal) : Request :=
  let model := orDefault (model o) (JStr "gpt-4.1") in
  let temperature := orDefault (temperature o) (JNum (Fin (7 # 10))) in
  let maxTokens := orDefault (maxTokens o) (JNum (JsNum.ofZ 2048)) in
  let reasoningPayload := buildReasoningPayload model (reasoningEffort o) in
  let temperaturePayload := buildTemperaturePayload model temperature in
  if negb (Js.truthy (usePortkey o)) then
    let responsesInput := convertMessagesToResponsesInput model messages in
    let tokenPayload := buildResponsesTokenPayload maxTokens in
    {| url := "https://api.openai.com/v1/responses";
       body := Js.literal
                 ([("model", model); ("input", JArr responsesInput [])]
                    ++ temperaturePayload ++ tokenPayload ++ reasoningPayload
                    ++ [("stream", JBool true)])%list |}
  else
    let normalizedMessages := normalizeMessagesForModel model messages in
    let tokenPayload :=
      buildTokenPayload model maxTokens {| forceLegacyMaxTokens := true |} in
    {| url := "https://api.portkey.ai/v1/chat/completions";
       body := Js.literal
                 ([("model", model); ("messages", JArr normalizedMessages [])]
                    ++ temperaturePayload ++ tokenPayload
                    ++ [("stream", JBool true)])%list |}.

(** The JavaScript value of a normalisation result. *)
Definition ofNull (r : option string) : JsVal :=
  match r with
  | Some s => JStr s
  | None => JNull
  end.

(** The model a streaming client really uses: the default replaces a
    missing one. *)
Definition modelOf (o : LLMOptions) : JsVal :=
  orDefault (model o) (JStr "gpt-4.1").

Definition temperatureOf (o : LLMOptions) : JsVal :=
  orDefault (temperature o) (JNum (Fin (7 # 10))).

Definition maxTokensOf (o : LLMOptions) : JsVal :=
  orDefault (maxTokens o) (JNum (JsNum.ofZ 2048)).

Definition bodyOf (o : LLMOptions) (messages : JsVal) : Props :=
  body (streamChatRequest o messages).

Definition isSome {A : Type} (x : option A) : bool :=
  match x with Some _ => true | None => false end.

Definition systemRole (m : JsVal) : bool :=
  Js.isObjectLike m && Js.isStr (Js.get m "role") "system".

End Adapter.

(** ** The settings service *)

Module Settings.

Definition REASONING_EFFORT_VALUES : list string :=
  ["none"; "low"; "medium"; "high"; "xhigh"].

Definition normalizeReasoningEffort (value : JsVal) : string :=
  let candidate :=
    match value with
    | JStr s => toLowerCase (trim s)
    | _ => EmptyString
    end in
  if String.eqb candidate "minimal" then "none"
  else if String.eqb candidate "x-high" || String.eqb candidate "x_high"
          || String.eqb candidate "x high" then "xhigh"
  else if Adapter.inList candidate REASONING_EFFORT_VALUES then candidate
  else "medium".

End Settings.

(** ** The ask orchestrator: state and pure steps *)

Module Ask.

Definition VOICE_DRAFT_MAX_AGE_MS : Z := 10 * 60 * 1000.

(** [this.state]; time stamps are [Date.now()] milliseconds. *)
Record State : Type := {
  isVisible : bool;
  isLoading : bool;
  isStreaming : bool;
  currentQuestion : string;
  currentResponse : string;
  showTextInput : bool;
  voiceDraft : string;
  voiceSpeaker : string;
  voiceDraftTimestamp : Z
}.

Definition initialState : State :=
  {| isVisible := false; isLoading := false; isStreaming := false;
     currentQuestion := ""; currentResponse := ""; showTextInput := true;
     voiceDraft := ""; voiceSpeaker := ""; voiceDraftTimestamp := 0 |}.

(** [typeof v === 'string' ? v.trim() : ''] *)
Definition trimmedText (v : JsVal) : string :=
  match v with
  | JStr s => trim s
  | _ => ""
  end.

(** [setVoiceDraft(speaker, text)] at time [now]; the state broadcast that
    follows is left to the effectful part below. *)
Definition setVoiceDraft (st : State) (now : Z) (speaker : string) (text : JsVal)
  : State :=
  let draft := trimmedText text in
  if negb (nonEmpty draft) then st
  else {| isVisible := isVisible st; isLoading := isLoading st;
          isStreaming := isStreaming st;
          currentQuestion := currentQuestion st;
          currentResponse := currentResponse st;
          showTextInput := showTextInput st;
          voiceDraft := draft;
          voiceSpeaker := if nonEmpty speaker then speaker else "Me";
          voiceDraftTimestamp := now |}.

(** [_resolveEffectivePrompt(userPrompt)] with [Date.now()] = [now]. *)
Definition _resolveEffectivePrompt (st : State) (now : Z) (userPrompt : JsVal)
  : string :=
  let typedPrompt := trimmedText userPrompt in
  if nonEmpty typedPrompt then typedPrompt
  else
    let voiceDraft := trim (voiceDraft st) in
    let stamp := voiceDraftTimestamp st in
    let draftAgeMs := (now - (if (stamp =? 0)%Z then 0 else stamp))%Z in
    if nonEmpty voiceDraft && (draftAgeMs <=? VOICE_DRAFT_MAX_AGE_MS)%Z
    then voiceDraft
    else "".

Definition GENERIC_REQUEST : string :=
  "Analyze the current screen and provide the most relevant help right now.".

(** [effectivePrompt || fallback] *)
Definition orText (effectivePrompt fallback : string) : string :=
  if nonEmpty effectivePrompt then effectivePrompt else fallback.

Definition userRequest (effectivePrompt : string) : string :=
  orText effectivePrompt GENERIC_REQUEST.

Definition NO_HISTORY : string := "No conversation history available.".

(** [arr.slice(-n)] *)
Definition sliceLast {A : Type} (n : nat) (l : list A) : list A :=
  skipn (List.length l - n) l.

(** [_formatConversationForPrompt]; [None] is a missing (falsy) argument. *)
Definition _formatConversationForPrompt (conversationTexts : option (list string))
  : string :=
  match conversationTexts with
  | None | Some [] => NO_HISTORY
  | Some texts => join LF (sliceLast 30 texts)
  end.

(** The output-token floor and ceiling computed in [sendMessage]. *)
Definition reasoningIsHigh (reasoningEffort : JsVal) : bool :=
  Js.isStr reasoningEffort "high" || Js.isStr reasoningEffort "xhigh".

Definition isGpt5Model (model : JsVal) : bool :=
  match model with
  | JStr m => startsWith (toLowerCase m) "gpt-5"
  | _ => false
  end.

Definition defaultMinTokens (model reasoningEffort : JsVal) : Z :=
  if isGpt5Model model && reasoningIsHigh reasoningEffort then 8192%Z
  else 4096%Z.

(** [configuredMaxTokens] is [Number(appSettings?.maxTokens)]: [NaN] when the
    setting is missing. *)
Definition effectiveMaxTokens (model reasoningEffort : JsVal)
  (configuredMaxTokens : JsNumber) : JsNumber :=
  let floor := JsNum.ofZ (defaultMinTokens model reasoningEffort) in
  if JsNum.isFinite configuredMaxTokens && JsNum.gtZero configuredMaxTokens
  then JsNum.max configuredMaxTokens floor
  else floor.

(** [_isMultimodalError(error)]; [None] is an error without a message. *)
Definition MULTIMODAL_KEYWORDS : list string :=
  ["vision"; "image"; "multimodal"; "unsupported"; "image_url"; "400";
   "invalid"; "not supported"].

Definition _isMultimodalError (message : option string) : bool :=
  let errorMessage :=
    match message with
    | Some m => toLowerCase m
    | None => ""
    end in
  includes errorMessage "vision"
  || includes errorMessage "image"
  || includes errorMessage "multimodal"
  || includes errorMessage "unsupported"
  || includes errorMessage "image_url"
  || includes errorMessage "400"
  || includes errorMessage "invalid"
  || includes errorMessage "not supported".

End Ask.

(** ** The realtime transcription session: inbound frames *)

Module STT.

Section Onmessage.

(** [JSON.parse] of the host: [None] when it throws. *)
Variable JSON_parse : string -> option JsVal.

(** [msg.provider = 'openai'] on an object or an array. *)
Definition tagProvider (msg : JsVal) : JsVal :=
  match msg with
  | JObj ps => JObj (Js.set "provider" (JStr "openai") ps)
  | JArr l extra => JArr l (Js.set "provider" (JStr "openai") extra)
  | _ => msg
  end.

(** [ws.onmessage] of [createSTT] on a text frame [data]: the list of the
    arguments [callbacks.onmessage] is called with.  [hasCallback] tells
    whether the caller registered one. *)
Definition onmessage (hasCallback : bool) (data : string) : list JsVal :=
  if negb (nonEmpty data) || String.eqb data "null" || String.eqb data "[DONE]"
  then []
  else match JSON_parse data with
       | None => []
       | Some msg =>
           if negb (Js.truthy msg) || negb (Js.typeofObject msg) then []
           else if hasCallback then [tagProvider msg] else []
       end.

End Onmessage.

End STT.

(** ** Effects: a state monad with exceptions *)

(** A thrown value: an [Error] with its message, or a value without one. *)
Record Error : Type := { message : option string }.

Inductive Result (A : Type) : Type :=
| Ok (a : A)
| Throw (e : Error).
Arguments Ok {A} a.
Arguments Throw {A} e.

Module Eff.

(** A computation on a state [S]; a throw keeps the state reached. *)
Definition M (S A : Type) : Type := S -> Result A * S.

Definition ret {S A : Type} (a : A) : M S A := fun s => (Ok a, s).

Definition throw {S A : Type} (e : Error) : M S A := fun s => (Throw e, s).

Definition bind {S A B : Type} (m : M S A) (k : A -> M S B) : M S B :=
  fun s =>
    match m s with
    | (Ok a, s1) => k a s1
    | (Throw e, s1) => (Throw e, s1)
    end.

Definition modify {S : Type} (f : S -> S) : M S unit := fun s => (Ok tt, f s).

Definition gets {S A : Type} (f : S -> A) : M S A := fun s => (Ok (f s), s).

(** [try { body } catch (e) { handler e }] *)
Definition tryCatch {S A : Type} (body : M S A) (handler : Error -> M S A)
  : M S A :=
  fun s =>
    match body s with
    | (Ok a, s1) => (Ok a, s1)
    | (Throw e, s1) => handler e s1
    end.

(** [try { body } finally { fin }]: [fin] always runs; its own throw
    replaces the outcome of [body]. *)
Definition tryFinally {S A : Type} (body : M S A) (fin : M S unit) : M S A :=
  fun s =>
    match body s with
    | (r, s1) =>
        match fin s1 with
        | (Ok _, s2) => (r, s2)
        | (Throw e, s2) => (Throw e, s2)
        end
    end.

(** [for (const x of xs) { f x }] *)
Fixpoint forEach {S A : Type} (f : A -> M S unit) (xs : list A) : M S unit :=
  match xs with
  | [] => ret tt
  | x :: r => bind (f x) (fun _ => forEach f r)
  end.

Definition when {S : Type} (b : bool) (m : M S unit) : M S unit :=
  if b then m else ret tt.

End Eff.

Declare Scope eff_scope.
Delimit Scope eff_scope with eff.
Notation "x <- m ;; k" := (Eff.bind m (fun x => k))
  (at level 61, m at next level, right associativity) : eff_scope.
Notation "m ;; k" := (Eff.bind m (fun _ => k))
  (at level 61, right associativity) : eff_scope.

(** ** The ask orchestrator: observable effects *)

(** The argument of [askRepository.addAiMessage]; the user prompt is stored
    without a model. *)
Record AiMessage : Type := {
  sessionId : JsVal;
  role : string;
  content : string;
  model : JsVal
}.

Inductive LogLine : Type :=
| LogProcessing
| LogSavedPrompt
| LogUsingModel
| LogWindowMissing
| LogRetryTextOnly
| LogCancelled
| LogStreamError (e : Error)
| LogSaved
| LogSaveFailed (e : Error)
| LogSendError (e : Error).

Inductive Event : Type :=
| VisibilityRequest (visible : bool)
| StateUpdate (snapshot : Ask.State)
| StreamErrorEvent (error : option string)
| Persist (m : AiMessage)
| StreamChat (options : Adapter.LLMOptions) (messages : JsVal)
| ReaderCancel
| Abort (controller : nat) (reason : string)
| Log (line : LogLine).

(** One [reader.read()] that is not [done]: a decoded chunk or a rejection.
    The end of the list is [done]. *)
Inductive ReadResult : Type :=
| Chunk (text : string)
| ReadFails (e : Error).

Definition Reader : Type := list ReadResult.

(** What the orchestrator owns: [this.state], [this.abortController] (an
    index among the controllers created so far), and the record of what it
    did to the outside, oldest first. *)
Record World : Type := {
  state : Ask.State;
  abortController : option nat;
  created : nat;
  calls : nat;
  trace : list Event
}.

(** The collaborators, as seen by one call that runs to completion. *)
Record Env : Type := {
  now : Z;
  windowOpen : bool;
  abortedMeanwhile : bool;
  storeFails : AiMessage -> option Error;
  activeSession : Result JsVal;
  modelInfo : option (JsVal * JsVal * JsVal);
  screenshot : option string;
  selectedPresetPrompt : string;
  reasoningEffortSetting : JsVal;
  configuredMaxTokens : JsNumber;
  systemPromptFor : string -> string -> string;
  network : nat -> JsVal -> Result Reader
}.

Module Orch.
Import Eff.
Open Scope eff_scope.

Definition emit (e : Event) : M World unit :=
  modify (fun w =>
    {| state := state w; abortController := abortController w;
       created := created w; calls := calls w;
       trace := (trace w ++ [e])%list |}).

Definition setState (f : Ask.State -> Ask.State) : M World unit :=
  modify (fun w =>
    {| state := f (state w); abortController := abortController w;
       created := created w; calls := calls w; trace := trace w |}).

Definition withFlags (loading streaming : bool) (st : Ask.State) : Ask.State :=
  {| Ask.isVisible := Ask.isVisible st; Ask.isLoading := loading;
     Ask.isStreaming := streaming;
     Ask.currentQuestion := Ask.currentQuestion st;
     Ask.currentResponse := Ask.currentResponse st;
     Ask.showTextInput := Ask.showTextInput st;
     Ask.voiceDraft := Ask.voiceDraft st;
     Ask.voiceSpeaker := Ask.voiceSpeaker st;
     Ask.voiceDraftTimestamp := Ask.voiceDraftTimestamp st |}.

Definition withStreaming (streaming : bool) (st : Ask.State) : Ask.State :=
  withFlags (Ask.isLoading st) streaming st.

Definition withResponse (text : string) (st : Ask.State) : Ask.State :=
  {| Ask.isVisible := Ask.isVisible st; Ask.isLoading := Ask.isLoading st;
     Ask.isStreaming := Ask.isStreaming st;
     Ask.currentQuestion := Ask.currentQuestion st;
     Ask.currentResponse := text;
     Ask.showTextInput := Ask.showTextInput st;
     Ask.voiceDraft := Ask.voiceDraft st;
     Ask.voiceSpeaker := Ask.voiceSpeaker st;
     Ask.voiceDraftTimestamp := Ask.voiceDraftTimestamp st |}.

Definition withInput (shown : bool) (st : Ask.State) : Ask.State :=
  {| Ask.isVisible := Ask.isVisible st; Ask.isLoading := Ask.isLoading st;
     Ask.isStreaming := Ask.isStreaming st;
     Ask.currentQuestion := Ask.currentQuestion st;
     Ask.currentResponse := Ask.currentResponse st;
     Ask.showTextInput := shown;
     Ask.voiceDraft := Ask.voiceDraft st;
     Ask.voiceSpeaker := Ask.voiceSpeaker st;
     Ask.voiceDraftTimestamp := Ask.voiceDraftTimestamp st |}.

Definition withQuestion (question : string) (st : Ask.State) : Ask.State :=
  {| Ask.isVisible := Ask.isVisible st; Ask.isLoading := Ask.isLoading st;
     Ask.isStreaming := Ask.isStreaming st;
     Ask.currentQuestion := question;
     Ask.currentResponse := Ask.currentResponse st;
     Ask.showTextInput := Ask.showTextInput st;
     Ask.voiceDraft := Ask.voiceDraft st;
     Ask.voiceSpeaker := Ask.voiceSpeaker st;
     Ask.voiceDraftTimestamp := Ask.voiceDraftTimestamp st |}.

(** [_broadcastState]: the whole state goes to the ask window when there
    is one. *)
Definition _broadcastState (env : Env) : M World unit :=
  fun w => when (windowOpen env) (emit (StateUpdate (state w))) w.

(** [await askRepository.addAiMessage(m)] *)
Definition addAiMessage (env : Env) (m : AiMessage) : M World unit :=
  emit (Persist m) ;;
  match storeFails env m with
  | Some e => throw e
  | None => ret tt
  end.

End Orch.

(** ** The ask orchestrator: the stream decoder and [_processStream] *)

Module Stream.
Import Eff.
Open Scope eff_scope.

(** The text of one part of a chat-completions content array. *)
Definition chatPartText (part : JsVal) : string :=
  match part with
  | JStr p => p
  | JArr _ _ | JObj _ =>
      match Js.get part "text" with
      | JStr t => t
      | text =>
          match Js.get part "delta" with
          | JStr d => d
          | _ =>
              if Js.truthy text
              then match Js.get text "value" with
                   | JStr v => v
                   | _ => ""
                   end
              else ""
          end
      end
  | _ => ""
  end.

(** The source tests a string [delta] twice, the second time only for a
    [response.output_text.delta] event; the second test cannot succeed where
    the first one failed and is left out. *)
Definition _extractTokenFromStreamEvent (eventPayload : JsVal) : string :=
  if negb (Js.isObjectLike eventPayload) then ""
  else
    match Js.get eventPayload "delta" with
    | JStr d => d
    | delta =>
        let type := Js.get eventPayload "type" in
        match (if Js.isStr type "response.content_part.added"
               then Js.get (Js.get eventPayload "part") "text"
               else JUndefined) with
        | JStr t => t
        | _ =>
            match (if Js.isStr type "response.content_part.delta"
                   then Js.get delta "text"
                   else JUndefined) with
            | JStr t => t
            | _ =>
                let content :=
                  Js.get
                    (Js.get (Js.first (Js.get eventPayload "choices")) "delta")
                    "content" in
                match content with
                | JStr c => c
                | JArr parts _ => join "" (map chatPartText parts)
                | _ => ""
                end
            end
        end
    end.

(** The text of one entry of an [output_text] array. *)
Definition outputTextPart (part : JsVal) : string :=
  match part with
  | JStr p => p
  | JArr _ _ | JObj _ =>
      match Js.get part "text" with
      | JStr t => t
      | _ => ""
      end
  | _ => ""
  end.

(** The text of one content part of an [output] item. *)
Definition outputContentPart (part : JsVal) : string :=
  match part with
  | JArr _ _ | JObj _ =>
      match Js.get part "text" with
      | JStr t => t
      | text =>
          if Js.truthy text
          then match Js.get text "value" with
               | JStr v => v
               | _ => ""
               end
          else ""
      end
  | _ => ""
  end.

Definition itemContent (item : JsVal) : list JsVal :=
  match Js.get item "content" with
  | JArr parts _ => parts
  | _ => []
  end.

Definition _extractCompletedTextFromStreamEvent (eventPayload : JsVal)
  : string :=
  if negb (Js.isObjectLike eventPayload) then ""
  else
    let response := Js.get eventPayload "response" in
    if negb (Js.isObjectLike response) then ""
    else
      match Js.get response "output_text" with
      | JStr t => trim t
      | JArr parts _ => trim (join "" (map outputTextPart parts))
      | _ =>
          let output :=
            match Js.get response "output" with
            | JArr items _ => items
            | _ => []
            end in
          trim (join "" (map outputContentPart (flat_map itemContent output)))
      end.

(** [a || fallback] *)
Definition orElse (a : JsVal) (fallback : string) : JsVal :=
  if Js.truthy a then a else JStr fallback.

(** The result is falsy (the empty string) when the event is no error. *)
Definition _extractErrorFromStreamEvent (eventPayload : JsVal) : JsVal :=
  if negb (Js.isObjectLike eventPayload) then JStr ""
  else
    let type := Js.get eventPayload "type" in
    if Js.isStr type "error"
    then orElse (Js.get (Js.get eventPayload "error") "message")
                "Unknown streaming error"
    else if Js.isStr type "response.failed"
    then orElse (Js.get (Js.get (Js.get eventPayload "response") "error")
                        "message")
                "Response failed"
    else JStr "".

(** The locals of [_processStream] next to the orchestrator. *)
Record Locals : Type := {
  world : World;
  fullResponse : string;
  sseBuffer : string;
  completedResponseText : string
}.

Definition start (w : World) : Locals :=
  {| world := w; fullResponse := ""; sseBuffer := "";
     completedResponseText := "" |}.

(** A step of the orchestrator inside [_processStream]. *)
Definition lift {A : Type} (m : M World A) : M Locals A :=
  fun l =>
    match m (world l) with
    | (r, w) =>
        (r, {| world := w; fullResponse := fullResponse l;
               sseBuffer := sseBuffer l;
               completedResponseText := completedResponseText l |})
    end.

Definition setFullResponse (text : string) : M Locals unit :=
  modify (fun l =>
    {| world := world l; fullResponse := text; sseBuffer := sseBuffer l;
       completedResponseText := completedResponseText l |}).

Definition setSseBuffer (text : string) : M Locals unit :=
  modify (fun l =>
    {| world := world l; fullResponse := fullResponse l; sseBuffer := text;
       completedResponseText := completedResponseText l |}).

Definition setCompleted (text : string) : M Locals unit :=
  modify (fun l =>
    {| world := world l; fullResponse := fullResponse l;
       sseBuffer := sseBuffer l; completedResponseText := text |}).

Section Decoder.

(** Host conversions: [JSON.parse] ([None] when it throws) and the string
    conversion [new Error(v)] applies to its argument. *)
Variable JSON_parse : string -> option JsVal.
Variable ToString : JsVal -> string.

Variable env : Env.

(** The body of [for (const line of lines)]. *)
Definition processLine (line : string) : M Locals unit :=
  let trimmedLine := trim line in
  if negb (startsWith trimmedLine "data:") then ret tt
  else
    let data := trim (slice_from 5 trimmedLine) in
    if String.eqb data "[DONE]" then ret tt
    else
      match JSON_parse data with
      | None => ret tt
      | Some json =>
          let streamError := _extractErrorFromStreamEvent json in
          if Js.truthy streamError
          then throw {| message := Some (ToString streamError) |}
          else
            let token := _extractTokenFromStreamEvent json in
            when (nonEmpty token)
              (full <- gets fullResponse ;;
               setFullResponse (full ++ token) ;;
               lift (Orch.setState (Orch.withResponse (full ++ token))) ;;
               lift (Orch._broadcastState env)) ;;
            completed <- gets completedResponseText ;;
            when (negb (nonEmpty completed))
              (setCompleted (_extractCompletedTextFromStreamEvent json))
      end.

(** One turn of [while (true)] on a chunk that was read. *)
Definition processChunk (chunk : string) : M Locals unit :=
  buffer <- gets sseBuffer ;;
  let lines := splitLF (buffer ++ chunk) in
  setSseBuffer (last lines "") ;;
  forEach processLine (removelast lines).

Fixpoint readLoop (reader : Reader) : M Locals unit :=
  match reader with
  | [] => ret tt
  | ReadFails e :: _ => throw e
  | Chunk chunk :: rest => processChunk chunk ;; readLoop rest
  end.

Definition onStreamError (streamError : Error) : M Locals unit :=
  if abortedMeanwhile env then lift (Orch.emit (Log LogCancelled))
  else
    lift (Orch.emit (Log (LogStreamError streamError))) ;;
    when (windowOpen env)
      (lift (Orch.emit (StreamErrorEvent (message streamError)))).

Definition finalize (sessionId assistantModel : JsVal) : M Locals unit :=
  full <- gets fullResponse ;;
  completed <- gets completedResponseText ;;
  when (negb (nonEmpty full) && nonEmpty completed) (setFullResponse completed) ;;
  lift (Orch.setState (Orch.withStreaming false)) ;;
  full <- gets fullResponse ;;
  lift (Orch.setState (Orch.withResponse full)) ;;
  lift (Orch._broadcastState env) ;;
  when (nonEmpty full)
    (tryCatch
       (lift (Orch.addAiMessage env
                {| sessionId := sessionId; role := "assistant";
                   content := full; model := assistantModel |}) ;;
        lift (Orch.emit (Log LogSaved)))
       (fun dbError => lift (Orch.emit (Log (LogSaveFailed dbError))))).

(** The [try] block with its [catch]. *)
Definition streamBody (reader : Reader) : M Locals unit :=
  tryCatch
    (lift (Orch.setState (Orch.withFlags false true)) ;;
     lift (Orch._broadcastState env) ;;
     readLoop reader)
    onStreamError.

Definition processStreamLocals (reader : Reader)
  (sessionId assistantModel : JsVal) : M Locals unit :=
  tryFinally
    (streamBody reader)
    (finalize sessionId (Adapter.orDefault assistantModel (JStr "unknown"))).

(** The locals when the [finally] block is entered, and the text it
    settles on: the accumulated tokens, or else the completed snapshot. *)
Definition accumulated (reader : Reader) (w : World) : Locals :=
  snd (streamBody reader (start w)).

Definition finalText (reader : Reader) (w : World) : string :=
  let l := accumulated reader w in
  if nonEmpty (fullResponse l) then fullResponse l
  else completedResponseText l.

(** [_processStream(reader, askWin, sessionId, signal, assistantModel)]:
    [askWin] and [signal] are read through [env]. *)
Definition _processStream (reader : Reader) (sessionId assistantModel : JsVal)
  : M World unit :=
  fun w =>
    match processStreamLocals reader sessionId assistantModel (start w) with
    | (r, l) => (r, world l)
    end.

End Decoder.

End Stream.

(** ** The ask orchestrator: [sendMessage] *)

Inductive SendResult : Type :=
| Sent
| NotSent (error : option string).

Module Send.
Import Eff.
Open Scope eff_scope.

Definition textPart (userRequest : string) : JsVal :=
  JObj [("type", JStr "text"); ("text", JStr ("User Request: " ++ userRequest))].

Definition imagePart (screenshotBase64 : string) : JsVal :=
  JObj [("type", JStr "image_url");
        ("image_url",
         JObj [("url", JStr ("data:image/jpeg;base64," ++ screenshotBase64))])].

Definition systemMessage (systemPrompt : string) : JsVal :=
  JObj [("role", JStr "system"); ("content", JStr systemPrompt)].

(** [messages], after the screenshot was pushed when there is one. *)
Definition buildMessages (systemPrompt userRequest : string)
  (screenshotBase64 : option string) : JsVal :=
  JArr [systemMessage systemPrompt;
        JObj [("role", JStr "user");
              ("content",
               JArr (textPart userRequest ::
                     match screenshotBase64 with
                     | Some b => if nonEmpty b then [imagePart b] else []
                     | None => []
                     end) [])]] [].

Definition textOnlyMessages (systemPrompt userRequest : string) : JsVal :=
  JArr [systemMessage systemPrompt;
        JObj [("role", JStr "user");
              ("content", JStr ("User Request: " ++ userRequest))]] [].

(** Whether some message of the list carries an image part. *)
Definition isImagePart (part : JsVal) : bool :=
  Js.isStr (Js.get part "type") "image_url"
  || Js.isStr (Js.get part "type") "input_image".

Definition carriesImage (messages : JsVal) : bool :=
  match messages with
  | JArr l _ =>
      existsb (fun m =>
                 match Js.get m "content" with
                 | JArr parts _ => existsb isImagePart parts
                 | _ => false
                 end) l
  | _ => false
  end.

Definition attached (screenshotBase64 : option string) : bool :=
  match screenshotBase64 with
  | Some b => nonEmpty b
  | None => false
  end.

Section SendMessage.

Variable JSON_parse : string -> option JsVal.
Variable ToString : JsVal -> string.
Variable env : Env.

(** The options handed to [createStreamingLLM]. *)
Definition llmOptions (provider model apiKey : JsVal) : Adapter.LLMOptions :=
  let glass := Js.isStr provider "openai-glass" in
  {| Adapter.apiKey := apiKey;
     Adapter.model := model;
     Adapter.temperature := JNum (Fin (7 # 10));
     Adapter.maxTokens :=
       JNum (Ask.effectiveMaxTokens model (reasoningEffortSetting env)
               (configuredMaxTokens env));
     Adapter.usePortkey := JBool glass;
     Adapter.portkeyVirtualKey := if glass then apiKey else JUndefined;
     Adapter.reasoningEffort := reasoningEffortSetting env |}.

(** [await streamingLLM.streamChat(messages)]: the call is recorded and
    answered by the network; the response is its body reader. *)
Definition streamChat (options : Adapter.LLMOptions) (messages : JsVal)
  : M World Reader :=
  fun w =>
    let w' :=
      {| state := state w; abortController := abortController w;
         created := created w; calls := S (calls w);
         trace := (trace w ++ [StreamChat options messages])%list |} in
    (network env (calls w) messages, w').

(** The part of an attempt after the response arrived. *)
Definition deliver (reader : Reader) (sessionId model : JsVal)
  : M World SendResult :=
  if negb (windowOpen env)
  then Orch.emit (Log LogWindowMissing) ;;
       Orch.emit ReaderCancel ;;
       ret (NotSent (Some "Ask window is not available."))
  else Stream._processStream JSON_parse ToString env reader sessionId model ;;
       ret Sent.

Definition supersede : M World unit :=
  fun w =>
    let aborts :=
      match abortController w with
      | Some c => [Abort c "New request received."]
      | None => []
      end in
    (Ok tt,
     {| state := state w; abortController := Some (created w);
        created := S (created w); calls := calls w;
        trace := (trace w ++ aborts)%list |}).

Definition beginRequest (effectivePrompt : string) (st : Ask.State)
  : Ask.State :=
  Orch.withInput false
    (Orch.withResponse ""
       (Orch.withQuestion (Ask.orText effectivePrompt "[Screen context]")
          (Orch.withFlags true false st))).

Definition endWithError (st : Ask.State) : Ask.State :=
  Orch.withInput true (Orch.withFlags false false st).

Definition onSendError (error : Error) : M World SendResult :=
  Orch.emit (Log (LogSendError error)) ;;
  Orch.setState endWithError ;;
  Orch._broadcastState env ;;
  when (windowOpen env)
    (Orch.emit
       (StreamErrorEvent
          (Some (match message error with
                 | Some m => Ask.orText m "Unknown error occurred"
                 | None => "Unknown error occurred"
                 end)))) ;;
  ret (NotSent (message error)).

(** The retry of the [catch] block: the same request without the image. *)
Definition retry (options : Adapter.LLMOptions) (sessionId model : JsVal)
  (systemPrompt userRequest : string) : M World SendResult :=
  Orch.emit (Log LogRetryTextOnly) ;;
  fallbackReader <-
    streamChat options (textOnlyMessages systemPrompt userRequest) ;;
  deliver fallbackReader sessionId model.

(** The inner [try]/[catch] of [sendMessage]: the request, and the
    text-only retry. *)
Definition attempts (options : Adapter.LLMOptions) (sessionId model : JsVal)
  (systemPrompt userRequest : string) : M World SendResult :=
  tryCatch
    (reader <-
       streamChat options
         (buildMessages systemPrompt userRequest (screenshot env)) ;;
     deliver reader sessionId model)
    (fun multimodalError =>
       if attached (screenshot env)
          && Ask._isMultimodalError (message multimodalError)
       then retry options sessionId model systemPrompt userRequest
       else throw multimodalError).

(** Whether the answer [first] of the network to the first request leads
    to the text-only retry. *)
Definition retried (first : Result Reader) : bool :=
  match first with
  | Throw e => attached (screenshot env) && Ask._isMultimodalError (message e)
  | Ok _ => false
  end.

(** [sendMessage] up to its [try]: the effective prompt is resolved, the
    state announces the request and the previous controller is aborted. *)
Definition announce (userPrompt : JsVal) : M World string :=
  st <- gets state ;;
  let effectivePrompt := Ask._resolveEffectivePrompt st (now env) userPrompt in
  Orch.emit (VisibilityRequest true) ;;
  Orch.setState (beginRequest effectivePrompt) ;;
  Orch._broadcastState env ;;
  supersede ;;
  ret effectivePrompt.

(** The body of the outer [try]. *)
Definition request (effectivePrompt : string)
  (conversationHistoryRaw : option (list string)) : M World SendResult :=
  let userRequest := Ask.userRequest effectivePrompt in
  Orch.emit (Log LogProcessing) ;;
  sessionId <- (fun w => (activeSession env, w)) ;;
  when (nonEmpty effectivePrompt)
    (Orch.addAiMessage env
       {| sessionId := sessionId; role := "user";
          content := effectivePrompt; model := JUndefined |} ;;
     Orch.emit (Log LogSavedPrompt)) ;;
  match modelInfo env with
  | None => throw {| message := Some "AI model or API key not configured." |}
  | Some (provider, model, apiKey) =>
      if negb (Js.truthy apiKey)
      then throw {| message := Some "AI model or API key not configured." |}
      else
        Orch.emit (Log LogUsingModel) ;;
        let conversationHistory :=
          Ask._formatConversationForPrompt conversationHistoryRaw in
        let systemPrompt :=
          systemPromptFor env (selectedPresetPrompt env) conversationHistory in
        attempts (llmOptions provider model apiKey) sessionId model
                 systemPrompt userRequest
  end.

Definition sendMessage (userPrompt : JsVal)
  (conversationHistoryRaw : option (list string)) : M World SendResult :=
  effectivePrompt <- announce userPrompt ;;
  tryCatch (request effectivePrompt conversationHistoryRaw) onSendError.

End SendMessage.

End Send.

(** ** The ask orchestrator: calls in flight

    Calls of [sendMessage] overlap: a call runs until it awaits, and another
    call may run before it resumes.  The steps below are the stretches of
    code between two suspension points, on the store of the objects the
    calls share: the abort controllers with the listeners registered on
    their signals, the stream readers, and [this.abortController].  A stream
    is reduced to the tokens its chunks decode to, one per read. *)

Module Flight.

Inductive Phase : Type :=
| Preparing
| Streaming (reader : nat)
| Finished.

Record Sys : Type := {
  aborted : nat -> bool;
  listeners : nat -> list nat;
  controllers : nat;
  slot : option nat;
  cancelled : nat -> bool;
  pending : nat -> list string;
  readers : nat;
  signalOf : nat -> nat;
  phaseOf : nat -> Phase;
  launched : nat;
  tokens : list (nat * string)
}.

Definition initial : Sys :=
  {| aborted := fun _ => false; listeners := fun _ => []; controllers := 0;
     slot := None;
     cancelled := fun _ => false; pending := fun _ => []; readers := 0;
     signalOf := fun _ => 0; phaseOf := fun _ => Finished; launched := 0;
     tokens := [] |}.

Definition update {A : Type} (f : nat -> A) (i : nat) (a : A) : nat -> A :=
  fun j => if Nat.eqb j i then a else f j.

Definition member (r : nat) (l : list nat) : bool := existsb (Nat.eqb r) l.

(** [controller.abort(reason)]: the first abort of a controller runs the
    listeners registered so far, each of which cancels its reader; a later
    abort does nothing. *)
Definition abort (c : nat) (s : Sys) : Sys :=
  if aborted s c then s
  else
    {| aborted := update (aborted s) c true;
       listeners := listeners s; controllers := controllers s;
       slot := slot s;
       cancelled := fun r => cancelled s r || member r (listeners s c);
       pending := pending s; readers := readers s;
       signalOf := signalOf s; phaseOf := phaseOf s; launched := launched s;
       tokens := tokens s |}.

(** [if (this.abortController) this.abortController.abort(..)] *)
Definition abortCurrent (s : Sys) : Sys :=
  match slot s with
  | Some c => abort c s
  | None => s
  end.

(** [sendMessage] up to its first [await]: the previous controller is
    aborted, a new one takes its place, and the call waits with the signal
    of the new one. *)
Definition callSend (s : Sys) : Sys :=
  let s1 := abortCurrent s in
  let c := controllers s1 in
  {| aborted := update (aborted s1) c false;
     listeners := update (listeners s1) c [];
     controllers := S c;
     slot := Some c;
     cancelled := cancelled s1; pending := pending s1; readers := readers s1;
     signalOf := update (signalOf s1) (launched s1) c;
     phaseOf := update (phaseOf s1) (launched s1) Preparing;
     launched := S (launched s1);
     tokens := tokens s1 |}.

(** [closeAskWindow]: the controller is aborted and forgotten. *)
Definition callClose (s : Sys) : Sys :=
  let s1 := abortCurrent s in
  {| aborted := aborted s1; listeners := listeners s1;
     controllers := controllers s1;
     slot := None;
     cancelled := cancelled s1; pending := pending s1; readers := readers s1;
     signalOf := signalOf s1; phaseOf := phaseOf s1; launched := launched s1;
     tokens := tokens s1 |}.

(** The call [t] resumes with the response of [streamChat]: it takes the
    reader of the body, registers the listener that cancels this reader on
    its own signal, and enters [_processStream], where it waits for the
    first read.  A listener registered on a signal that is already aborted
    is never run. *)
Definition respond (t : nat) (stream : list string) (s : Sys) : Sys :=
  match phaseOf s t with
  | Preparing =>
      let r := readers s in
      let c := signalOf s t in
      {| aborted := aborted s;
         listeners := update (listeners s) c (listeners s c ++ [r])%list;
         controllers := controllers s;
         slot := slot s;
         cancelled := update (cancelled s) r false;
         pending := update (pending s) r stream;
         readers := S r;
         signalOf := signalOf s;
         phaseOf := update (phaseOf s) t (Streaming r);
         launched := launched s;
         tokens := tokens s |}
  | _ => s
  end.

(** The pending [reader.read()] of the call [t] resolves: with [done] when
    the reader was cancelled or the stream is over, and the call goes on to
    its [finally] block; with a chunk otherwise, whose token is appended to
    the response and broadcast. *)
Definition read (t : nat) (s : Sys) : Sys :=
  match phaseOf s t with
  | Streaming r =>
      match (if cancelled s r then [] else pending s r) with
      | [] =>
          {| aborted := aborted s; listeners := listeners s;
             controllers := controllers s; slot := slot s;
             cancelled := cancelled s; pending := pending s;
             readers := readers s; signalOf := signalOf s;
             phaseOf := update (phaseOf s) t Finished;
             launched := launched s; tokens := tokens s |}
      | token :: rest =>
          {| aborted := aborted s; listeners := listeners s;
             controllers := controllers s; slot := slot s;
             cancelled := cancelled s;
             pending := update (pending s) r rest;
             readers := readers s; signalOf := signalOf s;
             phaseOf := phaseOf s;
             launched := launched s;
             tokens := (tokens s ++ [(t, token)])%list |}
      end
  | _ => s
  end.

Inductive Step : Type :=
| CallSend
| CallClose
| Respond (t : nat) (stream : list string)
| Read (t : nat).

Definition step (s : Sys) (a : Step) : Sys :=
  match a with
  | CallSend => callSend s
  | CallClose => callClose s
  | Respond t stream => respond t stream s
  | Read t => read t s
  end.

Definition run (s : Sys) (steps : list Step) : Sys := fold_left step steps s.

(** The token broadcasts of the call [t]. *)
Definition tokensOf (t : nat) (s : Sys) : list string :=
  map snd (filter (fun e => Nat.eqb (fst e) t) (tokens s)).

(** The controllers that are not aborted. *)
Definition live (s : Sys) : list nat :=
  filter (fun c => negb (aborted s c)) (seq 0 (controllers s)).

(** What holds of every state the steps can reach. *)
Record Inv (s : Sys) : Prop := {
  inv_slot : forall c, slot s = Some c -> c < controllers s /\ aborted s c = false;
  inv_rest : forall c, c < controllers s -> slot s <> Some c -> aborted s c = true;
  inv_signal : forall t, t < launched s -> signalOf s t < controllers s;
  inv_task : forall t, launched s <= t -> phaseOf s t = Finished;
  inv_reader : forall t r, phaseOf s t = Streaming r -> r < readers s;
  inv_listener :
    forall t r, phaseOf s t = Streaming r ->
                aborted s (signalOf s t) = false ->
                member r (listeners s (signalOf s t)) = true
}.

(** A call whose reads can bring no token any more. *)
Definition Silenced (t : nat) (s : Sys) : Prop :=
  t < launched s
  /\ match phaseOf s t with
     | Preparing => False
     | Streaming r => r < readers s /\ cancelled s r = true
     | Finished => True
     end.

(** The second call supersedes the first one before its response arrived. *)
Definition earlySupersede : list Step :=
  [CallSend; CallSend; Respond 0 ["Hel"; "lo"]; Read 0; Read 0].

(** The second call supersedes the first one while it streams. *)
Definition lateSupersede : list Step :=
  [CallSend; Respond 0 ["Hel"; "lo"]; Read 0; CallSend; Read 0; Read 0].

End Flight.

(** ** Reading the record of effects *)

Module Observe.

(** The messages handed to the repository, in order. *)
Fixpoint persists (t : list Event) : list AiMessage :=
  match t with
  | [] => []
  | Persist m :: r => m :: persists r
  | _ :: r => persists r
  end.

(** The message lists sent to the model, in order. *)
Fixpoint chats (t : list Event) : list JsVal :=
  match t with
  | [] => []
  | StreamChat _ messages :: r => messages :: chats r
  | _ :: r => chats r
  end.

(** The states broadcast to the window, in order. *)
Fixpoint updates (t : list Event) : list Ask.State :=
  match t with
  | [] => []
  | StateUpdate st :: r => st :: updates r
  | _ :: r => updates r
  end.

Definition assistantMessage (sessionId assistantModel : JsVal) (text : string)
  : AiMessage :=
  {| sessionId := sessionId; role := "assistant"; content := text;
     model := Adapter.orDefault assistantModel (JStr "unknown") |}.

(** A step of [_processStream] that leaves an observation of the world
    as it was. *)
Definition Keeps {X A : Type} (obs : World -> X) (m : Eff.M Stream.Locals A)
  : Prop :=
  forall l, obs (Stream.world (snd (m l))) = obs (Stream.world l).

(** Events that are neither a repository write nor a request to the model. *)
Definition passive (e : Event) : bool :=
  match e with
  | Persist _ | StreamChat _ _ => false
  | _ => true
  end.

Definition persisted (w : World) : list AiMessage := persists (trace w).

(** The requests made to the model: how many, and with which messages. *)
Definition requested (w : World) : nat * list JsVal :=
  (calls w, chats (trace w)).

(** A step of [_processStream] that returns normally and leaves the
    decoded text alone. *)
Definition Silent (m : Eff.M Stream.Locals unit) : Prop :=
  forall l,
    fst (m l) = Ok tt
    /\ Stream.fullResponse (snd (m l)) = Stream.fullResponse l
    /\ Stream.completedResponseText (snd (m l))
       = Stream.completedResponseText l.

End Observe.

(** ** Concrete inputs used to exercise the statements *)

Module Examples.

Definition systemMessage : JsVal :=
  JObj [("role", JStr "system"); ("content", JStr "Be brief.")].

Definition directOptions : Adapter.LLMOptions :=
  {| Adapter.apiKey := JStr "sk-test"; Adapter.model := JStr "gpt-4.1";
     Adapter.temperature := JNum (Fin (1 # 2));
     Adapter.maxTokens := JUndefined; Adapter.usePortkey := JUndefined;
     Adapter.portkeyVirtualKey := JUndefined;
     Adapter.reasoningEffort := JStr "high" |}.

Definition relayOptions : Adapter.LLMOptions :=
  {| Adapter.apiKey := JStr "vk-test"; Adapter.model := JStr "gpt-5-mini";
     Adapter.temperature := JUndefined;
     Adapter.maxTokens := JNum (JsNum.ofZ 8192);
     Adapter.usePortkey := JBool true;
     Adapter.portkeyVirtualKey := JStr "vk-test";
     Adapter.reasoningEffort := JStr "xhigh" |}.

(** A session that holds a voice draft taken at time 1000. *)
Definition draftState : Ask.State :=
  Ask.setVoiceDraft Ask.initialState 1000 "Me" (JStr " what is on screen? ").

Definition history (n : nat) : list string :=
  map ofNat (seq 1 n).

(** The double quote, and the stream events of the specification's
    scenario spelled as they travel. *)
Definition dq : string := String (ascii_of_nat 34) EmptyString.

Definition deltaJson (token : string) : string :=
  "{" ++ dq ++ "delta" ++ dq ++ ":" ++ dq ++ token ++ dq ++ "}".

Definition errorJson : string :=
  "{" ++ dq ++ "type" ++ dq ++ ":" ++ dq ++ "error" ++ dq ++ "}".

Definition completedJson : string :=
  "{" ++ dq ++ "response" ++ dq ++ ":{" ++ dq ++ "output_text" ++ dq ++ ":"
      ++ dq ++ " Hello " ++ dq ++ "}}".

(** A stand-in for [JSON.parse] that agrees with it on the texts above and
    on a few short ones, and throws on every other text. *)
Definition parse (text : string) : option JsVal :=
  if String.eqb text (deltaJson "Hel") then Some (JObj [("delta", JStr "Hel")])
  else if String.eqb text (deltaJson "lo") then Some (JObj [("delta", JStr "lo")])
  else if String.eqb text errorJson then Some (JObj [("type", JStr "error")])
  else if String.eqb text completedJson
       then Some (JObj [("response", JObj [("output_text", JStr " Hello ")])])
  else if String.eqb text "{}" then Some (JObj [])
  else if String.eqb text "[]" then Some (JArr [] [])
  else if String.eqb text "7" then Some (JNum (JsNum.ofZ 7))
  else if String.eqb text "null" then Some JNull
  else None.

(** A stand-in for the string conversion of [new Error(v)]. *)
Definition toStr (v : JsVal) : string :=
  match v with
  | JStr t => t
  | _ => "[object]"
  end.

Definition frame (payload : string) : string :=
  "data: " ++ payload ++ LF ++ LF.

Definition helloReader : Reader :=
  [Chunk (frame (deltaJson "Hel")); Chunk (frame (deltaJson "lo"));
   Chunk (frame "[DONE]")].

Definition brokenReader : Reader :=
  [Chunk (frame (deltaJson "Hel"));
   ReadFails {| message := Some "socket hang up" |};
   Chunk (frame (deltaJson "lo"))].

Definition snapshotReader : Reader := [Chunk (frame completedJson)].

Definition failingStore (e : Error) (m : AiMessage) : option Error := Some e.

Definition workingStore (m : AiMessage) : option Error := None.

Definition env (store : AiMessage -> option Error) (shot : option string)
  (net : nat -> JsVal -> Result Reader) : Env :=
  {| now := 5000; windowOpen := true; abortedMeanwhile := false;
     storeFails := store;
     activeSession := Ok (JStr "session-1");
     modelInfo := Some (JStr "openai", JStr "gpt-5-mini", JStr "sk-test");
     screenshot := shot;
     selectedPresetPrompt := "";
     reasoningEffortSetting := JStr "medium";
     configuredMaxTokens := JsNum.ofZ 4096;
     systemPromptFor := fun preset history => "You are helpful. " ++ history;
     network := net |}.

Definition offline : nat -> JsVal -> Result Reader :=
  fun _ _ => Throw {| message := Some "fetch failed" |}.

Definition diskFull : Error := {| message := Some "database is locked" |}.

(** No screenshot, no network, and a repository that rejects every write. *)
Definition brokenEnv : Env := env (failingStore diskFull) None offline.

(** A provider that rejects the first request and streams on the second. *)
Definition rejectImage : nat -> JsVal -> Result Reader :=
  fun n _ =>
    match n with
    | 0 => Throw {| message := Some "400 Invalid image_url" |}
    | _ => Ok helloReader
    end.

Definition textEnv : Env := env workingStore None offline.

Definition imageEnv : Env := env workingStore (Some "AAAA") rejectImage.

Definition noVision : nat -> JsVal -> Result Reader :=
  fun _ _ => Throw {| message := Some "Model does not accept Image input" |}.

Definition deadEnv : Env := env workingStore (Some "AAAA") noVision.

Definition someOptions : Adapter.LLMOptions :=
  Send.llmOptions textEnv (JStr "openai") (JStr "gpt-5-mini") (JStr "sk-test").

Definition world0 : World :=
  {| state := Ask.initialState; abortController := None; created := 0;
     calls := 0; trace := [] |}.

End Examples.

(** ** The provider payload adapter: decoding responses *)

Module Decode.

(** [extractTextContent(content)]: the parts of an array are read like the
    parts of a streamed chat-completions content. *)
Definition extractTextContent (content : JsVal) : string :=
  match content with
  | JStr text => trim text
  | JArr parts _ => trim (join "" (map Stream.chatPartText parts))
  | _ => ""
  end.

(** [responseLike?.choices?.[0]?.message?.content] *)
Definition extractAssistantContent (responseLike : JsVal) : string :=
  extractTextContent
    (Js.get (Js.get (Js.first (Js.get responseLike "choices")) "message")
            "content").

Definition extractAssistantContentFromResponses (responseLike : JsVal)
  : string :=
  if negb (Js.isObjectLike responseLike) then ""
  else
    match Js.get responseLike "output_text" with
    | JStr text => trim text
    | JArr parts _ => trim (join "" (map Stream.outputTextPart parts))
    | _ =>
        let output :=
          match Js.get responseLike "output" with
          | JArr items _ => items
          | _ => []
          end in
        let text :=
          trim (join ""
                  (map Stream.outputContentPart
                       (flat_map Stream.itemContent output))) in
        if nonEmpty text then text else extractAssistantContent responseLike
    end.

Section ApiError.

Variable JSON_parse : string -> option JsVal.
Variable ToString : JsVal -> string.




End ApiError.

End Decode.

(** ** The blocking client [createLLM] *)

Module Client.

(** What [callApi] hands to [fetch]. *)
Definition callApiRequest (o : Adapter.LLMOptions) (messages : JsVal)
  : Adapter.Request :=
  let model := Adapter.orDefault (Adapter.model o) (JStr "gpt-4.1") in
  let temperature :=
    Adapter.orDefault (Adapter.temperature o) (JNum (Fin (7 # 10))) in
  let maxTokens :=
    Adapter.orDefault (Adapter.maxTokens o) (JNum (JsNum.ofZ 2048)) in
  let reasoningPayload :=
    Adapter.buildReasoningPayload model (Adapter.reasoningEffort o) in
  let temperaturePayload :=
    Adapter.buildTemperaturePayload model temperature in
  if negb (Js.truthy (Adapter.usePortkey o)) then
    let responsesInput :=
      Adapter.convertMessagesToResponsesInput model messages in
    let tokenPayload := Adapter.buildResponsesTokenPayload maxTokens in
    {| Adapter.url := "https://api.openai.com/v1/responses";
       Adapter.body :=
         Js.literal
           ([("model", model); ("input", JArr responsesInput [])]
              ++ temperaturePayload ++ tokenPayload ++ reasoningPayload)%list |}
  else
    let normalizedMessages :=
      Adapter.normalizeMessagesForModel model messages in
    let tokenPayload :=
      Adapter.buildTokenPayload model maxTokens
        {| Adapter.forceLegacyMaxTokens := true |} in
    {| Adapter.url := "https://api.portkey.ai/v1/chat/completions";
       Adapter.body :=
         Js.literal
           ([("model", model); ("messages", JArr normalizedMessages [])]
              ++ temperaturePayload ++ tokenPayload)%list |}.

(** The [content] of the result of [callApi] on a successful response. *)
Definition callApiContent (o : Adapter.LLMOptions) (result : JsVal) : string :=
  if negb (Js.truthy (Adapter.usePortkey o))
  then Decode.extractAssistantContentFromResponses result
  else Decode.extractAssistantContent result.

End Client.

(** ** Lines of an event stream *)

Module Lines.

(** The complete lines of a text and what follows the last line feed. *)
Fixpoint cut (text : string) : list string * string :=
  match text with
  | EmptyString => ([], EmptyString)
  | String c r =>
      let (lines, rest) := cut r in
      if (code c =? 10)%nat then (EmptyString :: lines, rest)
      else match lines with
           | [] => ([], String c rest)
           | h :: t => (String c h :: t, rest)
           end
  end.

(** Two states of [_processStream] that differ at most in the buffer of
    the incomplete line. *)
Definition alike (a b : Stream.Locals) : Prop :=
  Stream.world a = Stream.world b
  /\ Stream.fullResponse a = Stream.fullResponse b
  /\ Stream.completedResponseText a = Stream.completedResponseText b.

Definition withBuffer (buffer : string) (l : Stream.Locals) : Stream.Locals :=
  {| Stream.world := Stream.world l;
     Stream.fullResponse := Stream.fullResponse l;
     Stream.sseBuffer := buffer;
     Stream.completedResponseText := Stream.completedResponseText l |}.

(** A step of [_processStream] that neither reads nor writes the buffer
    of the incomplete line. *)
Definition Blind {A : Type} (m : Eff.M Stream.Locals A) : Prop :=
  forall buffer l,
    m (withBuffer buffer l) = (fst (m l), withBuffer buffer (snd (m l))).

End Lines.

(** ** Shapes of the responses input *)

Module Shape.

(** A content part of the responses dialect: a text part with a string
    text, or an image part with a string URL. *)
Definition part (p : JsVal) : bool :=
  (Js.isStr (Js.get p "type") "input_text"
   && Adapter.isString (Js.get p "text"))
  || (Js.isStr (Js.get p "type") "input_image"
      && Adapter.isString (Js.get p "image_url")).

Definition role (r : JsVal) : bool :=
  Js.isStr r "assistant" || Js.isStr r "system" || Js.isStr r "developer"
  || Js.isStr r "user".

(** An input item: a role of the dialect and a non-empty list of parts. *)
Definition item (m : JsVal) : bool :=
  role (Js.get m "role")
  && match Js.get m "content" with
     | JArr (p :: parts) [] => forallb part (p :: parts)
     | _ => false
     end.

End Shape.

(** ** More concrete inputs *)

Module Examples2.

(** The signal was aborted while the call was streaming. *)
Definition cancelledEnv : Env :=
  {| now := 5000; windowOpen := true; abortedMeanwhile := true;
     storeFails := Examples.workingStore;
     activeSession := Ok (JStr "session-1");
     modelInfo := Some (JStr "openai", JStr "gpt-5-mini", JStr "sk-test");
     screenshot := None;
     selectedPresetPrompt := "";
     reasoningEffortSetting := JStr "medium";
     configuredMaxTokens := JsNum.ofZ 4096;
     systemPromptFor := fun preset history => "You are helpful. " ++ history;
     network := Examples.offline |}.

End Examples2.

(** ** Watching a stream *)

Module Watch.
Import Eff.
Open Scope eff_scope.

(** The error events sent to the window, in order. *)
Fixpoint errors (t : list Event) : list (option string) :=
  match t with
  | [] => []
  | StreamErrorEvent error :: r => error :: errors r
  | _ :: r => errors r
  end.

Section Decoder.

Variable JSON_parse : string -> option JsVal.
Variable ToString : JsVal -> string.
Variable env : Env.

(** The [try] block of [_processStream], without its [catch]. *)
Definition tryBlock (reader : Reader) : M Stream.Locals unit :=
  Stream.lift (Orch.setState (Orch.withFlags false true)) ;;
  Stream.lift (Orch._broadcastState env) ;;
  Stream.readLoop JSON_parse ToString env reader.

(** The error the [try] block ends with, if it throws. *)
Definition thrown (reader : Reader) (w : World) : option Error :=
  match fst (tryBlock reader (Stream.start w)) with
  | Throw e => Some e
  | Ok _ => None
  end.

End Decoder.

(** What [_processStream] has no business with. *)
Record Rest : Type := {
  visible : bool;
  question : string;
  inputShown : bool;
  draft : string * string * Z;
  controller : option nat;
  controllersMade : nat;
  requestsMade : nat;
  requestsSent : list JsVal;
}.

Definition rest (w : World) : Rest :=
  {| visible := Ask.isVisible (state w);
     question := Ask.currentQuestion (state w);
     inputShown := Ask.showTextInput (state w);
     draft := (Ask.voiceDraft (state w), Ask.voiceSpeaker (state w),
               Ask.voiceDraftTimestamp (state w));
     controller := abortController w;
     controllersMade := created w;
     requestsMade := calls w;
     requestsSent := Observe.chats (trace w) |}.

(** The error event owed to the window for an error of the read loop. *)
Definition owed (env : Env) (e : option Error) : list (option string) :=
  match e with
  | Some error =>
      if abortedMeanwhile env then []
      else if windowOpen env then [message error] else []
  | None => []
  end.

End Watch.

(** ** The ask orchestrator: closing and toggling the window *)

Module Surface.
Import Eff.
Open Scope eff_scope.

(** The state [closeAskWindow] installs: the defaults, with the voice draft
    kept. *)
Definition closedState (st : Ask.State) : Ask.State :=
  {| Ask.isVisible := false; Ask.isLoading := false; Ask.isStreaming := false;
     Ask.currentQuestion := ""; Ask.currentResponse := "";
     Ask.showTextInput := true;
     Ask.voiceDraft := Ask.orText (Ask.voiceDraft st) "";
     Ask.voiceSpeaker := Ask.orText (Ask.voiceSpeaker st) "";
     Ask.voiceDraftTimestamp :=
       if (Ask.voiceDraftTimestamp st =? 0)%Z then 0%Z
       else Ask.voiceDraftTimestamp st |}.

(** [if (this.abortController) { abort(..); this.abortController = null }] *)
Definition abortForClose : M World unit :=
  fun w =>
    let aborts :=
      match abortController w with
      | Some c => [Abort c "Window closed by user"]
      | None => []
      end in
    (Ok tt,
     {| state := state w; abortController := None;
        created := created w; calls := calls w;
        trace := (trace w ++ aborts)%list |}).

(** [closeAskWindow()]; the result is always [{ success: true }]. *)
Definition closeAskWindow (env : Env) : M World unit :=
  abortForClose ;;
  Orch.setState closedState ;;
  Orch._broadcastState env ;;
  Orch.emit (VisibilityRequest false).

Definition withVisible (visible : bool) (st : Ask.State) : Ask.State :=
  {| Ask.isVisible := visible; Ask.isLoading := Ask.isLoading st;
     Ask.isStreaming := Ask.isStreaming st;
     Ask.currentQuestion := Ask.currentQuestion st;
     Ask.currentResponse := Ask.currentResponse st;
     Ask.showTextInput := Ask.showTextInput st;
     Ask.voiceDraft := Ask.voiceDraft st;
     Ask.voiceSpeaker := Ask.voiceSpeaker st;
     Ask.voiceDraftTimestamp := Ask.voiceDraftTimestamp st |}.

Definition hasContent (st : Ask.State) : bool :=
  Ask.isLoading st || Ask.isStreaming st || nonEmpty (Ask.currentResponse st).

(** The ask window as [toggleAskButton] finds it: absent, or shown or
    hidden. *)
Definition shown (askWindow : option bool) : bool :=
  match askWindow with
  | Some visible => visible
  | None => false
  end.

Section Toggle.

Variable JSON_parse : string -> option JsVal.
Variable ToString : JsVal -> string.
Variable env : Env.

(** [toggleAskButton(inputScreenOnly)] *)
Definition toggleAskButton (askWindow : option bool) (inputScreenOnly : bool)
  : M World unit :=
  st <- gets state ;;
  if inputScreenOnly && (negb (shown askWindow) || Ask.showTextInput st)
  then Send.sendMessage JSON_parse ToString env (JStr "") (Some []) ;; ret tt
  else if shown askWindow && hasContent st
  then Orch.setState (Orch.withInput (negb (Ask.showTextInput st))) ;;
       Orch._broadcastState env
  else
    (if shown askWindow
     then Orch.emit (VisibilityRequest false) ;;
          Orch.setState (withVisible false)
     else Orch.emit (VisibilityRequest true) ;;
          Orch.setState (withVisible true)) ;;
    st' <- gets state ;;
    when (Ask.isVisible st')
      (Orch.setState (Orch.withInput true) ;; Orch._broadcastState env).

End Toggle.

End Surface.

Module Seen.

(** The controllers aborted, in order. *)
Fixpoint aborts (t : list Event) : list nat :=
  match t with
  | [] => []
  | Abort c _ :: r => c :: aborts r
  | _ :: r => aborts r
  end.

(** The conversation a toggle must not touch. *)
Definition conversation (st : Ask.State) : string * string * bool * bool :=
  (Ask.currentQuestion st, Ask.currentResponse st, Ask.isLoading st,
   Ask.isStreaming st).

End Seen.

Module Owner.
Import Flight.

(** The call whose controller is in [this.abortController]. *)
Definition current (t : nat) (s : Sys) : Prop := slot s = Some (signalOf s t).

(** Which reader a listener cancels: a reader is listed on the signal of the
    call that reads it and on no other, and the reader of a call whose
    signal is not aborted is not cancelled. *)
Record Owned (s : Sys) : Prop := {
  own_listed : forall c r, member r (listeners s c) = true -> r < readers s;
  own_signal :
    forall t r c, phaseOf s t = Streaming r ->
                  member r (listeners s c) = true -> signalOf s t = c;
  own_open :
    forall t r, phaseOf s t = Streaming r ->
                aborted s (signalOf s t) = false -> cancelled s r = false
}.

(** The first call streams and is not superseded. *)
Definition undisturbed : list Step :=
  [CallSend; Respond 0 ["Hel"; "lo"]; Read 0].

End Owner.

(** ** The settings service

    [settingsService.js] keeps the settings of each user in a store under
    the key [users.<uid>] ([users.default] when nobody is signed in).  The
    store is the list of the objects saved so far, by key (user ids contain
    no dot, so a key names one entry); reading or writing it may throw, as
    the host decides.  The preset repositories are the host's. *)

Module Prefs.
Import Eff.
Open Scope eff_scope.

Record Host : Type := {
  isMac : bool;
  currentUserId : option string;
  loggedIn : bool;
  readError : option Error;
  writeError : option Error;
  firebasePresets : option string -> Result JsVal;
  sqlitePresets : option string -> Result JsVal
}.

Record Disk : Type := {
  users : list (string * Props);
  currentSettings : option Props;
  pending : option Props
}.

Inductive Outcome : Type :=
| Success
| Failure (error : option string).

Definition DEFAULT_KEYBINDS_mac : Props :=
  Js.literal
    [("moveUp", JStr "Cmd+Alt+Up"); ("moveDown", JStr "Cmd+Alt+Down");
     ("moveLeft", JStr "Cmd+Alt+Left"); ("moveRight", JStr "Cmd+Alt+Right");
     ("toggleVisibility", JStr "Cmd+Alt+H");
     ("toggleClickThrough", JStr "Cmd+Alt+C");
     ("nextStep", JStr "Cmd+Alt+A"); ("toggleListen", JStr "Cmd+Alt+L");
     ("toggleSettings", JStr "Cmd+Alt+S");
     ("manualScreenshot", JStr "Cmd+Alt+X");
     ("previousResponse", JStr "Cmd+Alt+["); ("nextResponse", JStr "Cmd+Alt+]");
     ("scrollUp", JStr "Cmd+Alt+K"); ("scrollDown", JStr "Cmd+Alt+J")].

Definition DEFAULT_KEYBINDS_windows : Props :=
  Js.literal
    [("moveUp", JStr "Ctrl+Alt+Up"); ("moveDown", JStr "Ctrl+Alt+Down");
     ("moveLeft", JStr "Ctrl+Alt+Left"); ("moveRight", JStr "Ctrl+Alt+Right");
     ("toggleVisibility", JStr "Ctrl+Alt+H");
     ("toggleClickThrough", JStr "Ctrl+Alt+C");
     ("nextStep", JStr "Ctrl+Alt+A"); ("toggleListen", JStr "Ctrl+Alt+L");
     ("toggleSettings", JStr "Ctrl+Alt+S");
     ("manualScreenshot", JStr "Ctrl+Alt+X");
     ("previousResponse", JStr "Ctrl+Alt+[");
     ("nextResponse", JStr "Ctrl+Alt+]");
     ("scrollUp", JStr "Ctrl+Alt+K"); ("scrollDown", JStr "Ctrl+Alt+J")].

Definition getDefaultSettings (h : Host) : Props :=
  Js.literal
    [("profile", JStr "school"); ("selectedPresetId", JNull);
     ("language", JStr "en"); ("screenshotInterval", JStr "5000");
     ("imageQuality", JStr "0.8"); ("layoutMode", JStr "stacked");
     ("keybinds",
      JObj (if isMac h then DEFAULT_KEYBINDS_mac
            else DEFAULT_KEYBINDS_windows));
     ("throttleTokens", JNum (JsNum.ofZ 500));
     ("maxTokens", JNum (JsNum.ofZ 4096));
     ("throttlePercent", JNum (JsNum.ofZ 80));
     ("googleSearchEnabled", JBool false);
     ("backgroundTransparency", JNum (Fin (1 # 2)));
     ("fontSize", JNum (JsNum.ofZ 14));
     ("contentProtection", JBool true);
     ("reasoningEffort", JStr "medium")].

(** [uid ? `users.${uid}` : 'users.default'] *)
Definition userSettingsKey (h : Host) : string :=
  match currentUserId h with
  | Some uid => if nonEmpty uid then "users." ++ uid else "users.default"
  | None => "users.default"
  end.

Fixpoint stored (key : string) (l : list (string * Props)) : option Props :=
  match l with
  | [] => None
  | (k, v) :: rest => if String.eqb key k then Some v else stored key rest
  end.

Fixpoint put (key : string) (value : Props) (l : list (string * Props))
  : list (string * Props) :=
  match l with
  | [] => [(key, value)]
  | (k, v) :: rest =>
      if String.eqb key k then (k, value) :: rest
      else (k, v) :: put key value rest
  end.

(** [store.get(key, {})] *)
Definition store_get (h : Host) (key : string) : M Disk Props :=
  fun d =>
    match readError h with
    | Some e => (Throw e, d)
    | None =>
        (Ok (match stored key (users d) with Some v => v | None => [] end), d)
    end.

(** [store.set(key, value)] *)
Definition store_set (h : Host) (key : string) (value : Props)
  : M Disk unit :=
  fun d =>
    match writeError h with
    | Some e => (Throw e, d)
    | None =>
        (Ok tt,
         {| users := put key value (users d);
            currentSettings := currentSettings d; pending := pending d |})
    end.

Definition setCurrent (settings : Props) : M Disk unit :=
  modify (fun d =>
    {| users := users d; currentSettings := Some settings;
       pending := pending d |}).

(** [notifyRelevantWindows('settings-updated', data)]: the notification is
    debounced, the latest one replaces the one that waits. *)
Definition notifyRelevantWindows (data : Props) : M Disk unit :=
  modify (fun d =>
    {| users := users d; currentSettings := currentSettings d;
       pending := Some data |}).

Definition getSettings (h : Host) : M Disk Props :=
  tryCatch
    (let userSettingsKey := userSettingsKey h in
     let defaultSettings := getDefaultSettings h in
     savedSettings <- store_get h userSettingsKey ;;
     let merged := Js.spread defaultSettings savedSettings in
     setCurrent merged ;;
     ret merged)
    (fun _ => ret (getDefaultSettings h)).

Definition saveSettings (h : Host) (settings : Props) : M Disk Outcome :=
  tryCatch
    (let userSettingsKey := userSettingsKey h in
     currentSaved <- store_get h userSettingsKey ;;
     let newSettings := Js.spread currentSaved settings in
     store_set h userSettingsKey newSettings ;;
     setCurrent newSettings ;;
     notifyRelevantWindows newSettings ;;
     ret Success)
    (fun e => ret (Failure (message e))).

Definition getReasoningEffort (h : Host) : M Disk string :=
  tryCatch
    (settings <- getSettings h ;;
     ret (Settings.normalizeReasoningEffort
            (Js.lookup "reasoningEffort" settings)))
    (fun _ => ret "medium").

Definition setReasoningEffort (h : Host) (value : JsVal) : M Disk Outcome :=
  tryCatch
    (let reasoningEffort := Settings.normalizeReasoningEffort value in
     saveSettings h (Js.literal [("reasoningEffort", JStr reasoningEffort)]))
    (fun e => ret (Failure (message e))).

(** [v || null] *)
Definition orNull (v : JsVal) : JsVal := if Js.truthy v then v else JNull.

Definition getSelectedPresetId (h : Host) : M Disk JsVal :=
  tryCatch
    (settings <- getSettings h ;;
     ret (orNull (Js.lookup "selectedPresetId" settings)))
    (fun _ => ret JNull).

Definition setSelectedPresetId (h : Host) (presetId : JsVal)
  : M Disk Outcome :=
  tryCatch
    (saveSettings h (Js.literal [("selectedPresetId", orNull presetId)]))
    (fun e => ret (Failure (message e))).

(** [withFirebaseFallback(operationName, firebaseOp, sqliteOp)] *)
Definition withFirebaseFallback {A : Type} (h : Host)
  (firebaseOp sqliteOp : M Disk A) : M Disk A :=
  if loggedIn h then tryCatch firebaseOp (fun _ => sqliteOp) else sqliteOp.

Definition answer {A : Type} (r : Result A) : M Disk A := fun d => (r, d).

(** [settingsRepository.getPresets()] *)
Definition repositoryGetPresets (h : Host) : M Disk JsVal :=
  let uid := currentUserId h in
  withFirebaseFallback h (answer (firebasePresets h uid))
    (answer (sqlitePresets h uid)).

Definition getPresets (h : Host) : M Disk JsVal :=
  tryCatch (repositoryGetPresets h) (fun _ => ret (JArr [] [])).

(** [a === b] on values that come from different places: objects and
    arrays are never the same object. *)
Definition strictEq (a b : JsVal) : bool :=
  match a, b with
  | JUndefined, JUndefined | JNull, JNull => true
  | JBool x, JBool y => Bool.eqb x y
  | JNum (Fin x), JNum (Fin y) => Qeq_bool x y
  | JNum PosInf, JNum PosInf | JNum NegInf, JNum NegInf => true
  | JStr x, JStr y => String.eqb x y
  | _, _ => false
  end.

Definition typeError : Error :=
  {| message := Some "Cannot read properties of undefined" |}.

(** [presets.find((preset) => preset.id === selectedPresetId)] on the
    elements of an array; reading [id] of [null] or [undefined] throws. *)
Fixpoint findPreset (selectedPresetId : JsVal) (presets : list JsVal)
  : Result JsVal :=
  match presets with
  | [] => Ok JUndefined
  | preset :: rest =>
      match preset with
      | JUndefined | JNull => Throw typeError
      | _ =>
          if strictEq (Js.get preset "id") selectedPresetId then Ok preset
          else findPreset selectedPresetId rest
      end
  end.

(** [presets.find(..)]: only an array has [find]. *)
Definition find (selectedPresetId presets : JsVal) : Result JsVal :=
  match presets with
  | JArr l _ => findPreset selectedPresetId l
  | _ => Throw {| message := Some "presets.find is not a function" |}
  end.

(** [v || ''] *)
Definition orEmpty (v : JsVal) : JsVal := if Js.truthy v then v else JStr "".

Definition getSelectedPresetPrompt (h : Host) : M Disk JsVal :=
  tryCatch
    (selectedPresetId <- getSelectedPresetId h ;;
     if negb (Js.truthy selectedPresetId) then ret (JStr "")
     else
       presets <- getPresets h ;;
       selectedPreset <- answer (find selectedPresetId presets) ;;
       ret (orEmpty (Js.get selectedPreset "prompt")))
    (fun _ => ret (JStr "")).

(** The repository that answers: Firebase for a signed-in user unless it
    fails, SQLite otherwise. *)
Definition answering (h : Host) : Result JsVal :=
  if loggedIn h
  then match firebasePresets h (currentUserId h) with
       | Ok v => Ok v
       | Throw _ => sqlitePresets h (currentUserId h)
       end
  else sqlitePresets h (currentUserId h).

(** The first preset with the given id. *)
Definition firstWithId (id : string) (presets : list JsVal) : option JsVal :=
  List.find (fun preset => Js.isStr (Js.get preset "id") id) presets.

Definition present (v : JsVal) : bool :=
  match v with
  | JUndefined | JNull => false
  | _ => true
  end.

(** Objects hold a key once. *)
Definition unique (ps : Props) : Prop := NoDup (map fst ps).

(** Every object in the store holds a key once. *)
Definition Sound (d : Disk) : Prop :=
  forall key ps, stored key (users d) = Some ps -> unique ps.

(** The object of the current user, [{}] when there is none. *)
Definition saved (h : Host) (d : Disk) : Props :=
  match stored (userSettingsKey h) (users d) with
  | Some v => v
  | None => []
  end.

Definition empty : Disk :=
  {| users := []; currentSettings := None; pending := None |}.

(** A host whose store and repositories work; nobody is signed in. *)
Definition localHost (presets : JsVal) : Host :=
  {| isMac := false; currentUserId := None; loggedIn := false;
     readError := None; writeError := None;
     firebasePresets := fun _ => Throw {| message := Some "offline" |};
     sqlitePresets := fun _ => Ok presets |}.

(** A signed-in host whose Firebase repository fails. *)
Definition cloudHost (uid : string) (presets : JsVal) : Host :=
  {| isMac := true; currentUserId := Some uid; loggedIn := true;
     readError := None; writeError := None;
     firebasePresets := fun _ => Throw {| message := Some "unavailable" |};
     sqlitePresets := fun _ => Ok presets |}.

(** A host whose store can be neither read nor written. *)
Definition brokenHost : Host :=
  {| isMac := false; currentUserId := None; loggedIn := true;
     readError := Some {| message := Some "EACCES" |};
     writeError := Some {| message := Some "EACCES" |};
     firebasePresets := fun _ => Throw {| message := Some "unavailable" |};
     sqlitePresets := fun _ => Throw {| message := Some "locked" |} |}.

Definition somePresets : JsVal :=
  JArr [JObj [("id", JStr "p1"); ("prompt", JStr "Be brief.")];
        JObj [("id", JStr "p2"); ("prompt", JStr "Explain step by step.")]]
       [].

End Prefs.

Module Outcome.

Definition WINDOW_MISSING : string := "Ask window is not available.".

(** How the inner [try] of [sendMessage] leaves the state: decoded to the
    end when the stream was processed, untouched otherwise. *)
Definition settled (env : Env) (before : Ask.State)
  (r : Result SendResult) (after : Ask.State) : Prop :=
  match r with
  | Ok Sent =>
      windowOpen env = true
      /\ exists final,
           after = Orch.withResponse final (Orch.withFlags false false before)
  | Ok (NotSent m) =>
      windowOpen env = false /\ m = Some WINDOW_MISSING /\ after = before
  | Throw _ => after = before
  end.

End Outcome.

(** ** The transcription session

    [createSTT] opens a socket and hands out, once the socket is open, a
    session with [sendRealtimeInput], [keepAlive] and [close].  The steps
    below are the events of the socket and the calls of the session, on the
    state they share.  Of the socket the model keeps what the WebSocket
    interface fixes: [open] comes to a connecting socket, and [close()]
    leaves the state OPEN for CLOSING.  The callbacks object is the default
    [{}] or an object; which callbacks it holds is given by the options. *)

Module Socket.

Inductive ReadyState : Type := CONNECTING | OPEN | CLOSING | CLOSED.

Inductive Promise : Type := Pending | Resolved | Rejected.

Inductive Called : Type :=
| OnMessage (msg : JsVal)
| OnError
| OnClose (code : nat).

Record Options : Type := {
  apiKey : JsVal;
  language : JsVal;
  usePortkey : JsVal;
  portkeyVirtualKey : JsVal;
  model : JsVal;
  prompt : JsVal;
  onmessage : bool;
  onerror : bool;
  onclose : bool
}.

Record Session : Type := {
  readyState : ReadyState;
  handlers : bool;
  promise : Promise;
  frames : list JsVal;
  pings : nat;
  called : list Called
}.

Definition isOpen (r : ReadyState) : bool :=
  match r with OPEN => true | _ => false end.

(** [v || d] *)
Definition orValue (v d : JsVal) : JsVal := if Js.truthy v then v else d.

Definition key (o : Options) : JsVal :=
  if Js.truthy (usePortkey o) then orValue (portkeyVirtualKey o) (apiKey o)
  else apiKey o.

Definition transcriptionModel (o : Options) : string :=
  match model o with
  | JStr m => if nonEmpty (trim m) then trim m else "gpt-4o-mini-transcribe"
  | _ => "gpt-4o-mini-transcribe"
  end.

Definition wsUrl (o : Options) : string :=
  if Js.truthy (usePortkey o)
  then "wss://api.portkey.ai/v1/realtime?intent=transcription"
  else "wss://api.openai.com/v1/realtime?intent=transcription".

Definition sessionConfig (o : Options) : JsVal :=
  JObj
    [("type", JStr "transcription_session.update");
     ("session",
      JObj
        [("input_audio_format", JStr "pcm16");
         ("input_audio_transcription",
          JObj [("model", JStr (transcriptionModel o));
                ("prompt", orValue (prompt o) (JStr ""));
                ("language",
                 orValue (Adapter.orDefault (language o) (JStr "en"))
                   (JStr "en"))]);
         ("turn_detection",
          JObj [("type", JStr "server_vad");
                ("threshold", JNum (Fin (1 # 2)));
                ("prefix_padding_ms", JNum (JsNum.ofZ 200));
                ("silence_duration_ms", JNum (JsNum.ofZ 100))]);
         ("input_audio_noise_reduction",
          JObj [("type", JStr "near_field")])])].

Definition appendFrame (audioData : JsVal) : JsVal :=
  JObj [("type", JStr "input_audio_buffer.append"); ("audio", audioData)].

Definition closeFrame : JsVal := JObj [("type", JStr "session.close")].

Definition initial : Session :=
  {| readyState := CONNECTING; handlers := true; promise := Pending;
     frames := []; pings := 0; called := [] |}.

(** [resolve] and [reject] settle a pending promise only. *)
Definition settle (p outcome : Promise) : Promise :=
  match p with
  | Pending => outcome
  | _ => p
  end.

Inductive Step : Type :=
| ServerOpen
| ServerMessage (data : string)
| ServerError
| ServerClose (code : nat)
| SendRealtimeInput (audioData : JsVal)
| KeepAlive
| Close.

Section Steps.

Variable JSON_parse : string -> option JsVal.
Variable o : Options.

(** [ws.onopen] *)
Definition onOpen (s : Session) : Session :=
  match readyState s with
  | CONNECTING =>
      {| readyState := OPEN; handlers := handlers s;
         promise := settle (promise s) Resolved;
         frames := (frames s ++ [sessionConfig o])%list;
         pings := pings s; called := called s |}
  | _ => s
  end.

(** [ws.onmessage], until [close] replaces it. *)
Definition onMessage (data : string) (s : Session) : Session :=
  if handlers s
  then {| readyState := readyState s; handlers := handlers s;
          promise := promise s; frames := frames s; pings := pings s;
          called :=
            (called s
               ++ map OnMessage
                    (STT.onmessage JSON_parse (onmessage o) data))%list |}
  else s.

(** [ws.onerror], until [close] replaces it. *)
Definition onError (s : Session) : Session :=
  if handlers s
  then {| readyState := readyState s; handlers := handlers s;
          promise := settle (promise s) Rejected;
          frames := frames s; pings := pings s;
          called :=
            (called s ++ if onerror o then [OnError] else [])%list |}
  else s.

(** [ws.onclose] *)
Definition onClose (code : nat) (s : Session) : Session :=
  {| readyState := CLOSED; handlers := handlers s; promise := promise s;
     frames := frames s; pings := pings s;
     called := (called s ++ if onclose o then [OnClose code] else [])%list |}.

(** [session.sendRealtimeInput(audioData)] *)
Definition sendRealtimeInput (audioData : JsVal) (s : Session) : Session :=
  if isOpen (readyState s)
  then {| readyState := readyState s; handlers := handlers s;
          promise := promise s;
          frames := (frames s ++ [appendFrame audioData])%list;
          pings := pings s; called := called s |}
  else s.

(** [session.keepAlive()] *)
Definition keepAlive (s : Session) : Session :=
  if isOpen (readyState s)
  then {| readyState := readyState s; handlers := handlers s;
          promise := promise s; frames := frames s; pings := S (pings s);
          called := called s |}
  else s.

(** [session.close()] *)
Definition close (s : Session) : Session :=
  if isOpen (readyState s)
  then {| readyState := CLOSING; handlers := false; promise := promise s;
          frames := (frames s ++ [closeFrame])%list;
          pings := pings s; called := called s |}
  else s.

(** The session exists once the promise is resolved. *)
Definition client (f : Session -> Session) (s : Session) : Session :=
  match promise s with
  | Resolved => f s
  | _ => s
  end.

Definition step (s : Session) (a : Step) : Session :=
  match a with
  | ServerOpen => onOpen s
  | ServerMessage data => onMessage data s
  | ServerError => onError s
  | ServerClose code => onClose code s
  | SendRealtimeInput audioData => client (sendRealtimeInput audioData) s
  | KeepAlive => client keepAlive s
  | Close => client close s
  end.

Definition run (s : Session) (steps : list Step) : Session :=
  fold_left step steps s.

End Steps.

(** The callbacks other than [onclose]. *)
Definition heard (l : list Called) : list Called :=
  filter (fun c => match c with OnClose _ => false | _ => true end) l.

(** A session closed by the client. *)
Definition Quiet (s : Session) : Prop :=
  handlers s = false /\ isOpen (readyState s) = false
  /\ readyState s <> CONNECTING.

(** The frames of a session: the configuration, the audio, and the
    [session.close] of a client that closed. *)
Definition Framed (o : Options) (s : Session) : Prop :=
  match frames s with
  | [] => readyState s <> OPEN /\ readyState s <> CLOSING
          /\ promise s <> Resolved /\ handlers s = true
  | f :: rest =>
      f = sessionConfig o /\ readyState s <> CONNECTING
      /\ exists audio,
           (rest = map appendFrame audio /\ handlers s = true)
           \/ (rest = (map appendFrame audio ++ [closeFrame])%list
               /\ Quiet s)
  end.

Definition someOptions : Options :=
  {| apiKey := JStr "sk-test"; language := JUndefined;
     usePortkey := JUndefined; portkeyVirtualKey := JUndefined;
     model := JStr "   "; prompt := JUndefined;
     onmessage := true; onerror := true; onclose := true |}.

End Socket.

(** ** The blocking client: [generateContent] *)

Module Generate.

Record Acc : Type := { systemPrompt : string; userContent : list JsVal }.

Definition textPart (part : string) : JsVal :=
  JObj [("type", JStr "text"); ("text", JStr part)].

Section GenerateContent.

(** String conversion of the host, for the template literal. *)
Variable ToString : JsVal -> string.

Definition imagePart (inlineData : JsVal) : JsVal :=
  JObj [("type", JStr "image_url");
        ("image_url",
         JObj [("url",
                JStr ("data:" ++ ToString (Js.get inlineData "mimeType")
                        ++ ";base64," ++ ToString (Js.get inlineData "data")))])].

(** The body of the loop over [parts]; reading [inlineData] of [null] or
    [undefined] throws. *)
Definition visit (acc : Acc) (part : JsVal) : Result Acc :=
  match part with
  | JStr text =>
      if String.eqb (systemPrompt acc) "" && includes text "You are"
      then Ok {| systemPrompt := text; userContent := userContent acc |}
      else Ok {| systemPrompt := systemPrompt acc;
                 userContent := (userContent acc ++ [textPart text])%list |}
  | JUndefined | JNull => Throw Prefs.typeError
  | _ =>
      if Js.truthy (Js.get part "inlineData")
      then Ok {| systemPrompt := systemPrompt acc;
                 userContent :=
                   (userContent acc
                      ++ [imagePart (Js.get part "inlineData")])%list |}
      else Ok acc
  end.

Fixpoint loop (acc : Acc) (parts : list JsVal) : Result Acc :=
  match parts with
  | [] => Ok acc
  | part :: rest =>
      match visit acc part with
      | Ok acc' => loop acc' rest
      | Throw e => Throw e
      end
  end.

(** The messages [generateContent] hands to [callApi]. *)
Definition messagesOf (acc : Acc) : list JsVal :=
  ((if nonEmpty (systemPrompt acc)
    then [JObj [("role", JStr "system");
                ("content", JStr (systemPrompt acc))]]
    else [])
   ++ match userContent acc with
      | [] => []
      | _ => [JObj [("role", JStr "user");
                    ("content", JArr (userContent acc) [])]]
      end)%list.

Definition generateMessages (parts : list JsVal) : Result (list JsVal) :=
  match loop {| systemPrompt := ""; userContent := [] |} parts with
  | Ok acc => Ok (messagesOf acc)
  | Throw e => Throw e
  end.

(** What [generateContent] hands to [fetch]. *)
Definition generateRequest (o : Adapter.LLMOptions) (parts : list JsVal)
  : Result Adapter.Request :=
  match generateMessages parts with
  | Ok messages => Ok (Client.callApiRequest o (JArr messages []))
  | Throw e => Throw e
  end.

(** A part that names the assistant. *)
Definition leads (part : JsVal) : bool :=
  match part with
  | JStr text => includes text "You are"
  | _ => false
  end.

(** The first part that names the assistant, and the parts without it. *)
Fixpoint lead (parts : list JsVal) : option string :=
  match parts with
  | [] => None
  | JStr text :: rest =>
      if includes text "You are" then Some text else lead rest
  | _ :: rest => lead rest
  end.

Fixpoint others (parts : list JsVal) : list JsVal :=
  match parts with
  | [] => []
  | part :: rest => if leads part then rest else part :: others rest
  end.

(** The content part a part becomes. *)
Definition converted (part : JsVal) : list JsVal :=
  match part with
  | JStr text => [textPart text]
  | _ =>
      if Js.truthy (Js.get part "inlineData")
      then [imagePart (Js.get part "inlineData")]
      else []
  end.

End GenerateContent.

Definition someParts : list JsVal :=
  [JStr "Describe the screen."; JStr "You are a helpful assistant.";
   JObj [("inlineData",
          JObj [("mimeType", JStr "image/png"); ("data", JStr "AAAA")])];
   JStr "You are late."].

End Generate.

(** ** The shortcuts service: loading the key bindings

    [loadKeybinds] fills a fresh object [{}] from the rows of the
    repository.  An object here is its own properties, in the order in
    which [for ... in] lists them (array indices first, ascending, then the
    other names as they were created), and its prototype, which an
    assignment to [__proto__] may replace.  Values are plain data, whose
    own prototype is the standard one. *)

Module Shortcuts.

Definition backslash : string := String (ascii_of_nat 92) EmptyString.

(** The array index a property name stands for: the canonical decimal
    strings of the integers below 2^32 - 1. *)
Definition arrayIndex (k : string) : option N :=
  match NilZero.uint_of_string k with
  | Some u =>
      let n := N.of_uint u in
      if String.eqb (NilZero.string_of_uint (N.to_uint n)) k
         && (n <? 4294967295)%N
      then Some n else None
  | None => None
  end.

Inductive Proto : Type :=
| ObjectPrototype
| NullPrototype
| Inherits (v : JsVal).

Record Obj : Type := { own : Props; proto : Proto }.

(** [{}] *)
Definition fresh : Obj := {| own := []; proto := ObjectPrototype |}.

(** A new property named by an array index goes before the first property
    that is no index or a greater one. *)
Fixpoint insertIndex (n : N) (k : string) (v : JsVal) (ps : Props) : Props :=
  match ps with
  | [] => [(k, v)]
  | (k', v') :: rest =>
      match arrayIndex k' with
      | Some m =>
          if (m <? n)%N then (k', v') :: insertIndex n k v rest
          else (k, v) :: ps
      | None => (k, v) :: ps
      end
  end.

(** The own property [k] gets the value [v]: an existing property keeps its
    place, a new one takes the place its name gives it. *)
Definition define (k : string) (v : JsVal) (ps : Props) : Props :=
  if Js.has k ps then Js.set k v ps
  else match arrayIndex k with
       | Some n => insertIndex n k v ps
       | None => (ps ++ [(k, v)])%list
       end.

(** Whether a plain value has the own property [k] (no index, not
    [length]). *)
Definition ownProperty (v : JsVal) (k : string) : bool :=
  match v with
  | JObj ps => Js.has k ps
  | JArr _ extra => Js.has k extra
  | _ => false
  end.

(** Whether [o.__proto__] is the accessor of [Object.prototype]: the object
    has no own property of that name and none is found before
    [Object.prototype] is reached. *)
Definition accessor (o : Obj) : bool :=
  negb (Js.has "__proto__" (own o))
  && match proto o with
     | ObjectPrototype => true
     | NullPrototype => false
     | Inherits v => negb (ownProperty v "__proto__")
     end.

(** [o[k] = v].  Through the accessor an object or [null] becomes the
    prototype and any other value is ignored; every other assignment
    creates or updates an own property. *)
Definition assign (k : string) (v : JsVal) (o : Obj) : Obj :=
  if String.eqb k "__proto__" && accessor o
  then match v with
       | JObj _ | JArr _ _ => {| own := own o; proto := Inherits v |}
       | JNull => {| own := own o; proto := NullPrototype |}
       | _ => o
       end
  else {| own := define k v (own o); proto := proto o |}.

(** [o[k]] for a name [k] that the standard prototypes do not have and that
    is not [length] or [__proto__]: the names of the actions, and the names
    [for ... in] lists. *)
Definition read (o : Obj) (k : string) : JsVal :=
  if Js.has k (own o) then Js.lookup k (own o)
  else match proto o with
       | Inherits v => Js.lookup k (Js.ownProps v)
       | _ => JUndefined
       end.

(** An object literal with the given entries. *)
Definition literally (entries : Props) : Obj :=
  {| own := entries; proto := ObjectPrototype |}.

Definition getDefaultKeybinds (isMac : bool) : Props :=
  Js.literal
    [("moveUp", JStr (if isMac then "Cmd+Alt+Up" else "Ctrl+Alt+Up"));
     ("moveDown", JStr (if isMac then "Cmd+Alt+Down" else "Ctrl+Alt+Down"));
     ("moveLeft", JStr (if isMac then "Cmd+Alt+Left" else "Ctrl+Alt+Left"));
     ("moveRight", JStr (if isMac then "Cmd+Alt+Right" else "Ctrl+Alt+Right"));
     ("toggleVisibility", JStr (if isMac then "Cmd+Alt+H" else "Ctrl+Alt+H"));
     ("toggleClickThrough",
      JStr (if isMac then "Cmd+Alt+C" else "Ctrl+Alt+C"));
     ("nextStep", JStr (if isMac then "Cmd+Alt+A" else "Ctrl+Alt+A"));
     ("toggleListen", JStr (if isMac then "Cmd+Alt+L" else "Ctrl+Alt+L"));
     ("toggleSettings", JStr (if isMac then "Cmd+Alt+S" else "Ctrl+Alt+S"));
     ("manualScreenshot", JStr (if isMac then "Cmd+Alt+X" else "Ctrl+Alt+X"));
     ("previousResponse", JStr (if isMac then "Cmd+Alt+[" else "Ctrl+Alt+["));
     ("nextResponse", JStr (if isMac then "Cmd+Alt+]" else "Ctrl+Alt+]"));
     ("scrollUp", JStr (if isMac then "Cmd+Alt+K" else "Ctrl+Alt+K"));
     ("scrollDown", JStr (if isMac then "Cmd+Alt+J" else "Ctrl+Alt+J"))].

Definition getLegacyDefaultKeybinds (isMac : bool) : Props :=
  Js.literal
    [("moveUp", JStr (if isMac then "Cmd+Up" else "Ctrl+Up"));
     ("moveDown", JStr (if isMac then "Cmd+Down" else "Ctrl+Down"));
     ("moveLeft", JStr (if isMac then "Cmd+Left" else "Ctrl+Left"));
     ("moveRight", JStr (if isMac then "Cmd+Right" else "Ctrl+Right"));
     ("toggleVisibility",
      JStr (if isMac then "Cmd+" ++ backslash else "Ctrl+" ++ backslash));
     ("toggleClickThrough", JStr (if isMac then "Cmd+M" else "Ctrl+M"));
     ("nextStep", JStr (if isMac then "Cmd+Enter" else "Ctrl+Enter"));
     ("manualScreenshot",
      JStr (if isMac then "Cmd+Shift+S" else "Ctrl+Shift+S"));
     ("previousResponse", JStr (if isMac then "Cmd+[" else "Ctrl+["));
     ("nextResponse", JStr (if isMac then "Cmd+]" else "Ctrl+]"));
     ("scrollUp", JStr (if isMac then "Cmd+Shift+Up" else "Ctrl+Shift+Up"));
     ("scrollDown",
      JStr (if isMac then "Cmd+Shift+Down" else "Ctrl+Shift+Down"))].

(** A row of the repository; [action] is the property name [k.action]
    stands for. *)
Record Row : Type := { action : string; accelerator : JsVal }.

(** [keybindsArray.forEach(k => { keybinds[k.action] = k.accelerator })] on
    [keybinds = {}]. *)
Definition objectOf (rows : list Row) : Obj :=
  fold_left (fun keybinds k => assign (action k) (accelerator k) keybinds)
    rows fresh.

(** The rows [saveKeybinds] hands to the repository: one for each own
    property, in the order of [for ... in]. *)
Definition rowsOf (newKeybinds : Obj) : list Row :=
  map (fun kv => {| action := fst kv; accelerator := snd kv |})
    (own newKeybinds).

(** The abandoned default of [toggleVisibility]. *)
Definition abandoned (v : JsVal) : bool :=
  Prefs.strictEq v (JStr "Ctrl+Alt+Shift+H")
  || Prefs.strictEq v (JStr "Cmd+Alt+Shift+H").

Section Load.

Variable isMac : bool.

(** The repository's [upsertKeybinds]: the error it rejects with, if it
    does. *)
Variable upsertKeybinds : list Row -> option Error.

(** The body of the loop over the actions of the defaults. *)
Definition renew (st : Obj * bool) (action : string) : Obj * bool :=
  let defaults := getDefaultKeybinds isMac in
  let legacyDefaults := getLegacyDefaultKeybinds isMac in
  let (keybinds, needsUpdate) := st in
  if negb (Js.truthy (read keybinds action))
  then (assign action (Js.lookup action defaults) keybinds, true)
  else
    let st1 :=
      if Prefs.strictEq (read keybinds action)
           (Js.lookup action legacyDefaults)
      then (assign action (Js.lookup action defaults) keybinds, true)
      else (keybinds, needsUpdate) in
    if String.eqb action "toggleVisibility"
       && abandoned (read (fst st1) action)
    then (assign action (Js.lookup action defaults) (fst st1), true)
    else st1.

Definition actions : list string := map fst (getDefaultKeybinds isMac).

Definition migrate (keybinds : Obj) : Obj * bool :=
  fold_left renew actions (keybinds, false).

(** [saveKeybinds(newKeybinds)]: the rows it writes, and how the write
    ends. *)
Definition saveKeybinds (newKeybinds : Obj) : Result unit * list Row :=
  let keybindsToSave := rowsOf newKeybinds in
  (match upsertKeybinds keybindsToSave with
   | Some e => Throw e
   | None => Ok tt
   end, keybindsToSave).

(** [loadKeybinds()] on what [getAllKeybinds] answers: the key bindings,
    and the writes made. *)
Definition loadKeybinds (answer : Result (option (list Row)))
  : Result Obj * list (list Row) :=
  match answer with
  | Throw e => (Throw e, [])
  | Ok (None | Some []) =>
      let defaults := literally (getDefaultKeybinds isMac) in
      match saveKeybinds defaults with
      | (Ok _, written) => (Ok defaults, [written])
      | (Throw e, written) => (Throw e, [written])
      end
  | Ok (Some rows) =>
      let (keybinds, needsUpdate) := migrate (objectOf rows) in
      if needsUpdate
      then match saveKeybinds keybinds with
           | (Ok _, written) => (Ok keybinds, [written])
           | (Throw e, written) => (Throw e, [written])
           end
      else (Ok keybinds, [])
  end.

(** What one action is bound to after loading, given what it was bound
    to. *)
Definition renewed (action : string) (v : JsVal) : JsVal :=
  let default := Js.lookup action (getDefaultKeybinds isMac) in
  if negb (Js.truthy v) then default
  else if Prefs.strictEq v (Js.lookup action (getLegacyDefaultKeybinds isMac))
  then default
  else if String.eqb action "toggleVisibility" && abandoned v then default
  else v.

(** A binding that loading leaves alone. *)
Definition settled (action : string) (v : JsVal) : bool :=
  Js.truthy v
  && negb (Prefs.strictEq v
             (Js.lookup action (getLegacyDefaultKeybinds isMac)))
  && negb (String.eqb action "toggleVisibility" && abandoned v).

End Load.

(** Rows none of which is named [__proto__]. *)
Definition plain (rows : list Row) : bool :=
  forallb (fun k => negb (String.eqb (action k) "__proto__")) rows.

(** The order of the own properties: indices ascending, then the names
    that are no index; no name twice. *)
Definition before (k1 k2 : string) : Prop :=
  match arrayIndex k1, arrayIndex k2 with
  | Some a, Some b => (a < b)%N
  | Some _, None => True
  | None, Some _ => False
  | None, None => k1 <> k2
  end.

Fixpoint ordered (keys : list string) : Prop :=
  match keys with
  | [] => True
  | k :: rest => Forall (before k) rest /\ ordered rest
  end.

Definition Canonical (ps : Props) : Prop := ordered (map fst ps).

Definition someRows : list Row :=
  [{| action := "nextStep"; accelerator := JStr "Ctrl+Enter" |};
   {| action := "toggleVisibility"; accelerator := JStr "Ctrl+Alt+Shift+H" |};
   {| action := "scrollUp"; accelerator := JStr "Alt+U" |};
   {| action := "7"; accelerator := JStr "F7" |};
   {| action := "custom"; accelerator := JStr "F9" |}].

(** Rows that name the prototype. *)
Definition oddRows : list Row :=
  [{| action := "__proto__";
      accelerator := JObj [("moveUp", JStr "Alt+W")] |};
   {| action := "moveDown"; accelerator := JStr "Alt+S" |}].

End Shortcuts.

(** ** Registering the global shortcuts (shortcutsService.js) *)

Module Keys.
Import Shortcuts.

Inductive Callback : Type :=
| ToggleAllWindowsVisibility
| NextStep
| ScrollVisibleWindows (up : bool)
| MoveStep (direction : string)
| ToggleClickThrough
| ToggleListen
| ToggleSettings
| ManualScreenshot
| NavigatePreviousResponse
| NavigateNextResponse
| MoveToDisplay (displayId : JsVal)
| MoveToEdge (direction : string).

(** How a call of [globalShortcut.register] ends: the shortcut is taken,
    the call returns without taking it, or the call raises. *)
Inductive Attempt : Type :=
| Taken
| Declined
| Raised (e : Error).

Record Host : Type := {
  isMac : bool;
  (** whether [this.windowPool] is set *)
  windowPool : bool;
  (** the ids of [screen.getAllDisplays()] *)
  displays : list JsVal;
  (** [header?.currentHeaderState === 'apikey'] *)
  apikeyHeader : bool;
  (** the repository's [upsertKeybinds]: the error it rejects with *)
  upsertKeybinds : list Row -> option Error;
  (** how telling the windows ends: [sendToRenderer('shortcuts-updated')],
      [applyClickThroughStateToAllWindows()] and
      [sendToRenderer('click-through-toggled')] *)
  announce : option Error;
  (** [globalShortcut.register(accelerator, ...)] given the shortcuts
      held *)
  register : list (JsVal * Callback) -> JsVal -> Attempt
}.

Record State : Type := {
  allWindowVisibility : bool;
  (** the shortcuts the host holds *)
  registered : list (JsVal * Callback);
  (** the calls of [globalShortcut.register] since the last
      [unregisterAll] *)
  requested : list (JsVal * Callback);
  (** the writes to the repository *)
  saved : list (list Row);
  (** [targetVisibility] of each
      [window:requestToggleAllWindowsVisibility] *)
  visibilityRequests : list bool
}.

(** The [switch] of [registerShortcuts]. *)
Definition callbackOf (action : string) : option Callback :=
  if String.eqb action "toggleVisibility" then Some ToggleAllWindowsVisibility
  else if String.eqb action "nextStep" then Some NextStep
  else if String.eqb action "scrollUp" then Some (ScrollVisibleWindows true)
  else if String.eqb action "scrollDown"
  then Some (ScrollVisibleWindows false)
  else if String.eqb action "moveUp" then Some (MoveStep "up")
  else if String.eqb action "moveDown" then Some (MoveStep "down")
  else if String.eqb action "moveLeft" then Some (MoveStep "left")
  else if String.eqb action "moveRight" then Some (MoveStep "right")
  else if String.eqb action "toggleClickThrough" then Some ToggleClickThrough
  else if String.eqb action "toggleListen" then Some ToggleListen
  else if String.eqb action "toggleSettings" then Some ToggleSettings
  else if String.eqb action "manualScreenshot" then Some ManualScreenshot
  else if String.eqb action "previousResponse"
  then Some NavigatePreviousResponse
  else if String.eqb action "nextResponse" then Some NavigateNextResponse
  else None.

(** The names [for (const action in keybinds)] lists: the own
    properties, then the enumerable properties of the prototype that no
    own property hides. *)
Definition forIn (keybinds : Obj) : list string :=
  (map fst (own keybinds)
   ++ filter (fun k => negb (Js.has k (own keybinds)))
        match proto keybinds with
        | Inherits v => map fst (Js.ownProps v)
        | _ => []
        end)%list.

Definition withRequest (p : JsVal * Callback) (taken : bool) (s : State)
  : State :=
  {| allWindowVisibility := allWindowVisibility s;
     registered :=
       if taken then (registered s ++ [p])%list else registered s;
     requested := (requested s ++ [p])%list;
     saved := saved s;
     visibilityRequests := visibilityRequests s |}.

(** [globalShortcut.unregisterAll()] *)
Definition unregisterAll (s : State) : State :=
  {| allWindowVisibility := allWindowVisibility s;
     registered := [];
     requested := [];
     saved := saved s;
     visibilityRequests := visibilityRequests s |}.

Definition withSaved (writes : list (list Row)) (s : State) : State :=
  {| allWindowVisibility := allWindowVisibility s;
     registered := registered s;
     requested := requested s;
     saved := (saved s ++ writes)%list;
     visibilityRequests := visibilityRequests s |}.

(** [internalBridge.emit('window:requestToggleAllWindowsVisibility',
    { targetVisibility })] *)
Definition emit (targetVisibility : bool) (s : State) : State :=
  {| allWindowVisibility := allWindowVisibility s;
     registered := registered s;
     requested := requested s;
     saved := saved s;
     visibilityRequests := (visibilityRequests s ++ [targetVisibility])%list |}.

Definition withVisibility (visible : bool) (s : State) : State :=
  {| allWindowVisibility := visible;
     registered := registered s;
     requested := requested s;
     saved := saved s;
     visibilityRequests := visibilityRequests s |}.

Section Register.

Variable h : Host.

(** [a !== b] *)
Definition differ (a b : JsVal) : bool := negb (Prefs.strictEq a b).

Definition explicitAlias : JsVal :=
  JStr (if isMac h then "Cmd+" ++ backslash else "Ctrl+" ++ backslash).

(** [globalShortcut.register(accelerator, callback)] *)
Definition request (p : JsVal * Callback) : Eff.M State unit :=
  fun s =>
    match register h (registered s) (fst p) with
    | Taken => (Ok tt, withRequest p true s)
    | Declined => (Ok tt, withRequest p false s)
    | Raised e => (Throw e, withRequest p false s)
    end.

(** [try { globalShortcut.register(accelerator, callback) } catch (e)
    { console.error(...) }] *)
Definition tryRequest (p : JsVal * Callback) : Eff.M State unit :=
  Eff.tryCatch (request p) (fun _ => Eff.ret tt).

(** [registerToggleVisibilityWithAliases()] *)
Definition registerToggleVisibilityWithAliases (keybinds : Obj)
  : Eff.M State unit :=
  let aliases :=
    (read keybinds "toggleVisibility"
       :: if differ explicitAlias (read keybinds "toggleVisibility")
          then [explicitAlias] else [])%list in
  Eff.forEach
    (fun accelerator => tryRequest (accelerator, ToggleAllWindowsVisibility))
    aliases.

Fixpoint monitorKeys (index : nat) (ds : list JsVal)
  : list (JsVal * Callback) :=
  match ds with
  | [] => []
  | display :: rest =>
      (JStr ((if isMac h then "Cmd" else "Ctrl") ++ "+Shift+"
               ++ ofNat (index + 1)),
       MoveToDisplay display) :: monitorKeys (S index) rest
  end.

(** The shortcuts that are not configurable. *)
Definition hardcoded : list (JsVal * Callback) :=
  let modifier := if isMac h then "Cmd" else "Ctrl" in
  ((if Nat.ltb 1 (List.length (displays h)) then monitorKeys 0 (displays h)
    else [])
   ++ [(JStr (modifier ++ "+Shift+Left"), MoveToEdge "left");
       (JStr (modifier ++ "+Shift+Right"), MoveToEdge "right")])%list.

(** The body of the loop over the actions of [keybinds]. *)
Definition configure (keybinds : Obj) (action : string) : Eff.M State unit :=
  let accelerator := read keybinds action in
  if negb (Js.truthy accelerator) then Eff.ret tt
  else match callbackOf action with
       | Some callback => tryRequest (accelerator, callback)
       | None => Eff.ret tt
       end.

(** [await this.loadKeybinds()] on what [getAllKeybinds] answers. *)
Definition load (answer : Result (option (list Row))) : Eff.M State Obj :=
  fun s =>
    let (result, writes) :=
      loadKeybinds (isMac h) (upsertKeybinds h) answer in
    (result, withSaved writes s).

Definition tell : Eff.M State unit :=
  match announce h with
  | Some e => Eff.throw e
  | None => Eff.ret tt
  end.

(** [registerShortcuts(registerOnlyToggleVisibility)] on what
    [getAllKeybinds] answers. *)
Definition registerShortcuts (answer : Result (option (list Row)))
  (registerOnlyToggleVisibility : bool) : Eff.M State unit :=
  if negb (windowPool h) then Eff.ret tt
  else
    (keybinds <- load answer ;;
     Eff.modify unregisterAll ;;
     tell ;;
     if registerOnlyToggleVisibility
     then registerToggleVisibilityWithAliases keybinds
     else
       (Eff.forEach request hardcoded ;;
        if apikeyHeader h
        then registerToggleVisibilityWithAliases keybinds
        else Eff.forEach (configure keybinds) (forIn keybinds)))%eff.

(** [toggleAllWindowsVisibility()], run to its end. *)
Definition toggleAllWindowsVisibility (answer : Result (option (list Row)))
  : Eff.M State unit :=
  (targetVisibility <- Eff.gets (fun s => negb (allWindowVisibility s)) ;;
   Eff.modify (emit targetVisibility) ;;
   visible <- Eff.gets allWindowVisibility ;;
   (if visible then registerShortcuts answer true
    else registerShortcuts answer false) ;;
   Eff.modify (fun s => withVisibility (negb (allWindowVisibility s)) s))%eff.

End Register.

(** What a run of requests does to the state: the requests are noted in
    order, the shortcuts taken are among them, and nothing else changes. *)
Definition Grows (s s' : State) (requests : list (JsVal * Callback)) : Prop :=
  requested s' = (requested s ++ requests)%list
  /\ (exists taken,
        registered s' = (registered s ++ taken)%list /\ incl taken requests)
  /\ allWindowVisibility s' = allWindowVisibility s
  /\ saved s' = saved s
  /\ visibilityRequests s' = visibilityRequests s.

(** Every shortcut held is one the host has taken. *)
Definition Held (h : Host) (s : State) : Prop :=
  forall p, In p (registered s) ->
            exists held, register h held (fst p) = Taken.

(** A host that takes every shortcut but Ctrl+Alt+C, which it declines,
    and Alt+U, for which it raises. *)
Definition desk : Host :=
  {| isMac := false; windowPool := true;
     displays := [JStr "d1"; JStr "d2"]; apikeyHeader := false;
     upsertKeybinds := fun _ => None;
     announce := None;
     register := fun _ accelerator =>
       if Prefs.strictEq accelerator (JStr "Ctrl+Alt+C") then Declined
       else if Prefs.strictEq accelerator (JStr "Alt+U")
       then Raised {| message := Some "conversion failure" |}
       else Taken |}.

Definition shown : State :=
  {| allWindowVisibility := true; registered := []; requested := [];
     saved := []; visibilityRequests := [] |}.

End Keys.

(* ================================================================== *)
(** * Properties *)

(** ** Reasoning-effort normalisation *)

Module EffortFacts.

Lemma inList_values (c : string) :
  Adapter.inList c Adapter.REASONING_EFFORT_VALUES = true ->
  In c Adapter.REASONING_EFFORT_VALUES.
Proof.
  unfold Adapter.inList. intros H.
  apply existsb_exists in H. destruct H as [x [Hin Heq]].
  apply String.eqb_eq in Heq. now subst.
Qed.

Lemma adapter_range (v : JsVal) (s : string) :
  Adapter.normalizeReasoningEffort v = Some s ->
  In s Adapter.REASONING_EFFORT_VALUES.
Proof.
  unfold Adapter.normalizeReasoningEffort. cbv zeta.
  generalize (Adapter.effortCandidate v). intros c.
  destruct (String.eqb c "minimal").
  - intros [= <-]. simpl. tauto.
  - destruct (_ || _ || _).
    + intros [= <-]. simpl. tauto.
    + destruct (Adapter.inList c _) eqn:E; [|discriminate].
      intros [= <-]. now apply inList_values.
Qed.

Lemma settings_range (v : JsVal) :
  In (Settings.normalizeReasoningEffort v) Settings.REASONING_EFFORT_VALUES.
Proof.
  unfold Settings.normalizeReasoningEffort. cbv zeta.
  generalize (match v with JStr s => toLowerCase (trim s) | _ => "" end).
  intros c.
  destruct (String.eqb c "minimal"); [simpl; tauto|].
  destruct (_ || _ || _); [simpl; tauto|].
  destruct (Adapter.inList c _) eqn:E; [|simpl; tauto].
  now apply inList_values.
Qed.

Lemma settings_follows_adapter (v : JsVal) :
  Settings.normalizeReasoningEffort v =
  match Adapter.normalizeReasoningEffort v with
  | Some s => s
  | None => "medium"
  end.
Proof.
  unfold Settings.normalizeReasoningEffort, Adapter.normalizeReasoningEffort,
    Adapter.effortCandidate, Settings.REASONING_EFFORT_VALUES,
    Adapter.REASONING_EFFORT_VALUES.
  cbv zeta.
  generalize (match v with JStr s => toLowerCase (trim s) | _ => "" end).
  intros c.
  destruct (String.eqb c "minimal"); [reflexivity|].
  destruct (_ || _ || _); [reflexivity|].
  now destruct (Adapter.inList c _).
Qed.

(** The adapter's normalisation, input by input. *)
Lemma adapter_table (v : JsVal) :
  let c := match v with
           | JStr s => toLowerCase (trim s)
           | _ => ""
           end in
  Adapter.normalizeReasoningEffort v
  = if String.eqb c "minimal" then Some "none"
    else if String.eqb c "x-high" || String.eqb c "x_high"
            || String.eqb c "x high" then Some "xhigh"
    else if String.eqb c "none" || String.eqb c "low"
            || String.eqb c "medium" || String.eqb c "high"
            || String.eqb c "xhigh" then Some c
    else None.
Proof.
  cbv zeta. unfold Adapter.normalizeReasoningEffort, Adapter.effortCandidate,
    Adapter.inList, Adapter.REASONING_EFFORT_VALUES.
  cbv zeta.
  generalize (match v with JStr s => toLowerCase (trim s) | _ => "" end).
  intros c. cbn [existsb].
  destruct (String.eqb c "minimal"); [reflexivity|].
  destruct (String.eqb c "x-high" || String.eqb c "x_high"
            || String.eqb c "x high"); [reflexivity|].
  now rewrite orb_false_r, !orb_assoc.
Qed.

Lemma adapter_none (v : JsVal) :
  let c := match v with
           | JStr s => toLowerCase (trim s)
           | _ => ""
           end in
  Adapter.normalizeReasoningEffort v = None
  <-> ~ In c ["minimal"; "x-high"; "x_high"; "x high"; "none"; "low";
              "medium"; "high"; "xhigh"].
Proof.
  cbv zeta. rewrite adapter_table. cbv zeta.
  generalize (match v with JStr s => toLowerCase (trim s) | _ => "" end).
  intros c.
  destruct (String.eqb_spec c "minimal") as [E1|N1];
    [split; [discriminate|intros H; elim H; simpl; auto]|].
  destruct (String.eqb_spec c "x-high") as [E2|N2];
    [split; [discriminate|intros H; elim H; simpl; auto]|].
  destruct (String.eqb_spec c "x_high") as [E3|N3];
    [split; [discriminate|intros H; elim H; simpl; auto]|].
  destruct (String.eqb_spec c "x high") as [E4|N4];
    [split; [discriminate|intros H; elim H; simpl; auto]|].
  destruct (String.eqb_spec c "none") as [E5|N5];
    [split; [discriminate|intros H; elim H; simpl; auto 10]|].
  destruct (String.eqb_spec c "low") as [E6|N6];
    [split; [discriminate|intros H; elim H; simpl; auto 10]|].
  destruct (String.eqb_spec c "medium") as [E7|N7];
    [split; [discriminate|intros H; elim H; simpl; auto 10]|].
  destruct (String.eqb_spec c "high") as [E8|N8];
    [split; [discriminate|intros H; elim H; simpl; auto 10]|].
  destruct (String.eqb_spec c "xhigh") as [E9|N9];
    [split; [discriminate|intros H; elim H; simpl; auto 12]|].
  simpl. split; [|reflexivity].
  intros _ H. intuition congruence.
Qed.

End EffortFacts.

(** C5. Reasoning-effort normalisation is idempotent in both layers (for
    the adapter also on its [null] result); "Minimal", "MINIMAL" and
    " minimal " give "none"; "x-high", "x_high" and "x high" give "xhigh";
    the five values none, low, medium, high, xhigh pass through; and on
    every input the settings layer returns what the adapter returns, except
    that where the adapter yields [null] (so that no reasoning fragment is
    built, whatever the model) the settings layer yields "medium".  The
    adapter yields [null] exactly for the inputs that, trimmed and in lower
    case, are none of minimal, x-high, x_high, x high, none, low, medium,
    high, xhigh: every value that is no string and every other string. *)
Theorem C5_reasoning_effort_normalization :
  (forall v,
      Adapter.normalizeReasoningEffort
        (Adapter.ofNull (Adapter.normalizeReasoningEffort v))
      = Adapter.normalizeReasoningEffort v)
  /\ (forall v,
      Settings.normalizeReasoningEffort
        (JStr (Settings.normalizeReasoningEffort v))
      = Settings.normalizeReasoningEffort v)
  /\ Forall (fun s => Adapter.normalizeReasoningEffort (JStr s) = Some "none"
                      /\ Settings.normalizeReasoningEffort (JStr s) = "none")
       ["Minimal"; "MINIMAL"; " minimal "; "minimal"]
  /\ Forall (fun s => Adapter.normalizeReasoningEffort (JStr s) = Some "xhigh"
                      /\ Settings.normalizeReasoningEffort (JStr s) = "xhigh")
       ["x-high"; "x_high"; "x high"]
  /\ Forall (fun s => Adapter.normalizeReasoningEffort (JStr s) = Some s
                      /\ Settings.normalizeReasoningEffort (JStr s) = s)
       ["none"; "low"; "medium"; "high"; "xhigh"]
  /\ (forall v,
      Settings.normalizeReasoningEffort v =
      match Adapter.normalizeReasoningEffort v with
      | Some s => s
      | None => "medium"
      end)
  /\ (forall model v,
      Adapter.normalizeReasoningEffort v = None ->
      Adapter.buildReasoningPayload model v = []
      /\ Settings.normalizeReasoningEffort v = "medium")
  /\ Adapter.normalizeReasoningEffort (JStr "turbo") = None
  /\ Settings.normalizeReasoningEffort (JStr "turbo") = "medium"
  /\ (forall v,
        let c := match v with
                 | JStr s => toLowerCase (trim s)
                 | _ => ""
                 end in
        Adapter.normalizeReasoningEffort v
        = if String.eqb c "minimal" then Some "none"
          else if String.eqb c "x-high" || String.eqb c "x_high"
                  || String.eqb c "x high" then Some "xhigh"
          else if String.eqb c "none" || String.eqb c "low"
                  || String.eqb c "medium" || String.eqb c "high"
                  || String.eqb c "xhigh" then Some c
          else None)
  /\ (forall v,
        let c := match v with
                 | JStr s => toLowerCase (trim s)
                 | _ => ""
                 end in
        (Adapter.normalizeReasoningEffort v = None
         <-> ~ In c ["minimal"; "x-high"; "x_high"; "x high"; "none"; "low";
                     "medium"; "high"; "xhigh"])
        /\ (~ In c ["minimal"; "x-high"; "x_high"; "x high"; "none"; "low";
                    "medium"; "high"; "xhigh"] ->
            Settings.normalizeReasoningEffort v = "medium"
            /\ forall model, Adapter.buildReasoningPayload model v = [])).
Proof.
  split; [|split; [|split; [|split; [|split; [|split; [|split; [|split;
    [|split; [|split]]]]]]]]].
  - intros v. destruct (Adapter.normalizeReasoningEffort v) as [s|] eqn:E.
    + apply EffortFacts.adapter_range in E. simpl in E.
      destruct E as [<-|[<-|[<-|[<-|[<-|[]]]]]]; reflexivity.
    + reflexivity.
  - intros v. pose proof (EffortFacts.settings_range v) as E. simpl in E.
    destruct E as [<-|[<-|[<-|[<-|[<-|[]]]]]]; reflexivity.
  - repeat constructor.
  - repeat constructor.
  - repeat constructor.
  - exact EffortFacts.settings_follows_adapter.
  - intros model v E. split.
    + unfold Adapter.buildReasoningPayload. rewrite E.
      now destruct (negb _).
    + now rewrite EffortFacts.settings_follows_adapter, E.
  - reflexivity.
  - reflexivity.
  - exact EffortFacts.adapter_table.
  - intros v. cbv zeta.
    pose proof (EffortFacts.adapter_none v) as N. cbv zeta in N.
    split; [exact N|].
    intros H. apply N in H. split.
    + now rewrite EffortFacts.settings_follows_adapter, H.
    + intros model. unfold Adapter.buildReasoningPayload. rewrite H.
      now destruct (negb _).
Qed.

Lemma C5_witness :
  Adapter.normalizeReasoningEffort (JNum (JsNum.ofZ 3)) = None
  /\ Adapter.buildReasoningPayload (JStr "gpt-5") (JNum (JsNum.ofZ 3)) = []
  /\ Settings.normalizeReasoningEffort (JNum (JsNum.ofZ 3)) = "medium".
Proof.
  split; [reflexivity|].
  apply (proj1 (proj2 (proj2 (proj2 (proj2 (proj2
           (proj2 C5_reasoning_effort_normalization))))))).
  reflexivity.
Defined.

(** ** The model-family gate of the payload adapter *)

Module AdapterFacts.
Import Adapter.

Lemma lookup_set (k k' : string) (v : JsVal) (ps : Props) :
  Js.lookup k (Js.set k' v ps) =
  if String.eqb k k' then v else Js.lookup k ps.
Proof.
  induction ps as [|[k0 v0] ps IH]; simpl.
  - destruct (String.eqb k k'); reflexivity.
  - destruct (String.eqb k' k0) eqn:E0; simpl.
    + apply String.eqb_eq in E0. subst k0.
      destruct (String.eqb k k'); reflexivity.
    + destruct (String.eqb k k0) eqn:E1.
      * apply String.eqb_eq in E1. subst k0.
        destruct (String.eqb k k') eqn:E2; [|reflexivity].
        apply String.eqb_eq in E2. subst k'.
        now rewrite String.eqb_refl in E0.
      * exact IH.
Qed.

Lemma normalizeMessage_system (m : JsVal) :
  systemRole m = true ->
  normalizeMessage m = JObj (Js.set "role" (JStr "developer") (Js.ownProps m)).
Proof.
  unfold systemRole, normalizeMessage. intros H.
  apply andb_true_iff in H. destruct H as [H1 H2].
  now rewrite H1, H2.
Qed.

Lemma normalizeMessage_other (m : JsVal) :
  systemRole m = false -> normalizeMessage m = m.
Proof.
  unfold systemRole, normalizeMessage. intros H.
  destruct (Js.isObjectLike m); simpl in *; [|reflexivity].
  now rewrite H.
Qed.

Lemma normalizeMessage_not_system (m : JsVal) :
  systemRole (normalizeMessage m) = false.
Proof.
  destruct (systemRole m) eqn:E.
  - rewrite (normalizeMessage_system _ E). unfold systemRole. simpl.
    now rewrite lookup_set.
  - now rewrite (normalizeMessage_other _ E).
Qed.

Lemma reasoning_payload_eq (model effort : JsVal) :
  buildReasoningPayload model effort =
  if isGpt5Model model
  then match normalizeReasoningEffort effort with
       | Some e => [("reasoning", JObj [("effort", JStr e)])]
       | None => []
       end
  else [].
Proof.
  unfold buildReasoningPayload.
  destruct (isGpt5Model model); simpl; [|reflexivity].
  destruct (normalizeReasoningEffort effort) as [e|] eqn:E; [|reflexivity].
  apply EffortFacts.adapter_range in E. simpl in E.
  destruct E as [<-|[<-|[<-|[<-|[<-|[]]]]]]; reflexivity.
Qed.

Lemma responses_role_not_system (model messages : JsVal) :
  isGpt5Model model = true ->
  Forall (fun m => Js.isStr (Js.get m "role") "system" = false)
         (convertMessagesToResponsesInput model messages).
Proof.
  intros Hg. unfold convertMessagesToResponsesInput.
  apply Forall_forall. intros m Hin. apply in_map_iff in Hin.
  destruct Hin as [m0 [<- Hin]]. apply filter_In in Hin.
  destruct Hin as [Hin Hobj].
  assert (Hsys : systemRole m0 = false).
  { destruct messages as [| | | | |l extra|]; simpl in Hin; try contradiction.
    rewrite Hg in Hin. simpl in Hin. apply in_map_iff in Hin.
    destruct Hin as [m1 [<- _]]. apply normalizeMessage_not_system. }
  unfold systemRole in Hsys. rewrite Hobj in Hsys. simpl in Hsys.
  unfold responsesMessage. cbv zeta. simpl.
  unfold normalizeResponsesRole. rewrite Hsys.
  destruct (Js.isStr (Js.get m0 "role") "assistant" || false
            || Js.isStr (Js.get m0 "role") "developer");
    [exact Hsys|reflexivity].
Qed.

(** Case analysis on the three payload fragments of a request body. *)
Ltac fragments :=
  unfold bodyOf, modelOf, temperatureOf, maxTokensOf, streamChatRequest in *;
  cbv zeta;
  try rewrite reasoning_payload_eq;
  unfold buildTemperaturePayload, buildResponsesTokenPayload,
    buildTokenPayload;
  repeat match goal with
    | |- context [Js.truthy (usePortkey ?o)] =>
        destruct (Js.truthy (usePortkey o)); simpl negb; cbv iota
    | |- context [isGpt5Model ?m] => destruct (isGpt5Model m)
    | |- context [normalizeReasoningEffort ?e] =>
        destruct (normalizeReasoningEffort e)
    | |- context [usableNumber ?m] =>
        destruct (usableNumber m); simpl negb; cbv iota
    | |- context [match orDefault (temperature ?o) ?d with _ => _ end] =>
        destruct (orDefault (temperature o) d)
    end.

End AdapterFacts.

(** C3. A model is in the gpt-5 family exactly when it is a string whose
    lower-cased form starts with "gpt-5".  (1) For such a model every
    system-role message is rewritten to the developer role, all else being
    kept, and for any other model the messages are passed unchanged.
    (2) The request body, in both dialects, has no temperature field for
    such a model, and for any other model a numeric temperature is in the
    body.  (3) The reasoning fragment is built exactly when the model is in
    the family and the effort normalises to a non-null value, and the body
    carries it only then. *)
Theorem C3_gpt5_family_gate :
  (forall m, Adapter.isGpt5Model (JStr m) = startsWith (toLowerCase m) "gpt-5")
  /\ Adapter.isGpt5Model (JStr "GPT-5-Mini") = true
  /\ Adapter.isGpt5Model (JStr "gpt-4.1") = false
  /\ (forall model l extra,
        Adapter.normalizeMessagesForModel model (JArr l extra) =
        if Adapter.isGpt5Model model then map Adapter.normalizeMessage l else l)
  /\ (forall m,
        Adapter.normalizeMessage m =
        if Adapter.systemRole m
        then JObj (Js.set "role" (JStr "developer") (Js.ownProps m))
        else m)
  /\ (forall ps k,
        Js.isStr (Js.lookup "role" ps) "system" = true ->
        Js.get (Adapter.normalizeMessage (JObj ps)) k =
        if String.eqb k "role" then JStr "developer" else Js.lookup k ps)
  /\ (forall model l extra,
        Adapter.isGpt5Model model = true ->
        Forall (fun m => Adapter.systemRole m = false)
               (Adapter.normalizeMessagesForModel model (JArr l extra)))
  /\ (forall model messages,
        Adapter.isGpt5Model model = true ->
        Forall (fun m => Js.isStr (Js.get m "role") "system" = false)
               (Adapter.convertMessagesToResponsesInput model messages))
  /\ (forall o messages,
        Js.has "temperature" (Adapter.bodyOf o messages) =
        negb (Adapter.isGpt5Model (Adapter.modelOf o))
        && match Adapter.temperatureOf o with JNum _ => true | _ => false end)
  /\ (forall o messages t,
        Adapter.isGpt5Model (Adapter.modelOf o) = false ->
        Adapter.temperature o = JNum t ->
        Js.lookup "temperature" (Adapter.bodyOf o messages) = JNum t)
  /\ (forall model effort,
        Adapter.buildReasoningPayload model effort =
        if Adapter.isGpt5Model model
        then match Adapter.normalizeReasoningEffort effort with
             | Some e => [("reasoning", JObj [("effort", JStr e)])]
             | None => []
             end
        else [])
  /\ (forall o messages,
        Js.has "reasoning" (Adapter.bodyOf o messages) =
        negb (Js.truthy (Adapter.usePortkey o))
        && Adapter.isGpt5Model (Adapter.modelOf o)
        && Adapter.isSome
             (Adapter.normalizeReasoningEffort (Adapter.reasoningEffort o))).
Proof.
  split; [reflexivity|]. split; [reflexivity|]. split; [reflexivity|].
  split.
  { intros model l extra. simpl. now destruct (Adapter.isGpt5Model model). }
  split.
  { intros m. destruct (Adapter.systemRole m) eqn:E.
    - now apply AdapterFacts.normalizeMessage_system.
    - now apply AdapterFacts.normalizeMessage_other. }
  split.
  { intros ps k H.
    rewrite AdapterFacts.normalizeMessage_system by exact H.
    simpl. apply AdapterFacts.lookup_set. }
  split.
  { intros model l extra H. simpl. rewrite H. simpl.
    apply Forall_forall. intros m Hin. apply in_map_iff in Hin.
    destruct Hin as [m0 [<- _]].
    apply AdapterFacts.normalizeMessage_not_system. }
  split.
  { exact AdapterFacts.responses_role_not_system. }
  split.
  { intros o messages. AdapterFacts.fragments; reflexivity. }
  split.
  { intros o messages t Hm Ht.
    assert (Hd : Adapter.temperatureOf o = JNum t)
      by (unfold Adapter.temperatureOf; now rewrite Ht).
    unfold Adapter.temperatureOf in Hd.
    unfold Adapter.bodyOf, Adapter.streamChatRequest. cbv zeta.
    rewrite Hd. unfold Adapter.modelOf in Hm.
    unfold Adapter.buildTemperaturePayload. rewrite Hm.
    AdapterFacts.fragments; reflexivity. }
  split.
  { exact AdapterFacts.reasoning_payload_eq. }
  { intros o messages. AdapterFacts.fragments; reflexivity. }
Qed.

Lemma C3_witness :
  Js.get (Adapter.normalizeMessage Examples.systemMessage) "role"
  = JStr "developer"
  /\ Forall (fun m => Adapter.systemRole m = false)
       (Adapter.normalizeMessagesForModel (JStr "GPT-5")
          (JArr [Examples.systemMessage] []))
  /\ Js.lookup "temperature"
       (Adapter.bodyOf Examples.directOptions (JArr [Examples.systemMessage] []))
     = JNum (Fin (1 # 2)).
Proof.
  destruct C3_gpt5_family_gate
    as (_ & _ & _ & _ & _ & Hrole & Hnone & _ & _ & Htemp & _).
  split; [|split].
  - apply (Hrole [("role", JStr "system"); ("content", JStr "Be brief.")] "role").
    reflexivity.
  - apply Hnone. reflexivity.
  - apply Htemp; reflexivity.
Defined.

(** ** Token-limit field selection *)

Module TokenFacts.

Lemma max_fin (x y : Q) :
  exists r, JsNum.max (Fin x) (Fin y) = Fin r
            /\ (x <= r)%Q /\ (y <= r)%Q /\ (r = x \/ r = y).
Proof.
  simpl. destruct (Qle_bool x y) eqn:E.
  - exists y. apply Qle_bool_iff in E.
    repeat split; auto. apply Qle_refl.
  - exists x. repeat split; auto; [apply Qle_refl|].
    apply Qlt_le_weak. apply Qnot_le_lt. intros H.
    apply Qle_bool_iff in H. congruence.
Qed.

Lemma gtZero_truthy (n : JsNumber) :
  JsNum.gtZero n = true -> JsNum.truthy n = true.
Proof.
  destruct n as [| | |q]; simpl; try easy.
  intros H. apply negb_true_iff in H. apply negb_true_iff.
  destruct (Qeq_bool q 0) eqn:E; [|reflexivity].
  apply Qeq_bool_iff in E.
  assert (Hle : Qle_bool q 0 = true).
  { apply Qle_bool_iff. rewrite E. apply Qle_refl. }
  congruence.
Qed.

Lemma floor_cases (model effort : JsVal) :
  Ask.defaultMinTokens model effort = 8192%Z
  \/ Ask.defaultMinTokens model effort = 4096%Z.
Proof.
  unfold Ask.defaultMinTokens. destruct (_ && _); auto.
Qed.

Lemma effective_usable (model effort : JsVal) (configured : JsNumber) :
  Adapter.usableNumber (JNum (Ask.effectiveMaxTokens model effort configured))
  = true.
Proof.
  unfold Ask.effectiveMaxTokens. cbv zeta.
  assert (Hfloor : JsNum.truthy (JsNum.ofZ (Ask.defaultMinTokens model effort))
                   = true)
    by (destruct (floor_cases model effort) as [-> | ->]; reflexivity).
  destruct (JsNum.isFinite configured && JsNum.gtZero configured) eqn:E;
    [|exact Hfloor].
  apply andb_true_iff in E. destruct E as [Hf Hp].
  destruct configured as [| | |q]; try discriminate.
  simpl. unfold JsNum.ofZ in *.
  destruct (Qle_bool q _); [exact Hfloor|].
  now apply (gtZero_truthy (Fin q)).
Qed.

End TokenFacts.

(** C4. In the responses dialect (direct routing) the body never has
    [max_tokens] nor [max_completion_tokens], and carries the limit in
    [max_output_tokens] whenever there is a limit to send (a non-zero
    number).  The chat-completions builder puts such a limit in
    [max_completion_tokens] exactly for the gpt-5 family and in [max_tokens]
    otherwise, and in [max_tokens] for every model when the legacy field is
    forced.  The relay routing always forces it: its body never has
    [max_completion_tokens].  The limit the orchestrator passes is always a
    non-zero number. *)
Theorem C4_token_limit_field :
  (forall o messages,
      Js.truthy (Adapter.usePortkey o) = false ->
      Js.has "max_tokens" (Adapter.bodyOf o messages) = false
      /\ Js.has "max_completion_tokens" (Adapter.bodyOf o messages) = false
      /\ Js.has "max_output_tokens" (Adapter.bodyOf o messages)
         = Adapter.usableNumber (Adapter.maxTokensOf o)
      /\ (Adapter.usableNumber (Adapter.maxTokensOf o) = true ->
          Js.lookup "max_output_tokens" (Adapter.bodyOf o messages)
          = Adapter.maxTokensOf o))
  /\ (forall model n force,
        Adapter.usableNumber n = true ->
        Adapter.buildTokenPayload model n
          {| Adapter.forceLegacyMaxTokens := force |}
        = if force then [("max_tokens", n)]
          else if Adapter.isGpt5Model model
               then [("max_completion_tokens", n)]
               else [("max_tokens", n)])
  /\ (forall n, Adapter.usableNumber n = true ->
        Adapter.buildResponsesTokenPayload n = [("max_output_tokens", n)])
  /\ (forall o messages,
        Js.truthy (Adapter.usePortkey o) = true ->
        Js.has "max_completion_tokens" (Adapter.bodyOf o messages) = false
        /\ Js.has "max_output_tokens" (Adapter.bodyOf o messages) = false
        /\ Js.has "max_tokens" (Adapter.bodyOf o messages)
           = Adapter.usableNumber (Adapter.maxTokensOf o)
        /\ (Adapter.usableNumber (Adapter.maxTokensOf o) = true ->
            Js.lookup "max_tokens" (Adapter.bodyOf o messages)
            = Adapter.maxTokensOf o))
  /\ (forall model effort configured,
        Adapter.usableNumber
          (JNum (Ask.effectiveMaxTokens model effort configured)) = true).
Proof.
  split.
  { intros o messages Hp.
    unfold Adapter.bodyOf, Adapter.streamChatRequest. cbv zeta.
    rewrite Hp. simpl negb. cbv iota.
    repeat split; try intros Hu; AdapterFacts.fragments;
      try reflexivity; try discriminate. }
  split.
  { intros model n force Hu. unfold Adapter.buildTokenPayload.
    rewrite Hu. reflexivity. }
  split.
  { intros n Hu. unfold Adapter.buildResponsesTokenPayload. now rewrite Hu. }
  split.
  { intros o messages Hp.
    unfold Adapter.bodyOf, Adapter.streamChatRequest. cbv zeta.
    rewrite Hp. simpl negb. cbv iota.
    repeat split; try intros Hu; AdapterFacts.fragments;
      try reflexivity; try discriminate. }
  exact TokenFacts.effective_usable.
Qed.

Lemma C4_witness :
  Js.has "max_completion_tokens"
    (Adapter.bodyOf Examples.relayOptions (JArr [] [])) = false
  /\ Js.lookup "max_tokens" (Adapter.bodyOf Examples.relayOptions (JArr [] []))
     = JNum (JsNum.ofZ 8192)
  /\ Adapter.buildTokenPayload (JStr "gpt-5-mini") (JNum (JsNum.ofZ 8192))
       {| Adapter.forceLegacyMaxTokens := false |}
     = [("max_completion_tokens", JNum (JsNum.ofZ 8192))]
  /\ Adapter.buildResponsesTokenPayload (JNum (JsNum.ofZ 8192))
     = [("max_output_tokens", JNum (JsNum.ofZ 8192))].
Proof.
  destruct C4_token_limit_field as (_ & Hchat & Hresp & Hrelay & _).
  destruct (Hrelay Examples.relayOptions (JArr [] []) eq_refl)
    as (H1 & _ & _ & H4).
  split; [exact H1|]. split; [exact (H4 eq_refl)|].
  split; [exact (Hchat (JStr "gpt-5-mini") (JNum (JsNum.ofZ 8192)) false
                  eq_refl)|].
  exact (Hresp (JNum (JsNum.ofZ 8192)) eq_refl).
Defined.

(** ** Effective prompt, token ceiling and conversation history *)

Module AskFacts.

Lemma stamp_or_zero (z : Z) : (if (z =? 0)%Z then 0%Z else z) = z.
Proof.
  destruct (Z.eqb_spec z 0); congruence.
Qed.

Lemma resolve_without_prompt (st : Ask.State) (now : Z) (v : JsVal) :
  nonEmpty (Ask.trimmedText v) = false ->
  Ask._resolveEffectivePrompt st now v =
  if nonEmpty (trim (Ask.voiceDraft st))
     && (now - Ask.voiceDraftTimestamp st <=? 600000)%Z
  then trim (Ask.voiceDraft st) else "".
Proof.
  intros H. unfold Ask._resolveEffectivePrompt. cbv zeta.
  rewrite H, stamp_or_zero. reflexivity.
Qed.

Lemma sliceLast_short {A : Type} (n : nat) (l : list A) :
  List.length l <= n -> Ask.sliceLast n l = l.
Proof.
  intros H. unfold Ask.sliceLast.
  replace (List.length l - n) with 0 by lia. reflexivity.
Qed.

Lemma sliceLast_app {A : Type} (pre l : list A) :
  Ask.sliceLast (List.length l) (pre ++ l)%list = l.
Proof.
  unfold Ask.sliceLast. rewrite length_app.
  replace (List.length pre + List.length l - List.length l)
    with (List.length pre) by lia.
  induction pre; simpl; auto.
Qed.

Lemma sliceLast_length {A : Type} (n : nat) (l : list A) :
  List.length (Ask.sliceLast n l) = Nat.min n (List.length l).
Proof.
  unfold Ask.sliceLast. rewrite length_skipn. lia.
Qed.

End AskFacts.



(** C7. With no configured maximum (the setting converts to NaN) the
    effective output-token ceiling of model "gpt-5-mini" at effort "xhigh"
    is 8192, and that of "gpt-4.1" at the same effort is 4096, a model for
    which no reasoning fragment is built.  The floor is 8192 exactly when
    the model id starts, case-insensitively, with "gpt-5" and the effort is
    "high" or "xhigh", and 4096 otherwise; a configured positive finite
    maximum gives the larger of it and the floor, and any other configured
    value gives the floor. *)
Theorem C7_effective_max_tokens :
  Ask.effectiveMaxTokens (JStr "gpt-5-mini") (JStr "xhigh") NaN
  = JsNum.ofZ 8192
  /\ Ask.effectiveMaxTokens (JStr "gpt-4.1") (JStr "xhigh") NaN
     = JsNum.ofZ 4096
  /\ Adapter.buildReasoningPayload (JStr "gpt-4.1") (JStr "xhigh") = []
  /\ (forall m effort,
        Ask.defaultMinTokens (JStr m) effort =
        if startsWith (toLowerCase m) "gpt-5"
           && (Js.isStr effort "high" || Js.isStr effort "xhigh")
        then 8192%Z else 4096%Z)
  /\ (forall model effort,
        Adapter.isString model = false ->
        Ask.defaultMinTokens model effort = 4096%Z)
  /\ (forall model effort q,
        (0 < q)%Q ->
        Ask.effectiveMaxTokens model effort (Fin q)
        = JsNum.max (Fin q) (JsNum.ofZ (Ask.defaultMinTokens model effort))
        /\ exists r,
            Ask.effectiveMaxTokens model effort (Fin q) = Fin r
            /\ (q <= r)%Q
            /\ (inject_Z (Ask.defaultMinTokens model effort) <= r)%Q
            /\ (r = q \/ r = inject_Z (Ask.defaultMinTokens model effort)))
  /\ (forall model effort n,
        JsNum.isFinite n && JsNum.gtZero n = false ->
        Ask.effectiveMaxTokens model effort n
        = JsNum.ofZ (Ask.defaultMinTokens model effort)).
Proof.
  split; [reflexivity|]. split; [reflexivity|]. split; [reflexivity|].
  split; [reflexivity|].
  split.
  { intros model effort H. destruct model; try reflexivity. discriminate. }
  split.
  { intros model effort q Hq.
    assert (Hpos : JsNum.isFinite (Fin q) && JsNum.gtZero (Fin q) = true).
    { simpl. apply negb_true_iff. destruct (Qle_bool q 0) eqn:E; auto.
      apply Qle_bool_iff in E. exfalso. exact (Qlt_not_le _ _ Hq E). }
    unfold Ask.effectiveMaxTokens. cbv zeta. rewrite Hpos.
    split; [reflexivity|]. apply TokenFacts.max_fin. }
  intros model effort n H. unfold Ask.effectiveMaxTokens. cbv zeta.
  now rewrite H.
Qed.

Lemma C7_witness :
  Ask.effectiveMaxTokens (JStr "gpt-5-mini") (JStr "high") (Fin (inject_Z 16000))
  = JsNum.ofZ 16000
  /\ Ask.effectiveMaxTokens (JStr "gpt-5-mini") (JStr "high") (Fin (inject_Z 4096))
     = JsNum.ofZ 8192
  /\ Ask.effectiveMaxTokens (JStr "gpt-5-mini") (JStr "low") (Fin (inject_Z 0))
     = JsNum.ofZ 4096
  /\ Ask.defaultMinTokens JNull (JStr "high") = 4096%Z.
Proof.
  destruct C7_effective_max_tokens as (_ & _ & _ & _ & Hns & Hpos & Hbad).
  split;
    [exact (proj1 (Hpos (JStr "gpt-5-mini") (JStr "high") (inject_Z 16000)
                     eq_refl))|].
  split;
    [exact (proj1 (Hpos (JStr "gpt-5-mini") (JStr "high") (inject_Z 4096)
                     eq_refl))|].
  split;
    [exact (Hbad (JStr "gpt-5-mini") (JStr "low") (Fin (inject_Z 0)) eq_refl)|].
  exact (Hns JNull (JStr "high") eq_refl).
Defined.

(** C10. The prompt-formatting step returns the fixed sentence
    "No conversation history available." for a missing or empty history,
    and otherwise the last 30 entries joined by line feeds: a history of at
    most 30 entries is kept whole, and whatever precedes the last 30 entries
    never reaches the prompt. *)
Theorem C10_history_truncation :
  Ask._formatConversationForPrompt None = "No conversation history available."
  /\ Ask._formatConversationForPrompt (Some [])
     = "No conversation history available."
  /\ (forall x l,
        Ask._formatConversationForPrompt (Some (x :: l))
        = join LF (Ask.sliceLast 30 (x :: l))
        /\ List.length (Ask.sliceLast 30 (x :: l))
           = Nat.min 30 (List.length (x :: l)))
  /\ (forall x l,
        List.length (x :: l) <= 30 ->
        Ask._formatConversationForPrompt (Some (x :: l)) = join LF (x :: l))
  /\ (forall pre l,
        List.length l = 30 ->
        Ask._formatConversationForPrompt (Some (pre ++ l)%list) = join LF l).
Proof.
  split; [reflexivity|]. split; [reflexivity|].
  split.
  { intros x l. split; [reflexivity|]. apply AskFacts.sliceLast_length. }
  split.
  { intros x l H. unfold Ask._formatConversationForPrompt.
    now rewrite AskFacts.sliceLast_short. }
  intros pre l H.
  assert (Hs : Ask.sliceLast 30 (pre ++ l)%list = l)
    by (rewrite <- H; apply AskFacts.sliceLast_app).
  unfold Ask._formatConversationForPrompt. rewrite Hs.
  destruct (pre ++ l)%list eqn:E; [|reflexivity].
  apply app_eq_nil in E. destruct E as [_ ->]. discriminate.
Qed.

Lemma C10_witness :
  Ask._formatConversationForPrompt (Some (Examples.history 2))
  = join LF ["1"; "2"]
  /\ Ask._formatConversationForPrompt
       (Some (Examples.history 5 ++ map ofNat (seq 6 30))%list)
     = join LF (map ofNat (seq 6 30)).
Proof.
  destruct C10_history_truncation as (_ & _ & _ & Hshort & Hlast).
  split.
  - apply (Hshort "1" ["2"]). simpl. lia.
  - apply (Hlast (Examples.history 5) (map ofNat (seq 6 30))). reflexivity.
Defined.

(** ** Stream finalisation *)

Module StreamFacts.
Import Eff Stream Observe.

Lemma persists_app (a b : list Event) :
  persists (a ++ b) = (persists a ++ persists b)%list.
Proof.
  induction a as [|e a IH]; simpl; [reflexivity|].
  destruct e; simpl; now rewrite ?IH.
Qed.

Lemma chats_app (a b : list Event) :
  chats (a ++ b) = (chats a ++ chats b)%list.
Proof.
  induction a as [|e a IH]; simpl; [reflexivity|].
  destruct e; simpl; now rewrite ?IH.
Qed.

Lemma nonEmpty_false (t : string) : nonEmpty t = false -> t = "".
Proof.
  destruct t; [reflexivity|discriminate].
Qed.

(** The steps of the read loop keep every observation that neither the
    session state nor a passive event can change. *)
Section Keeping.

Context {X : Type} (obs : World -> X).

Hypothesis obs_state :
  forall f w, obs (snd (Orch.setState f w)) = obs w.
Hypothesis obs_emit :
  forall e w, passive e = true -> obs (snd (Orch.emit e w)) = obs w.

Lemma keeps_ret {A : Type} (a : A) : Keeps obs (ret a).
Proof. intros l. reflexivity. Qed.

Lemma keeps_throw {A : Type} (e : Error) : Keeps obs (@throw Locals A e).
Proof. intros l. reflexivity. Qed.

Lemma keeps_gets {A : Type} (f : Locals -> A) : Keeps obs (gets f).
Proof. intros l. reflexivity. Qed.

Lemma keeps_bind {A B : Type} (m : M Locals A) (k : A -> M Locals B) :
  Keeps obs m -> (forall a, Keeps obs (k a)) -> Keeps obs (bind m k).
Proof.
  intros Hm Hk l. unfold bind. specialize (Hm l).
  destruct (m l) as [[a|e] l1]; simpl in *; [|exact Hm].
  now rewrite (Hk a l1).
Qed.

Lemma keeps_when (b : bool) (m : M Locals unit) :
  Keeps obs m -> Keeps obs (when b m).
Proof.
  intros H. destruct b; [exact H|apply keeps_ret].
Qed.

Lemma keeps_forEach {A : Type} (f : A -> M Locals unit) (xs : list A) :
  (forall x, Keeps obs (f x)) -> Keeps obs (forEach f xs).
Proof.
  intros H. induction xs as [|x xs IH]; simpl; [apply keeps_ret|].
  apply keeps_bind; auto.
Qed.

Lemma keeps_tryCatch {A : Type} (m : M Locals A) (h : Error -> M Locals A) :
  Keeps obs m -> (forall e, Keeps obs (h e)) -> Keeps obs (tryCatch m h).
Proof.
  intros Hm Hh l. unfold tryCatch. specialize (Hm l).
  destruct (m l) as [[a|e] l1]; simpl in *; [exact Hm|].
  now rewrite (Hh e l1).
Qed.

Lemma keeps_setState (f : Ask.State -> Ask.State) :
  Keeps obs (lift (Orch.setState f)).
Proof. intros l. apply obs_state. Qed.

Lemma keeps_emit (e : Event) :
  passive e = true -> Keeps obs (lift (Orch.emit e)).
Proof. intros H l. now apply obs_emit. Qed.

Lemma keeps_broadcast (env : Env) :
  Keeps obs (lift (Orch._broadcastState env)).
Proof.
  intros l. unfold lift, Orch._broadcastState.
  destruct (windowOpen env); simpl; [|reflexivity].
  now apply obs_emit.
Qed.

Lemma keeps_modify (f : Locals -> Locals) :
  (forall l, world (f l) = world l) -> Keeps obs (modify f).
Proof.
  intros H l. simpl. now rewrite H.
Qed.

Variable JSON_parse : string -> option JsVal.
Variable ToString : JsVal -> string.
Variable env : Env.

Lemma keeps_processLine (line : string) :
  Keeps obs (processLine JSON_parse ToString env line).
Proof.
  unfold processLine. cbv zeta.
  destruct (negb _); [apply keeps_ret|].
  destruct (String.eqb _ "[DONE]"); [apply keeps_ret|].
  destruct (JSON_parse _) as [json|]; [|apply keeps_ret].
  destruct (Js.truthy _); [apply keeps_throw|].
  apply keeps_bind.
  - apply keeps_when. apply keeps_bind; [apply keeps_gets|]. intros full.
    apply keeps_bind; [now apply keeps_modify|]. intros _.
    apply keeps_bind; [apply keeps_setState|]. intros _.
    apply keeps_broadcast.
  - intros _. apply keeps_bind; [apply keeps_gets|]. intros completed.
    apply keeps_when. now apply keeps_modify.
Qed.

Lemma keeps_processChunk (chunk : string) :
  Keeps obs (processChunk JSON_parse ToString env chunk).
Proof.
  unfold processChunk.
  apply keeps_bind; [apply keeps_gets|]. intros buffer.
  apply keeps_bind; [now apply keeps_modify|]. intros _.
  apply keeps_forEach. apply keeps_processLine.
Qed.

Lemma keeps_readLoop (reader : Reader) :
  Keeps obs (readLoop JSON_parse ToString env reader).
Proof.
  induction reader as [|[chunk|e] rest IH]; simpl.
  - apply keeps_ret.
  - apply keeps_bind; [apply keeps_processChunk|]. intros _. exact IH.
  - apply keeps_throw.
Qed.

Lemma keeps_onStreamError (e : Error) : Keeps obs (onStreamError env e).
Proof.
  unfold onStreamError.
  destruct (abortedMeanwhile env); [now apply keeps_emit|].
  apply keeps_bind; [now apply keeps_emit|]. intros _.
  apply keeps_when. now apply keeps_emit.
Qed.

Lemma keeps_streamBody (reader : Reader) :
  Keeps obs (streamBody JSON_parse ToString env reader).
Proof.
  unfold streamBody. apply keeps_tryCatch; [|apply keeps_onStreamError].
  apply keeps_bind; [apply keeps_setState|]. intros _.
  apply keeps_bind; [apply keeps_broadcast|]. intros _.
  apply keeps_readLoop.
Qed.

End Keeping.

Lemma persisted_emit (e : Event) (w : World) :
  passive e = true -> persisted (snd (Orch.emit e w)) = persisted w.
Proof.
  intros H. unfold persisted. simpl. rewrite persists_app.
  destruct e; try discriminate; apply app_nil_r.
Qed.

Lemma requested_emit (e : Event) (w : World) :
  passive e = true -> requested (snd (Orch.emit e w)) = requested w.
Proof.
  intros H. unfold requested. simpl. rewrite chats_app.
  destruct e; try discriminate; simpl; now rewrite app_nil_r.
Qed.

Section Decoder.

Variable JSON_parse : string -> option JsVal.
Variable ToString : JsVal -> string.
Variable env : Env.

Lemma quiet_streamBody (reader : Reader) :
  Keeps persisted (streamBody JSON_parse ToString env reader).
Proof.
  apply keeps_streamBody; [reflexivity|]. intros e w. apply persisted_emit.
Qed.

Lemma offline_streamBody (reader : Reader) :
  Keeps requested (streamBody JSON_parse ToString env reader).
Proof.
  apply keeps_streamBody; [reflexivity|]. intros e w. apply requested_emit.
Qed.

Lemma silent_onStreamError (e : Error) : Silent (onStreamError env e).
Proof.
  intros l. unfold onStreamError.
  destruct (abortedMeanwhile env); [repeat split|].
  destruct (windowOpen env); repeat split.
Qed.

Lemma streamBody_ok (reader : Reader) (l : Locals) :
  fst (streamBody JSON_parse ToString env reader l) = Ok tt.
Proof.
  unfold streamBody, tryCatch.
  match goal with
  | |- fst (match ?x with _ => _ end) = _ => destruct x as [[[]|e] l1]
  end; [reflexivity|].
  apply silent_onStreamError.
Qed.

Lemma finalize_spec (sessionId assistantModel : JsVal) (l : Locals) :
  let full := if nonEmpty (fullResponse l) then fullResponse l
              else completedResponseText l in
  let m := {| sessionId := sessionId; role := "assistant"; content := full;
              model := assistantModel |} in
  let out := finalize env sessionId assistantModel l in
  fst out = Ok tt
  /\ persists (trace (world (snd out)))
     = (persists (trace (world l)) ++ if nonEmpty full then [m] else [])%list
  /\ Ask.currentResponse (state (world (snd out))) = full
  /\ Ask.isStreaming (state (world (snd out))) = false
  /\ (forall e, nonEmpty full = true -> storeFails env m = Some e ->
      In (Log (LogSaveFailed e)) (trace (world (snd out))))
  /\ (nonEmpty full = true -> storeFails env m = None ->
      In (Log LogSaved) (trace (world (snd out))))
  /\ requested (world (snd out)) = requested (world l).
Proof.
  destruct l as [w full buffer completed]. cbv zeta. simpl fullResponse.
  simpl completedResponseText.
  unfold finalize, bind, gets, when, tryCatch, lift, Orch.addAiMessage,
    Orch._broadcastState, when, bind.
  destruct full as [|c r]; [destruct completed as [|c r]|]; simpl.
  - destruct (windowOpen env); simpl;
      unfold requested; simpl;
      rewrite ?persists_app, ?chats_app; simpl; rewrite ?app_nil_r;
      repeat split; try reflexivity; try discriminate.
  - destruct (windowOpen env); simpl;
      destruct (storeFails env _) as [e|] eqn:Es; simpl;
      unfold requested; simpl;
      rewrite ?persists_app, ?chats_app; simpl; rewrite ?app_nil_r;
      repeat split; try reflexivity; try discriminate;
      intros; rewrite ?in_app_iff; simpl;
      try match goal with H : Some _ = Some _ |- _ => injection H as <- end;
      auto 8.
  - destruct (windowOpen env); simpl;
      destruct (storeFails env _) as [e|] eqn:Es; simpl;
      unfold requested; simpl;
      rewrite ?persists_app, ?chats_app; simpl; rewrite ?app_nil_r;
      repeat split; try reflexivity; try discriminate;
      intros; rewrite ?in_app_iff; simpl;
      try match goal with H : Some _ = Some _ |- _ => injection H as <- end;
      auto 8.
Qed.

Lemma readLoop_app (pre rest : Reader) (l : Locals) :
  readLoop JSON_parse ToString env (pre ++ rest)%list l =
  match readLoop JSON_parse ToString env pre l with
  | (Ok _, l1) => readLoop JSON_parse ToString env rest l1
  | (Throw e, l1) => (Throw e, l1)
  end.
Proof.
  revert l. induction pre as [|[chunk|e] pre IH]; intros l; simpl.
  - reflexivity.
  - unfold bind.
    destruct (processChunk JSON_parse ToString env chunk l) as [[[]|e] l1];
      [apply IH|reflexivity].
  - reflexivity.
Qed.

(** What was decoded before a read fails is what the [finally] block sees. *)
Lemma accumulated_until_failure (pre rest : Reader) (e : Error) (w : World) :
  let broken := accumulated JSON_parse ToString env
                  (pre ++ ReadFails e :: rest)%list w in
  let whole := accumulated JSON_parse ToString env pre w in
  fullResponse broken = fullResponse whole
  /\ completedResponseText broken = completedResponseText whole.
Proof.
  cbv zeta. unfold accumulated, streamBody, tryCatch, bind.
  destruct (lift (Orch.setState (Orch.withFlags false true)) (start w))
    as [[[]|e0] l0]; [|split; reflexivity].
  destruct (lift (Orch._broadcastState env) l0) as [[[]|e1] l1];
    [|split; reflexivity].
  rewrite readLoop_app.
  destruct (readLoop JSON_parse ToString env pre l1) as [[[]|e2] l2]; simpl.
  - destruct (silent_onStreamError e l2) as (_ & H1 & H2). now split.
  - split; reflexivity.
Qed.

(** A whole [_processStream] returns normally and makes no request. *)
Lemma processStream_offline (reader : Reader) (sessionId assistantModel : JsVal)
  (w : World) :
  let out := _processStream JSON_parse ToString env reader sessionId
               assistantModel w in
  fst out = Ok tt /\ requested (snd out) = requested w.
Proof.
  cbv zeta. unfold _processStream, processStreamLocals, tryFinally.
  pose proof (streamBody_ok reader (start w)) as Hok.
  pose proof (offline_streamBody reader (start w)) as Hreq.
  destruct (streamBody JSON_parse ToString env reader (start w)) as [r l1].
  simpl in Hok, Hreq. subst r.
  pose proof (finalize_spec sessionId
                (Adapter.orDefault assistantModel (JStr "unknown")) l1) as Hfin.
  cbv zeta in Hfin.
  destruct (finalize env sessionId
              (Adapter.orDefault assistantModel (JStr "unknown")) l1)
    as [[[]|e] l2]; simpl in *;
    destruct Hfin as (Hr & _ & _ & _ & _ & _ & Hq); try discriminate.
  split; [reflexivity|]. now rewrite Hq.
Qed.

End Decoder.

(** The scenario of the specification: the chunks [data: {"delta":"Hel"}],
    [data: {"delta":"lo"}] and [data: [DONE]] persist the text "Hello". *)
Example scenario_hello :
  persists
    (trace (snd (_processStream Examples.parse Examples.toStr Examples.textEnv
                   Examples.helloReader (JStr "session-1") (JStr "gpt-5-mini")
                   Examples.world0)))
  = [Observe.assistantMessage (JStr "session-1") (JStr "gpt-5-mini") "Hello"].
Proof. reflexivity. Qed.

(** A stream without tokens persists its completed snapshot, trimmed. *)
Example scenario_snapshot :
  persists
    (trace (snd (_processStream Examples.parse Examples.toStr Examples.textEnv
                   Examples.snapshotReader (JStr "session-1") JUndefined
                   Examples.world0)))
  = [Observe.assistantMessage (JStr "session-1") JUndefined "Hello"].
Proof. reflexivity. Qed.

End StreamFacts.

(** C1. Whatever the reader yields, [_processStream] returns normally; it
    leaves [isStreaming] off and the final text in [currentResponse], that
    text being the accumulated tokens or, when there are none, the
    completed-text snapshot; it hands that text to the repository exactly
    once when it is not empty and not at all when it is empty; a read that
    fails partway loses nothing of what was decoded before it; and a
    repository failure is logged while the call still returns normally. *)
Theorem C1_stream_finalization :
  forall (JSON_parse : string -> option JsVal) (ToString : JsVal -> string)
         (env : Env) (reader : Reader) (sessionId assistantModel : JsVal)
         (w : World),
    let out := Stream._processStream JSON_parse ToString env reader
                 sessionId assistantModel w in
    let final := Stream.finalText JSON_parse ToString env reader w in
    let m := Observe.assistantMessage sessionId assistantModel final in
    fst out = Ok tt
    /\ Ask.currentResponse (state (snd out)) = final
    /\ Ask.isStreaming (state (snd out)) = false
    /\ Observe.persists (trace (snd out))
       = (Observe.persists (trace w) ++ if nonEmpty final then [m] else [])%list
    /\ (forall e, nonEmpty final = true -> storeFails env m = Some e ->
        In (Log (LogSaveFailed e)) (trace (snd out)))
    /\ (forall pre rest e,
        reader = (pre ++ ReadFails e :: rest)%list ->
        final = Stream.finalText JSON_parse ToString env pre w).
Proof.
  intros JSON_parse ToString env reader sessionId assistantModel w.
  cbv zeta.
  unfold Stream._processStream, Stream.processStreamLocals, Eff.tryFinally,
    Stream.finalText, Stream.accumulated, Observe.assistantMessage.
  pose proof (StreamFacts.streamBody_ok JSON_parse ToString env reader
                (Stream.start w)) as Hok.
  pose proof (StreamFacts.quiet_streamBody JSON_parse ToString env reader
                (Stream.start w)) as Hquiet.
  destruct (Stream.streamBody JSON_parse ToString env reader (Stream.start w))
    as [r l1] eqn:Ebody.
  simpl in Hok, Hquiet. subst r.
  pose proof (StreamFacts.finalize_spec env sessionId
                (Adapter.orDefault assistantModel (JStr "unknown")) l1) as Hfin.
  cbv zeta in Hfin.
  destruct (Stream.finalize env sessionId
              (Adapter.orDefault assistantModel (JStr "unknown")) l1)
    as [[[]|e] l2]; simpl in *;
    destruct Hfin as (Hr & Hp & Hc & Hs & Hf & _); try discriminate.
  unfold Observe.persisted in Hquiet. simpl in Hquiet.
  split; [reflexivity|]. split; [exact Hc|]. split; [exact Hs|].
  split; [now rewrite Hp, Hquiet|]. split; [exact Hf|].
  intros pre rest e ->.
  pose proof (StreamFacts.accumulated_until_failure JSON_parse ToString env
                pre rest e w) as Hacc.
  cbv zeta in Hacc. unfold Stream.accumulated in Hacc.
  rewrite Ebody in Hacc. simpl in Hacc. destruct Hacc as [-> ->].
  reflexivity.
Qed.

Lemma C1_witness :
  In (Log (LogSaveFailed Examples.diskFull))
     (trace (snd (Stream._processStream Examples.parse Examples.toStr
                    Examples.brokenEnv Examples.brokenReader
                    (JStr "session-1") (JStr "gpt-5-mini") Examples.world0)))
  /\ Stream.finalText Examples.parse Examples.toStr Examples.brokenEnv
       Examples.brokenReader Examples.world0
     = Stream.finalText Examples.parse Examples.toStr Examples.brokenEnv
         [Chunk (Examples.frame (Examples.deltaJson "Hel"))] Examples.world0.
Proof.
  pose proof (C1_stream_finalization Examples.parse Examples.toStr
                Examples.brokenEnv Examples.brokenReader
                (JStr "session-1") (JStr "gpt-5-mini") Examples.world0) as H.
  cbv zeta in H. destruct H as (_ & _ & _ & _ & Hlog & Hpre).
  split.
  - apply (Hlog Examples.diskFull); reflexivity.
  - apply (Hpre [Chunk (Examples.frame (Examples.deltaJson "Hel"))]
                [Chunk (Examples.frame (Examples.deltaJson "lo"))]
                {| message := Some "socket hang up" |}).
    reflexivity.
Defined.

(** ** The multimodal fallback *)

Module SendFacts.
Import Eff Send Observe.

Lemma keywords (m : option string) :
  Ask._isMultimodalError m =
  existsb (includes (match m with
                     | Some text => toLowerCase text
                     | None => ""
                     end))
          Ask.MULTIMODAL_KEYWORDS.
Proof.
  unfold Ask._isMultimodalError, Ask.MULTIMODAL_KEYWORDS. cbv zeta.
  simpl existsb. rewrite orb_false_r, !orb_assoc. reflexivity.
Qed.

Lemma carriesImage_messages (systemPrompt userRequest : string)
  (shot : option string) :
  carriesImage (buildMessages systemPrompt userRequest shot) = attached shot.
Proof.
  destruct shot as [[|c r]|]; reflexivity.
Qed.

Section SendMessage.

Variable JSON_parse : string -> option JsVal.
Variable ToString : JsVal -> string.
Variable env : Env.

Lemma streamChat_spec (options : Adapter.LLMOptions) (messages : JsVal)
  (w : World) :
  let out := streamChat env options messages w in
  fst out = network env (calls w) messages
  /\ requested (snd out)
     = (S (calls w), (chats (trace w) ++ [messages])%list).
Proof.
  cbv zeta. unfold streamChat, requested. simpl.
  now rewrite StreamFacts.chats_app.
Qed.

Lemma deliver_spec (reader : Reader) (sessionId model : JsVal) (w : World) :
  let out := deliver JSON_parse ToString env reader sessionId model w in
  (exists r, fst out = Ok r) /\ requested (snd out) = requested w.
Proof.
  cbv zeta. unfold deliver.
  destruct (windowOpen env); simpl.
  - unfold bind.
    destruct (StreamFacts.processStream_offline JSON_parse ToString env
                reader sessionId model w) as [Hok Hreq].
    destruct (Stream._processStream JSON_parse ToString env reader sessionId
                model w) as [[[]|e] w1]; simpl in *; try discriminate.
    split; [now exists Sent|exact Hreq].
  - split; [now eexists|].
    unfold requested. simpl. rewrite !StreamFacts.chats_app. simpl.
    now rewrite !app_nil_r.
Qed.

Lemma retry_spec (options : Adapter.LLMOptions) (sessionId model : JsVal)
  (systemPrompt userRequest : string) (w : World) :
  let textOnly := textOnlyMessages systemPrompt userRequest in
  let out := retry JSON_parse ToString env options sessionId model
               systemPrompt userRequest w in
  requested (snd out) = (S (calls w), (chats (trace w) ++ [textOnly])%list)
  /\ match network env (calls w) textOnly with
     | Ok _ => exists r, fst out = Ok r
     | Throw e => fst out = Throw e
     end.
Proof.
  cbv zeta. unfold retry, bind, Orch.emit, modify, streamChat.
  cbv beta iota.
  set (textOnly := textOnlyMessages systemPrompt userRequest).
  simpl calls. simpl trace. simpl state. simpl abortController. simpl created.
  destruct (network env (calls w) textOnly) as [reader|e].
  - match goal with
    | |- context [deliver _ _ _ reader _ _ ?w1] =>
        destruct (deliver_spec reader sessionId model w1) as [[r Hr] Hq];
        cbv zeta in Hr, Hq;
        destruct (deliver JSON_parse ToString env reader sessionId model w1)
          as [[r'|e'] w2]
    end; simpl in Hr; try discriminate.
    simpl snd in Hq. simpl fst. simpl snd. split; [|now exists r'].
    rewrite Hq. unfold requested. simpl.
    rewrite !StreamFacts.chats_app. simpl. now rewrite app_nil_r.
  - simpl. split; [|reflexivity]. unfold requested. simpl.
    rewrite !StreamFacts.chats_app. simpl. now rewrite app_nil_r.
Qed.

Lemma attempts_spec (options : Adapter.LLMOptions) (sessionId model : JsVal)
  (systemPrompt userRequest : string) (w : World) :
  let messages := buildMessages systemPrompt userRequest (screenshot env) in
  let textOnly := textOnlyMessages systemPrompt userRequest in
  let first := network env (calls w) messages in
  let second := network env (S (calls w)) textOnly in
  let out := attempts JSON_parse ToString env options sessionId model
               systemPrompt userRequest w in
  requested (snd out)
  = (if retried env first then calls w + 2 else calls w + 1,
     (chats (trace w)
        ++ messages :: if retried env first then [textOnly] else [])%list)
  /\ match first with
     | Ok _ => exists r, fst out = Ok r
     | Throw e =>
         if retried env first
         then match second with
              | Ok _ => exists r, fst out = Ok r
              | Throw e2 => fst out = Throw e2
              end
         else fst out = Throw e
     end.
Proof.
  cbv zeta. unfold attempts, tryCatch, bind.
  set (messages := buildMessages systemPrompt userRequest (screenshot env)).
  set (textOnly := textOnlyMessages systemPrompt userRequest).
  destruct (streamChat_spec options messages w) as [H1 R1]. cbv zeta in H1, R1.
  destruct (streamChat env options messages w) as [r1 w1].
  simpl fst in H1. simpl snd in R1.
  rewrite <- H1. destruct r1 as [reader|e]; cbv beta iota.
  - destruct (deliver_spec reader sessionId model w1) as [[r Hr] Hq].
    cbv zeta in Hr, Hq.
    destruct (deliver JSON_parse ToString env reader sessionId model w1)
      as [[r'|e'] w2]; simpl in Hr; try discriminate.
    simpl snd in Hq. simpl fst. simpl snd. rewrite Hq, R1.
    split; [|now exists r']. unfold retried. f_equal. lia.
  - unfold retried.
    destruct (attached (screenshot env)
              && Ask._isMultimodalError (message e)) eqn:Eretry.
    + destruct (retry_spec options sessionId model systemPrompt userRequest w1)
        as [R2 H2].
      cbv zeta in R2, H2. fold textOnly in R2, H2.
      assert (Ecalls : calls w1 = S (calls w))
        by (unfold requested in R1; now injection R1).
      assert (Echats : chats (trace w1) = (chats (trace w) ++ [messages])%list)
        by (unfold requested in R1; now injection R1).
      rewrite Ecalls in R2, H2. rewrite Echats in R2.
      split; [|exact H2].
      rewrite R2, <- app_assoc. simpl. f_equal. lia.
    + simpl. rewrite R1. split; [|reflexivity]. f_equal. lia.
Qed.

Lemma attempts_bound (options : Adapter.LLMOptions) (sessionId model : JsVal)
  (systemPrompt userRequest : string) (w : World) :
  calls (snd (attempts JSON_parse ToString env options sessionId model
                systemPrompt userRequest w)) <= calls w + 2.
Proof.
  destruct (attempts_spec options sessionId model systemPrompt userRequest w)
    as [HR _].
  cbv zeta in HR. unfold requested in HR. injection HR as Hc _.
  rewrite Hc. destruct (retried env _); lia.
Qed.

Lemma request_bound (effectivePrompt : string)
  (history : option (list string)) (w : World) :
  calls (snd (request JSON_parse ToString env effectivePrompt history w))
  <= calls w + 2.
Proof.
  unfold request, bind, when, Orch.addAiMessage, Orch.emit, modify, throw,
    ret, bind.
  cbv beta iota zeta.
  destruct (activeSession env) as [sid|e]; [|cbn [snd calls]; lia].
  destruct (nonEmpty effectivePrompt); cbv beta iota;
    [destruct (storeFails env _); cbv beta iota; [cbn [snd calls]; lia|]|];
    (destruct (modelInfo env) as [[[p m] k]|]; [|cbn [snd calls]; lia]);
    (destruct (Js.truthy k); cbn [negb]; cbv iota; [|cbn [snd calls]; lia]);
    match goal with
    | |- context [attempts _ _ _ ?o ?sid ?m ?sp ?ur ?W] =>
        pose proof (attempts_bound o sid m sp ur W) as Hb;
        cbn [calls] in Hb; exact Hb
    end.
Qed.

Lemma announce_spec (userPrompt : JsVal) (w : World) :
  let out := announce env userPrompt w in
  fst out = Ok (Ask._resolveEffectivePrompt (state w) (now env) userPrompt)
  /\ calls (snd out) = calls w
  /\ abortController (snd out) = Some (created w).
Proof.
  cbv zeta. unfold announce, bind, gets, Orch._broadcastState, when.
  destruct (windowOpen env); repeat split.
Qed.

Lemma onSendError_spec (error : Error) (w : World) :
  let out := onSendError env error w in
  fst out = Ok (NotSent (message error)) /\ calls (snd out) = calls w.
Proof.
  cbv zeta. unfold onSendError, bind, Orch._broadcastState, when.
  destruct (windowOpen env); repeat split.
Qed.

(** [sendMessage] never throws: every error ends in a failure result that
    carries the message of the error; and it asks the model at most twice. *)
Lemma sendMessage_spec (userPrompt : JsVal) (history : option (list string))
  (w : World) :
  let out := sendMessage JSON_parse ToString env userPrompt history w in
  let asked := request JSON_parse ToString env
                 (Ask._resolveEffectivePrompt (state w) (now env) userPrompt)
                 history (snd (announce env userPrompt w)) in
  (exists r, fst out = Ok r)
  /\ calls (snd out) <= calls w + 2
  /\ (forall e, fst asked = Throw e -> fst out = Ok (NotSent (message e))).
Proof.
  cbv zeta. unfold sendMessage, bind, tryCatch.
  destruct (announce_spec userPrompt w) as (Ha & Hc & _). cbv zeta in Ha, Hc.
  destruct (announce env userPrompt w) as [r0 w0]. simpl fst in Ha.
  simpl snd in *. subst r0.
  pose proof (request_bound
                (Ask._resolveEffectivePrompt (state w) (now env) userPrompt)
                history w0) as Hb.
  destruct (request JSON_parse ToString env
              (Ask._resolveEffectivePrompt (state w) (now env) userPrompt)
              history w0) as [[r|e] w1]; simpl fst; simpl snd in *.
  - split; [now exists r|]. split; [now rewrite <- Hc|]. discriminate.
  - destruct (onSendError_spec e w1) as [Hr Hk]. cbv zeta in Hr, Hk.
    destruct (onSendError env e w1) as [r2 w2]. simpl in Hr, Hk. subst r2.
    simpl fst. simpl snd.
    split; [now eexists|]. split; [now rewrite Hk, <- Hc|].
    now intros e' [= <-].
Qed.

End SendMessage.

End SendFacts.

(** C8. The request goes out with the image exactly when a screenshot is
    attached; the text-only message list carries no image: it is the system
    message followed by one user message whose content is the plain string
    "User Request: " and the request, and nothing else.  When the first
    request fails, the text-only retry is made exactly when a screenshot is
    attached and the lower-cased error message contains one of vision,
    image, multimodal, unsupported, image_url, 400, invalid, not supported.
    The model is asked once, or twice when there is a retry, and never
    more: a failure of the retry is thrown on.  A failure without an
    attached screenshot, or with a message that matches no keyword, is
    thrown on after the single request, and [sendMessage] turns it into a
    failure result with that message. *)
Theorem C8_multimodal_fallback :
  forall (JSON_parse : string -> option JsVal) (ToString : JsVal -> string)
         (env : Env) (options : Adapter.LLMOptions) (sessionId model : JsVal)
         (systemPrompt userRequest : string) (w : World),
    let messages :=
      Send.buildMessages systemPrompt userRequest (screenshot env) in
    let textOnly := Send.textOnlyMessages systemPrompt userRequest in
    let first := network env (calls w) messages in
    let out := Send.attempts JSON_parse ToString env options sessionId model
                 systemPrompt userRequest w in
    Send.carriesImage messages = Send.attached (screenshot env)
    /\ Send.carriesImage textOnly = false
    /\ Send.retried env first
       = match first with
         | Throw e =>
             Send.attached (screenshot env)
             && existsb (includes (match message e with
                                   | Some text => toLowerCase text
                                   | None => ""
                                   end))
                        ["vision"; "image"; "multimodal"; "unsupported";
                         "image_url"; "400"; "invalid"; "not supported"]
         | Ok _ => false
         end
    /\ Observe.requested (snd out)
       = (if Send.retried env first then calls w + 2 else calls w + 1,
          (Observe.chats (trace w)
             ++ messages :: if Send.retried env first then [textOnly] else [])
          %list)
    /\ (forall e, first = Throw e -> Send.retried env first = false ->
        fst out = Throw e)
    /\ (forall e, first = Throw e -> Send.attached (screenshot env) = false ->
        fst out = Throw e
        /\ Observe.requested (snd out)
           = (calls w + 1, (Observe.chats (trace w) ++ [messages])%list))
    /\ (forall e e2, first = Throw e -> Send.retried env first = true ->
        network env (S (calls w)) textOnly = Throw e2 -> fst out = Throw e2)
    /\ (forall userPrompt history w0,
        let sent := Send.sendMessage JSON_parse ToString env userPrompt
                      history w0 in
        (exists r, fst sent = Ok r) /\ calls (snd sent) <= calls w0 + 2)
    /\ textOnly
       = JArr [JObj [("role", JStr "system"); ("content", JStr systemPrompt)];
               JObj [("role", JStr "user");
                     ("content", JStr ("User Request: " ++ userRequest))]] []
    /\ messages
       = JArr [JObj [("role", JStr "system"); ("content", JStr systemPrompt)];
               JObj [("role", JStr "user");
                     ("content",
                      JArr (JObj [("type", JStr "text");
                                  ("text",
                                   JStr ("User Request: " ++ userRequest))]
                              :: match screenshot env with
                                 | Some base64 =>
                                     if nonEmpty base64
                                     then [JObj
                                             [("type", JStr "image_url");
                                              ("image_url",
                                               JObj
                                                 [("url",
                                                   JStr
                                                     ("data:image/jpeg;base64,"
                                                        ++ base64))])]]
                                     else []
                                 | None => []
                                 end) [])]] [].
Proof.
  intros JSON_parse ToString env options sessionId model systemPrompt
    userRequest w.
  cbv zeta.
  destruct (SendFacts.attempts_spec JSON_parse ToString env options sessionId
              model systemPrompt userRequest w) as [HR HF].
  cbv zeta in HR, HF.
  split; [apply SendFacts.carriesImage_messages|].
  split; [reflexivity|].
  split.
  { unfold Send.retried. destruct (network env _ _) as [r|e]; [reflexivity|].
    now rewrite SendFacts.keywords. }
  split; [exact HR|].
  split.
  { intros e He Hn. rewrite He in HF, Hn. now rewrite Hn in HF. }
  split.
  { intros e He Ha.
    assert (Hn : Send.retried env
                   (network env (calls w)
                      (Send.buildMessages systemPrompt userRequest
                         (screenshot env))) = false)
      by (rewrite He; unfold Send.retried; now rewrite Ha).
    rewrite HR, Hn. rewrite He in HF, Hn. rewrite Hn in HF. now split. }
  split.
  { intros e e2 He Hy H2. rewrite He in HF, Hy. rewrite Hy in HF.
    now rewrite H2 in HF. }
  split.
  { intros userPrompt history w0.
    destruct (SendFacts.sendMessage_spec JSON_parse ToString env userPrompt
                history w0) as (H1 & H2 & _).
    now split. }
  split; reflexivity.
Qed.


Lemma C8_witness :
  fst (Send.attempts Examples.parse Examples.toStr Examples.textEnv
         Examples.someOptions (JStr "session-1") (JStr "gpt-5-mini")
         "You are helpful." "hi" Examples.world0)
  = Throw {| message := Some "fetch failed" |}
  /\ Observe.requested
       (snd (Send.attempts Examples.parse Examples.toStr Examples.textEnv
               Examples.someOptions (JStr "session-1") (JStr "gpt-5-mini")
               "You are helpful." "hi" Examples.world0))
     = (1, [Send.buildMessages "You are helpful." "hi" None])
  /\ fst (Send.attempts Examples.parse Examples.toStr Examples.deadEnv
            Examples.someOptions (JStr "session-1") (JStr "gpt-5-mini")
            "You are helpful." "hi" Examples.world0)
     = Throw {| message := Some "Model does not accept Image input" |}.
Proof.
  destruct (C8_multimodal_fallback Examples.parse Examples.toStr
              Examples.textEnv Examples.someOptions (JStr "session-1")
              (JStr "gpt-5-mini") "You are helpful." "hi" Examples.world0)
    as (_ & _ & _ & _ & _ & Htext & _).
  destruct (C8_multimodal_fallback Examples.parse Examples.toStr
              Examples.deadEnv Examples.someOptions (JStr "session-1")
              (JStr "gpt-5-mini") "You are helpful." "hi" Examples.world0)
    as (_ & _ & _ & _ & _ & _ & Hretry & _).
  split; [|split].
  - apply (Htext {| message := Some "fetch failed" |}); reflexivity.
  - apply (Htext {| message := Some "fetch failed" |}); reflexivity.
  - apply (Hretry {| message := Some "Model does not accept Image input" |}
                  {| message := Some "Model does not accept Image input" |});
      reflexivity.
Defined.

(** ** Inbound frames of the transcription session *)

Module SttFacts.

Lemma object_test (msg : JsVal) :
  negb (Js.truthy msg) || negb (Js.typeofObject msg)
  = negb (Js.isObjectLike msg).
Proof.
  destruct msg as [| |b|n|t|l extra|ps]; simpl; try reflexivity.
  - now destruct b.
  - now destruct (JsNum.truthy n).
  - now destruct (nonEmpty t).
Qed.

Lemma tagged (msg : JsVal) :
  Js.isObjectLike msg = true ->
  Js.get (STT.tagProvider msg) "provider" = JStr "openai".
Proof.
  destruct msg; try discriminate; intros _; simpl;
    now rewrite AdapterFacts.lookup_set.
Qed.

Lemma tagged_rest (msg : JsVal) (k : string) :
  String.eqb k "provider" = false ->
  Js.get (STT.tagProvider msg) k = Js.get msg k.
Proof.
  intros H. destruct msg; try reflexivity; simpl;
    now rewrite AdapterFacts.lookup_set, H.
Qed.

End SttFacts.

(** C9. The inbound handler of the transcription socket calls back for no
    empty payload, no payload "null" and no payload "[DONE]"; it calls back
    for no payload that [JSON.parse] rejects nor for one that parses to
    something other than an object (arrays count as objects, [null] does
    not); and for every other payload it calls the registered callback once,
    with the parsed message whose [provider] is set to "openai" and whose
    other properties are untouched.  Whatever reaches the callback is so
    tagged. *)
Theorem C9_inbound_frame_filter :
  forall (JSON_parse : string -> option JsVal) (hasCallback : bool),
    STT.onmessage JSON_parse hasCallback "" = []
    /\ STT.onmessage JSON_parse hasCallback "null" = []
    /\ STT.onmessage JSON_parse hasCallback "[DONE]" = []
    /\ (forall data,
          JSON_parse data = None ->
          STT.onmessage JSON_parse hasCallback data = [])
    /\ (forall data msg,
          JSON_parse data = Some msg ->
          Js.isObjectLike msg = false ->
          STT.onmessage JSON_parse hasCallback data = [])
    /\ (forall data msg,
          nonEmpty data = true ->
          String.eqb data "null" = false ->
          String.eqb data "[DONE]" = false ->
          JSON_parse data = Some msg ->
          Js.isObjectLike msg = true ->
          STT.onmessage JSON_parse true data = [STT.tagProvider msg]
          /\ STT.onmessage JSON_parse false data = []
          /\ Js.get (STT.tagProvider msg) "provider" = JStr "openai"
          /\ (forall k, String.eqb k "provider" = false ->
                Js.get (STT.tagProvider msg) k = Js.get msg k))
    /\ (forall data m,
          In m (STT.onmessage JSON_parse hasCallback data) ->
          Js.get m "provider" = JStr "openai").
Proof.
  intros JSON_parse hasCallback.
  split; [reflexivity|]. split; [reflexivity|]. split; [reflexivity|].
  split.
  { intros data H. unfold STT.onmessage. rewrite H.
    now destruct (_ || _ || _). }
  split.
  { intros data msg H Hobj. unfold STT.onmessage.
    rewrite H, SttFacts.object_test, Hobj. now destruct (_ || _ || _). }
  split.
  { intros data msg Hne Hnull Hdone H Hobj. unfold STT.onmessage.
    rewrite Hne, Hnull, Hdone, H, SttFacts.object_test, Hobj. simpl.
    repeat split.
    - now apply SttFacts.tagged.
    - intros k Hk. now apply SttFacts.tagged_rest. }
  intros data m. unfold STT.onmessage.
  destruct (_ || _ || _); [intros []|].
  destruct (JSON_parse data) as [msg|]; [|intros []].
  rewrite SttFacts.object_test.
  destruct (Js.isObjectLike msg) eqn:Hobj; simpl; [|intros []].
  destruct hasCallback; [|intros []].
  intros [<-|[]]. now apply SttFacts.tagged.
Qed.

Lemma C9_witness :
  STT.onmessage Examples.parse true "7" = []
  /\ STT.onmessage Examples.parse true "{oops" = []
  /\ STT.onmessage Examples.parse true "{}"
     = [JObj [("provider", JStr "openai")]]
  /\ STT.onmessage Examples.parse true "[]"
     = [JArr [] [("provider", JStr "openai")]].
Proof.
  destruct (C9_inbound_frame_filter Examples.parse true)
    as (_ & _ & _ & Hbad & Hprim & Hobj & _).
  split; [exact (Hprim "7" (JNum (JsNum.ofZ 7)) eq_refl eq_refl)|].
  split; [exact (Hbad "{oops" eq_refl)|].
  split.
  - exact (proj1 (Hobj "{}" (JObj []) eq_refl eq_refl eq_refl eq_refl eq_refl)).
  - exact (proj1 (Hobj "[]" (JArr [] []) eq_refl eq_refl eq_refl eq_refl
                    eq_refl)).
Defined.

(** ** Calls in flight *)

Module FlightFacts.
Import Flight.

Lemma update_same {A : Type} (f : nat -> A) (i : nat) (a : A) :
  update f i a i = a.
Proof.
  unfold update. now rewrite Nat.eqb_refl.
Qed.

Lemma update_other {A : Type} (f : nat -> A) (i j : nat) (a : A) :
  j <> i -> update f i a j = f j.
Proof.
  intros H. unfold update. apply Nat.eqb_neq in H. now rewrite H.
Qed.

Lemma member_app (r : nat) (l l' : list nat) :
  member r (l ++ l') = member r l || member r l'.
Proof.
  unfold member. apply existsb_app.
Qed.

Lemma started (s : Sys) (t : nat) :
  Inv s -> phaseOf s t <> Finished -> t < launched s.
Proof.
  intros I H. destruct (Nat.lt_ge_cases t (launched s)) as [Hlt|Hge]; [exact Hlt|].
  now apply (inv_task s I) in Hge.
Qed.

(** After the abort of the current controller no controller is live. *)
Lemma abortCurrent_spec (s : Sys) :
  Inv s ->
  let s1 := abortCurrent s in
  (forall c, c < controllers s -> aborted s1 c = true)
  /\ (forall r, cancelled s1 r
                = cancelled s r
                  || match slot s with
                     | Some c => member r (listeners s c)
                     | None => false
                     end)
  /\ listeners s1 = listeners s /\ controllers s1 = controllers s
  /\ pending s1 = pending s /\ readers s1 = readers s
  /\ signalOf s1 = signalOf s /\ phaseOf s1 = phaseOf s
  /\ launched s1 = launched s /\ tokens s1 = tokens s.
Proof.
  intros I. cbv zeta. unfold abortCurrent.
  destruct (slot s) as [c|] eqn:Es.
  - destruct (inv_slot s I c Es) as [Hc Ha]. unfold abort. rewrite Ha. simpl.
    repeat split.
    intros c' Hc'. destruct (Nat.eq_dec c' c) as [->|Hne].
    + apply update_same.
    + rewrite update_other by exact Hne.
      apply (inv_rest s I); [exact Hc'|]. rewrite Es. congruence.
  - repeat split.
    + intros c Hc. apply (inv_rest s I); [exact Hc|]. rewrite Es. discriminate.
    + intros r. now rewrite orb_false_r.
Qed.

Lemma inv_initial : Inv initial.
Proof.
  constructor; simpl; try discriminate; try lia; auto.
Qed.

Lemma inv_callSend (s : Sys) : Inv s -> Inv (callSend s).
Proof.
  intros I.
  destruct (abortCurrent_spec s I)
    as (Hab & Hcan & Hl & Hc & Hp & Hr & Hs & Hph & Ht & Htok).
  cbv zeta in *. unfold callSend. cbv zeta.
  rewrite Hl, Hc, Hp, Hr, Hs, Hph, Ht, Htok.
  constructor; simpl.
  - intros c [= <-]. split; [lia|apply update_same].
  - intros c Hlt Hne.
    assert (c <> controllers s) by congruence.
    rewrite update_other by assumption. apply Hab. lia.
  - intros t Hlt. destruct (Nat.eq_dec t (launched s)) as [->|Hne].
    + rewrite update_same. lia.
    + rewrite update_other by exact Hne.
      assert (t < launched s) by lia.
      pose proof (inv_signal s I t H). lia.
  - intros t Hge. rewrite update_other by lia. apply (inv_task s I). lia.
  - intros t r. destruct (Nat.eq_dec t (launched s)) as [->|Hne].
    + rewrite update_same. discriminate.
    + rewrite update_other by exact Hne. apply (inv_reader s I).
  - intros t r. destruct (Nat.eq_dec t (launched s)) as [->|Hne].
    + rewrite update_same. discriminate.
    + rewrite !(update_other _ (launched s) t) by exact Hne.
      intros Hph' Hlive.
      assert (Hlt : t < launched s)
        by (apply started; [exact I|rewrite Hph'; discriminate]).
      pose proof (inv_signal s I t Hlt) as Hsig.
      rewrite update_other in Hlive by lia.
      rewrite (Hab _ Hsig) in Hlive. discriminate.
Qed.

Lemma inv_callClose (s : Sys) : Inv s -> Inv (callClose s).
Proof.
  intros I.
  destruct (abortCurrent_spec s I)
    as (Hab & Hcan & Hl & Hc & Hp & Hr & Hs & Hph & Ht & Htok).
  cbv zeta in *. unfold callClose. cbv zeta.
  rewrite Hl, Hc, Hp, Hr, Hs, Hph, Ht, Htok.
  constructor; simpl.
  - discriminate.
  - intros c Hlt _. now apply Hab.
  - apply (inv_signal s I).
  - apply (inv_task s I).
  - apply (inv_reader s I).
  - intros t r Hph' Hlive.
    assert (Hlt : t < launched s)
      by (apply started; [exact I|rewrite Hph'; discriminate]).
    rewrite (Hab _ (inv_signal s I t Hlt)) in Hlive. discriminate.
Qed.

Lemma inv_respond (t : nat) (stream : list string) (s : Sys) :
  Inv s -> Inv (respond t stream s).
Proof.
  intros I. unfold respond.
  destruct (phaseOf s t) eqn:Eph; try exact I.
  assert (Hlt : t < launched s)
    by (apply started; [exact I|rewrite Eph; discriminate]).
  constructor; simpl.
  - apply (inv_slot s I).
  - apply (inv_rest s I).
  - apply (inv_signal s I).
  - intros t' Hge. rewrite update_other by lia. now apply (inv_task s I).
  - intros t' r. destruct (Nat.eq_dec t' t) as [->|Hne].
    + rewrite update_same. intros [= <-]. lia.
    + rewrite update_other by exact Hne. intros H.
      pose proof (inv_reader s I t' r H). lia.
  - intros t' r. destruct (Nat.eq_dec t' t) as [->|Hne].
    + rewrite !update_same. intros [= <-] _.
      rewrite member_app. simpl. rewrite Nat.eqb_refl.
      now rewrite orb_true_r.
    + rewrite update_other by exact Hne. intros H Hlive.
      pose proof (inv_listener s I t' r H Hlive) as Hm.
      destruct (Nat.eq_dec (signalOf s t') (signalOf s t)) as [Heq|Hd].
      * rewrite Heq, update_same, member_app. rewrite Heq in Hm.
        now rewrite Hm.
      * now rewrite update_other by exact Hd.
Qed.

Lemma inv_read (t : nat) (s : Sys) : Inv s -> Inv (read t s).
Proof.
  intros I. unfold read.
  destruct (phaseOf s t) as [|r|] eqn:Eph; try exact I.
  destruct (if cancelled s r then [] else pending s r) as [|token rest].
  - constructor; simpl.
    + apply (inv_slot s I).
    + apply (inv_rest s I).
    + apply (inv_signal s I).
    + intros t' Hge. destruct (Nat.eq_dec t' t) as [->|Hne].
      * apply update_same.
      * rewrite update_other by exact Hne. now apply (inv_task s I).
    + intros t' r'. destruct (Nat.eq_dec t' t) as [->|Hne].
      * rewrite update_same. discriminate.
      * rewrite update_other by exact Hne. apply (inv_reader s I).
    + intros t' r'. destruct (Nat.eq_dec t' t) as [->|Hne].
      * rewrite update_same. discriminate.
      * rewrite update_other by exact Hne. apply (inv_listener s I).
  - constructor; simpl.
    + apply (inv_slot s I).
    + apply (inv_rest s I).
    + apply (inv_signal s I).
    + apply (inv_task s I).
    + apply (inv_reader s I).
    + apply (inv_listener s I).
Qed.

Lemma inv_step (s : Sys) (a : Step) : Inv s -> Inv (step s a).
Proof.
  destruct a; simpl.
  - apply inv_callSend.
  - apply inv_callClose.
  - apply inv_respond.
  - apply inv_read.
Qed.

Lemma inv_run (steps : list Step) (s : Sys) : Inv s -> Inv (run s steps).
Proof.
  revert s. induction steps as [|a steps IH]; intros s I; simpl; [exact I|].
  apply IH. now apply inv_step.
Qed.

(** At most one controller is live, and it is [this.abortController]. *)
Lemma live_is_current (s : Sys) (c : nat) :
  Inv s -> In c (live s) -> slot s = Some c.
Proof.
  intros I H. unfold live in H. apply filter_In in H. destruct H as [Hin Hl].
  apply in_seq in Hin. apply negb_true_iff in Hl.
  destruct (slot s) as [c'|] eqn:Es.
  - destruct (Nat.eq_dec c c') as [->|Hne]; [reflexivity|].
    rewrite (inv_rest s I c) in Hl; [discriminate|lia|].
    rewrite Es. congruence.
  - rewrite (inv_rest s I c) in Hl; [discriminate|lia|].
    rewrite Es. discriminate.
Qed.

Lemma one_live_controller (steps : list Step) (c1 c2 : nat) :
  In c1 (live (run initial steps)) -> In c2 (live (run initial steps)) ->
  c1 = c2.
Proof.
  intros H1 H2.
  pose proof (inv_run steps initial inv_initial) as I.
  apply (live_is_current _ _ I) in H1. apply (live_is_current _ _ I) in H2.
  congruence.
Qed.

(** [sendMessage] aborts the controller it finds before it installs its
    own, which is new and live. *)
Lemma callSend_supersedes (s : Sys) (c : nat) :
  Inv s -> slot s = Some c ->
  aborted (callSend s) c = true
  /\ slot (callSend s) = Some (controllers s)
  /\ aborted (callSend s) (controllers s) = false
  /\ c <> controllers s.
Proof.
  intros I Es.
  destruct (abortCurrent_spec s I) as (Hab & _ & _ & Hc & _).
  cbv zeta in *. destruct (inv_slot s I c Es) as [Hlt _].
  unfold callSend. cbv zeta. simpl. rewrite Hc.
  repeat split.
  - rewrite update_other by lia. now apply Hab.
  - apply update_same.
  - lia.
Qed.

Lemma tokensOf_app (t : nat) (s : Sys) (t' : nat) (token : string)
  (l : list (nat * string)) :
  tokens s = (l ++ [(t', token)])%list -> t' <> t ->
  tokensOf t s = map snd (filter (fun e => Nat.eqb (fst e) t) l).
Proof.
  intros H Hne. unfold tokensOf. rewrite H, filter_app. simpl.
  apply Nat.eqb_neq in Hne. rewrite Hne. now rewrite app_nil_r.
Qed.

Lemma silenced_abortCurrent (t : nat) (s : Sys) :
  Silenced t s ->
  Silenced t (abortCurrent s) /\ tokens (abortCurrent s) = tokens s
  /\ launched (abortCurrent s) = launched s
  /\ phaseOf (abortCurrent s) = phaseOf s
  /\ readers (abortCurrent s) = readers s.
Proof.
  intros [Hlt H]. unfold abortCurrent, abort, Silenced.
  destruct (slot s) as [c|]; [|repeat split; assumption].
  destruct (aborted s c); [repeat split; assumption|]. simpl.
  repeat split; try assumption.
  destruct (phaseOf s t) as [|r|]; try assumption.
  destruct H as [Hr Hc]. split; [exact Hr|]. now rewrite Hc.
Qed.

Lemma silenced_step (t : nat) (s : Sys) (a : Step) :
  Silenced t s ->
  Silenced t (step s a) /\ tokensOf t (step s a) = tokensOf t s.
Proof.
  intros H. destruct a as [| |t' stream|t']; simpl.
  - destruct (silenced_abortCurrent t s H) as ([Hlt Hp] & Htok & Ht & Hph & Hr).
    unfold callSend, Silenced, tokensOf. cbv zeta. simpl.
    rewrite Htok. split; [|reflexivity].
    split; [lia|]. now rewrite update_other by lia.
  - destruct (silenced_abortCurrent t s H) as ([Hlt Hp] & Htok & Ht & Hph & Hr).
    unfold callClose, Silenced, tokensOf. cbv zeta. simpl.
    rewrite Htok. now split.
  - destruct H as [Hlt Hp]. unfold respond.
    destruct (phaseOf s t') eqn:Eph; try (split; [now split|reflexivity]).
    assert (Hne : t <> t').
    { intros ->. now rewrite Eph in Hp. }
    unfold Silenced, tokensOf. simpl. split; [|reflexivity].
    split; [exact Hlt|]. rewrite update_other by exact Hne.
    destruct (phaseOf s t) as [|r|]; try assumption.
    destruct Hp as [Hr Hc]. split; [lia|].
    now rewrite update_other by lia.
  - pose proof H as [Hlt Hp]. unfold read.
    destruct (phaseOf s t') as [|r'|] eqn:Eph; try (split; [exact H|reflexivity]).
    destruct (Nat.eq_dec t' t) as [->|Hne].
    + rewrite Eph in Hp. destruct Hp as [Hr Hc]. rewrite Hc.
      unfold Silenced, tokensOf. simpl. rewrite update_same.
      now repeat split.
    + destruct (if cancelled s r' then [] else pending s r') as [|token rest].
      * unfold Silenced, tokensOf. simpl.
        rewrite update_other by congruence. now repeat split.
      * split.
        -- unfold Silenced. simpl. now split.
        -- now apply (tokensOf_app t _ t' token (tokens s)).
Qed.

Lemma silenced_run (t : nat) (steps : list Step) (s : Sys) :
  Silenced t s -> tokensOf t (run s steps) = tokensOf t s.
Proof.
  revert s. induction steps as [|a steps IH]; intros s H; simpl;
    [reflexivity|].
  destruct (silenced_step t s a H) as [H' Heq].
  now rewrite (IH _ H'), Heq.
Qed.

(** A call that streams when the next [sendMessage] arrives is silenced by
    it: its reader is cancelled, and whatever happens afterwards it
    broadcasts no further token. *)
Lemma streaming_call_is_silenced (s : Sys) (t r : nat) (steps : list Step) :
  Inv s ->
  slot s = Some (signalOf s t) ->
  phaseOf s t = Streaming r ->
  cancelled (callSend s) r = true
  /\ tokensOf t (run (callSend s) steps) = tokensOf t s.
Proof.
  intros I Es Eph.
  destruct (inv_slot s I _ Es) as [_ Hlive].
  pose proof (inv_listener s I t r Eph Hlive) as Hm.
  pose proof (inv_reader s I t r Eph) as Hr.
  assert (Hlt : t < launched s)
    by (apply started; [exact I|rewrite Eph; discriminate]).
  destruct (abortCurrent_spec s I)
    as (_ & Hcan & _ & _ & _ & Hrd & _ & Hph & Ht & Htok).
  cbv zeta in *.
  assert (Hc : cancelled (callSend s) r = true).
  { unfold callSend. cbv zeta. simpl. rewrite Hcan, Es, Hm.
    apply orb_true_r. }
  split; [exact Hc|].
  rewrite silenced_run.
  - unfold tokensOf, callSend. cbv zeta. simpl. now rewrite Htok.
  - unfold Silenced. split.
    + unfold callSend. cbv zeta. simpl. lia.
    + assert (Hph' : phaseOf (callSend s) t = Streaming r).
      { unfold callSend. cbv zeta. simpl. rewrite Ht, Hph.
        rewrite update_other by lia. exact Eph. }
      rewrite Hph'. split; [|exact Hc].
      unfold callSend. cbv zeta. simpl. now rewrite Hrd.
Qed.

(** The same two calls when the first one already streams: its second
    token is never broadcast. *)
Example late_supersede_is_silent :
  tokensOf 0 (run initial lateSupersede) = ["Hel"]
  /\ cancelled (run initial lateSupersede) 0 = true.
Proof. split; reflexivity. Qed.

End FlightFacts.

(** C2. A second [sendMessage] that arrives before the response of the
    first one does abort the controller of the first call and installs its
    own; but the first call registers the listener that cancels its reader
    only when its response arrives, on a signal that is aborted by then and
    never runs it: the reader of the superseded call is not cancelled, and
    its tokens are broadcast after the abort. *)
Theorem C2_superseded_call_still_broadcasts :
  let s := Flight.run Flight.initial Flight.earlySupersede in
  Flight.slot s = Some 1
  /\ Flight.live s = [1]
  /\ Flight.signalOf s 0 = 0
  /\ Flight.aborted s 0 = true
  /\ Flight.cancelled s 0 = false
  /\ Flight.tokensOf 0 (Flight.run Flight.initial [Flight.CallSend; Flight.CallSend])
     = []
  /\ Flight.tokensOf 0 s = ["Hel"; "lo"].
Proof.
  cbv zeta. repeat split.
Qed.

(* ================================================================== *)
(** * Further properties of the code *)

(** ** Strings *)

Module TextFacts.

Lemma append_assoc (a b c : string) : (a ++ b) ++ c = a ++ (b ++ c).
Proof.
  induction a as [|x a IH]; simpl; [reflexivity|]. now rewrite IH.
Qed.


Lemma trimEnd_idem (s : string) : trimEnd (trimEnd s) = trimEnd s.
Proof.
  induction s as [|c r IH]; simpl; [reflexivity|].
  destruct (trimEnd r) as [|c' t] eqn:E.
  - destruct (isWhite c) eqn:W; simpl; [reflexivity|]. now rewrite W.
  - simpl in IH. simpl.
    destruct (trimEnd t) as [|c2 t2] eqn:E2.
    + destruct (isWhite c') eqn:W'; [discriminate|]. now rewrite IH.
    + now rewrite IH.
Qed.

(** A text that does not begin with white space. *)
Lemma trimStart_fixed (s : string) :
  match s with
  | EmptyString => True
  | String c _ => isWhite c = false
  end ->
  trimStart (trimEnd s) = trimEnd s.
Proof.
  destruct s as [|c r]; simpl; intros W; [reflexivity|].
  destruct (trimEnd r); rewrite ?W; simpl; now rewrite W.
Qed.

Lemma trimStart_head (s : string) :
  match trimStart s with
  | EmptyString => True
  | String c _ => isWhite c = false
  end.
Proof.
  induction s as [|c r IH]; simpl; [exact I|].
  destruct (isWhite c) eqn:W; [exact IH|exact W].
Qed.

Lemma trim_idem (s : string) : trim (trim s) = trim s.
Proof.
  unfold trim. rewrite trimStart_fixed by apply trimStart_head.
  apply trimEnd_idem.
Qed.







End TextFacts.

(** ** Decoding and encoding in the payload adapter *)

Module DecodeFacts.
Import Adapter.

Lemma completed_trimmed (e : JsVal) :
  trim (Stream._extractCompletedTextFromStreamEvent e)
  = Stream._extractCompletedTextFromStreamEvent e.
Proof.
  unfold Stream._extractCompletedTextFromStreamEvent.
  destruct (negb (Js.isObjectLike e)); [reflexivity|]. cbv zeta.
  destruct (negb (Js.isObjectLike (Js.get e "response"))); [reflexivity|].
  destruct (Js.get (Js.get e "response") "output_text");
    apply TextFacts.trim_idem.
Qed.

Lemma textContent_trimmed (c : JsVal) :
  trim (Decode.extractTextContent c) = Decode.extractTextContent c.
Proof.
  destruct c; simpl; try reflexivity; apply TextFacts.trim_idem.
Qed.

Lemma responses_trimmed (r : JsVal) :
  trim (Decode.extractAssistantContentFromResponses r)
  = Decode.extractAssistantContentFromResponses r.
Proof.
  unfold Decode.extractAssistantContentFromResponses.
  destruct (negb (Js.isObjectLike r)); [reflexivity|]. cbv zeta.
  destruct (Js.get r "output_text"); try apply TextFacts.trim_idem;
    (destruct (nonEmpty _);
     [apply TextFacts.trim_idem|apply textContent_trimmed]).
Qed.

Lemma role_idem (r : JsVal) :
  normalizeResponsesRole (normalizeResponsesRole r) = normalizeResponsesRole r.
Proof.
  unfold normalizeResponsesRole.
  destruct (Js.isStr r "assistant" || Js.isStr r "system"
            || Js.isStr r "developer") eqn:E; [now rewrite E|reflexivity].
Qed.

Lemma role_shape (r : JsVal) : Shape.role (normalizeResponsesRole r) = true.
Proof.
  unfold normalizeResponsesRole, Shape.role.
  destruct (Js.isStr r "assistant" || Js.isStr r "system"
            || Js.isStr r "developer") eqn:E; [now rewrite E|reflexivity].
Qed.

Lemma part_result (p : JsVal) :
  normalizeResponsesContentPart p = JNull
  \/ exists v, isString v = true
       /\ (normalizeResponsesContentPart p = inputText v
           \/ normalizeResponsesContentPart p = inputImage v).
Proof.
  assert (Hobj : forall q, Js.isObjectLike q = true ->
            normalizeResponsesContentPart q = JNull
            \/ exists v, isString v = true
                 /\ (normalizeResponsesContentPart q = inputText v
                     \/ normalizeResponsesContentPart q = inputImage v)).
  { intros q Hq.
    assert (Hdef : normalizeResponsesContentPart q =
              let type := Js.get q "type" in
              if Js.isStr type "text" && isString (Js.get q "text")
              then inputText (Js.get q "text")
              else if Js.isStr type "input_text" && isString (Js.get q "text")
              then inputText (Js.get q "text")
              else
                let imageUrl :=
                  match Js.get q "image_url" with
                  | JStr u => JStr u
                  | other => Js.get other "url"
                  end in
                if Js.isStr type "image_url" && Js.truthy imageUrl
                   && isString imageUrl
                then inputImage imageUrl
                else if Js.isStr type "input_image"
                        && isString (Js.get q "image_url")
                then inputImage (Js.get q "image_url")
                else JNull)
      by (destruct q; try discriminate; reflexivity).
    rewrite Hdef. cbv zeta.
    destruct (Js.isStr (Js.get q "type") "text" && isString (Js.get q "text"))
      eqn:E1.
    { apply andb_true_iff in E1. right. exists (Js.get q "text"). tauto. }
    destruct (Js.isStr (Js.get q "type") "input_text"
              && isString (Js.get q "text")) eqn:E2.
    { apply andb_true_iff in E2. right. exists (Js.get q "text"). tauto. }
    match goal with
    | |- context [if ?c && ?t && isString ?u then _ else _] =>
        destruct (c && t && isString u) eqn:E3
    end.
    { apply andb_true_iff in E3. destruct E3 as [_ E3]. right.
      eexists. split; [exact E3|]. now right. }
    destruct (Js.isStr (Js.get q "type") "input_image"
              && isString (Js.get q "image_url")) eqn:E4.
    { apply andb_true_iff in E4. right. exists (Js.get q "image_url"). tauto. }
    now left. }
  destruct p as [| |b|n|t|l extra|ps]; try (now left).
  - right. exists (JStr t). split; [reflexivity|now left].
  - now apply Hobj.
  - now apply Hobj.
Qed.

(** A normalised part is dropped, or is a part of the dialect that
    normalises to itself. *)
Lemma part_cases (p : JsVal) :
  normalizeResponsesContentPart p = JNull
  \/ (Shape.part (normalizeResponsesContentPart p) = true
      /\ normalizeResponsesContentPart (normalizeResponsesContentPart p)
         = normalizeResponsesContentPart p).
Proof.
  destruct (part_result p) as [H|[v [Hv [H|H]]]]; [now left| |];
    right; rewrite H; destruct v; try discriminate; now split.
Qed.

(** A part that normalises to itself and is kept by the filter. *)
Lemma parts_kept (xs : list JsVal) :
  Forall (fun p => Shape.part p = true
                   /\ Js.truthy p = true
                   /\ normalizeResponsesContentPart p = p)
         (filter Js.truthy (map normalizeResponsesContentPart xs)).
Proof.
  induction xs as [|x xs IH]; simpl; [constructor|].
  destruct (Js.truthy (normalizeResponsesContentPart x)) eqn:T; [|exact IH].
  constructor; [|exact IH].
  destruct (part_cases x) as [H|[H1 H2]].
  - rewrite H in T. discriminate.
  - now repeat split.
Qed.

Lemma kept_again (c : list JsVal) :
  Forall (fun p => Shape.part p = true
                   /\ Js.truthy p = true
                   /\ normalizeResponsesContentPart p = p) c ->
  filter Js.truthy (map normalizeResponsesContentPart c) = c
  /\ forallb Shape.part c = true.
Proof.
  induction 1 as [|p c (Hs & Ht & Hn) _ [IH1 IH2]]; simpl; [now split|].
  rewrite Hn, Ht, IH1, Hs, IH2. now split.
Qed.

(** The content of a converted message, as [responsesMessage] builds it. *)
Lemma message_content (m : JsVal) :
  exists p parts,
    Js.get (responsesMessage m) "content" = JArr (p :: parts) []
    /\ Js.get (responsesMessage m) "role"
       = normalizeResponsesRole (Js.get m "role")
    /\ responsesMessage m
       = JObj [("role", normalizeResponsesRole (Js.get m "role"));
               ("content", JArr (p :: parts) [])]
    /\ Forall (fun p => Shape.part p = true
                        /\ Js.truthy p = true
                        /\ normalizeResponsesContentPart p = p) (p :: parts).
Proof.
  unfold responsesMessage. cbv zeta.
  match goal with
  | |- context [filter Js.truthy (map normalizeResponsesContentPart ?xs)] =>
      pose proof (parts_kept xs) as H;
      destruct (filter Js.truthy (map normalizeResponsesContentPart xs))
        as [|p parts]
  end.
  - exists (inputText (JStr "")), []. repeat split. constructor; [|constructor].
    now repeat split.
  - exists p, parts. now repeat split.
Qed.

Lemma message_shape (m : JsVal) : Shape.item (responsesMessage m) = true.
Proof.
  destruct (message_content m) as (p & parts & Hc & Hr & _ & Hparts).
  unfold Shape.item. rewrite Hc, Hr, role_shape.
  now destruct (kept_again _ Hparts) as [_ ->].
Qed.

Lemma message_fixed (m : JsVal) :
  responsesMessage (responsesMessage m) = responsesMessage m.
Proof.
  destruct (message_content m) as (p & parts & Hc & Hr & Hm & Hparts).
  destruct (kept_again _ Hparts) as [Hk _].
  unfold responsesMessage at 1. cbv zeta. rewrite Hc, Hr, role_idem, Hk.
  now rewrite Hm.
Qed.

Lemma objectLike_normalizeMessage (m : JsVal) :
  Js.isObjectLike (normalizeMessage m) = Js.isObjectLike m.
Proof.
  unfold normalizeMessage.
  destruct (Js.isObjectLike m) eqn:E; simpl; [|exact E].
  destruct (Js.isStr (Js.get m "role") "system"); [reflexivity|exact E].
Qed.

Lemma objects_counted (l : list JsVal) :
  List.length (filter Js.isObjectLike (map normalizeMessage l))
  = List.length (filter Js.isObjectLike l).
Proof.
  induction l as [|m l IH]; simpl; [reflexivity|].
  rewrite objectLike_normalizeMessage.
  destruct (Js.isObjectLike m); simpl; now rewrite IH.
Qed.

Lemma map_fixed {A : Type} (f : A -> A) (l : list A) :
  Forall (fun x => f x = x) l -> map f l = l.
Proof.
  induction 1 as [|x l H _ IH]; simpl; [reflexivity|]. now rewrite H, IH.
Qed.

Lemma filter_all {A : Type} (f : A -> bool) (l : list A) :
  Forall (fun x => f x = true) l -> filter f l = l.
Proof.
  induction 1 as [|x l H _ IH]; simpl; [reflexivity|]. now rewrite H, IH.
Qed.

Lemma message_objectLike (m : JsVal) :
  Js.isObjectLike (responsesMessage m) = true.
Proof. reflexivity. Qed.

End DecodeFacts.

(** X1. Whatever the payload, the text decoded from a blocking response
    (responses shape or chat-completions shape) and the completed text taken
    from a stream event carry no white space at either end: trimming them
    again changes nothing.  A payload that is no object decodes to the
    empty text. *)
Theorem X1_decoded_text_is_trimmed :
  forall payload : JsVal,
    trim (Decode.extractAssistantContentFromResponses payload)
    = Decode.extractAssistantContentFromResponses payload
    /\ trim (Decode.extractAssistantContent payload)
       = Decode.extractAssistantContent payload
    /\ trim (Stream._extractCompletedTextFromStreamEvent payload)
       = Stream._extractCompletedTextFromStreamEvent payload
    /\ (Js.isObjectLike payload = false ->
        Decode.extractAssistantContentFromResponses payload = ""
        /\ Decode.extractAssistantContent payload = ""
        /\ Stream._extractCompletedTextFromStreamEvent payload = "").
Proof.
  intros payload.
  split; [apply DecodeFacts.responses_trimmed|].
  split; [apply DecodeFacts.textContent_trimmed|].
  split; [apply DecodeFacts.completed_trimmed|].
  intros H.
  unfold Decode.extractAssistantContentFromResponses,
    Stream._extractCompletedTextFromStreamEvent. rewrite H. simpl.
  repeat split. now destruct payload.
Qed.

Lemma X1_witness :
  Decode.extractAssistantContentFromResponses (JStr " done ") = ""
  /\ Decode.extractAssistantContent JNull = "".
Proof.
  destruct (X1_decoded_text_is_trimmed (JStr " done ")) as (_ & _ & _ & H).
  destruct (X1_decoded_text_is_trimmed JNull) as (_ & _ & _ & H').
  split; [apply H; reflexivity|apply H'; reflexivity].
Defined.

(** X2. The completed text a stream event carries in its [response] is
    what the blocking decoder reads from the same response object, except
    that the blocking decoder, when the response has no string or array
    [output_text] and its [output] holds no text, falls back to the
    chat-completions shape. *)
Theorem X2_snapshot_agrees_with_decoder :
  forall response : JsVal,
    Js.isObjectLike response = true ->
    let snapshot :=
      Stream._extractCompletedTextFromStreamEvent
        (JObj [("response", response)]) in
    Decode.extractAssistantContentFromResponses response =
    match Js.get response "output_text" with
    | JStr _ | JArr _ _ => snapshot
    | _ => if nonEmpty snapshot then snapshot
           else Decode.extractAssistantContent response
    end.
Proof.
  intros response H. cbv zeta.
  unfold Decode.extractAssistantContentFromResponses,
    Stream._extractCompletedTextFromStreamEvent.
  simpl. rewrite H. simpl.
  destruct (Js.get response "output_text"); reflexivity.
Qed.

Lemma X2_witness :
  Decode.extractAssistantContentFromResponses
    (JObj [("output", JArr [JObj [("content",
             JArr [JObj [("text", JStr " Hello ")]] [])]] [])])
  = "Hello".
Proof.
  exact (X2_snapshot_agrees_with_decoder
           (JObj [("output", JArr [JObj [("content",
                     JArr [JObj [("text", JStr " Hello ")]] [])]] [])])
           eq_refl).
Defined.

(** X3. The responses input built from a message array has one item for
    each entry that is an object, in order, and every item is well formed:
    its role is one of assistant, system, developer and user, and its
    content is a non-empty array of text parts with a string text and image
    parts with a string URL.  Anything that is not an array gives no
    item. *)
Theorem X3_responses_input_is_well_formed :
  forall (model : JsVal),
    (forall l extra,
        List.length (Adapter.convertMessagesToResponsesInput model
                       (JArr l extra))
        = List.length (filter Js.isObjectLike l)
        /\ forallb Shape.item
             (Adapter.convertMessagesToResponsesInput model (JArr l extra))
           = true)
    /\ (forall messages,
        match messages with JArr _ _ => False | _ => True end ->
        Adapter.convertMessagesToResponsesInput model messages = []).
Proof.
  intros model. split.
  - intros l extra. unfold Adapter.convertMessagesToResponsesInput. split.
    + rewrite length_map. simpl.
      destruct (negb (Adapter.isGpt5Model model)); [reflexivity|].
      apply DecodeFacts.objects_counted.
    + apply forallb_forall. intros item Hin. apply in_map_iff in Hin.
      destruct Hin as [m [<- _]]. apply DecodeFacts.message_shape.
  - intros messages H. destruct messages; try reflexivity. contradiction.
Qed.

Lemma X3_witness :
  Adapter.convertMessagesToResponsesInput (JStr "gpt-5") (JStr "hello") = [].
Proof.
  destruct (X3_responses_input_is_well_formed (JStr "gpt-5")) as [_ H].
  apply H. exact I.
Defined.

(** X4. Encoding for the responses dialect is idempotent: a content part
    that was normalised normalises to itself, a role likewise, and
    converting a message array that is already a responses input gives it
    back unchanged, for every model. *)
Theorem X4_responses_encoding_is_idempotent :
  (forall part,
      Adapter.normalizeResponsesContentPart
        (Adapter.normalizeResponsesContentPart part)
      = Adapter.normalizeResponsesContentPart part)
  /\ (forall role,
        Adapter.normalizeResponsesRole (Adapter.normalizeResponsesRole role)
        = Adapter.normalizeResponsesRole role)
  /\ (forall model messages extra,
        Adapter.convertMessagesToResponsesInput model
          (JArr (Adapter.convertMessagesToResponsesInput model messages) extra)
        = Adapter.convertMessagesToResponsesInput model messages).
Proof.
  split.
  { intros part. destruct (DecodeFacts.part_cases part) as [H|[_ H]];
      [now rewrite H|exact H]. }
  split; [exact DecodeFacts.role_idem|].
  intros model messages extra.
  set (input := Adapter.convertMessagesToResponsesInput model messages).
  assert (Hform : Forall (fun item => exists m,
                            item = Adapter.responsesMessage m) input).
  { apply Forall_forall. intros item Hin. apply in_map_iff in Hin.
    destruct Hin as [m [<- _]]. now exists m. }
  assert (Hnorm : Adapter.normalizeMessagesForModel model (JArr input extra)
                  = input).
  { simpl. destruct (Adapter.isGpt5Model model) eqn:Hg; simpl; [|reflexivity].
    apply DecodeFacts.map_fixed.
    pose proof (AdapterFacts.responses_role_not_system model messages Hg)
      as Hsys.
    fold input in Hsys. apply Forall_forall. intros item Hin.
    apply AdapterFacts.normalizeMessage_other. unfold Adapter.systemRole.
    rewrite Forall_forall in Hsys. rewrite (Hsys item Hin).
    apply andb_false_r. }
  unfold Adapter.convertMessagesToResponsesInput at 1. rewrite Hnorm.
  rewrite DecodeFacts.filter_all.
  - apply DecodeFacts.map_fixed. apply Forall_forall. intros item Hin.
    rewrite Forall_forall in Hform. destruct (Hform item Hin) as [m ->].
    apply DecodeFacts.message_fixed.
  - apply Forall_forall. intros item Hin.
    rewrite Forall_forall in Hform. now destruct (Hform item Hin) as [m ->].
Qed.

Module ClientFacts.
Import Adapter.

Lemma has_set (k s : string) (v : JsVal) (ps : Props) :
  Js.has k (Js.set s v ps) = String.eqb k s || Js.has k ps.
Proof.
  induction ps as [|[k0 v0] ps IH]; simpl.
  - now rewrite orb_false_r.
  - destruct (String.eqb s k0) eqn:E0; simpl.
    + apply String.eqb_eq in E0. subst k0.
      now destruct (String.eqb k s).
    + rewrite IH. destruct (String.eqb k k0), (String.eqb k s); reflexivity.
Qed.

Lemma literal_snoc (entries : Props) (s : string) (v : JsVal) :
  Js.literal (entries ++ [(s, v)])%list = Js.set s v (Js.literal entries).
Proof.
  unfold Js.literal, Js.spread. now rewrite fold_left_app.
Qed.

(** The body of the blocking client never asks for a stream. *)
Lemma blocking_body_has_no_stream (o : LLMOptions) (messages : JsVal) :
  Js.has "stream" (body (Client.callApiRequest o messages)) = false.
Proof.
  unfold Client.callApiRequest. cbv zeta.
  rewrite AdapterFacts.reasoning_payload_eq.
  unfold buildTemperaturePayload, buildResponsesTokenPayload,
    buildTokenPayload.
  repeat match goal with
    | |- context [Js.truthy (usePortkey ?o)] =>
        destruct (Js.truthy (usePortkey o)); simpl negb; cbv iota
    | |- context [isGpt5Model ?m] => destruct (isGpt5Model m)
    | |- context [normalizeReasoningEffort ?e] =>
        destruct (normalizeReasoningEffort e)
    | |- context [usableNumber ?m] =>
        destruct (usableNumber m); simpl negb; cbv iota
    | |- context [match orDefault (temperature ?o) ?d with _ => _ end] =>
        destruct (orDefault (temperature o) d)
    end; reflexivity.
Qed.

Lemma streaming_body (o : LLMOptions) (messages : JsVal) :
  body (streamChatRequest o messages)
  = Js.set "stream" (JBool true) (body (Client.callApiRequest o messages))
  /\ url (streamChatRequest o messages)
     = url (Client.callApiRequest o messages).
Proof.
  unfold streamChatRequest, Client.callApiRequest. cbv zeta.
  destruct (negb (Js.truthy (usePortkey o))); cbn [url body];
    rewrite <- literal_snoc; rewrite <- !app_assoc; now split.
Qed.


End ClientFacts.



(** X6. The streaming client and the blocking client send the same request
    to the same endpoint: the streaming body is the blocking body with
    [stream] set to true, a field the blocking body never has; every other
    field (model, input or messages, temperature, token limit, reasoning) is
    equal in both, for every option record and message list. *)
Theorem X6_streaming_and_blocking_requests_agree :
  forall (o : Adapter.LLMOptions) (messages : JsVal),
    Adapter.url (Adapter.streamChatRequest o messages)
    = Adapter.url (Client.callApiRequest o messages)
    /\ Js.has "stream" (Adapter.body (Client.callApiRequest o messages)) = false
    /\ Js.lookup "stream" (Adapter.body (Adapter.streamChatRequest o messages))
       = JBool true
    /\ (forall k,
          String.eqb k "stream" = false ->
          Js.lookup k (Adapter.body (Adapter.streamChatRequest o messages))
          = Js.lookup k (Adapter.body (Client.callApiRequest o messages))
          /\ Js.has k (Adapter.body (Adapter.streamChatRequest o messages))
             = Js.has k (Adapter.body (Client.callApiRequest o messages))).
Proof.
  intros o messages.
  destruct (ClientFacts.streaming_body o messages) as [Hb Hu].
  split; [exact Hu|].
  split; [apply ClientFacts.blocking_body_has_no_stream|].
  rewrite Hb. split.
  - now rewrite AdapterFacts.lookup_set.
  - intros k Hk. rewrite AdapterFacts.lookup_set, ClientFacts.has_set, Hk.
    now split.
Qed.

Lemma X6_witness :
  Js.lookup "max_tokens"
    (Adapter.body (Client.callApiRequest Examples.relayOptions (JArr [] [])))
  = JNum (JsNum.ofZ 8192).
Proof.
  destruct (X6_streaming_and_blocking_requests_agree Examples.relayOptions
              (JArr [] [])) as (_ & _ & _ & H).
  rewrite <- (proj1 (H "max_tokens" eq_refl)). reflexivity.
Defined.

(** ** Chunk boundaries of the event stream *)

Module LinesFacts.
Import Eff Stream Lines.

Lemma splitLF_cut (text : string) :
  splitLF text = (fst (cut text) ++ [snd (cut text)])%list.
Proof.
  induction text as [|c r IH]; simpl; [reflexivity|].
  destruct (cut r) as [lines rest]. simpl in IH. rewrite IH.
  destruct (code c =? 10)%nat; [reflexivity|].
  destruct lines; reflexivity.
Qed.

Lemma lines_of (text : string) :
  removelast (splitLF text) = fst (cut text)
  /\ last (splitLF text) "" = snd (cut text).
Proof.
  rewrite splitLF_cut. split; [apply removelast_last|apply last_last].
Qed.

(** The lines of a text in two pieces: those of the first piece, then those
    of the second piece once it follows what was left of the first. *)
Lemma cut_app (a b : string) :
  cut (a ++ b)
  = ((fst (cut a) ++ fst (cut (snd (cut a) ++ b)))%list,
     snd (cut (snd (cut a) ++ b))).
Proof.
  induction a as [|c r IH]; simpl.
  - now destruct (cut b).
  - rewrite IH. destruct (cut r) as [lines rest]. simpl.
    destruct (cut (rest ++ b)) as [lines2 rest2] eqn:E2. simpl.
    destruct (code c =? 10)%nat eqn:Ec; simpl.
    + now rewrite E2.
    + destruct lines as [|h t]; simpl.
      * rewrite E2, Ec. now destruct lines2.
      * now rewrite E2.
Qed.

Lemma withBuffer_twice (b1 b2 : string) (l : Locals) :
  withBuffer b2 (withBuffer b1 l) = withBuffer b2 l.
Proof. reflexivity. Qed.

Lemma blind_ret {A : Type} (a : A) : Blind (ret a).
Proof. intros b l. reflexivity. Qed.

Lemma blind_throw {A : Type} (e : Error) : Blind (@throw Locals A e).
Proof. intros b l. reflexivity. Qed.

Lemma blind_bind {A B : Type} (m : M Locals A) (k : A -> M Locals B) :
  Blind m -> (forall a, Blind (k a)) -> Blind (bind m k).
Proof.
  intros Hm Hk b l. unfold bind. rewrite (Hm b l).
  destruct (m l) as [[a|e] l1]; simpl; [apply Hk|reflexivity].
Qed.

Lemma blind_when (c : bool) (m : M Locals unit) : Blind m -> Blind (when c m).
Proof.
  intros H. destruct c; [exact H|apply blind_ret].
Qed.

Lemma blind_tryCatch {A : Type} (m : M Locals A) (h : Error -> M Locals A) :
  Blind m -> (forall e, Blind (h e)) -> Blind (tryCatch m h).
Proof.
  intros Hm Hh b l. unfold tryCatch. rewrite (Hm b l).
  destruct (m l) as [[a|e] l1]; simpl; [reflexivity|apply Hh].
Qed.

Lemma blind_forEach {A : Type} (f : A -> M Locals unit) (xs : list A) :
  (forall x, Blind (f x)) -> Blind (forEach f xs).
Proof.
  intros H. induction xs as [|x xs IH]; simpl; [apply blind_ret|].
  apply blind_bind; auto.
Qed.

Lemma blind_lift {A : Type} (m : M World A) : Blind (lift m).
Proof.
  intros b l. unfold lift, withBuffer. simpl.
  now destruct (m (world l)).
Qed.

Lemma blind_full : Blind (gets fullResponse).
Proof. intros b l. reflexivity. Qed.

Lemma blind_completed : Blind (gets completedResponseText).
Proof. intros b l. reflexivity. Qed.

Lemma blind_setFull (text : string) : Blind (setFullResponse text).
Proof. intros b l. reflexivity. Qed.

Lemma blind_setCompleted (text : string) : Blind (setCompleted text).
Proof. intros b l. reflexivity. Qed.

Lemma forEach_app {A : Type} (f : A -> M Locals unit) (xs ys : list A)
  (l : Locals) :
  forEach f (xs ++ ys) l =
  match forEach f xs l with
  | (Ok _, l1) => forEach f ys l1
  | (Throw e, l1) => (Throw e, l1)
  end.
Proof.
  revert l. induction xs as [|x xs IH]; intros l; simpl; [reflexivity|].
  unfold bind. destruct (f x l) as [[[]|e] l1]; [apply IH|reflexivity].
Qed.

Section Decoder.

Variable JSON_parse : string -> option JsVal.
Variable ToString : JsVal -> string.
Variable env : Env.

Lemma blind_processLine (line : string) :
  Blind (processLine JSON_parse ToString env line).
Proof.
  unfold processLine. cbv zeta.
  destruct (negb _); [apply blind_ret|].
  destruct (String.eqb _ "[DONE]"); [apply blind_ret|].
  destruct (JSON_parse _) as [json|]; [|apply blind_ret].
  destruct (Js.truthy _); [apply blind_throw|].
  apply blind_bind.
  - apply blind_when. apply blind_bind; [apply blind_full|]. intros full.
    apply blind_bind; [apply blind_setFull|]. intros _.
    apply blind_bind; apply blind_lift || (intros _; apply blind_lift).
  - intros _. apply blind_bind; [apply blind_completed|]. intros completed.
    apply blind_when. apply blind_setCompleted.
Qed.

Lemma blind_onStreamError (e : Error) : Blind (onStreamError env e).
Proof.
  unfold onStreamError. destruct (abortedMeanwhile env); [apply blind_lift|].
  apply blind_bind; [apply blind_lift|]. intros _.
  apply blind_when. apply blind_lift.
Qed.

Lemma blind_finalize (sessionId assistantModel : JsVal) :
  Blind (finalize env sessionId assistantModel).
Proof.
  unfold finalize.
  apply blind_bind; [apply blind_full|]. intros full.
  apply blind_bind; [apply blind_completed|]. intros completed.
  apply blind_bind; [apply blind_when, blind_setFull|]. intros _.
  apply blind_bind; [apply blind_lift|]. intros _.
  apply blind_bind; [apply blind_full|]. intros full'.
  apply blind_bind; [apply blind_lift|]. intros _.
  apply blind_bind; [apply blind_lift|]. intros _.
  apply blind_when. apply blind_tryCatch.
  - apply blind_bind; [apply blind_lift|]. intros _. apply blind_lift.
  - intros e. apply blind_lift.
Qed.

(** One chunk: the complete lines of the buffer followed by the chunk are
    processed, and what follows the last line feed is the new buffer. *)
Lemma processChunk_cut (chunk : string) (l : Locals) :
  let parts := cut (sseBuffer l ++ chunk) in
  processChunk JSON_parse ToString env chunk l
  = (fst (forEach (processLine JSON_parse ToString env) (fst parts) l),
     withBuffer (snd parts)
       (snd (forEach (processLine JSON_parse ToString env) (fst parts) l))).
Proof.
  cbv zeta. unfold processChunk, bind, gets, setSseBuffer, modify.
  destruct (lines_of (sseBuffer l ++ chunk)) as [-> ->].
  apply (blind_forEach _ _ blind_processLine (snd (cut (sseBuffer l ++ chunk)))
           l).
Qed.

Lemma processChunk_split (a b : string) (l : Locals) :
  let whole := processChunk JSON_parse ToString env (a ++ b) l in
  let pieces := bind (processChunk JSON_parse ToString env a)
                  (fun _ => processChunk JSON_parse ToString env b) l in
  fst whole = fst pieces
  /\ alike (snd whole) (snd pieces)
  /\ (fst whole = Ok tt -> snd whole = snd pieces).
Proof.
  cbv zeta. unfold bind.
  rewrite (processChunk_cut (a ++ b) l), (processChunk_cut a l). cbv zeta.
  rewrite <- TextFacts.append_assoc, cut_app. simpl fst. simpl snd.
  set (F1 := fst (cut (sseBuffer l ++ a))).
  set (B1 := snd (cut (sseBuffer l ++ a))).
  rewrite forEach_app.
  destruct (forEach (processLine JSON_parse ToString env) F1 l)
    as [[[]|e] l1]; simpl fst; simpl snd.
  - rewrite (processChunk_cut b (withBuffer B1 l1)). cbv zeta.
    change (sseBuffer (withBuffer B1 l1)) with B1.
    rewrite (blind_forEach _ _ blind_processLine B1 l1).
    simpl fst. simpl snd. rewrite withBuffer_twice.
    repeat split.
  - repeat split. discriminate.
Qed.

Lemma readLoop_split (a b : string) (rest : Reader) (l : Locals) :
  let whole := readLoop JSON_parse ToString env (Chunk (a ++ b) :: rest) l in
  let pieces :=
    readLoop JSON_parse ToString env (Chunk a :: Chunk b :: rest) l in
  fst whole = fst pieces /\ alike (snd whole) (snd pieces).
Proof.
  cbv zeta. simpl readLoop.
  destruct (processChunk_split a b l) as (Hr & Hl & Hok).
  cbv zeta in Hr, Hl, Hok. unfold bind in *.
  destruct (processChunk JSON_parse ToString env (a ++ b) l) as [r1 l1].
  destruct (processChunk JSON_parse ToString env a l) as [[[]|e] la].
  - destruct (processChunk JSON_parse ToString env b la) as [r2 l2].
    simpl in Hr, Hl, Hok. subst r2.
    destruct r1 as [[]|e1].
    + rewrite (Hok eq_refl). repeat split.
    + now split.
  - simpl in Hr, Hl. subst r1. now split.
Qed.

Lemma alike_buffer (l1 l2 : Locals) :
  alike l1 l2 -> l2 = withBuffer (sseBuffer l2) l1.
Proof.
  destruct l1, l2. unfold alike, withBuffer. simpl.
  intros (-> & -> & ->). reflexivity.
Qed.

Lemma blind_alike {A : Type} (m : M Locals A) (l1 l2 : Locals) :
  Blind m -> alike l1 l2 ->
  fst (m l1) = fst (m l2) /\ alike (snd (m l1)) (snd (m l2)).
Proof.
  intros Hm H. rewrite (alike_buffer _ _ H), (Hm _ l1). simpl.
  repeat split.
Qed.

Lemma processStream_split (pre : Reader) (a b : string) (rest : Reader)
  (sessionId assistantModel : JsVal) (w : World) :
  _processStream JSON_parse ToString env
    (pre ++ Chunk (a ++ b)%string :: rest)%list sessionId assistantModel w
  = _processStream JSON_parse ToString env
      (pre ++ Chunk a :: Chunk b :: rest)%list sessionId assistantModel w.
Proof.
  unfold _processStream, processStreamLocals, tryFinally.
  assert (Hbody :
    fst (streamBody JSON_parse ToString env
           (pre ++ Chunk (a ++ b)%string :: rest)%list (start w))
    = fst (streamBody JSON_parse ToString env
             (pre ++ Chunk a :: Chunk b :: rest)%list (start w))
    /\ alike
         (snd (streamBody JSON_parse ToString env
                 (pre ++ Chunk (a ++ b)%string :: rest)%list (start w)))
         (snd (streamBody JSON_parse ToString env
                 (pre ++ Chunk a :: Chunk b :: rest)%list (start w)))).
  { unfold streamBody, tryCatch, bind.
    destruct (lift (Orch.setState (Orch.withFlags false true)) (start w))
      as [[[]|e0] l0]; [|repeat split].
    destruct (lift (Orch._broadcastState env) l0) as [[[]|e1] l1];
      [|repeat split].
    rewrite !StreamFacts.readLoop_app.
    destruct (readLoop JSON_parse ToString env pre l1) as [[[]|e2] l2];
      [|repeat split].
    destruct (readLoop_split a b rest l2) as [Hr Hl]. cbv zeta in Hr, Hl.
    destruct (readLoop JSON_parse ToString env (Chunk (a ++ b) :: rest) l2)
      as [r3 l3].
    destruct (readLoop JSON_parse ToString env (Chunk a :: Chunk b :: rest) l2)
      as [r4 l4].
    simpl in Hr, Hl. subst r4. destruct r3 as [[]|e3]; [now split|].
    apply (blind_alike _ _ _ (blind_onStreamError e3) Hl). }
  destruct Hbody as [Hr Hl].
  destruct (streamBody JSON_parse ToString env
              (pre ++ Chunk (a ++ b)%string :: rest)%list (start w)) as [r1 l1].
  destruct (streamBody JSON_parse ToString env
              (pre ++ Chunk a :: Chunk b :: rest)%list (start w)) as [r2 l2].
  simpl in Hr, Hl. subst r2.
  destruct (blind_alike _ _ _
              (blind_finalize sessionId
                 (Adapter.orDefault assistantModel (JStr "unknown"))) Hl)
    as [Hf Hw].
  destruct (finalize env sessionId
              (Adapter.orDefault assistantModel (JStr "unknown")) l1)
    as [f1 m1].
  destruct (finalize env sessionId
              (Adapter.orDefault assistantModel (JStr "unknown")) l2)
    as [f2 m2].
  simpl in Hf, Hw. subst f2. destruct Hw as [Hw _].
  destruct f1 as [[]|e]; now rewrite Hw.
Qed.

End Decoder.

End LinesFacts.

(** X7. Where the chunks of the event stream are cut does not matter: a
    stream in which one chunk arrives in two pieces gives the same result,
    the same state and the same record of broadcasts, error events and
    repository writes as the stream in which it arrives whole.  A line cut
    in the middle is reassembled before it is decoded. *)
Theorem X7_chunk_boundaries_do_not_matter :
  forall (JSON_parse : string -> option JsVal) (ToString : JsVal -> string)
         (env : Env) (pre : Reader) (a b : string) (rest : Reader)
         (sessionId assistantModel : JsVal) (w : World),
    Stream._processStream JSON_parse ToString env
      (pre ++ Chunk (a ++ b)%string :: rest)%list sessionId assistantModel w
    = Stream._processStream JSON_parse ToString env
        (pre ++ Chunk a :: Chunk b :: rest)%list sessionId assistantModel w.
Proof.
  intros. apply LinesFacts.processStream_split.
Qed.

(** ** What a stream shows and what it leaves alone *)

Module WatchFacts.
Import Eff Stream Observe Watch.

Lemma errors_app (a b : list Event) :
  errors (a ++ b) = (errors a ++ errors b)%list.
Proof.
  induction a as [|e a IH]; simpl; [reflexivity|].
  destruct e; simpl; now rewrite ?IH.
Qed.

Lemma updates_app (a b : list Event) :
  updates (a ++ b) = (updates a ++ updates b)%list.
Proof.
  induction a as [|e a IH]; simpl; [reflexivity|].
  destruct e; simpl; now rewrite ?IH.
Qed.

(** The read loop changes the response text and broadcasts states, and
    keeps every observation that these two cannot change. *)
Section Loop.

Context {X : Type} (obs : World -> X).

Hypothesis obs_response :
  forall text w, obs (snd (Orch.setState (Orch.withResponse text) w)) = obs w.
Hypothesis obs_update :
  forall st w, obs (snd (Orch.emit (StateUpdate st) w)) = obs w.

Variable JSON_parse : string -> option JsVal.
Variable ToString : JsVal -> string.
Variable env : Env.

Lemma loop_broadcast : Keeps obs (lift (Orch._broadcastState env)).
Proof.
  intros l. unfold lift, Orch._broadcastState.
  destruct (windowOpen env); simpl; [|reflexivity]. apply obs_update.
Qed.

Lemma loop_processLine (line : string) :
  Keeps obs (processLine JSON_parse ToString env line).
Proof.
  unfold processLine. cbv zeta.
  destruct (negb _); [apply StreamFacts.keeps_ret|].
  destruct (String.eqb _ "[DONE]"); [apply StreamFacts.keeps_ret|].
  destruct (JSON_parse _) as [json|]; [|apply StreamFacts.keeps_ret].
  destruct (Js.truthy _); [apply StreamFacts.keeps_throw|].
  apply StreamFacts.keeps_bind.
  - apply StreamFacts.keeps_when.
    apply StreamFacts.keeps_bind; [apply StreamFacts.keeps_gets|].
    intros full.
    apply StreamFacts.keeps_bind; [now apply StreamFacts.keeps_modify|].
    intros _. apply StreamFacts.keeps_bind.
    + intros l. apply obs_response.
    + intros _. apply loop_broadcast.
  - intros _.
    apply StreamFacts.keeps_bind; [apply StreamFacts.keeps_gets|].
    intros completed. apply StreamFacts.keeps_when.
    now apply StreamFacts.keeps_modify.
Qed.

Lemma loop_readLoop (reader : Reader) :
  Keeps obs (readLoop JSON_parse ToString env reader).
Proof.
  induction reader as [|[chunk|e] rest IH]; simpl.
  - apply StreamFacts.keeps_ret.
  - apply StreamFacts.keeps_bind; [|intros _; exact IH].
    unfold processChunk.
    apply StreamFacts.keeps_bind; [apply StreamFacts.keeps_gets|].
    intros buffer.
    apply StreamFacts.keeps_bind; [now apply StreamFacts.keeps_modify|].
    intros _. apply StreamFacts.keeps_forEach. apply loop_processLine.
  - apply StreamFacts.keeps_throw.
Qed.

(** The [try] block: the flags are set, then only the loop runs. *)
Lemma loop_tryBlock (reader : Reader) (w : World) :
  obs (world (snd (tryBlock JSON_parse ToString env reader (start w))))
  = obs (snd (Orch.setState (Orch.withFlags false true) w)).
Proof.
  unfold tryBlock, bind.
  destruct (lift (Orch.setState (Orch.withFlags false true)) (start w))
    as [[[]|e0] l0] eqn:E0; [|discriminate].
  assert (Hw : world l0 = snd (Orch.setState (Orch.withFlags false true) w))
    by (injection E0 as <-; reflexivity).
  pose proof (loop_broadcast l0) as Hb.
  destruct (lift (Orch._broadcastState env) l0) as [[[]|e] l1];
    simpl in Hb; simpl snd.
  - now rewrite (loop_readLoop reader l1), Hb, Hw.
  - now rewrite Hb, Hw.
Qed.

End Loop.

Lemma errors_update (st : Ask.State) (w : World) :
  errors (trace (snd (Orch.emit (StateUpdate st) w))) = errors (trace w).
Proof.
  simpl. rewrite errors_app. apply app_nil_r.
Qed.

Lemma rest_update (st : Ask.State) (w : World) :
  rest (snd (Orch.emit (StateUpdate st) w)) = rest w.
Proof.
  unfold rest. simpl. rewrite StreamFacts.chats_app. simpl.
  now rewrite app_nil_r.
Qed.

Section Decoder.

Variable JSON_parse : string -> option JsVal.
Variable ToString : JsVal -> string.
Variable env : Env.

(** What the [catch] block does. *)
Lemma handler_effect (e : Error) (l : Locals) :
  let out := onStreamError env e l in
  fst out = Ok tt
  /\ state (world (snd out)) = state (world l)
  /\ rest (world (snd out)) = rest (world l)
  /\ exists extra,
       trace (world (snd out)) = (trace (world l) ++ extra)%list
       /\ errors extra = owed env (Some e)
       /\ updates extra = [].
Proof.
  cbv zeta. unfold onStreamError, owed, rest.
  destruct (abortedMeanwhile env); [|destruct (windowOpen env)]; simpl;
    rewrite ?StreamFacts.chats_app; simpl; rewrite ?app_nil_r;
    repeat split; eexists; repeat split;
    rewrite <- ?app_assoc; reflexivity.
Qed.

(** What the [finally] block does. *)
Lemma finalize_effect (sessionId assistantModel : JsVal) (l : Locals) :
  let full := if nonEmpty (fullResponse l) then fullResponse l
              else completedResponseText l in
  let out := finalize env sessionId assistantModel l in
  state (world (snd out))
  = Orch.withResponse full (Orch.withStreaming false (state (world l)))
  /\ rest (world (snd out)) = rest (world l)
  /\ exists extra,
       trace (world (snd out)) = (trace (world l) ++ extra)%list
       /\ errors extra = []
       /\ updates extra
          = if windowOpen env then [state (world (snd out))] else [].
Proof.
  destruct l as [w full buffer completed]. cbv zeta. simpl fullResponse.
  simpl completedResponseText.
  unfold finalize, bind, gets, when, tryCatch, lift, Orch.addAiMessage,
    Orch._broadcastState, when, bind, rest.
  destruct full as [|c r]; [destruct completed as [|c r]|]; simpl;
    destruct (windowOpen env); simpl;
    try (destruct (storeFails env _) as [e|]; simpl);
    rewrite ?StreamFacts.chats_app; simpl; rewrite ?app_nil_r;
    repeat split;
    first [ exists []; rewrite app_nil_r; repeat split; reflexivity
          | eexists; repeat split; rewrite <- ?app_assoc; reflexivity ].
Qed.

Lemma tryBlock_app (pre more : Reader) (l : Locals) :
  tryBlock JSON_parse ToString env (pre ++ more)%list l =
  match tryBlock JSON_parse ToString env pre l with
  | (Ok _, l1) => readLoop JSON_parse ToString env more l1
  | (Throw e, l1) => (Throw e, l1)
  end.
Proof.
  unfold tryBlock, bind.
  destruct (lift (Orch.setState (Orch.withFlags false true)) l)
    as [[[]|e0] l0]; [|reflexivity].
  destruct (lift (Orch._broadcastState env) l0) as [[[]|e1] l1];
    [|reflexivity].
  apply StreamFacts.readLoop_app.
Qed.

End Decoder.

End WatchFacts.

(** X8. Once the read loop has thrown, on a failing read or on an error
    event, nothing that the stream would still deliver is decoded: the call
    ends exactly as if the stream had stopped there, with the same result,
    the same state, the same broadcasts and the same repository write. *)
Theorem X8_nothing_is_decoded_after_a_failure :
  forall (JSON_parse : string -> option JsVal) (ToString : JsVal -> string)
         (env : Env) (pre more : Reader) (sessionId assistantModel : JsVal)
         (w : World) (e : Error),
    Watch.thrown JSON_parse ToString env pre w = Some e ->
    Stream._processStream JSON_parse ToString env (pre ++ more)%list
      sessionId assistantModel w
    = Stream._processStream JSON_parse ToString env pre
        sessionId assistantModel w.
Proof.
  intros JSON_parse ToString env pre more sessionId assistantModel w e H.
  unfold Stream._processStream, Stream.processStreamLocals, Eff.tryFinally.
  change (Stream.streamBody JSON_parse ToString env (pre ++ more)%list)
    with (Eff.tryCatch (Watch.tryBlock JSON_parse ToString env (pre ++ more)%list)
            (Stream.onStreamError env)).
  change (Stream.streamBody JSON_parse ToString env pre)
    with (Eff.tryCatch (Watch.tryBlock JSON_parse ToString env pre)
            (Stream.onStreamError env)).
  unfold Eff.tryCatch. rewrite WatchFacts.tryBlock_app.
  unfold Watch.thrown in H.
  destruct (Watch.tryBlock JSON_parse ToString env pre (Stream.start w))
    as [[[]|e'] l1]; [discriminate|reflexivity].
Qed.

Lemma X8_witness :
  Stream._processStream Examples.parse Examples.toStr Examples.textEnv
    ([Chunk (Examples.frame (Examples.deltaJson "Hel"));
      Chunk (Examples.frame Examples.errorJson)]
       ++ [Chunk (Examples.frame (Examples.deltaJson "lo"))])%list
    (JStr "session-1") (JStr "gpt-5-mini") Examples.world0
  = Stream._processStream Examples.parse Examples.toStr Examples.textEnv
      [Chunk (Examples.frame (Examples.deltaJson "Hel"));
       Chunk (Examples.frame Examples.errorJson)]
      (JStr "session-1") (JStr "gpt-5-mini") Examples.world0.
Proof.
  apply (X8_nothing_is_decoded_after_a_failure Examples.parse Examples.toStr
           Examples.textEnv _ _ _ _ _
           {| message := Some "Unknown streaming error" |}).
  reflexivity.
Defined.

(** X9. A stream event is an error exactly when it is an object of type
    "error" or "response.failed", with or without a message of its own.  The
    window is sent an error event for a call only when its read loop threw
    while the signal was not aborted and the window is there, then exactly
    one, with the message of the error; a cancelled call and a call whose
    loop ended normally send none. *)
Theorem X9_stream_errors_reach_the_window :
  forall (JSON_parse : string -> option JsVal) (ToString : JsVal -> string)
         (env : Env) (reader : Reader) (sessionId assistantModel : JsVal)
         (w : World),
    let out := Stream._processStream JSON_parse ToString env reader
                 sessionId assistantModel w in
    (forall event,
        Js.truthy (Stream._extractErrorFromStreamEvent event)
        = Js.isObjectLike event
          && (Js.isStr (Js.get event "type") "error"
              || Js.isStr (Js.get event "type") "response.failed"))
    /\ Watch.errors (trace (snd out))
       = (Watch.errors (trace w)
            ++ Watch.owed env (Watch.thrown JSON_parse ToString env reader w))
         %list
    /\ (abortedMeanwhile env = true ->
        Watch.errors (trace (snd out)) = Watch.errors (trace w)).
Proof.
  intros JSON_parse ToString env reader sessionId assistantModel w. cbv zeta.
  assert (Herr :
    Watch.errors
      (trace (snd (Stream._processStream JSON_parse ToString env reader
                     sessionId assistantModel w)))
    = (Watch.errors (trace w)
         ++ Watch.owed env (Watch.thrown JSON_parse ToString env reader w))
      %list).
  { unfold Stream._processStream, Stream.processStreamLocals, Eff.tryFinally.
    change (Stream.streamBody JSON_parse ToString env reader)
      with (Eff.tryCatch (Watch.tryBlock JSON_parse ToString env reader)
              (Stream.onStreamError env)).
    unfold Eff.tryCatch, Watch.thrown.
    pose proof (WatchFacts.loop_tryBlock (fun w => Watch.errors (trace w))
                  (fun _ _ => eq_refl)
                  WatchFacts.errors_update
                  JSON_parse ToString env reader w) as Hloop.
    simpl in Hloop.
    destruct (Watch.tryBlock JSON_parse ToString env reader (Stream.start w))
      as [[[]|e] l1]; simpl fst; simpl snd in Hloop.
    - destruct (WatchFacts.finalize_effect env sessionId
                  (Adapter.orDefault assistantModel (JStr "unknown")) l1)
        as (_ & _ & extra & Ht & He & _).
      cbv zeta in Ht.
      destruct (Stream.finalize env sessionId
                  (Adapter.orDefault assistantModel (JStr "unknown")) l1)
        as [[[]|e] l2]; simpl in *;
        rewrite Ht, WatchFacts.errors_app, He, Hloop; reflexivity.
    - destruct (WatchFacts.handler_effect env e l1)
        as (_ & _ & _ & extra1 & Ht1 & He1 & _).
      cbv zeta in Ht1.
      destruct (Stream.onStreamError env e l1) as [r1 l1'].
      simpl in Ht1.
      destruct (WatchFacts.finalize_effect env sessionId
                  (Adapter.orDefault assistantModel (JStr "unknown")) l1')
        as (_ & _ & extra & Ht & He & _).
      cbv zeta in Ht.
      destruct (Stream.finalize env sessionId
                  (Adapter.orDefault assistantModel (JStr "unknown")) l1')
        as [[[]|e2] l2]; simpl in *;
        rewrite Ht, WatchFacts.errors_app, He, Ht1, WatchFacts.errors_app,
          He1, Hloop, app_nil_r; reflexivity. }
  split.
  { intros event. unfold Stream._extractErrorFromStreamEvent, Stream.orElse.
    destruct (Js.isObjectLike event); simpl; [|reflexivity].
    destruct (Js.isStr (Js.get event "type") "error"); simpl.
    - destruct (Js.truthy (Js.get (Js.get event "error") "message")) eqn:E;
        [exact E|reflexivity].
    - destruct (Js.isStr (Js.get event "type") "response.failed");
        [|reflexivity].
      destruct (Js.truthy
                  (Js.get (Js.get (Js.get event "response") "error")
                          "message")) eqn:E;
        [exact E|reflexivity]. }
  split; [exact Herr|].
  intros Ha. rewrite Herr. unfold Watch.owed. rewrite Ha.
  destruct (Watch.thrown _ _ _ _ _); apply app_nil_r.
Qed.

Lemma X9_witness :
  Watch.errors
    (trace (snd (Stream._processStream Examples.parse Examples.toStr
                   Examples2.cancelledEnv Examples.brokenReader
                   (JStr "session-1") (JStr "gpt-5-mini") Examples.world0)))
  = [].
Proof.
  destruct (X9_stream_errors_reach_the_window Examples.parse Examples.toStr
              Examples2.cancelledEnv Examples.brokenReader
              (JStr "session-1") (JStr "gpt-5-mini") Examples.world0)
    as (_ & _ & H).
  apply H. reflexivity.
Defined.

Module TerminalFacts.
Import Eff Stream Observe Watch.

Lemma settle (s1 s0 : Ask.State) (text : string) :
  Orch.withResponse "" s1 = Orch.withResponse "" s0 ->
  Orch.withResponse text (Orch.withStreaming false s1)
  = Orch.withResponse text (Orch.withStreaming false s0).
Proof.
  destruct s1, s0. unfold Orch.withResponse, Orch.withStreaming,
    Orch.withFlags. simpl. intros [= -> -> -> -> -> -> -> ->]. reflexivity.
Qed.

Section Decoder.

Variable JSON_parse : string -> option JsVal.
Variable ToString : JsVal -> string.
Variable env : Env.

(** The state and the rest of the world when the [finally] block is
    entered. *)
Lemma before_finally (reader : Reader) (w : World) :
  let l := accumulated JSON_parse ToString env reader w in
  Orch.withResponse "" (state (world l))
  = Orch.withResponse "" (Orch.withFlags false true (state w))
  /\ rest (world l) = rest w.
Proof.
  cbv zeta. unfold accumulated.
  change (streamBody JSON_parse ToString env reader)
    with (tryCatch (tryBlock JSON_parse ToString env reader)
            (onStreamError env)).
  unfold tryCatch.
  pose proof (WatchFacts.loop_tryBlock
                (fun w => Orch.withResponse "" (state w))
                (fun _ _ => eq_refl) (fun _ _ => eq_refl)
                JSON_parse ToString env reader w) as Hstate.
  pose proof (WatchFacts.loop_tryBlock rest
                (fun _ _ => eq_refl) WatchFacts.rest_update
                JSON_parse ToString env reader w) as Hrest.
  simpl in Hstate.
  change (rest (snd (Orch.setState (Orch.withFlags false true) w)))
    with (rest w) in Hrest.
  destruct (tryBlock JSON_parse ToString env reader (start w))
    as [[[]|e] l1]; simpl snd in *; [now split|].
  destruct (WatchFacts.handler_effect env e l1) as (_ & Hs & Hr & _).
  cbv zeta in Hs, Hr. now rewrite Hs, Hr.
Qed.

Lemma terminal (reader : Reader) (sessionId assistantModel : JsVal)
  (w : World) :
  let out := _processStream JSON_parse ToString env reader sessionId
               assistantModel w in
  let final := finalText JSON_parse ToString env reader w in
  state (snd out)
  = Orch.withResponse final (Orch.withFlags false false (state w))
  /\ rest (snd out) = rest w
  /\ (windowOpen env = true ->
      last (updates (trace (snd out))) (state w) = state (snd out)).
Proof.
  cbv zeta. destruct (before_finally reader w) as [Hstate Hrest].
  cbv zeta in Hstate, Hrest.
  unfold _processStream, processStreamLocals, tryFinally, finalText.
  unfold accumulated in *.
  destruct (streamBody JSON_parse ToString env reader (start w)) as [r l1].
  simpl snd in *.
  destruct (WatchFacts.finalize_effect env sessionId
              (Adapter.orDefault assistantModel (JStr "unknown")) l1)
    as (Hs & Hr & extra & Ht & _ & Hu).
  cbv zeta in Hs, Hr, Ht, Hu.
  assert (Hfinal :
    state (world (snd (finalize env sessionId
                         (Adapter.orDefault assistantModel (JStr "unknown"))
                         l1)))
    = Orch.withResponse
        (if nonEmpty (fullResponse l1) then fullResponse l1
         else completedResponseText l1)
        (Orch.withFlags false false (state w))).
  { rewrite Hs. now rewrite (settle _ _ _ Hstate). }
  destruct (finalize env sessionId
              (Adapter.orDefault assistantModel (JStr "unknown")) l1)
    as [[[]|e] l2]; simpl in *;
    (split; [exact Hfinal|]); (split; [now rewrite Hr|]);
    intros Hw; rewrite Hw in Hu;
    now rewrite Ht, WatchFacts.updates_app, Hu, last_last.
Qed.

End Decoder.

End TerminalFacts.

(** X10. Whatever the stream did, [_processStream] leaves the session in
    its terminal state: the state it found, with [isLoading] and
    [isStreaming] off and the final text as [currentResponse]; the
    question, the input flag, the visibility, the voice draft, the abort
    controller and the requests made are as they were.  When the window is
    there, the last state broadcast to it is this terminal state. *)
Theorem X10_stream_ends_in_the_terminal_state :
  forall (JSON_parse : string -> option JsVal) (ToString : JsVal -> string)
         (env : Env) (reader : Reader) (sessionId assistantModel : JsVal)
         (w : World),
    let out := Stream._processStream JSON_parse ToString env reader
                 sessionId assistantModel w in
    let final := Stream.finalText JSON_parse ToString env reader w in
    state (snd out)
    = Orch.withResponse final (Orch.withFlags false false (state w))
    /\ Watch.rest (snd out) = Watch.rest w
    /\ (windowOpen env = true ->
        last (Observe.updates (trace (snd out))) (state w) = state (snd out)).
Proof.
  intros. apply TerminalFacts.terminal.
Qed.

Lemma X10_witness :
  last (Observe.updates
          (trace (snd (Stream._processStream Examples.parse Examples.toStr
                         Examples.textEnv Examples.brokenReader
                         (JStr "session-1") (JStr "gpt-5-mini")
                         Examples.world0))))
       (state Examples.world0)
  = state (snd (Stream._processStream Examples.parse Examples.toStr
                  Examples.textEnv Examples.brokenReader
                  (JStr "session-1") (JStr "gpt-5-mini") Examples.world0)).
Proof.
  destruct (X10_stream_ends_in_the_terminal_state Examples.parse
              Examples.toStr Examples.textEnv Examples.brokenReader
              (JStr "session-1") (JStr "gpt-5-mini") Examples.world0)
    as (_ & _ & H).
  apply H. reflexivity.
Defined.

(** ** The voice draft, closing and toggling *)

Module SurfaceFacts.
Import Eff Surface.

Lemma aborts_app (a b : list Event) :
  Seen.aborts (a ++ b) = (Seen.aborts a ++ Seen.aborts b)%list.
Proof.
  induction a as [|e a IH]; simpl; [reflexivity|].
  destruct e; simpl; now rewrite ?IH.
Qed.

Lemma orText_empty (t : string) : Ask.orText t "" = t.
Proof. now destruct t. Qed.

Lemma closedState_draft (st : Ask.State) :
  Ask.voiceDraft (closedState st) = Ask.voiceDraft st
  /\ Ask.voiceSpeaker (closedState st) = Ask.voiceSpeaker st
  /\ Ask.voiceDraftTimestamp (closedState st) = Ask.voiceDraftTimestamp st.
Proof.
  unfold closedState. simpl. rewrite !orText_empty.
  repeat split. apply AskFacts.stamp_or_zero.
Qed.

Lemma resolve_closed (st : Ask.State) (now : Z) (p : JsVal) :
  Ask._resolveEffectivePrompt (closedState st) now p
  = Ask._resolveEffectivePrompt st now p.
Proof.
  destruct (closedState_draft st) as (Hd & _ & Ht).
  unfold Ask._resolveEffectivePrompt. cbv zeta. now rewrite Hd, Ht.
Qed.

Lemma close_effect (env : Env) (w : World) :
  let out := closeAskWindow env w in
  fst out = Ok tt
  /\ abortController (snd out) = None
  /\ state (snd out) = closedState (state w)
  /\ calls (snd out) = calls w
  /\ Seen.aborts (trace (snd out))
     = (Seen.aborts (trace w)
          ++ match abortController w with Some c => [c] | None => [] end)%list.
Proof.
  cbv zeta. unfold closeAskWindow, bind, abortForClose, Orch._broadcastState,
    when.
  destruct (windowOpen env); destruct (abortController w); simpl;
    rewrite ?aborts_app; simpl; rewrite ?app_nil_r; repeat split.
Qed.

End SurfaceFacts.

(** X11. A voice draft is taken only from text that is not blank: blank
    text or a value that is no string leaves the state as it is.  A draft
    taken at time [t] is kept trimmed, with the speaker or "Me" for a
    missing one, and it is the effective prompt of every request without an
    explicit prompt made up to 600000 ms after [t], also when the window was
    closed in between; after that the effective prompt is empty. *)
Theorem X11_voice_draft_round_trip :
  forall (st : Ask.State) (t : Z) (speaker : string) (text prompt : JsVal)
         (now : Z),
    (nonEmpty (Ask.trimmedText text) = false ->
     Ask.setVoiceDraft st t speaker text = st)
    /\ (nonEmpty (Ask.trimmedText text) = true ->
        Ask.voiceDraft (Ask.setVoiceDraft st t speaker text)
        = Ask.trimmedText text
        /\ Ask.voiceSpeaker (Ask.setVoiceDraft st t speaker text)
           = (if nonEmpty speaker then speaker else "Me")
        /\ Ask.voiceDraftTimestamp (Ask.setVoiceDraft st t speaker text) = t)
    /\ (nonEmpty (Ask.trimmedText text) = true ->
        nonEmpty (Ask.trimmedText prompt) = false ->
        (now - t <= 600000)%Z ->
        Ask._resolveEffectivePrompt (Ask.setVoiceDraft st t speaker text)
          now prompt = Ask.trimmedText text
        /\ Ask._resolveEffectivePrompt
             (Surface.closedState (Ask.setVoiceDraft st t speaker text))
             now prompt = Ask.trimmedText text)
    /\ (nonEmpty (Ask.trimmedText prompt) = false ->
        (600000 < now - t)%Z ->
        Ask._resolveEffectivePrompt (Ask.setVoiceDraft st t speaker text)
          now prompt = ""
        \/ Ask.setVoiceDraft st t speaker text = st).
Proof.
  intros st t speaker text prompt now.
  assert (Htrim : trim (Ask.trimmedText text) = Ask.trimmedText text).
  { destruct text; simpl; try reflexivity. apply TextFacts.trim_idem. }
  split.
  { intros H. unfold Ask.setVoiceDraft. cbv zeta. now rewrite H. }
  split.
  { intros H. unfold Ask.setVoiceDraft. cbv zeta. rewrite H. simpl.
    now repeat split. }
  split.
  { intros H Hp Hage.
    assert (Hr : Ask._resolveEffectivePrompt
                   (Ask.setVoiceDraft st t speaker text) now prompt
                 = Ask.trimmedText text).
    { rewrite AskFacts.resolve_without_prompt by exact Hp.
      unfold Ask.setVoiceDraft. cbv zeta. rewrite H. simpl.
      rewrite Htrim, H. simpl.
      destruct (Z.leb_spec (now - t) 600000); [reflexivity|lia]. }
    split; [exact Hr|]. now rewrite SurfaceFacts.resolve_closed. }
  intros Hp Hage.
  destruct (nonEmpty (Ask.trimmedText text)) eqn:H.
  - left. rewrite AskFacts.resolve_without_prompt by exact Hp.
    unfold Ask.setVoiceDraft. cbv zeta. rewrite H. simpl.
    destruct (Z.leb_spec (now - t) 600000); [lia|].
    now rewrite andb_false_r.
  - right. unfold Ask.setVoiceDraft. cbv zeta. now rewrite H.
Qed.

Lemma X11_witness :
  Ask._resolveEffectivePrompt
    (Surface.closedState
       (Ask.setVoiceDraft Ask.initialState 1000 "" (JStr "  what now?  ")))
    600000 JUndefined
  = "what now?"
  /\ Ask.setVoiceDraft Examples.draftState 9000 "Them" (JStr "   ")
     = Examples.draftState.
Proof.
  destruct (X11_voice_draft_round_trip Ask.initialState 1000 ""
              (JStr "  what now?  ") JUndefined 600000) as (_ & _ & H & _).
  destruct (X11_voice_draft_round_trip Examples.draftState 9000 "Them"
              (JStr "   ") JUndefined 0) as (Hblank & _).
  split.
  - apply H; try reflexivity. lia.
  - apply Hblank. reflexivity.
Defined.

(** X12. [closeAskWindow] always succeeds; it aborts the controller it
    finds, exactly once, and forgets it, so that closing again aborts
    nothing; it resets the state to the defaults but keeps the voice draft,
    its speaker and its time stamp, so that the effective prompt of the next
    request is what it would have been without the close; it makes no
    request to the model. *)
Theorem X12_close_resets_but_keeps_the_draft :
  forall (env : Env) (w : World),
    let out := Surface.closeAskWindow env w in
    let again := Surface.closeAskWindow env (snd out) in
    fst out = Ok tt
    /\ abortController (snd out) = None
    /\ Seen.aborts (trace (snd out))
       = (Seen.aborts (trace w)
            ++ match abortController w with Some c => [c] | None => [] end)
         %list
    /\ Seen.aborts (trace (snd again)) = Seen.aborts (trace (snd out))
    /\ state (snd again) = state (snd out)
    /\ Seen.conversation (state (snd out)) = ("", "", false, false)
    /\ Surface.hasContent (state (snd out)) = false
    /\ Ask.showTextInput (state (snd out)) = true
    /\ (Ask.voiceDraft (state (snd out)), Ask.voiceSpeaker (state (snd out)),
        Ask.voiceDraftTimestamp (state (snd out)))
       = (Ask.voiceDraft (state w), Ask.voiceSpeaker (state w),
          Ask.voiceDraftTimestamp (state w))
    /\ (forall now prompt,
          Ask._resolveEffectivePrompt (state (snd out)) now prompt
          = Ask._resolveEffectivePrompt (state w) now prompt)
    /\ calls (snd out) = calls w.
Proof.
  intros env w. cbv zeta.
  destruct (SurfaceFacts.close_effect env w) as (H1 & H2 & H3 & H4 & H5).
  destruct (SurfaceFacts.close_effect env (snd (Surface.closeAskWindow env w)))
    as (_ & _ & G3 & _ & G5).
  cbv zeta in *.
  destruct (SurfaceFacts.closedState_draft (state w)) as (Hd & Hs & Ht).
  split; [exact H1|]. split; [exact H2|]. split; [exact H5|].
  split; [rewrite G5, H2; apply app_nil_r|].
  split.
  { rewrite G3, H3. unfold Surface.closedState. simpl.
    rewrite !SurfaceFacts.orText_empty, !AskFacts.stamp_or_zero.
    reflexivity. }
  rewrite H3.
  split; [reflexivity|]. split; [reflexivity|]. split; [reflexivity|].
  split; [now rewrite Hd, Hs, Ht|].
  split; [intros; apply SurfaceFacts.resolve_closed|exact H4].
Qed.

Module ToggleFacts.
Import Eff Surface.

Section Toggle.

Variable JSON_parse : string -> option JsVal.
Variable ToString : JsVal -> string.
Variable env : Env.

(** What a toggle that makes no request does. *)
Lemma plain (askWindow : option bool) (w : World) :
  let out := toggleAskButton JSON_parse ToString env askWindow false w in
  fst out = Ok tt
  /\ calls (snd out) = calls w
  /\ abortController (snd out) = abortController w
  /\ Seen.conversation (state (snd out)) = Seen.conversation (state w)
  /\ Ask.isVisible (state (snd out))
     = (if shown askWindow && hasContent (state w)
        then Ask.isVisible (state w) else negb (shown askWindow))
  /\ Ask.showTextInput (state (snd out))
     = (if shown askWindow
        then if hasContent (state w) then negb (Ask.showTextInput (state w))
             else Ask.showTextInput (state w)
        else true).
Proof.
  cbv zeta. unfold toggleAskButton, bind, gets, when, Orch._broadcastState.
  simpl andb.
  destruct (shown askWindow); simpl andb;
    [destruct (hasContent (state w))|]; simpl;
    destruct (windowOpen env); simpl; repeat split.
Qed.

End Toggle.

End ToggleFacts.

(** X13. [toggleAskButton] without the screen-only flag never asks the
    model, never touches the abort controller and leaves question, response
    and the loading and streaming flags alone.  On a visible window with
    content it flips the text input, so two toggles in a row restore the
    state; on a visible window without content it hides the window; on a
    hidden or missing window it shows the window with the text input.  With
    the screen-only flag, on a hidden or missing window or with the text
    input shown, it is [sendMessage] with the empty prompt and an empty
    history. *)
Theorem X13_toggle_ask_button :
  forall (JSON_parse : string -> option JsVal) (ToString : JsVal -> string)
         (env : Env) (askWindow : option bool) (w : World),
    let toggle := Surface.toggleAskButton JSON_parse ToString env in
    let out := toggle askWindow false w in
    fst out = Ok tt
    /\ calls (snd out) = calls w
    /\ abortController (snd out) = abortController w
    /\ Seen.conversation (state (snd out)) = Seen.conversation (state w)
    /\ (Surface.shown askWindow = true ->
        Surface.hasContent (state w) = true ->
        Ask.showTextInput (state (snd out))
        = negb (Ask.showTextInput (state w))
        /\ Ask.isVisible (state (snd out)) = Ask.isVisible (state w)
        /\ state (snd (toggle askWindow false (snd out))) = state w)
    /\ (Surface.shown askWindow = true ->
        Surface.hasContent (state w) = false ->
        Ask.isVisible (state (snd out)) = false
        /\ Ask.showTextInput (state (snd out)) = Ask.showTextInput (state w)
        /\ Observe.updates (trace (snd out)) = Observe.updates (trace w))
    /\ (Surface.shown askWindow = false ->
        Ask.isVisible (state (snd out)) = true
        /\ Ask.showTextInput (state (snd out)) = true)
    /\ (Surface.shown askWindow = false
        \/ Ask.showTextInput (state w) = true ->
        snd (toggle askWindow true w)
        = snd (Send.sendMessage JSON_parse ToString env (JStr "") (Some [])
                 w)).
Proof.
  intros JSON_parse ToString env askWindow w. cbv zeta.
  destruct (ToggleFacts.plain JSON_parse ToString env askWindow w)
    as (H1 & H2 & H3 & H4 & H5 & H6).
  cbv zeta in *.
  split; [exact H1|]. split; [exact H2|]. split; [exact H3|].
  split; [exact H4|].
  split.
  { intros Hs Hc. rewrite Hs, Hc in *. simpl in H5, H6.
    split; [exact H6|]. split; [exact H5|].
    clear H1 H2 H3 H4 H5 H6.
    unfold Surface.toggleAskButton, Eff.bind, Eff.gets, Eff.when,
      Orch._broadcastState.
    rewrite Hs. simpl andb. rewrite Hc.
    unfold Surface.hasContent in *.
    destruct w as [st c n k t]. destruct st. simpl in *.
    destruct (windowOpen env); simpl; rewrite Hc; simpl;
      now rewrite negb_involutive. }
  split.
  { intros Hs Hc. rewrite Hs, Hc in *. simpl in H5, H6.
    split; [exact H5|]. split; [exact H6|].
    unfold Surface.toggleAskButton, Eff.bind, Eff.gets, Eff.when,
      Orch._broadcastState.
    rewrite Hs. simpl andb. rewrite Hc. simpl.
    rewrite WatchFacts.updates_app. simpl. apply app_nil_r. }
  split.
  { intros Hs. rewrite Hs in *. simpl in H5, H6. now split. }
  intros Hcase.
  unfold Surface.toggleAskButton, Eff.bind, Eff.gets.
  cbv beta iota. simpl andb.
  assert (Hc : negb (Surface.shown askWindow) || Ask.showTextInput (state w)
               = true).
  { destruct Hcase as [-> | ->]; [reflexivity|apply orb_true_r]. }
  rewrite Hc. cbn [andb]. cbv beta iota.
  destruct (Send.sendMessage JSON_parse ToString env (JStr "") (Some []) w)
    as [[r|e] w']; reflexivity.
Qed.

Lemma X13_witness :
  let toggle :=
    Surface.toggleAskButton Examples.parse Examples.toStr Examples.textEnv in
  let w := snd (Orch.setState (Orch.withResponse "Hello") Examples.world0) in
  state (snd (toggle (Some true) false (snd (toggle (Some true) false w))))
  = state w
  /\ Ask.isVisible (state (snd (toggle None false Examples.world0))) = true.
Proof.
  cbv zeta.
  destruct (X13_toggle_ask_button Examples.parse Examples.toStr Examples.textEnv
              (Some true)
              (snd (Orch.setState (Orch.withResponse "Hello")
                      Examples.world0)))
    as (_ & _ & _ & _ & H & _).
  destruct (X13_toggle_ask_button Examples.parse Examples.toStr Examples.textEnv
              None Examples.world0) as (_ & _ & _ & _ & _ & _ & G & _).
  split.
  - apply H; reflexivity.
  - apply G. reflexivity.
Defined.

(** ** Calls in flight: the current call and the close *)

Module OwnerFacts.
Import Flight Owner FlightFacts.

Lemma owned_initial : Owned initial.
Proof. split; simpl; intros; discriminate. Qed.

Lemma owned_abort (c : nat) (s : Sys) : Owned s -> Owned (abort c s).
Proof.
  intros [O1 O2 O3]. unfold abort.
  destruct (aborted s c) eqn:Ec; [now split|].
  split; simpl.
  - exact O1.
  - exact O2.
  - intros t r Hp Ha. unfold update in Ha.
    destruct (Nat.eqb_spec (signalOf s t) c) as [E|N]; [discriminate|].
    rewrite (O3 t r Hp Ha). simpl.
    destruct (member r (listeners s c)) eqn:Em; [|reflexivity].
    elim N. now apply (O2 t r c).
Qed.

Lemma owned_abortCurrent (s : Sys) : Owned s -> Owned (abortCurrent s).
Proof.
  intros O. unfold abortCurrent. destruct (slot s); [|exact O].
  now apply owned_abort.
Qed.

Lemma owned_callSend (s : Sys) : Inv s -> Owned s -> Owned (callSend s).
Proof.
  intros I O.
  destruct (abortCurrent_spec s I) as (_ & _ & Hl & Hc & _ & Hr & Hs & Hp & Hn & _).
  cbv zeta in *.
  pose proof (owned_abortCurrent s O) as [O1 O2 O3].
  unfold callSend. cbv zeta. split; simpl.
  - intros c r. unfold update.
    destruct (Nat.eqb_spec c (controllers (abortCurrent s))); [discriminate|].
    apply O1.
  - intros t r c. unfold update.
    destruct (Nat.eqb_spec t (launched (abortCurrent s))); [discriminate|].
    destruct (Nat.eqb_spec c (controllers (abortCurrent s))); [discriminate|].
    apply O2.
  - intros t r. unfold update.
    destruct (Nat.eqb_spec t (launched (abortCurrent s))) as [E|N];
      [discriminate|].
    intros Hph.
    assert (Hlt : signalOf (abortCurrent s) t < controllers (abortCurrent s)).
    { rewrite Hs, Hc. apply (inv_signal s I).
      apply (started s t I). rewrite <- Hp. now rewrite Hph. }
    destruct (Nat.eqb_spec (signalOf (abortCurrent s) t)
                (controllers (abortCurrent s))); [lia|].
    now apply O3.
Qed.

Lemma owned_callClose (s : Sys) : Owned s -> Owned (callClose s).
Proof.
  intros O. pose proof (owned_abortCurrent s O) as [O1 O2 O3].
  unfold callClose. cbv zeta. now split; simpl.
Qed.

Lemma owned_respond (t : nat) (stream : list string) (s : Sys) :
  Inv s -> Owned s -> Owned (respond t stream s).
Proof.
  intros I [O1 O2 O3]. unfold respond.
  destruct (phaseOf s t) eqn:Ep; [|now split|now split].
  split; simpl.
  - intros c r. unfold update.
    destruct (Nat.eqb_spec c (signalOf s t)) as [->|N].
    + rewrite member_app. intros H. apply orb_true_iff in H.
      destruct H as [H|H]; [apply O1 in H; lia|].
      simpl in H. rewrite orb_false_r in H. apply Nat.eqb_eq in H. lia.
    + intros H. apply O1 in H. lia.
  - intros t1 r1 c. unfold update.
    destruct (Nat.eqb_spec t1 t) as [->|N1].
    + intros H. injection H as <-.
      destruct (Nat.eqb_spec c (signalOf s t)) as [->|N]; [reflexivity|].
      intros H. apply O1 in H. lia.
    + intros Hp1.
      pose proof (inv_reader s I t1 r1 Hp1) as Hlt.
      destruct (Nat.eqb_spec c (signalOf s t)) as [->|N].
      * rewrite member_app. intros H. apply orb_true_iff in H.
        destruct H as [H|H]; [now apply (O2 t1 r1)|].
        simpl in H. rewrite orb_false_r in H. apply Nat.eqb_eq in H. lia.
      * now apply O2.
  - intros t1 r1. unfold update.
    destruct (Nat.eqb_spec t1 t) as [->|N1].
    + intros H. injection H as <-. now rewrite Nat.eqb_refl.
    + intros Hp1 Ha.
      pose proof (inv_reader s I t1 r1 Hp1) as Hlt.
      destruct (Nat.eqb_spec r1 (readers s)); [lia|].
      now apply (O3 t1).
Qed.

Lemma owned_read (t : nat) (s : Sys) : Owned s -> Owned (read t s).
Proof.
  intros [O1 O2 O3]. unfold read.
  destruct (phaseOf s t) eqn:Ep; [now split| |now split].
  destruct (if cancelled s reader then [] else pending s reader);
    split; simpl; try assumption.
  - intros t1 r1 c. unfold update.
    destruct (Nat.eqb_spec t1 t); [discriminate|]. apply O2.
  - intros t1 r1. unfold update.
    destruct (Nat.eqb_spec t1 t); [discriminate|]. apply O3.
Qed.

Lemma owned_step (s : Sys) (a : Step) :
  Inv s -> Owned s -> Owned (step s a).
Proof.
  intros I O. destruct a; simpl.
  - now apply owned_callSend.
  - now apply owned_callClose.
  - now apply owned_respond.
  - now apply owned_read.
Qed.

Lemma owned_run (steps : list Step) (s : Sys) :
  Inv s -> Owned s -> Owned (run s steps).
Proof.
  revert s. induction steps as [|a steps IH]; intros s I O; [exact O|].
  simpl. apply IH; [now apply inv_step|now apply owned_step].
Qed.

Lemma tokensOf_snoc (t : nat) (l : list (nat * string)) (token : string) :
  map snd (filter (fun e => Nat.eqb (fst e) t) (l ++ [(t, token)]))
  = (map snd (filter (fun e => Nat.eqb (fst e) t) l) ++ [token])%list.
Proof.
  rewrite filter_app, map_app. simpl. now rewrite Nat.eqb_refl.
Qed.

Lemma live_none (s : Sys) :
  (forall c, c < controllers s -> aborted s c = true) -> live s = [].
Proof.
  intros H. unfold live.
  assert (G : forall l, (forall c, In c l -> c < controllers s) ->
                        filter (fun c => negb (aborted s c)) l = []).
  { induction l as [|c l IH]; intros Hl; [reflexivity|].
    simpl. rewrite (H c) by (apply Hl; now left). simpl.
    apply IH. intros c' Hc'. apply Hl. now right. }
  apply G. intros c Hc. apply in_seq in Hc. lia.
Qed.

Lemma close_silences (s : Sys) (t r : nat) :
  Inv s -> current t s -> phaseOf s t = Streaming r ->
  Silenced t (callClose s) /\ tokens (callClose s) = tokens s.
Proof.
  intros I Hcur Hp.
  destruct (abortCurrent_spec s I)
    as (_ & Hcan & _ & _ & _ & Hr & _ & Hph & Hn & Htok).
  cbv zeta in *. unfold current in Hcur.
  split; [|exact Htok].
  split; unfold callClose; cbv zeta; simpl.
  - rewrite Hn. apply (started s t I). now rewrite Hp.
  - rewrite Hph, Hp, Hr. split; [now apply (inv_reader s I t)|].
    rewrite Hcan, Hcur.
    destruct (inv_slot s I _ Hcur) as (_ & Ha).
    rewrite (inv_listener s I t r Hp Ha). apply orb_true_r.
Qed.

End OwnerFacts.

(** X14. In every state that calls of [sendMessage] and [closeAskWindow],
    responses and reads can reach, the reader of the call whose controller
    is the current one is not cancelled: its next read broadcasts the next
    token of its stream, and ends the call only when the stream is over.
    Only a call that was superseded or closed can lose its reader. *)
Theorem X14_current_call_is_never_cut_off :
  forall (steps : list Flight.Step) (t r : nat),
    let s := Flight.run Flight.initial steps in
    Flight.phaseOf s t = Flight.Streaming r ->
    Owner.current t s ->
    Flight.cancelled s r = false
    /\ (forall token rest,
          Flight.pending s r = token :: rest ->
          Flight.tokensOf t (Flight.read t s)
          = (Flight.tokensOf t s ++ [token])%list
          /\ Flight.phaseOf (Flight.read t s) t = Flight.Streaming r
          /\ Flight.pending (Flight.read t s) r = rest)
    /\ (Flight.pending s r = [] ->
        Flight.phaseOf (Flight.read t s) t = Flight.Finished
        /\ Flight.tokens (Flight.read t s) = Flight.tokens s).
Proof.
  intros steps t r. cbv zeta.
  set (s := Flight.run Flight.initial steps).
  intros Hp Hcur.
  assert (I : Flight.Inv s)
    by (apply FlightFacts.inv_run, FlightFacts.inv_initial).
  assert (O : Owner.Owned s).
  { apply OwnerFacts.owned_run;
      [apply FlightFacts.inv_initial|apply OwnerFacts.owned_initial]. }
  destruct (Flight.inv_slot s I _ Hcur) as (_ & Ha).
  pose proof (Owner.own_open s O t r Hp Ha) as Hopen.
  split; [exact Hopen|].
  split.
  - intros token rest Hq. unfold Flight.read, Flight.tokensOf.
    rewrite Hp, Hopen, Hq. simpl.
    rewrite OwnerFacts.tokensOf_snoc.
    split; [reflexivity|]. split; [exact Hp|].
    apply FlightFacts.update_same.
  - intros Hq. unfold Flight.read. rewrite Hp, Hopen, Hq. simpl.
    split; [apply FlightFacts.update_same|reflexivity].
Qed.

Lemma X14_witness :
  let s := Flight.run Flight.initial Owner.undisturbed in
  Flight.cancelled s 0 = false
  /\ Flight.tokensOf 0 (Flight.read 0 s) = ["Hel"; "lo"].
Proof.
  cbv zeta.
  destruct (X14_current_call_is_never_cut_off Owner.undisturbed 0 0)
    as (H & G & _); [reflexivity|reflexivity|].
  split; [exact H|].
  destruct (G "lo" []) as (G1 & _); [reflexivity|exact G1].
Defined.

(** X15. After [closeAskWindow], in every reachable state, no controller is
    live and none is current; the call that was streaming on the current
    controller has its reader cancelled and broadcasts no token any more,
    whatever happens afterwards. *)
Theorem X15_close_silences_the_streaming_call :
  forall (steps : list Flight.Step),
    let s := Flight.run Flight.initial steps in
    Flight.live (Flight.callClose s) = []
    /\ Flight.slot (Flight.callClose s) = None
    /\ (forall t r more,
          Flight.phaseOf s t = Flight.Streaming r ->
          Owner.current t s ->
          Flight.cancelled (Flight.callClose s) r = true
          /\ Flight.tokensOf t (Flight.run (Flight.callClose s) more)
             = Flight.tokensOf t s).
Proof.
  intros steps. cbv zeta.
  set (s := Flight.run Flight.initial steps).
  assert (I : Flight.Inv s)
    by (apply FlightFacts.inv_run, FlightFacts.inv_initial).
  destruct (FlightFacts.abortCurrent_spec s I) as (Hall & _ & _ & Hc & _).
  cbv zeta in *.
  split.
  { apply OwnerFacts.live_none. unfold Flight.callClose. simpl.
    intros c Hlt. apply Hall. now rewrite <- Hc. }
  split; [reflexivity|].
  intros t r more Hp Hcur.
  destruct (OwnerFacts.close_silences s t r I Hcur Hp) as (Hs & Htok).
  split.
  - destruct Hs as (_ & Hs). 
    replace (Flight.phaseOf (Flight.callClose s) t) with (Flight.Streaming r)
      in Hs; [apply Hs|].
    destruct (FlightFacts.abortCurrent_spec s I)
      as (_ & _ & _ & _ & _ & _ & _ & Hph & _).
    cbv zeta in Hph. unfold Flight.callClose. simpl. now rewrite Hph.
  - rewrite (FlightFacts.silenced_run t more _ Hs).
    unfold Flight.tokensOf. now rewrite Htok.
Qed.

Lemma X15_witness :
  let s := Flight.run Flight.initial Owner.undisturbed in
  Flight.cancelled (Flight.callClose s) 0 = true
  /\ Flight.tokensOf 0
       (Flight.run (Flight.callClose s) [Flight.Read 0; Flight.Read 0])
     = ["Hel"].
Proof.
  cbv zeta.
  destruct (X15_close_silences_the_streaming_call Owner.undisturbed)
    as (_ & _ & H).
  destruct (H 0 0 [Flight.Read 0; Flight.Read 0]) as (H1 & H2);
    [reflexivity|reflexivity|].
  split; [exact H1|exact H2].
Defined.

(** ** The settings service *)

Module PrefsFacts.
Import Eff Prefs.

Lemma has_spread (k : string) (a b : Props) :
  Js.has k (Js.spread a b) = Js.has k b || Js.has k a.
Proof.
  unfold Js.spread. revert a.
  induction b as [|[k' v] b IH]; intros a; simpl; [reflexivity|].
  rewrite IH, ClientFacts.has_set.
  destruct (String.eqb k k'), (Js.has k b); reflexivity.
Qed.

Lemma spread_snoc (a b : Props) (k : string) (v : JsVal) :
  Js.spread a (b ++ [(k, v)])%list = Js.set k v (Js.spread a b).
Proof. unfold Js.spread. now rewrite fold_left_app. Qed.

Lemma has_app (k : string) (a b : Props) :
  Js.has k (a ++ b)%list = Js.has k a || Js.has k b.
Proof.
  induction a as [|[k' v] a IH]; simpl; [reflexivity|].
  rewrite IH. now rewrite orb_assoc.
Qed.

(** [{ ...a, ...b }] reads from [b] where [b] has the key. *)
Lemma lookup_spread (k : string) (a b : Props) :
  Js.lookup k (Js.spread a b)
  = if Js.has k b then Js.lookup k (Js.literal b) else Js.lookup k a.
Proof.
  induction b as [|[k' v] b IH] using rev_ind; [reflexivity|].
  rewrite spread_snoc, ClientFacts.literal_snoc, !AdapterFacts.lookup_set,
    has_app, IH.
  simpl. rewrite orb_false_r.
  destruct (String.eqb k k'); [now rewrite orb_true_r|].
  now rewrite orb_false_r.
Qed.

Lemma lookup_absent (k : string) (ps : Props) :
  Js.has k ps = false -> Js.lookup k ps = JUndefined.
Proof.
  induction ps as [|[k' v] ps IH]; simpl; [reflexivity|].
  destruct (String.eqb k k'); [discriminate|exact IH].
Qed.

Lemma lookup_app (k : string) (a b : Props) :
  Js.lookup k (a ++ b)%list
  = if Js.has k a then Js.lookup k a else Js.lookup k b.
Proof.
  induction a as [|[k' v] a IH]; simpl; [reflexivity|].
  destruct (String.eqb k k'); [reflexivity|exact IH].
Qed.

Lemma has_keys (k : string) (ps : Props) :
  Js.has k ps = true <-> In k (map fst ps).
Proof.
  induction ps as [|[k' v] ps IH]; simpl; [split; [discriminate|tauto]|].
  rewrite orb_true_iff, IH, String.eqb_eq. split; intros [H|H]; auto.
Qed.

Lemma keys_set (k : string) (v : JsVal) (ps : Props) :
  map fst (Js.set k v ps)
  = if Js.has k ps then map fst ps else (map fst ps ++ [k])%list.
Proof.
  induction ps as [|[k' v'] ps IH]; simpl; [reflexivity|].
  destruct (String.eqb k k') eqn:E; simpl.
  - apply String.eqb_eq in E. now subst.
  - rewrite IH. now destruct (Js.has k ps).
Qed.

Lemma unique_set (k : string) (v : JsVal) (ps : Props) :
  unique ps -> unique (Js.set k v ps).
Proof.
  unfold unique. intros U. rewrite keys_set.
  destruct (Js.has k ps) eqn:E; [exact U|].
  apply NoDup_app; [exact U|constructor; [intros []|constructor]|].
  intros x Hx [<-|[]]. apply has_keys in Hx. congruence.
Qed.

Lemma unique_spread (a b : Props) : unique a -> unique (Js.spread a b).
Proof.
  unfold Js.spread. revert a.
  induction b as [|[k v] b IH]; intros a U; simpl; [exact U|].
  apply IH. now apply unique_set.
Qed.

Lemma unique_literal (entries : Props) : unique (Js.literal entries).
Proof. apply unique_spread. constructor. Qed.

(** An object that holds each key once reads as its literal. *)
Lemma lookup_literal (k : string) (ps : Props) :
  unique ps -> Js.lookup k (Js.literal ps) = Js.lookup k ps.
Proof.
  unfold unique.
  induction ps as [|[k' v] ps IH] using rev_ind; intros U; [reflexivity|].
  rewrite map_app in U. simpl in U.
  apply NoDup_remove in U. rewrite app_nil_r in U. destruct U as [U N].
  rewrite ClientFacts.literal_snoc, AdapterFacts.lookup_set, lookup_app,
    (IH U).
  simpl.
  destruct (String.eqb k k') eqn:E.
  - apply String.eqb_eq in E. subst k'.
    destruct (Js.has k ps) eqn:Eh; [|reflexivity].
    apply has_keys in Eh. contradiction.
  - destruct (Js.has k ps) eqn:Eh; [reflexivity|].
    now apply lookup_absent.
Qed.

Lemma stored_put (k k' : string) (v : Props) (l : list (string * Props)) :
  stored k (put k' v l) = if String.eqb k k' then Some v else stored k l.
Proof.
  induction l as [|[k0 v0] l IH]; simpl.
  - now destruct (String.eqb k k').
  - destruct (String.eqb k' k0) eqn:E0; simpl.
    + apply String.eqb_eq in E0. subst k0.
      now destruct (String.eqb k k').
    + rewrite IH.
      destruct (String.eqb k k0) eqn:E1; [|reflexivity].
      apply String.eqb_eq in E1. subst k0.
      destruct (String.eqb k k') eqn:E2; [|reflexivity].
      apply String.eqb_eq in E2. subst k'.
      rewrite String.eqb_refl in E0. discriminate.
Qed.

Lemma saved_unique (h : Host) (d : Disk) : Sound d -> unique (saved h d).
Proof.
  intros S. unfold saved.
  destruct (stored _ _) eqn:E; [now apply (S _ _ E)|constructor].
Qed.

Lemma getSettings_spec (h : Host) (d : Disk) :
  getSettings h d
  = match readError h with
    | Some _ => (Ok (getDefaultSettings h), d)
    | None =>
        (Ok (Js.spread (getDefaultSettings h) (saved h d)),
         {| users := users d;
            currentSettings :=
              Some (Js.spread (getDefaultSettings h) (saved h d));
            pending := pending d |})
    end.
Proof.
  unfold getSettings, tryCatch, bind, store_get, saved. cbv zeta.
  now destruct (readError h).
Qed.

Lemma saveSettings_spec (h : Host) (settings : Props) (d : Disk) :
  saveSettings h settings d
  = match readError h, writeError h with
    | Some e, _ => (Ok (Failure (message e)), d)
    | None, Some e => (Ok (Failure (message e)), d)
    | None, None =>
        (Ok Success,
         {| users :=
              put (userSettingsKey h) (Js.spread (saved h d) settings)
                (users d);
            currentSettings := Some (Js.spread (saved h d) settings);
            pending := Some (Js.spread (saved h d) settings) |})
    end.
Proof.
  unfold saveSettings, tryCatch, bind, store_get, store_set, saved.
  cbv zeta.
  destruct (readError h); [reflexivity|].
  now destruct (writeError h).
Qed.

Lemma sound_put (h : Host) (settings : Props) (d : Disk) (c p : option Props) :
  Sound d ->
  Sound {| users :=
             put (userSettingsKey h) (Js.spread (saved h d) settings)
               (users d);
           currentSettings := c; pending := p |}.
Proof.
  intros S key ps. simpl. rewrite stored_put.
  destruct (String.eqb key (userSettingsKey h)).
  - intros [= <-]. apply unique_spread. now apply saved_unique.
  - apply S.
Qed.

Lemma saved_after (h h' : Host) (settings : Props) (d : Disk)
  (c p : option Props) :
  saved h'
    {| users :=
         put (userSettingsKey h) (Js.spread (saved h d) settings) (users d);
       currentSettings := c; pending := p |}
  = if String.eqb (userSettingsKey h') (userSettingsKey h)
    then Js.spread (saved h d) settings
    else saved h' d.
Proof.
  unfold saved at 1. simpl. rewrite stored_put.
  now destruct (String.eqb (userSettingsKey h') (userSettingsKey h)).
Qed.

(** What the settings read after a save. *)
Lemma merged_after (h : Host) (settings : Props) (d : Disk) (k : string) :
  unique (saved h d) ->
  Js.lookup k
    (Js.spread (getDefaultSettings h) (Js.spread (saved h d) settings))
  = if Js.has k settings then Js.lookup k (Js.literal settings)
    else Js.lookup k (Js.spread (getDefaultSettings h) (saved h d)).
Proof.
  intros U.
  rewrite (lookup_spread k (getDefaultSettings h) (Js.spread _ _)).
  rewrite has_spread, lookup_literal by now apply unique_spread.
  rewrite (lookup_spread k (saved h d) settings).
  rewrite (lookup_spread k (getDefaultSettings h) (saved h d)).
  rewrite (lookup_literal k (saved h d) U).
  destruct (Js.has k settings); simpl; [reflexivity|].
  destruct (Js.has k (saved h d)) eqn:E; [reflexivity|reflexivity].
Qed.

Lemma save_then_get (h : Host) (d : Disk) (settings : Props) :
  Sound d -> readError h = None -> writeError h = None ->
  fst (saveSettings h settings d) = Ok Success
  /\ exists after,
       fst (getSettings h (snd (saveSettings h settings d))) = Ok after
       /\ forall k,
            Js.lookup k after
            = if Js.has k settings then Js.lookup k (Js.literal settings)
              else Js.lookup k (Js.spread (getDefaultSettings h) (saved h d)).
Proof.
  intros S Hr Hw. rewrite saveSettings_spec, Hr, Hw. cbn [fst snd].
  split; [reflexivity|].
  rewrite getSettings_spec, Hr. cbn [fst].
  rewrite saved_after, String.eqb_refl.
  eexists. split; [reflexivity|].
  intros k. apply merged_after. now apply saved_unique.
Qed.

Lemma effort_fixed (e : string) :
  In e Settings.REASONING_EFFORT_VALUES ->
  Adapter.normalizeReasoningEffort (JStr e) = Some e.
Proof.
  simpl. intros [<-|[<-|[<-|[<-|[<-|[]]]]]]; reflexivity.
Qed.

End PrefsFacts.

(** X16. On a store that can be read and written, [saveSettings] succeeds,
    and the settings read afterwards hold each saved key with its saved
    value and every other key with the value it had before; the settings of
    every other user are what they were.  When the store cannot be read or
    cannot be written, [saveSettings] reports the failure with the message
    of the error and leaves the store and the pending notification alone. *)
Theorem X16_saved_settings_are_read_back :
  forall (h : Prefs.Host) (d : Prefs.Disk) (settings : Props),
    let out := Prefs.saveSettings h settings d in
    (Prefs.Sound d -> Prefs.readError h = None ->
     Prefs.writeError h = None ->
     fst out = Ok Prefs.Success
     /\ Prefs.Sound (snd out)
     /\ (exists before after,
           fst (Prefs.getSettings h d) = Ok before
           /\ fst (Prefs.getSettings h (snd out)) = Ok after
           /\ forall k,
                Js.lookup k after
                = if Js.has k settings
                  then Js.lookup k (Js.literal settings)
                  else Js.lookup k before)
     /\ (forall h',
           Prefs.userSettingsKey h' <> Prefs.userSettingsKey h ->
           fst (Prefs.getSettings h' (snd out))
           = fst (Prefs.getSettings h' d)))
    /\ (forall e,
          Prefs.readError h = Some e
          \/ (Prefs.readError h = None /\ Prefs.writeError h = Some e) ->
          out = (Ok (Prefs.Failure (message e)), d)).
Proof.
  intros h d settings. cbv zeta. rewrite PrefsFacts.saveSettings_spec.
  split.
  - intros S Hr Hw. rewrite Hr, Hw. cbn [fst snd].
    split; [reflexivity|].
    split; [now apply PrefsFacts.sound_put|].
    split.
    + exists (Js.spread (Prefs.getDefaultSettings h) (Prefs.saved h d)).
      exists (Js.spread (Prefs.getDefaultSettings h)
                (Js.spread (Prefs.saved h d) settings)).
      rewrite !PrefsFacts.getSettings_spec, Hr. cbn [fst].
      rewrite PrefsFacts.saved_after, String.eqb_refl.
      split; [reflexivity|]. split; [reflexivity|].
      intros k. apply PrefsFacts.merged_after.
      now apply PrefsFacts.saved_unique.
    + intros h' Hk. rewrite !PrefsFacts.getSettings_spec.
      destruct (Prefs.readError h'); [reflexivity|]. cbn [fst].
      rewrite PrefsFacts.saved_after.
      destruct (String.eqb_spec (Prefs.userSettingsKey h')
                  (Prefs.userSettingsKey h)); [contradiction|reflexivity].
  - intros e [Hr|[Hr Hw]].
    + now rewrite Hr.
    + now rewrite Hr, Hw.
Qed.

Lemma X16_witness :
  fst (Prefs.saveSettings (Prefs.localHost Prefs.somePresets)
         [("language", JStr "de")] Prefs.empty)
  = Ok Prefs.Success
  /\ Prefs.saveSettings Prefs.brokenHost [("language", JStr "de")] Prefs.empty
     = (Ok (Prefs.Failure (Some "EACCES")), Prefs.empty).
Proof.
  destruct (X16_saved_settings_are_read_back
              (Prefs.localHost Prefs.somePresets) Prefs.empty
              [("language", JStr "de")]) as (H & _).
  destruct (X16_saved_settings_are_read_back Prefs.brokenHost Prefs.empty
              [("language", JStr "de")]) as (_ & G).
  split.
  - apply H; [intros key ps; discriminate|reflexivity|reflexivity].
  - apply (G {| message := Some "EACCES" |}). left. reflexivity.
Defined.

Module EffortStoreFacts.
Import Eff Prefs.

Lemma getReasoningEffort_spec (h : Host) (d : Disk) :
  getReasoningEffort h d
  = (Ok (Settings.normalizeReasoningEffort
           (Js.lookup "reasoningEffort"
              (match fst (getSettings h d) with
               | Ok s => s
               | Throw _ => []
               end))),
     snd (getSettings h d)).
Proof.
  unfold getReasoningEffort, tryCatch, bind.
  rewrite PrefsFacts.getSettings_spec.
  now destruct (readError h).
Qed.

Lemma setReasoningEffort_spec (h : Host) (v : JsVal) (d : Disk) :
  setReasoningEffort h v d
  = saveSettings h
      [("reasoningEffort", JStr (Settings.normalizeReasoningEffort v))] d.
Proof.
  unfold setReasoningEffort, tryCatch. cbv zeta.
  change (Js.literal
            [("reasoningEffort", JStr (Settings.normalizeReasoningEffort v))])
    with [("reasoningEffort", JStr (Settings.normalizeReasoningEffort v))].
  rewrite PrefsFacts.saveSettings_spec.
  destruct (readError h); [reflexivity|].
  now destruct (writeError h).
Qed.

Lemma users_getSettings (h : Host) (d : Disk) :
  users (snd (getSettings h d)) = users d.
Proof.
  rewrite PrefsFacts.getSettings_spec. now destruct (readError h).
Qed.

End EffortStoreFacts.

(** X17. [getReasoningEffort] never throws and never writes to the store;
    whatever the store holds, also when it cannot be read, its result is one
    of none, low, medium, high, xhigh, and the adapter sends exactly this
    value as the reasoning effort of a gpt-5 model.  It is "medium" for a
    user who saved nothing.  After [setReasoningEffort v] on a working
    store it is the normalised [v]. *)
Theorem X17_reasoning_effort_setting :
  forall (h : Prefs.Host) (d : Prefs.Disk) (v : JsVal),
    (exists e,
        fst (Prefs.getReasoningEffort h d) = Ok e
        /\ In e Settings.REASONING_EFFORT_VALUES
        /\ Prefs.users (snd (Prefs.getReasoningEffort h d)) = Prefs.users d
        /\ forall model,
             Adapter.buildReasoningPayload model (JStr e)
             = if Adapter.isGpt5Model model
               then [("reasoning", JObj [("effort", JStr e)])]
               else [])
    /\ (Prefs.stored (Prefs.userSettingsKey h) (Prefs.users d) = None ->
        fst (Prefs.getReasoningEffort h d) = Ok "medium")
    /\ (Prefs.Sound d -> Prefs.readError h = None ->
        Prefs.writeError h = None ->
        fst (Prefs.setReasoningEffort h v d) = Ok Prefs.Success
        /\ fst (Prefs.getReasoningEffort h
                  (snd (Prefs.setReasoningEffort h v d)))
           = Ok (Settings.normalizeReasoningEffort v)).
Proof.
  intros h d v. split; [|split].
  - rewrite EffortStoreFacts.getReasoningEffort_spec. cbn [fst snd].
    eexists. split; [reflexivity|].
    split; [apply EffortFacts.settings_range|].
    split; [apply EffortStoreFacts.users_getSettings|].
    intros model. rewrite AdapterFacts.reasoning_payload_eq.
    now rewrite PrefsFacts.effort_fixed by apply EffortFacts.settings_range.
  - intros Hs. rewrite EffortStoreFacts.getReasoningEffort_spec.
    rewrite PrefsFacts.getSettings_spec. unfold Prefs.saved. rewrite Hs.
    now destruct (Prefs.readError h), (Prefs.isMac h).
  - intros S Hr Hw.
    rewrite EffortStoreFacts.setReasoningEffort_spec.
    destruct (PrefsFacts.save_then_get h d
                [("reasoningEffort",
                  JStr (Settings.normalizeReasoningEffort v))]
                S Hr Hw) as (H1 & H2).
    split; [exact H1|].
    rewrite EffortStoreFacts.getReasoningEffort_spec. cbn [fst].
    destruct H2 as (after & Ha & Hk). rewrite Ha, Hk. simpl.
    destruct (EffortFacts.settings_range v) as [<-|[<-|[<-|[<-|[<-|[]]]]]];
      reflexivity.
Qed.

Lemma X17_witness :
  fst (Prefs.getReasoningEffort (Prefs.localHost Prefs.somePresets)
         (snd (Prefs.setReasoningEffort (Prefs.localHost Prefs.somePresets)
                 (JStr " X-High ") Prefs.empty)))
  = Ok "xhigh"
  /\ fst (Prefs.getReasoningEffort Prefs.brokenHost Prefs.empty) = Ok "medium".
Proof.
  destruct (X17_reasoning_effort_setting (Prefs.localHost Prefs.somePresets)
              Prefs.empty (JStr " X-High ")) as (_ & _ & H).
  destruct (X17_reasoning_effort_setting Prefs.brokenHost Prefs.empty JNull)
    as (_ & G & _).
  split.
  - apply H; [intros key ps; discriminate|reflexivity|reflexivity].
  - apply G. reflexivity.
Defined.

Module PresetFacts.
Import Eff Prefs.

Lemma getSelectedPresetId_spec (h : Host) (d : Disk) :
  getSelectedPresetId h d
  = (Ok (orNull (Js.lookup "selectedPresetId"
                   (match fst (getSettings h d) with
                    | Ok s => s
                    | Throw _ => []
                    end))),
     snd (getSettings h d)).
Proof.
  unfold getSelectedPresetId, tryCatch, bind.
  rewrite PrefsFacts.getSettings_spec.
  now destruct (readError h).
Qed.

Lemma repositoryGetPresets_spec (h : Host) (d : Disk) :
  repositoryGetPresets h d = (answering h, d).
Proof.
  unfold repositoryGetPresets, withFirebaseFallback, answering, tryCatch,
    answer.
  cbv zeta. destruct (loggedIn h); [|reflexivity].
  now destruct (firebasePresets h (currentUserId h)).
Qed.

Lemma getPresets_spec (h : Host) (d : Disk) :
  getPresets h d
  = (Ok (match answering h with Ok v => v | Throw _ => JArr [] [] end), d).
Proof.
  unfold getPresets, tryCatch. rewrite repositoryGetPresets_spec.
  now destruct (answering h).
Qed.

(** The prompt found for a selection among the presets that were fetched. *)
Lemma getSelectedPresetPrompt_spec (h : Host) (d : Disk) :
  fst (getSelectedPresetPrompt h d)
  = Ok (let id := match fst (getSelectedPresetId h d) with
                  | Ok v => v
                  | Throw _ => JNull
                  end in
        if Js.truthy id
        then match find id (match answering h with
                            | Ok v => v
                            | Throw _ => JArr [] []
                            end) with
             | Ok selected => orEmpty (Js.get selected "prompt")
             | Throw _ => JStr ""
             end
        else JStr "")
  /\ users (snd (getSelectedPresetPrompt h d)) = users d.
Proof.
  unfold getSelectedPresetPrompt, tryCatch, bind.
  rewrite getSelectedPresetId_spec. cbn [fst snd]. cbv zeta.
  pose proof (EffortStoreFacts.users_getSettings h d) as Hu.
  destruct (Js.truthy (orNull _)); simpl; [|now split].
  rewrite getPresets_spec. unfold answer.
  destruct (find _ _); simpl; now split.
Qed.

Lemma strictEq_string (v : JsVal) (id : string) :
  strictEq v (JStr id) = Js.isStr v id.
Proof. destruct v as [| | |n| | |]; try reflexivity. now destruct n. Qed.

Lemma findPreset_first (id : string) (l : list JsVal) :
  forallb present l = true ->
  findPreset (JStr id) l
  = Ok (match firstWithId id l with Some p => p | None => JUndefined end).
Proof.
  unfold firstWithId.
  induction l as [|p l IH]; simpl; [reflexivity|].
  intros H. apply andb_true_iff in H. destruct H as [Hp Hl].
  rewrite strictEq_string.
  destruct p; try discriminate;
    (destruct (Js.isStr _ id); [reflexivity|now apply IH]).
Qed.

Lemma findPreset_hole (id : JsVal) (before : list JsVal) (hole : JsVal)
  (after : list JsVal) :
  hole = JNull \/ hole = JUndefined ->
  (forall preset, In preset before ->
     preset <> JNull /\ preset <> JUndefined
     /\ strictEq (Js.get preset "id") id = false) ->
  findPreset id (before ++ hole :: after)%list = Throw typeError.
Proof.
  intros Hh. induction before as [|p before IH]; intros Hb; simpl.
  - now destruct Hh as [-> | ->].
  - destruct (Hb p (or_introl eq_refl)) as (N1 & N2 & E).
    assert (IH' : findPreset id (before ++ hole :: after)%list
                  = Throw typeError).
    { apply IH. intros q Hq. apply Hb. now right. }
    destruct p; try congruence; now rewrite E.
Qed.

Lemma findPreset_find (id : JsVal) (l : list JsVal) :
  (forall preset, In preset l -> preset <> JNull /\ preset <> JUndefined) ->
  findPreset id l
  = Ok (match List.find (fun preset => strictEq (Js.get preset "id") id) l
        with
        | Some preset => preset
        | None => JUndefined
        end).
Proof.
  induction l as [|p l IH]; intros Hl; simpl; [reflexivity|].
  destruct (Hl p (or_introl eq_refl)) as (N1 & N2).
  assert (IH' : findPreset id l
                = Ok (match List.find
                              (fun preset => strictEq (Js.get preset "id") id)
                              l with
                      | Some preset => preset
                      | None => JUndefined
                      end)).
  { apply IH. intros q Hq. apply Hl. now right. }
  destruct p; try congruence;
    (destruct (strictEq _ id); [reflexivity|exact IH']).
Qed.

End PresetFacts.

(** X18. [getSelectedPresetPrompt] never throws and never writes to the
    store.  It gives the empty string when no preset is selected; when the
    repositories fail; when the store cannot be read; whenever the fetched
    presets are no array; and whenever the array holds [null] or
    [undefined] before a preset with the selected id.  For an array of
    presets none of which is [null] or [undefined] it gives the prompt of
    the first preset whose id is the selected one, and the empty string
    when there is none or its prompt is missing or empty.  The presets of a
    signed-in user come from SQLite when Firebase fails.  After
    [setSelectedPresetId] with a non-empty id on a working store the
    selected id is this id. *)
Theorem X18_selected_preset_prompt :
  forall (h : Prefs.Host) (d : Prefs.Disk),
    (exists p, fst (Prefs.getSelectedPresetPrompt h d) = Ok p)
    /\ Prefs.users (snd (Prefs.getSelectedPresetPrompt h d)) = Prefs.users d
    /\ (forall id,
          fst (Prefs.getSelectedPresetId h d) = Ok id ->
          Js.truthy id = false ->
          fst (Prefs.getSelectedPresetPrompt h d) = Ok (JStr ""))
    /\ ((exists e, Prefs.answering h = Throw e) ->
        fst (Prefs.getSelectedPresetPrompt h d) = Ok (JStr ""))
    /\ ((exists e, Prefs.readError h = Some e) ->
        fst (Prefs.getSelectedPresetPrompt h d) = Ok (JStr ""))
    /\ (forall presets,
          Prefs.answering h = Ok presets ->
          match presets with JArr _ _ => False | _ => True end ->
          fst (Prefs.getSelectedPresetPrompt h d) = Ok (JStr ""))
    /\ (forall id before hole after extra,
          fst (Prefs.getSelectedPresetId h d) = Ok id ->
          Prefs.answering h = Ok (JArr (before ++ hole :: after) extra) ->
          hole = JNull \/ hole = JUndefined ->
          (forall preset, In preset before ->
             preset <> JNull /\ preset <> JUndefined
             /\ Prefs.strictEq (Js.get preset "id") id = false) ->
          fst (Prefs.getSelectedPresetPrompt h d) = Ok (JStr ""))
    /\ (forall id l extra,
          fst (Prefs.getSelectedPresetId h d) = Ok id ->
          Js.truthy id = true ->
          Prefs.answering h = Ok (JArr l extra) ->
          (forall preset, In preset l ->
             preset <> JNull /\ preset <> JUndefined) ->
          fst (Prefs.getSelectedPresetPrompt h d)
          = Ok (match List.find
                        (fun preset => Prefs.strictEq (Js.get preset "id") id)
                        l with
                | Some preset =>
                    if Js.truthy (Js.get preset "prompt")
                    then Js.get preset "prompt" else JStr ""
                | None => JStr ""
                end))
    /\ (forall e,
          Prefs.loggedIn h = true ->
          Prefs.firebasePresets h (Prefs.currentUserId h) = Throw e ->
          Prefs.repositoryGetPresets h d
          = (Prefs.sqlitePresets h (Prefs.currentUserId h), d))
    /\ (forall id,
          Prefs.Sound d -> Prefs.readError h = None ->
          Prefs.writeError h = None ->
          nonEmpty id = true ->
          fst (Prefs.getSelectedPresetId h
                 (snd (Prefs.setSelectedPresetId h (JStr id) d)))
          = Ok (JStr id))
    /\ (forall id l extra,
          Prefs.Sound d -> Prefs.readError h = None ->
          Prefs.writeError h = None ->
          nonEmpty id = true ->
          Prefs.answering h = Ok (JArr l extra) ->
          forallb Prefs.present l = true ->
          fst (Prefs.getSelectedPresetPrompt h
                 (snd (Prefs.setSelectedPresetId h (JStr id) d)))
          = Ok (match Prefs.firstWithId id l with
                | Some preset => Prefs.orEmpty (Js.get preset "prompt")
                | None => JStr ""
                end)).
Proof.
  intros h d.
  destruct (PresetFacts.getSelectedPresetPrompt_spec h d) as (Hp & Hu).
  split; [eexists; exact Hp|]. split; [exact Hu|].
  split.
  { intros id Hid Ht. rewrite Hp, Hid. cbv zeta. now rewrite Ht. }
  split.
  { intros (e & Ha). rewrite Hp, Ha. cbv zeta. simpl.
    now destruct (Js.truthy _). }
  split.
  { intros (e & Hr). rewrite Hp. cbv zeta.
    rewrite PresetFacts.getSelectedPresetId_spec,
      PrefsFacts.getSettings_spec, Hr.
    now destruct (Prefs.isMac h). }
  split.
  { intros presets Ha Hn. rewrite Hp, Ha. cbv zeta.
    destruct (Js.truthy _); [|reflexivity].
    destruct presets; try reflexivity. destruct Hn. }
  split.
  { intros id before hole after extra Hid Ha Hh Hb.
    rewrite Hp, Hid, Ha. cbv zeta.
    destruct (Js.truthy id); [|reflexivity].
    unfold Prefs.find.
    now rewrite (PresetFacts.findPreset_hole id before hole after Hh Hb). }
  split.
  { intros id l extra Hid Ht Ha Hl.
    rewrite Hp, Hid, Ha. cbv zeta. rewrite Ht. unfold Prefs.find.
    rewrite (PresetFacts.findPreset_find id l Hl).
    now destruct (List.find _ l). }
  split.
  { intros e Hl Hf. rewrite PresetFacts.repositoryGetPresets_spec.
    unfold Prefs.answering. now rewrite Hl, Hf. }
  assert (Hget : forall id,
            Prefs.Sound d -> Prefs.readError h = None ->
            Prefs.writeError h = None -> nonEmpty id = true ->
            fst (Prefs.getSelectedPresetId h
                   (snd (Prefs.setSelectedPresetId h (JStr id) d)))
            = Ok (JStr id)).
  { intros id S Hr Hw Hid.
    assert (Hset : Prefs.setSelectedPresetId h (JStr id) d
                   = Prefs.saveSettings h [("selectedPresetId", JStr id)] d).
    { unfold Prefs.setSelectedPresetId, Eff.tryCatch, Prefs.orNull.
      simpl Js.truthy. rewrite Hid.
      change (Js.literal [("selectedPresetId", JStr id)])
        with [("selectedPresetId", JStr id)].
      rewrite PrefsFacts.saveSettings_spec, Hr, Hw. reflexivity. }
    rewrite Hset.
    destruct (PrefsFacts.save_then_get h d [("selectedPresetId", JStr id)]
                S Hr Hw) as (_ & after & Hafter & Hk).
    rewrite PresetFacts.getSelectedPresetId_spec. cbn [fst].
    rewrite Hafter, Hk. simpl Js.has. cbv iota.
    change (Js.lookup "selectedPresetId"
              (Js.literal [("selectedPresetId", JStr id)])) with (JStr id).
    unfold Prefs.orNull. simpl Js.truthy. now rewrite Hid. }
  split; [exact Hget|].
  intros id l extra S Hr Hw Hid Ha Hl.
  destruct (PresetFacts.getSelectedPresetPrompt_spec h
              (snd (Prefs.setSelectedPresetId h (JStr id) d))) as (Hq & _).
  rewrite Hq, (Hget id S Hr Hw Hid). cbv zeta.
  simpl Js.truthy. rewrite Hid, Ha. unfold Prefs.find.
  rewrite (PresetFacts.findPreset_first id l Hl).
  now destruct (Prefs.firstWithId id l).
Qed.

Lemma X18_witness :
  fst (Prefs.getSelectedPresetPrompt (Prefs.cloudHost "u1" Prefs.somePresets)
         (snd (Prefs.setSelectedPresetId
                 (Prefs.cloudHost "u1" Prefs.somePresets) (JStr "p2")
                 Prefs.empty)))
  = Ok (JStr "Explain step by step.")
  /\ fst (Prefs.getSelectedPresetPrompt Prefs.brokenHost Prefs.empty)
     = Ok (JStr "")
  /\ fst (Prefs.getSelectedPresetPrompt
            (Prefs.localHost (JObj [("0", JStr "p2")]))
            (snd (Prefs.setSelectedPresetId
                    (Prefs.localHost (JObj [("0", JStr "p2")])) (JStr "p2")
                    Prefs.empty)))
     = Ok (JStr "").
Proof.
  destruct (X18_selected_preset_prompt
              (Prefs.cloudHost "u1" Prefs.somePresets) Prefs.empty)
    as (_ & _ & _ & _ & _ & _ & _ & _ & _ & _ & H).
  destruct (X18_selected_preset_prompt Prefs.brokenHost Prefs.empty)
    as (_ & _ & _ & _ & G & _).
  destruct (X18_selected_preset_prompt
              (Prefs.localHost (JObj [("0", JStr "p2")]))
              (snd (Prefs.setSelectedPresetId
                      (Prefs.localHost (JObj [("0", JStr "p2")])) (JStr "p2")
                      Prefs.empty)))
    as (_ & _ & _ & _ & _ & K & _).
  split; [|split].
  - refine (H "p2"
              [JObj [("id", JStr "p1"); ("prompt", JStr "Be brief.")];
               JObj [("id", JStr "p2");
                     ("prompt", JStr "Explain step by step.")]]
              [] _ _ _ _ _ _); try reflexivity.
    intros key ps. discriminate.
  - apply G. exists {| message := Some "EACCES" |}. reflexivity.
  - apply (K (JObj [("0", JStr "p2")])); [reflexivity|exact I].
Defined.

(** ** How [sendMessage] leaves the state *)

Module OutcomeFacts.
Import Eff Send Outcome.

Section SendMessage.

Variable JSON_parse : string -> option JsVal.
Variable ToString : JsVal -> string.
Variable env : Env.

Lemma deliver_settled (reader : Reader) (sessionId model : JsVal)
  (w : World) :
  let out := deliver JSON_parse ToString env reader sessionId model w in
  settled env (state w) (fst out) (state (snd out)).
Proof.
  cbv zeta. unfold deliver.
  destruct (windowOpen env) eqn:Ew; simpl.
  - unfold bind.
    destruct (StreamFacts.processStream_offline JSON_parse ToString env
                reader sessionId model w) as (Hok & _).
    destruct (TerminalFacts.terminal JSON_parse ToString env reader
                sessionId model w) as (Hst & _).
    cbv zeta in *.
    destruct (Stream._processStream JSON_parse ToString env reader
                sessionId model w) as [[u|e] w']; simpl in *;
      [|discriminate].
    rewrite Ew. split; [reflexivity|]. eexists. exact Hst.
  - rewrite Ew. now repeat split.
Qed.

Lemma deliver_from (reader : Reader) (sessionId model : JsVal)
  (w w1 : World) :
  state w1 = state w ->
  settled env (state w)
    (fst (deliver JSON_parse ToString env reader sessionId model w1))
    (state (snd (deliver JSON_parse ToString env reader sessionId model w1))).
Proof. intros H. rewrite <- H. apply deliver_settled. Qed.

Lemma retry_from (options : Adapter.LLMOptions) (sessionId model : JsVal)
  (systemPrompt userRequest : string) (w w1 : World) :
  state w1 = state w ->
  settled env (state w)
    (fst (retry JSON_parse ToString env options sessionId model
            systemPrompt userRequest w1))
    (state (snd (retry JSON_parse ToString env options sessionId model
                   systemPrompt userRequest w1))).
Proof.
  intros H. unfold retry, bind. simpl.
  destruct (network env (calls w1) _) as [reader|e]; [|exact H].
  now apply deliver_from.
Qed.

Lemma attempts_settled (options : Adapter.LLMOptions)
  (sessionId model : JsVal) (systemPrompt userRequest : string) (w : World) :
  let out := attempts JSON_parse ToString env options sessionId model
               systemPrompt userRequest w in
  settled env (state w) (fst out) (state (snd out)).
Proof.
  cbv zeta. unfold attempts, tryCatch, bind.
  unfold streamChat. cbv beta iota zeta.
  destruct (network env (calls w)
              (buildMessages systemPrompt userRequest (screenshot env)))
    as [reader|e].
  - pose proof (deliver_from reader sessionId model w
                  {| state := state w; abortController := abortController w;
                     created := created w; calls := S (calls w);
                     trace := (trace w
                                 ++ [StreamChat options
                                       (buildMessages systemPrompt userRequest
                                          (screenshot env))])%list |}
                  eq_refl) as H.
    destruct (SendFacts.deliver_spec JSON_parse ToString env reader sessionId
                model
                {| state := state w; abortController := abortController w;
                   created := created w; calls := S (calls w);
                   trace := (trace w
                               ++ [StreamChat options
                                     (buildMessages systemPrompt userRequest
                                        (screenshot env))])%list |})
      as ((r0 & Hok) & _).
    cbv zeta in Hok.
    destruct (deliver _ _ _ _ _ _ _) as [[r|e] w']; simpl in *;
      [exact H|discriminate].
  - destruct (attached (screenshot env) && Ask._isMultimodalError (message e)).
    + now apply retry_from.
    + reflexivity.
Qed.

Lemma attempts_from (options : Adapter.LLMOptions)
  (sessionId model : JsVal) (systemPrompt userRequest : string)
  (w w1 : World) :
  state w1 = state w ->
  settled env (state w)
    (fst (attempts JSON_parse ToString env options sessionId model
            systemPrompt userRequest w1))
    (state (snd (attempts JSON_parse ToString env options sessionId model
                   systemPrompt userRequest w1))).
Proof. intros H. rewrite <- H. apply attempts_settled. Qed.

Lemma request_settled (effectivePrompt : string)
  (history : option (list string)) (w : World) :
  let out := request JSON_parse ToString env effectivePrompt history w in
  settled env (state w) (fst out) (state (snd out)).
Proof.
  cbv zeta. unfold request, bind, when, Orch.addAiMessage, bind. simpl.
  destruct (activeSession env) as [sessionId|e]; [|reflexivity].
  assert (H : forall w1, state w1 = state w ->
            settled env (state w)
              (fst (match modelInfo env with
                    | Some (provider, model, apiKey) =>
                        if negb (Js.truthy apiKey)
                        then throw {| message :=
                                        Some "AI model or API key not configured." |}
                        else
                          fun s =>
                            let (r, s1) := Orch.emit (Log LogUsingModel) s in
                            match r with
                            | Ok _ =>
                                attempts JSON_parse ToString env
                                  (llmOptions env provider model apiKey)
                                  sessionId model
                                  (systemPromptFor env (selectedPresetPrompt env)
                                     (Ask._formatConversationForPrompt history))
                                  (Ask.userRequest effectivePrompt) s1
                            | Throw e => (Throw e, s1)
                            end
                    | None =>
                        throw {| message :=
                                   Some "AI model or API key not configured." |}
                    end w1))
              (state (snd (match modelInfo env with
                    | Some (provider, model, apiKey) =>
                        if negb (Js.truthy apiKey)
                        then throw {| message :=
                                        Some "AI model or API key not configured." |}
                        else
                          fun s =>
                            let (r, s1) := Orch.emit (Log LogUsingModel) s in
                            match r with
                            | Ok _ =>
                                attempts JSON_parse ToString env
                                  (llmOptions env provider model apiKey)
                                  sessionId model
                                  (systemPromptFor env (selectedPresetPrompt env)
                                     (Ask._formatConversationForPrompt history))
                                  (Ask.userRequest effectivePrompt) s1
                            | Throw e => (Throw e, s1)
                            end
                    | None =>
                        throw {| message :=
                                   Some "AI model or API key not configured." |}
                    end w1)))).
  { intros w1 Hw1.
    destruct (modelInfo env) as [[[provider model] apiKey]|];
      [|simpl; now symmetry].
    destruct (negb (Js.truthy apiKey)); [simpl; now symmetry|].
    simpl. apply attempts_from. exact Hw1. }
  destruct (nonEmpty effectivePrompt); simpl.
  - destruct (storeFails env _); simpl; [reflexivity|].
    apply H. reflexivity.
  - apply H. reflexivity.
Qed.

Lemma announce_state (userPrompt : JsVal) (w : World) :
  state (snd (announce env userPrompt w))
  = beginRequest (Ask._resolveEffectivePrompt (state w) (now env) userPrompt)
      (state w).
Proof.
  unfold announce, bind, gets, Orch._broadcastState, when, supersede.
  simpl. now destruct (windowOpen env).
Qed.

Lemma onSendError_state (error : Error) (w : World) :
  state (snd (onSendError env error w)) = endWithError (state w).
Proof.
  unfold onSendError, bind, Orch._broadcastState, when. simpl.
  now destruct (windowOpen env).
Qed.

End SendMessage.

End OutcomeFacts.

(** X19. [sendMessage] always returns a result, and it never leaves the
    state streaming.  The question shown is the effective prompt, or
    "[Screen context]" for an empty one, and the voice draft is not
    consumed.  After success the window is open, nothing is loading and the
    text input stays hidden.  After a failure with the window open nothing
    is loading and the text input is shown again.  The state is left loading
    only when the ask window was missing as the response arrived, which the
    result reports. *)
Theorem X19_send_message_settles_the_state :
  forall (JSON_parse : string -> option JsVal) (ToString : JsVal -> string)
         (env : Env) (userPrompt : JsVal) (history : option (list string))
         (w : World),
    let out := Send.sendMessage JSON_parse ToString env userPrompt history w in
    let st := state (snd out) in
    let effectivePrompt :=
      Ask._resolveEffectivePrompt (state w) (now env) userPrompt in
    exists r,
      fst out = Ok r
      /\ Ask.isStreaming st = false
      /\ Ask.currentQuestion st
         = Ask.orText effectivePrompt "[Screen context]"
      /\ (Ask.voiceDraft st, Ask.voiceSpeaker st, Ask.voiceDraftTimestamp st)
         = (Ask.voiceDraft (state w), Ask.voiceSpeaker (state w),
            Ask.voiceDraftTimestamp (state w))
      /\ (r = Sent ->
          windowOpen env = true /\ Ask.isLoading st = false
          /\ Ask.showTextInput st = false)
      /\ (windowOpen env = true -> r <> Sent ->
          Ask.isLoading st = false /\ Ask.showTextInput st = true)
      /\ (Ask.isLoading st = true ->
          windowOpen env = false
          /\ r = NotSent (Some Outcome.WINDOW_MISSING)).
Proof.
  intros JSON_parse ToString env userPrompt history w. cbv zeta.
  unfold Send.sendMessage, Eff.bind.
  pose proof (OutcomeFacts.announce_state env userPrompt w) as Ha.
  destruct (SendFacts.announce_spec env userPrompt w) as (Hp & _).
  cbv zeta in Hp.
  destruct (Send.announce env userPrompt w) as [[p|e] w1]; simpl in Hp, Ha;
    [|discriminate].
  injection Hp as ->. unfold Eff.tryCatch.
  pose proof (OutcomeFacts.request_settled JSON_parse ToString env
                (Ask._resolveEffectivePrompt (state w) (now env) userPrompt)
                history w1) as Hs.
  cbv zeta in Hs.
  destruct (Send.request JSON_parse ToString env _ history w1)
    as [[r|e] w2]; simpl in Hs.
  - exists r. cbn [fst snd]. split; [reflexivity|].
    destruct r as [|m].
    + destruct Hs as (Hw & final & ->). rewrite Ha.
      destruct (state w). simpl.
      split; [reflexivity|]. split; [reflexivity|]. split; [reflexivity|].
      split; [intros _; now repeat split|].
      split; [intros _ N; now elim N|].
      intros N. discriminate N.
    + destruct Hs as (Hw & -> & ->). rewrite Ha.
      destruct (state w). simpl.
      split; [reflexivity|]. split; [reflexivity|]. split; [reflexivity|].
      split; [intros N; discriminate N|].
      split; [intros N; congruence|].
      intros _. now split.
  - pose proof (OutcomeFacts.onSendError_state env e w2) as He.
    destruct (SendFacts.onSendError_spec env e w2) as (Hr & _).
    cbv zeta in Hr.
    destruct (Send.onSendError env e w2) as [[r|e'] w3]; simpl in *;
      [|discriminate].
    injection Hr as ->. exists (NotSent (message e)).
    split; [reflexivity|].
    rewrite He, Hs, Ha. destruct (state w). simpl.
    split; [reflexivity|]. split; [reflexivity|]. split; [reflexivity|].
    split; [intros N; discriminate N|].
    split; [intros _ _; now split|].
    intros N. discriminate N.
Qed.

Lemma X19_witness :
  let out := Send.sendMessage Examples.parse Examples.toStr Examples.textEnv
               (JStr "What is this?") None Examples.world0 in
  Ask.isLoading (state (snd out)) = false
  /\ Ask.showTextInput (state (snd out)) = true.
Proof.
  cbv zeta.
  destruct (X19_send_message_settles_the_state Examples.parse Examples.toStr
              Examples.textEnv (JStr "What is this?") None Examples.world0)
    as (r & Hr & _ & _ & _ & _ & H & _).
  apply H; [reflexivity|].
  intros ->. vm_compute in Hr. discriminate.
Defined.

(** ** The transcription session *)

Module SocketFacts.
Import Socket.

Section Steps.

Variable JSON_parse : string -> option JsVal.
Variable o : Options.

Lemma heard_app (a b : list Called) :
  heard (a ++ b) = (heard a ++ heard b)%list.
Proof. apply filter_app. Qed.

Lemma quiet_step (s : Session) (a : Step) :
  Quiet s ->
  Quiet (step JSON_parse o s a)
  /\ heard (called (step JSON_parse o s a)) = heard (called s)
  /\ frames (step JSON_parse o s a) = frames s
  /\ pings (step JSON_parse o s a) = pings s
  /\ promise (step JSON_parse o s a) = promise s.
Proof.
  intros Q. pose proof Q as (Hh & Ho & Hc).
  destruct a; simpl.
  - unfold onOpen. destruct (readyState s) eqn:E; try congruence;
      (split; [exact Q|now repeat split]).
  - unfold onMessage. rewrite Hh. split; [exact Q|now repeat split].
  - unfold onError. rewrite Hh. split; [exact Q|now repeat split].
  - unfold onClose, Quiet. simpl. rewrite heard_app.
    destruct (onclose o); simpl; rewrite ?app_nil_r;
      repeat split; try assumption; discriminate.
  - unfold client, sendRealtimeInput. rewrite Ho.
    destruct (promise s) eqn:Ep;
      (split; [exact Q|repeat split; try reflexivity; exact Ep]).
  - unfold client, keepAlive. rewrite Ho.
    destruct (promise s) eqn:Ep;
      (split; [exact Q|repeat split; try reflexivity; exact Ep]).
  - unfold client, close. rewrite Ho.
    destruct (promise s) eqn:Ep;
      (split; [exact Q|repeat split; try reflexivity; exact Ep]).
Qed.

Lemma quiet_run (steps : list Step) (s : Session) :
  Quiet s ->
  heard (called (run JSON_parse o s steps)) = heard (called s)
  /\ frames (run JSON_parse o s steps) = frames s
  /\ pings (run JSON_parse o s steps) = pings s
  /\ promise (run JSON_parse o s steps) = promise s.
Proof.
  revert s. induction steps as [|a steps IH]; intros s Q; [now repeat split|].
  simpl. destruct (quiet_step s a Q) as (Q' & H1 & H2 & H3 & H4).
  destruct (IH _ Q') as (G1 & G2 & G3 & G4).
  repeat split; congruence.
Qed.

Lemma framed_initial : Framed o initial.
Proof. unfold Framed. simpl. repeat split; discriminate. Qed.

Lemma settle_not_resolved (p : Promise) :
  p <> Resolved -> settle p Rejected <> Resolved.
Proof. destruct p; simpl; congruence. Qed.

Lemma framed_step (s : Session) (a : Step) :
  Framed o s -> Framed o (step JSON_parse o s a).
Proof.
  unfold Framed, Quiet. destruct s as [r h p fr pg cl].
  destruct a; simpl.
  - unfold onOpen. simpl. destruct r; simpl; intros F; try exact F.
    destruct fr as [|f rest]; simpl.
    + destruct F as (_ & _ & _ & Hh).
      split; [reflexivity|]. split; [discriminate|].
      exists []. left. now split.
    + destruct F as (_ & N & _). congruence.
  - unfold onMessage. simpl. destruct h; simpl; intros F; exact F.
  - unfold onError. simpl. destruct h; simpl; intros F; [|exact F].
    destruct fr as [|f rest]; [|exact F].
    destruct F as (F1 & F2 & F3 & F4).
    repeat split; try assumption. now apply settle_not_resolved.
  - unfold onClose. simpl. intros F.
    destruct fr as [|f rest].
    + destruct F as (F1 & F2 & F3 & F4).
      repeat split; try assumption; discriminate.
    + destruct F as (F1 & F2 & audio & F3).
      split; [exact F1|]. split; [discriminate|].
      exists audio. destruct F3 as [F3|(F3 & Q1 & Q2 & Q3)];
        [now left|right].
      split; [exact F3|].
      repeat split; try assumption; discriminate.
  - unfold client. simpl. destruct p; intros F; try exact F.
    unfold sendRealtimeInput. simpl. destruct r; simpl; try exact F.
    destruct fr as [|f rest]; simpl.
    + destruct F as (F1 & _). congruence.
    + destruct F as (F1 & F2 & audio & F3).
      split; [exact F1|]. split; [exact F2|].
      exists (audio ++ [audioData])%list. left.
      destruct F3 as [(-> & Hh)|(_ & _ & Q & _)]; [|discriminate].
      rewrite map_app. now split.
  - unfold client. simpl. destruct p; intros F; try exact F.
    unfold keepAlive. simpl. destruct r; simpl; exact F.
  - unfold client. simpl. destruct p; intros F; try exact F.
    unfold close. simpl. destruct r; simpl; try exact F.
    destruct fr as [|f rest]; simpl.
    + destruct F as (F1 & _). congruence.
    + destruct F as (F1 & F2 & audio & F3).
      split; [exact F1|]. split; [discriminate|].
      exists audio. right.
      destruct F3 as [(-> & Hh)|(_ & _ & Q & _)]; [|discriminate].
      split; [reflexivity|].
      repeat split; discriminate.
Qed.

Lemma framed_run (steps : list Step) (s : Session) :
  Framed o s -> Framed o (run JSON_parse o s steps).
Proof.
  revert s. induction steps as [|a steps IH]; intros s F; [exact F|].
  simpl. apply IH. now apply framed_step.
Qed.

Lemma model_not_blank :
  nonEmpty (transcriptionModel o) = true
  /\ trim (transcriptionModel o) = transcriptionModel o.
Proof.
  unfold transcriptionModel.
  destruct (model o) as [| | | |m| |]; try (split; reflexivity).
  destruct (nonEmpty (trim m)) eqn:E; [|split; reflexivity].
  split; [exact E|apply TextFacts.trim_idem].
Qed.

End Steps.

End SocketFacts.

(** X20. Once the client has closed an open transcription session, no
    message and no error of the socket reaches the callbacks any more, only
    [onclose] may still be called; [session.close] is the last frame the
    session ever sends, no audio and no ping follows it. *)
Theorem X20_closed_session_is_silent :
  forall (JSON_parse : string -> option JsVal) (o : Socket.Options)
         (before after : list Socket.Step),
    let s := Socket.run JSON_parse o Socket.initial before in
    let s' := Socket.run JSON_parse o s (Socket.Close :: after) in
    Socket.promise s = Socket.Resolved ->
    Socket.readyState s = Socket.OPEN ->
    Socket.heard (Socket.called s') = Socket.heard (Socket.called s)
    /\ Socket.frames s' = (Socket.frames s ++ [Socket.closeFrame])%list
    /\ Socket.pings s' = Socket.pings s
    /\ Socket.readyState s' <> Socket.OPEN.
Proof.
  intros JSON_parse o before after. cbv zeta.
  set (s := Socket.run JSON_parse o Socket.initial before).
  intros Hp Hr. simpl. unfold Socket.client, Socket.close. rewrite Hp, Hr.
  simpl.
  set (c := {| Socket.readyState := Socket.CLOSING;
               Socket.handlers := false; Socket.promise := Socket.Resolved;
               Socket.frames := (Socket.frames s ++ [Socket.closeFrame])%list;
               Socket.pings := Socket.pings s;
               Socket.called := Socket.called s |}).
  assert (Q : Socket.Quiet c) by (repeat split; discriminate).
  destruct (SocketFacts.quiet_run JSON_parse o after c Q)
    as (H1 & H2 & H3 & _).
  split; [exact H1|]. split; [exact H2|]. split; [exact H3|].
  assert (Q' : Socket.Quiet (Socket.run JSON_parse o c after)).
  { clear H1 H2 H3. revert Q. generalize c. clear.
    induction after as [|a after IH]; intros c Q; [exact Q|].
    simpl. apply IH.
    now destruct (SocketFacts.quiet_step JSON_parse o c a Q). }
  destruct Q' as (_ & Ho & _). intros E. rewrite E in Ho. discriminate.
Qed.

Lemma X20_witness :
  let steps :=
    [Socket.ServerOpen; Socket.SendRealtimeInput (JStr "AAAA")] in
  let s := Socket.run Examples.parse Socket.someOptions Socket.initial steps in
  Socket.heard
    (Socket.called
       (Socket.run Examples.parse Socket.someOptions s
          [Socket.Close; Socket.ServerMessage "{}"; Socket.ServerError;
           Socket.SendRealtimeInput (JStr "BBBB")]))
  = Socket.heard (Socket.called s).
Proof.
  cbv zeta.
  destruct (X20_closed_session_is_silent Examples.parse Socket.someOptions
              [Socket.ServerOpen; Socket.SendRealtimeInput (JStr "AAAA")]
              [Socket.ServerMessage "{}"; Socket.ServerError;
               Socket.SendRealtimeInput (JStr "BBBB")])
    as (H & _); [reflexivity|reflexivity|exact H].
Defined.

(** X21. Whatever the socket and the client do, the frames a transcription
    session sends are: nothing before the socket is open; then the session
    configuration, exactly once and first; then audio frames only; and at
    most one [session.close], which is the last frame.  The configuration
    never carries a blank model: a model that is no string, or a string that
    is blank, is replaced by "gpt-4o-mini-transcribe"; another one is
    trimmed; and this is the model the configuration frame carries. *)
Theorem X21_session_frames_follow_the_protocol :
  forall (JSON_parse : string -> option JsVal) (o : Socket.Options)
         (steps : list Socket.Step),
    let s := Socket.run JSON_parse o Socket.initial steps in
    ((Socket.frames s = [] /\ Socket.promise s <> Socket.Resolved)
     \/ exists audio,
          Socket.frames s
          = Socket.sessionConfig o :: map Socket.appendFrame audio
          \/ (Socket.frames s
              = Socket.sessionConfig o
                  :: (map Socket.appendFrame audio ++ [Socket.closeFrame])%list
              /\ Socket.handlers s = false
              /\ Socket.readyState s <> Socket.OPEN))
    /\ nonEmpty (Socket.transcriptionModel o) = true
    /\ trim (Socket.transcriptionModel o) = Socket.transcriptionModel o
    /\ (forall m, Socket.model o = JStr m -> nonEmpty (trim m) = true ->
         Socket.transcriptionModel o = trim m)
    /\ (forall m, Socket.model o = JStr m -> nonEmpty (trim m) = false ->
         Socket.transcriptionModel o = "gpt-4o-mini-transcribe")
    /\ (Adapter.isString (Socket.model o) = false ->
        Socket.transcriptionModel o = "gpt-4o-mini-transcribe")
    /\ Js.get
         (Js.get (Js.get (Socket.sessionConfig o) "session")
            "input_audio_transcription") "model"
       = JStr (Socket.transcriptionModel o)
    /\ Js.get (Socket.sessionConfig o) "type"
       = JStr "transcription_session.update".
Proof.
  intros JSON_parse o steps. cbv zeta.
  pose proof (SocketFacts.framed_run JSON_parse o steps Socket.initial
                (SocketFacts.framed_initial o)) as F.
  unfold Socket.Framed in F.
  destruct (SocketFacts.model_not_blank o) as (M1 & M2).
  split; [|split; [exact M1|split; [exact M2|]]].
  - destruct (Socket.frames _) as [|f rest].
    + left. destruct F as (_ & _ & F & _). now split.
    + right. destruct F as (-> & _ & audio & F). exists audio.
      destruct F as [(-> & _)|(-> & Hh & Ho & _)]; [now left|right].
      split; [reflexivity|]. split; [exact Hh|].
      intros E. rewrite E in Ho. discriminate.
  - split.
    { intros m Hm Hne. unfold Socket.transcriptionModel. now rewrite Hm, Hne. }
    split.
    { intros m Hm Hne. unfold Socket.transcriptionModel. now rewrite Hm, Hne. }
    split.
    { unfold Socket.transcriptionModel.
      destruct (Socket.model o); try reflexivity. discriminate. }
    split; reflexivity.
Qed.

Lemma X21_witness :
  Socket.transcriptionModel
    {| Socket.apiKey := JStr "sk-test"; Socket.language := JStr "de";
       Socket.usePortkey := JBool false;
       Socket.portkeyVirtualKey := JUndefined;
       Socket.model := JStr " whisper-1 "; Socket.prompt := JUndefined;
       Socket.onmessage := true; Socket.onerror := false;
       Socket.onclose := false |}
  = "whisper-1"
  /\ Socket.transcriptionModel Socket.someOptions = "gpt-4o-mini-transcribe".
Proof.
  destruct (X21_session_frames_follow_the_protocol Examples.parse
              {| Socket.apiKey := JStr "sk-test"; Socket.language := JStr "de";
                 Socket.usePortkey := JBool false;
                 Socket.portkeyVirtualKey := JUndefined;
                 Socket.model := JStr " whisper-1 ";
                 Socket.prompt := JUndefined;
                 Socket.onmessage := true; Socket.onerror := false;
                 Socket.onclose := false |} [])
    as (_ & _ & _ & H & _).
  destruct (X21_session_frames_follow_the_protocol Examples.parse
              Socket.someOptions []) as (_ & _ & _ & _ & G & _).
  split.
  - apply (H " whisper-1 "); reflexivity.
  - apply (G "   "); reflexivity.
Defined.

(** ** The blocking client: [generateContent] *)

Module GenerateFacts.
Import Generate.

Section GenerateContent.

Variable ToString : JsVal -> string.

Lemma leading_text (text : string) :
  includes text "You are" = true -> nonEmpty text = true.
Proof. now destruct text. Qed.

(** Once the system prompt is found, every part goes to the user. *)
Lemma loop_found (parts : list JsVal) (system : string)
  (content : list JsVal) :
  nonEmpty system = true ->
  forallb Prefs.present parts = true ->
  loop ToString {| systemPrompt := system; userContent := content |} parts
  = Ok {| systemPrompt := system;
          userContent :=
            (content ++ flat_map (converted ToString) parts)%list |}.
Proof.
  intros Hs. revert content.
  induction parts as [|part rest IH]; intros content Hp; simpl.
  - now rewrite app_nil_r.
  - simpl in Hp. apply andb_true_iff in Hp. destruct Hp as [Hp Hr].
    assert (E : String.eqb system "" = false) by now destruct system.
    destruct part as [| |b|n|text|l extra|ps]; try discriminate; simpl;
      rewrite ?E; simpl;
      repeat match goal with
             | |- context [if Js.truthy ?x then _ else _] =>
                 destruct (Js.truthy x)
             end;
      rewrite IH by exact Hr; now rewrite <- ?app_assoc.
Qed.

Lemma loop_search (parts : list JsVal) (content : list JsVal) :
  forallb Prefs.present parts = true ->
  loop ToString {| systemPrompt := ""; userContent := content |} parts
  = Ok {| systemPrompt := match lead parts with Some t => t | None => "" end;
          userContent :=
            (content ++ flat_map (converted ToString) (others parts))%list |}.
Proof.
  revert content.
  induction parts as [|part rest IH]; intros content Hp; simpl.
  - now rewrite app_nil_r.
  - simpl in Hp. apply andb_true_iff in Hp. destruct Hp as [Hp Hr].
    destruct part as [| |b|n|text|l extra|ps]; try discriminate; simpl;
      try (destruct (includes text "You are") eqn:E;
           [now rewrite loop_found
              by (try exact Hr; now apply leading_text)|]);
      repeat match goal with
             | |- context [if Js.truthy ?x then _ else _] =>
                 destruct (Js.truthy x)
             end;
      rewrite IH by exact Hr; now rewrite <- ?app_assoc.
Qed.

Lemma loop_absent (parts : list JsVal) (acc : Acc) :
  forallb Prefs.present parts = false ->
  exists e, loop ToString acc parts = Throw e.
Proof.
  revert acc. induction parts as [|part rest IH]; intros acc Hp;
    [discriminate|].
  simpl in Hp. simpl.
  destruct (Prefs.present part) eqn:E.
  - simpl in Hp. destruct (visit ToString acc part) as [acc'|e] eqn:Ev.
    + now apply IH.
    + now exists e.
  - destruct part; try discriminate; simpl; eexists; reflexivity.
Qed.

Lemma lead_nonEmpty (parts : list JsVal) (t : string) :
  lead parts = Some t -> nonEmpty t = true.
Proof.
  induction parts as [|part rest IH]; [discriminate|].
  simpl. destruct part as [| |b|n|text|l extra|ps]; try exact IH.
  destruct (includes text "You are") eqn:E; [|exact IH].
  intros [= <-]. now apply leading_text.
Qed.

End GenerateContent.

End GenerateFacts.

(** X22. [generateContent] hands to the model at most two messages: first
    a system message whose content is the first string part that contains
    "You are", when there is one; then a user message with the other parts
    in their order, each string as a text part and each part with
    [inlineData] as an image part, when there is any.  A later string with
    "You are" is user text, and no string part is lost.  A [null] or
    [undefined] part makes the call throw before any request is made. *)
Theorem X22_generate_content_messages :
  forall (ToString : JsVal -> string) (parts : list JsVal),
    (forallb Prefs.present parts = true ->
     let content := flat_map (Generate.converted ToString)
                      (Generate.others parts) in
     Generate.generateMessages ToString parts
     = Ok ((match Generate.lead parts with
            | Some t => [JObj [("role", JStr "system"); ("content", JStr t)]]
            | None => []
            end
            ++ match content with
               | [] => []
               | _ => [JObj [("role", JStr "user");
                             ("content", JArr content [])]]
               end)%list)
       /\ (Generate.lead parts = None -> Generate.others parts = parts))
    /\ (forallb Prefs.present parts = false ->
        forall o, exists e,
          Generate.generateRequest ToString o parts = Throw e).
Proof.
  intros ToString parts. split.
  - intros Hp. cbv zeta. split.
    + unfold Generate.generateMessages.
      rewrite GenerateFacts.loop_search by exact Hp.
      unfold Generate.messagesOf. simpl.
      destruct (Generate.lead parts) as [t|] eqn:El; [|reflexivity].
      now rewrite (GenerateFacts.lead_nonEmpty parts t El).
    + clear Hp. induction parts as [|part rest IH]; [reflexivity|].
      simpl. destruct part as [| |b|n|text|l extra|ps]; simpl; intros H;
        try (now rewrite IH).
      destruct (includes text "You are"); [discriminate|now rewrite IH].
  - intros Hp o.
    destruct (GenerateFacts.loop_absent ToString parts
                {| Generate.systemPrompt := ""; Generate.userContent := [] |}
                Hp) as (e & He).
    exists e. unfold Generate.generateRequest, Generate.generateMessages.
    now rewrite He.
Qed.

Lemma X22_witness :
  Generate.generateMessages Examples.toStr Generate.someParts
  = Ok [JObj [("role", JStr "system");
              ("content", JStr "You are a helpful assistant.")];
        JObj [("role", JStr "user");
              ("content",
               JArr (flat_map (Generate.converted Examples.toStr)
                       [JStr "Describe the screen.";
                        JObj [("inlineData",
                               JObj [("mimeType", JStr "image/png");
                                     ("data", JStr "AAAA")])];
                        JStr "You are late."]) [])]].
Proof.
  destruct (X22_generate_content_messages Examples.toStr Generate.someParts)
    as (H & _).
  destruct H as (H & _); [reflexivity|exact H].
Defined.

(** ** The shortcuts service: loading the key bindings *)

Module ShortcutFacts.
Import Shortcuts.

(** *** Property names *)

Lemma arrayIndex_name (k : string) (n : N) :
  arrayIndex k = Some n -> k = NilZero.string_of_uint (N.to_uint n).
Proof.
  unfold arrayIndex. destruct (NilZero.uint_of_string k) as [u|]; [|discriminate].
  cbv zeta.
  destruct (String.eqb (NilZero.string_of_uint (N.to_uint (N.of_uint u))) k)
    eqn:E; [|discriminate].
  destruct (N.of_uint u <? 4294967295)%N; [|discriminate].
  simpl. intros [= <-]. apply String.eqb_eq in E. now symmetry.
Qed.

Lemma arrayIndex_inj (k k' : string) (n : N) :
  arrayIndex k = Some n -> arrayIndex k' = Some n -> k = k'.
Proof.
  intros H H'. apply arrayIndex_name in H, H'. congruence.
Qed.

Lemma before_differ (a b : string) : before a b -> a <> b.
Proof.
  unfold before. intros H E. subst b.
  destruct (arrayIndex a); [lia|congruence].
Qed.

(** *** Own properties *)

Lemma has_insertIndex (n : N) (k k' : string) (v : JsVal) (ps : Props) :
  Js.has k' (insertIndex n k v ps) = String.eqb k' k || Js.has k' ps.
Proof.
  induction ps as [|[k0 v0] ps IH]; simpl; [reflexivity|].
  destruct (arrayIndex k0) as [m|]; [|reflexivity].
  destruct (m <? n)%N; [|reflexivity].
  simpl. rewrite IH.
  destruct (String.eqb k' k0), (String.eqb k' k); reflexivity.
Qed.

Lemma lookup_insertIndex (n : N) (k k' : string) (v : JsVal) (ps : Props) :
  Js.has k ps = false ->
  Js.lookup k' (insertIndex n k v ps)
  = if String.eqb k' k then v else Js.lookup k' ps.
Proof.
  induction ps as [|[k0 v0] ps IH]; simpl; [reflexivity|].
  intros H. apply orb_false_iff in H. destruct H as [H0 H].
  destruct (arrayIndex k0) as [m|]; [|reflexivity].
  destruct (m <? n)%N; [|reflexivity].
  simpl. rewrite (IH H).
  destruct (String.eqb_spec k' k0) as [->|]; [|reflexivity].
  now rewrite String.eqb_sym, H0.
Qed.

Lemma keys_insertIndex (n : N) (k : string) (v : JsVal) (ps : Props) :
  exists a b,
    map fst ps = (a ++ b)%list
    /\ map fst (insertIndex n k v ps) = (a ++ k :: b)%list
    /\ Forall (fun k' => exists m, arrayIndex k' = Some m /\ (m < n)%N) a
    /\ match b with
       | [] => True
       | k' :: _ => match arrayIndex k' with
                    | Some m => (n <= m)%N
                    | None => True
                    end
       end.
Proof.
  induction ps as [|[k0 v0] ps IH]; simpl.
  - exists [], []. repeat split. constructor.
  - destruct (arrayIndex k0) as [m|] eqn:E0.
    + destruct (N.ltb_spec m n).
      * destruct IH as (a & b & H1 & H2 & H3 & H4).
        exists (k0 :: a), b. simpl. rewrite H1, H2.
        repeat split; [|exact H4].
        constructor; [now exists m|exact H3].
      * exists [], (k0 :: map fst ps). simpl. rewrite E0.
        repeat split; [constructor|exact H].
    + exists [], (k0 :: map fst ps). simpl. rewrite E0.
      repeat split. constructor.
Qed.

Lemma has_define (k k' : string) (v : JsVal) (ps : Props) :
  Js.has k' (define k v ps) = String.eqb k' k || Js.has k' ps.
Proof.
  unfold define. destruct (Js.has k ps) eqn:E.
  - apply ClientFacts.has_set.
  - destruct (arrayIndex k) as [n|].
    + apply has_insertIndex.
    + rewrite PrefsFacts.has_app. simpl. rewrite orb_false_r.
      apply orb_comm.
Qed.

Lemma lookup_define (k k' : string) (v : JsVal) (ps : Props) :
  Js.lookup k' (define k v ps)
  = if String.eqb k' k then v else Js.lookup k' ps.
Proof.
  unfold define. destruct (Js.has k ps) eqn:E.
  - apply AdapterFacts.lookup_set.
  - destruct (arrayIndex k) as [n|].
    + now apply lookup_insertIndex.
    + rewrite PrefsFacts.lookup_app. simpl.
      destruct (String.eqb_spec k' k) as [->|N].
      * now rewrite E.
      * destruct (Js.has k' ps) eqn:E'; [reflexivity|].
        now rewrite PrefsFacts.lookup_absent.
Qed.

(** *** The order of the own properties *)

Lemma ordered_app (a b : list string) :
  ordered (a ++ b)
  <-> ordered a /\ ordered b
      /\ forall x y, In x a -> In y b -> before x y.
Proof.
  induction a as [|k a IH]; simpl.
  - split; [intros H; repeat split; [exact H|intros x y []]|now intros (_ & H & _)].
  - rewrite IH. split.
    + intros (F & Oa & Ob & Hab).
      apply Forall_app in F. destruct F as [Fa Fb].
      repeat split; try assumption.
      intros x y [<-|Hx] Hy; [|now apply Hab].
      now apply (proj1 (Forall_forall _ _) Fb).
    + intros ((Fa & Oa) & Ob & Hab).
      repeat split; try assumption.
      * apply Forall_app. split; [exact Fa|].
        apply Forall_forall. intros y Hy. apply Hab; [now left|exact Hy].
      * intros x y Hx Hy. apply Hab; [now right|exact Hy].
Qed.

Lemma canonical_absent (ps : Props) (k : string) :
  (forall x, In x (map fst ps) -> before x k) -> Js.has k ps = false.
Proof.
  intros H. destruct (Js.has k ps) eqn:E; [|reflexivity].
  apply PrefsFacts.has_keys in E. apply H in E.
  now apply before_differ in E.
Qed.

Lemma canonical_define (k : string) (v : JsVal) (ps : Props) :
  Canonical ps -> Canonical (define k v ps).
Proof.
  unfold Canonical, define. intros C.
  destruct (Js.has k ps) eqn:E.
  - now rewrite PrefsFacts.keys_set, E.
  - destruct (arrayIndex k) as [n|] eqn:Ek.
    + destruct (keys_insertIndex n k v ps) as (a & b & H1 & H2 & H3 & H4).
      rewrite H1 in C. rewrite H2.
      apply ordered_app in C. destruct C as (Oa & Ob & Hab).
      assert (Hk : ~ In k (a ++ b)).
      { rewrite <- H1. intros Hin. apply PrefsFacts.has_keys in Hin.
        congruence. }
      apply ordered_app. split; [exact Oa|]. split.
      * simpl. split; [|exact Ob].
        apply Forall_forall. intros y Hy. unfold before. rewrite Ek.
        destruct (arrayIndex y) as [m|] eqn:Ey; [|exact I].
        destruct b as [|k' b']; [destruct Hy|].
        assert (Hk' : (n <= match arrayIndex k' with
                            | Some m' => m'
                            | None => n
                            end)%N)
          by (destruct (arrayIndex k'); [exact H4|lia]).
        destruct Hy as [<-|Hy].
        -- rewrite Ey in H4.
           assert (n <> m).
           { intros ->. apply Hk. apply in_or_app. right. left.
             now apply (arrayIndex_inj _ _ m). }
           lia.
        -- simpl in Ob. destruct Ob as (F & _).
           pose proof (proj1 (Forall_forall _ _) F y Hy) as B.
           unfold before in B. rewrite Ey in B.
           destruct (arrayIndex k') as [m'|]; [lia|destruct B].
      * intros x y Hx [<-|Hy]; [|now apply Hab].
        pose proof (proj1 (Forall_forall _ _) H3 x Hx) as (m & Em & Hm).
        unfold before. now rewrite Em, Ek.
    + rewrite map_app. simpl. apply ordered_app.
      split; [exact C|]. split; [simpl; split; [constructor|exact I]|].
      intros x y Hx [<-|[]]. unfold before. rewrite Ek.
      destruct (arrayIndex x); [exact I|].
      intros ->. apply PrefsFacts.has_keys in Hx. congruence.
Qed.

Lemma insertIndex_last (n : N) (k : string) (v : JsVal) (ps : Props) :
  arrayIndex k = Some n ->
  (forall x, In x (map fst ps) -> before x k) ->
  insertIndex n k v ps = (ps ++ [(k, v)])%list.
Proof.
  intros Ek. induction ps as [|[k0 v0] ps IH]; intros H; simpl; [reflexivity|].
  pose proof (H k0 (or_introl eq_refl)) as B. unfold before in B.
  rewrite Ek in B. destruct (arrayIndex k0) as [m|]; [|destruct B].
  destruct (N.ltb_spec m n); [|lia].
  rewrite IH; [reflexivity|]. intros x Hx. apply H. now right.
Qed.

(** Properties written out in their order and assigned again to an empty
    object give the same properties in the same order. *)
Lemma rebuild (ps : Props) :
  Canonical ps ->
  fold_left (fun acc kv => define (fst kv) (snd kv) acc) ps [] = ps.
Proof.
  unfold Canonical.
  induction ps as [|[k v] ps IH] using rev_ind; intros C; [reflexivity|].
  rewrite map_app in C. simpl in C.
  apply ordered_app in C. destruct C as (Oa & _ & Hab).
  rewrite fold_left_app. simpl. rewrite (IH Oa).
  assert (B : forall x, In x (map fst ps) -> before x k)
    by (intros x Hx; apply Hab; [exact Hx|now left]).
  unfold define. rewrite (canonical_absent ps k B).
  destruct (arrayIndex k) as [n|] eqn:Ek; [|reflexivity].
  now apply insertIndex_last.
Qed.

(** *** Assigning and reading *)

Lemma assign_named (k : string) (v : JsVal) (o : Obj) :
  String.eqb k "__proto__" = false ->
  assign k v o = {| own := define k v (own o); proto := proto o |}.
Proof. intros H. unfold assign. now rewrite H. Qed.

Lemma read_assign (a k : string) (v : JsVal) (o : Obj) :
  String.eqb a "__proto__" = false ->
  read (assign a v o) k = if String.eqb k a then v else read o k.
Proof.
  intros H. rewrite (assign_named a v o H). unfold read. simpl.
  rewrite has_define, lookup_define.
  destruct (String.eqb k a); reflexivity.
Qed.

Lemma assign_canonical (k : string) (v : JsVal) (o : Obj) :
  Canonical (own o) -> Canonical (own (assign k v o)).
Proof.
  intros C. unfold assign.
  destruct (String.eqb k "__proto__" && accessor o).
  - now destruct v.
  - simpl. now apply canonical_define.
Qed.

Lemma objectOf_canonical (rows : list Row) : Canonical (own (objectOf rows)).
Proof.
  unfold objectOf.
  assert (G : forall o, Canonical (own o) ->
                Canonical
                  (own (fold_left
                          (fun keybinds k =>
                             assign (action k) (accelerator k) keybinds)
                          rows o))).
  { induction rows as [|k rows IH]; intros o C; simpl; [exact C|].
    apply IH. now apply assign_canonical. }
  apply G. exact I.
Qed.

(** Rows that do not name the prototype leave it alone. *)
Lemma objectOf_plain (rows : list Row) :
  plain rows = true ->
  proto (objectOf rows) = ObjectPrototype
  /\ Js.has "__proto__" (own (objectOf rows)) = false.
Proof.
  unfold objectOf, plain.
  assert (G : forall o,
            forallb (fun k => negb (String.eqb (action k) "__proto__")) rows
            = true ->
            proto o = ObjectPrototype ->
            Js.has "__proto__" (own o) = false ->
            proto (fold_left
                     (fun keybinds k =>
                        assign (action k) (accelerator k) keybinds) rows o)
            = ObjectPrototype
            /\ Js.has "__proto__"
                 (own (fold_left
                         (fun keybinds k =>
                            assign (action k) (accelerator k) keybinds)
                         rows o)) = false).
  { induction rows as [|k rows IH]; intros o H Hp Hh; simpl; [now split|].
    simpl in H. apply andb_true_iff in H. destruct H as [Hk Hr].
    apply negb_true_iff in Hk.
    apply IH; [exact Hr| |]; rewrite (assign_named _ _ _ Hk);
      cbn [own proto].
    - exact Hp.
    - rewrite has_define, Hh, orb_false_r, String.eqb_sym. exact Hk. }
  intros H. now apply G.
Qed.

(** What was written is read back. *)
Lemma objectOf_rowsOf (o : Obj) :
  proto o = ObjectPrototype -> Js.has "__proto__" (own o) = false ->
  Canonical (own o) ->
  objectOf (rowsOf o) = o.
Proof.
  intros Hp Hh C. unfold objectOf, rowsOf.
  assert (G : forall l acc,
            Js.has "__proto__" l = false ->
            fold_left
              (fun keybinds k => assign (action k) (accelerator k) keybinds)
              (map (fun kv => {| action := fst kv; accelerator := snd kv |}) l)
              acc
            = {| own := fold_left
                          (fun a kv => define (fst kv) (snd kv) a) l (own acc);
                 proto := proto acc |}).
  { induction l as [|[k v] l IH]; intros acc H; [now destruct acc|].
    cbn [Js.has] in H. cbn [map fold_left fst snd action accelerator].
    apply orb_false_iff in H. destruct H as [Hk Hl].
    rewrite String.eqb_sym in Hk.
    rewrite (IH _ Hl), (assign_named k v acc Hk). reflexivity. }
  rewrite (G _ fresh Hh). simpl. rewrite (rebuild _ C).
  destruct o as [ps pr]. simpl in *. now rewrite Hp.
Qed.

Section Load.

Variable isMac : bool.

Lemma actions_named (a : string) :
  In a (actions isMac) ->
  String.eqb a "__proto__" = false.
Proof.
  assert (H : forallb (fun a => negb (String.eqb a "__proto__"))
                (actions isMac) = true)
    by (destruct isMac; reflexivity).
  intros Ha. apply negb_true_iff.
  exact (proj1 (forallb_forall _ _) H a Ha).
Qed.

Lemma renew_read (st : Obj * bool) (a k : string) :
  In a (actions isMac) ->
  read (fst (renew isMac st a)) k
  = if String.eqb k a then renewed isMac a (read (fst st) a)
    else read (fst st) k.
Proof.
  intros Ha. pose proof (actions_named a Ha) as Hn.
  destruct st as [kb u]. unfold renew, renewed. cbv zeta.
  cbv beta iota delta [fst].
  destruct (negb (Js.truthy (read kb a))).
  - now rewrite read_assign.
  - destruct (Prefs.strictEq (read kb a) _).
    + cbv beta iota delta [fst].
      destruct (String.eqb a "toggleVisibility" && abandoned _);
        cbv beta iota delta [fst]; rewrite !read_assign by exact Hn;
        destruct (String.eqb k a); reflexivity.
    + cbv beta iota delta [fst].
      destruct (String.eqb a "toggleVisibility" && abandoned _);
        cbv beta iota delta [fst].
      * now rewrite read_assign.
      * destruct (String.eqb_spec k a) as [->|]; reflexivity.
Qed.

(** What [renew] changes is the own property of the action. *)
Lemma renew_own (st : Obj * bool) (a : string) :
  In a (actions isMac) ->
  proto (fst (renew isMac st a)) = proto (fst st)
  /\ (Canonical (own (fst st)) -> Canonical (own (fst (renew isMac st a))))
  /\ forall k, String.eqb k a = false ->
       Js.has k (own (fst (renew isMac st a))) = Js.has k (own (fst st))
       /\ Js.lookup k (own (fst (renew isMac st a)))
          = Js.lookup k (own (fst st)).
Proof.
  intros Ha. pose proof (actions_named a Ha) as Hn.
  destruct st as [kb u]. unfold renew. cbv zeta.
  cbv beta iota delta [fst].
  assert (A : forall v o,
            proto (assign a v o) = proto o
            /\ (Canonical (own o) -> Canonical (own (assign a v o)))
            /\ forall k, String.eqb k a = false ->
                 Js.has k (own (assign a v o)) = Js.has k (own o)
                 /\ Js.lookup k (own (assign a v o)) = Js.lookup k (own o)).
  { intros v o. rewrite (assign_named a v o Hn). simpl.
    split; [reflexivity|]. split; [apply canonical_define|].
    intros k Hk. now rewrite has_define, lookup_define, Hk. }
  destruct (negb (Js.truthy (read kb a))); [apply A|].
  destruct (Prefs.strictEq (read kb a) _); cbv beta iota delta [fst];
    destruct (String.eqb a "toggleVisibility" && abandoned _);
    cbv beta iota delta [fst]; try apply A.
  - destruct (A (Js.lookup a (getDefaultKeybinds isMac)) kb)
      as (P1 & C1 & K1).
    destruct (A (Js.lookup a (getDefaultKeybinds isMac))
                (assign a (Js.lookup a (getDefaultKeybinds isMac)) kb))
      as (P2 & C2 & K2).
    split; [congruence|]. split; [auto|].
    intros k Hk. destruct (K1 k Hk), (K2 k Hk). split; congruence.
  - now repeat split.
Qed.

Lemma renew_settled (st : Obj * bool) (a : string) :
  settled isMac a (read (fst st) a) = true -> renew isMac st a = st.
Proof.
  destruct st as [kb u]. unfold renew, settled. cbv zeta.
  cbv beta iota delta [fst]. intros H.
  destruct (Js.truthy (read kb a)); [|discriminate H].
  destruct (Prefs.strictEq (read kb a)
              (Js.lookup a (getLegacyDefaultKeybinds isMac)));
    [discriminate H|].
  cbv beta iota delta [fst negb].
  destruct (String.eqb a "toggleVisibility" && abandoned (read kb a));
    [discriminate H|reflexivity].
Qed.

Lemma renew_flag (st : Obj * bool) (a : string) :
  snd (renew isMac st a) = false -> renew isMac st a = st.
Proof.
  destruct st as [kb u]. unfold renew. cbv zeta.
  cbv beta iota delta [fst].
  destruct (negb (Js.truthy (read kb a))); [discriminate|].
  destruct (Prefs.strictEq (read kb a) _); cbv beta iota delta [fst];
    destruct (String.eqb a "toggleVisibility" && abandoned _); simpl;
    try discriminate.
  reflexivity.
Qed.

Lemma fold_read (l : list string) (st : Obj * bool) (k : string) :
  NoDup l -> (forall a, In a l -> In a (actions isMac)) ->
  read (fst (fold_left (renew isMac) l st)) k
  = if existsb (String.eqb k) l
    then renewed isMac k (read (fst st) k)
    else read (fst st) k.
Proof.
  revert st. induction l as [|a l IH]; intros st N Hl; simpl; [reflexivity|].
  inversion N as [|x y Hn N']. subst.
  rewrite (IH _ N') by (intros b Hb; apply Hl; now right).
  rewrite !renew_read by (apply Hl; now left).
  destruct (String.eqb_spec k a) as [->|Hne]; simpl.
  - destruct (existsb (String.eqb a) l) eqn:E; [|reflexivity].
    apply existsb_exists in E. destruct E as (x & Hx & Ex).
    apply String.eqb_eq in Ex. subst x. contradiction.
  - reflexivity.
Qed.

Lemma fold_own (l : list string) (st : Obj * bool) :
  (forall a, In a l -> In a (actions isMac)) ->
  proto (fst (fold_left (renew isMac) l st)) = proto (fst st)
  /\ (Canonical (own (fst st)) ->
      Canonical (own (fst (fold_left (renew isMac) l st))))
  /\ forall k, existsb (String.eqb k) l = false ->
       Js.has k (own (fst (fold_left (renew isMac) l st)))
       = Js.has k (own (fst st))
       /\ Js.lookup k (own (fst (fold_left (renew isMac) l st)))
          = Js.lookup k (own (fst st)).
Proof.
  revert st. induction l as [|a l IH]; intros st Hl; simpl;
    [now repeat split|].
  destruct (IH (renew isMac st a)) as (P & C & K);
    [intros b Hb; apply Hl; now right|].
  destruct (renew_own st a (Hl a (or_introl eq_refl))) as (P1 & C1 & K1).
  split; [congruence|]. split; [auto|].
  intros k Hk. apply orb_false_iff in Hk. destruct Hk as [Ha Hk].
  destruct (K k Hk), (K1 k Ha). split; congruence.
Qed.

Lemma fold_settled (l : list string) (st : Obj * bool) :
  (forall a, In a l -> settled isMac a (read (fst st) a) = true) ->
  fold_left (renew isMac) l st = st.
Proof.
  induction l as [|a l IH]; intros H; simpl; [reflexivity|].
  rewrite renew_settled by (apply H; now left).
  apply IH. intros b Hb. apply H. now right.
Qed.

Lemma fold_flag (l : list string) (st : Obj * bool) :
  snd (fold_left (renew isMac) l st) = false ->
  fold_left (renew isMac) l st = st.
Proof.
  revert st. induction l as [|a l IH]; intros st H; simpl in *;
    [reflexivity|].
  pose proof (IH _ H) as E. rewrite E in H |- *.
  now apply renew_flag.
Qed.

Lemma actions_distinct : NoDup (actions isMac).
Proof.
  unfold actions. destruct isMac; simpl;
    repeat (constructor; [simpl; intuition discriminate|]); constructor.
Qed.

Lemma actions_defaults (k : string) :
  existsb (String.eqb k) (actions isMac)
  = Js.has k (getDefaultKeybinds isMac).
Proof.
  unfold actions.
  induction (getDefaultKeybinds isMac) as [|[k' v] ps IH]; simpl;
    [reflexivity|].
  now rewrite IH.
Qed.

Lemma in_actions (k : string) :
  In k (actions isMac) -> Js.has k (getDefaultKeybinds isMac) = true.
Proof.
  intros H. rewrite <- actions_defaults. apply existsb_exists.
  exists k. split; [exact H|apply String.eqb_refl].
Qed.

Lemma has_actions (a : string) :
  Js.has a (getDefaultKeybinds isMac) = true -> In a (actions isMac).
Proof.
  intros H. rewrite <- actions_defaults in H.
  apply existsb_exists in H. destruct H as (x & Hx & Ex).
  apply String.eqb_eq in Ex. now subst.
Qed.

(** The defaults are bindings that loading leaves alone. *)
Lemma defaults_settled (a : string) :
  In a (actions isMac) ->
  settled isMac a (Js.lookup a (getDefaultKeybinds isMac)) = true.
Proof.
  assert (H : forallb
                (fun a => settled isMac a
                            (Js.lookup a (getDefaultKeybinds isMac)))
                (actions isMac) = true)
    by (destruct isMac; reflexivity).
  intros Ha. now apply (proj1 (forallb_forall _ _) H).
Qed.

Lemma renewed_settled (a : string) (v : JsVal) :
  In a (actions isMac) -> settled isMac a (renewed isMac a v) = true.
Proof.
  intros Ha. pose proof (defaults_settled a Ha) as D.
  unfold renewed. cbv zeta.
  destruct (negb (Js.truthy v)) eqn:E1; [exact D|].
  destruct (Prefs.strictEq v _) eqn:E2; [exact D|].
  destruct (String.eqb a "toggleVisibility" && abandoned v) eqn:E3;
    [exact D|].
  unfold settled. apply negb_false_iff in E1. now rewrite E1, E2, E3.
Qed.

Lemma renewed_fixed (a : string) (v : JsVal) :
  settled isMac a v = true -> renewed isMac a v = v.
Proof.
  unfold settled, renewed. cbv zeta. intros H.
  apply andb_true_iff in H. destruct H as [H H3].
  apply andb_true_iff in H. destruct H as [H1 H2].
  apply negb_true_iff in H2, H3. now rewrite H1, H2, H3.
Qed.

Lemma migrate_read (keybinds : Obj) (k : string) :
  read (fst (migrate isMac keybinds)) k
  = if Js.has k (getDefaultKeybinds isMac)
    then renewed isMac k (read keybinds k)
    else read keybinds k.
Proof.
  unfold migrate.
  rewrite fold_read by (try apply actions_distinct; auto).
  now rewrite actions_defaults.
Qed.

Lemma migrate_own (keybinds : Obj) :
  proto (fst (migrate isMac keybinds)) = proto keybinds
  /\ (Canonical (own keybinds) ->
      Canonical (own (fst (migrate isMac keybinds))))
  /\ forall k, Js.has k (getDefaultKeybinds isMac) = false ->
       Js.has k (own (fst (migrate isMac keybinds)))
       = Js.has k (own keybinds)
       /\ Js.lookup k (own (fst (migrate isMac keybinds)))
          = Js.lookup k (own keybinds).
Proof.
  unfold migrate.
  destruct (fold_own (actions isMac) (keybinds, false)) as (P & C & K);
    [auto|].
  split; [exact P|]. split; [exact C|].
  intros k Hk. apply K. now rewrite actions_defaults.
Qed.

(** Loading what was loaded changes nothing. *)
Lemma migrate_again (keybinds : Obj) :
  proto keybinds = ObjectPrototype ->
  Js.has "__proto__" (own keybinds) = false ->
  Canonical (own keybinds) ->
  migrate isMac (objectOf (rowsOf (fst (migrate isMac keybinds))))
  = (fst (migrate isMac keybinds), false).
Proof.
  intros Hp Hh C.
  destruct (migrate_own keybinds) as (P & C' & K).
  rewrite objectOf_rowsOf.
  - unfold migrate at 1. apply fold_settled. cbn [fst].
    intros a Ha. rewrite migrate_read, (in_actions a Ha).
    now apply renewed_settled.
  - congruence.
  - destruct (K "__proto__") as (K1 & _); [now destruct isMac|].
    congruence.
  - auto.
Qed.

End Load.

End ShortcutFacts.

Module LoadFacts.
Import Shortcuts.

Lemma ordered_distinct (keys : list string) : ordered keys -> NoDup keys.
Proof.
  induction keys as [|k keys IH]; simpl; [constructor|].
  intros (F & O). constructor; [|now apply IH].
  intros Hin. apply (proj1 (Forall_forall _ _) F) in Hin.
  now apply ShortcutFacts.before_differ in Hin.
Qed.

Lemma rows_distinct (o : Obj) :
  Canonical (own o) -> NoDup (map action (rowsOf o)).
Proof.
  intros C. unfold rowsOf. rewrite map_map. simpl.
  now apply ordered_distinct.
Qed.

Lemma defaults_canonical (isMac : bool) :
  Canonical (getDefaultKeybinds isMac).
Proof.
  unfold Canonical.
  destruct isMac; simpl; repeat split;
    repeat (constructor; [unfold before; simpl; discriminate|]);
    constructor.
Qed.

Lemma defaults_stable (isMac : bool) :
  migrate isMac (objectOf (rowsOf (literally (getDefaultKeybinds isMac))))
  = (literally (getDefaultKeybinds isMac), false).
Proof. destruct isMac; reflexivity. Qed.

(** What the order of the own properties says of a listing. *)
Lemma ordered_listing (l1 l2 : list string) (k : string) :
  ordered (l1 ++ k :: l2)%list ->
  ~ In k l2
  /\ (arrayIndex k = None ->
      forall k', In k' l2 -> arrayIndex k' = None)
  /\ (forall n k' m,
        arrayIndex k = Some n -> In k' l2 -> arrayIndex k' = Some m ->
        (n < m)%N).
Proof.
  intros O. apply ShortcutFacts.ordered_app in O.
  destruct O as (_ & (F & _) & _).
  pose proof (proj1 (Forall_forall _ _) F) as B.
  split.
  - intros Hin. now apply (ShortcutFacts.before_differ k k (B k Hin)).
  - split.
    + intros Hk k' Hin. specialize (B k' Hin). unfold before in B.
      rewrite Hk in B. now destruct (arrayIndex k').
    + intros n k' m Hk Hin Hm. specialize (B k' Hin). unfold before in B.
      now rewrite Hk, Hm in B.
Qed.

(** The first row named [__proto__] sets the prototype. *)
Lemma objectOf_proto (rows : list Row) (r : Row) :
  plain rows = true ->
  action r = "__proto__" ->
  own (objectOf (rows ++ [r])%list) = own (objectOf rows)
  /\ proto (objectOf (rows ++ [r])%list)
     = match accelerator r with
       | JObj _ | JArr _ _ => Inherits (accelerator r)
       | JNull => NullPrototype
       | _ => ObjectPrototype
       end.
Proof.
  intros Hp Ha.
  destruct (ShortcutFacts.objectOf_plain rows Hp) as (P & H).
  assert (E : objectOf (rows ++ [r])%list
              = assign (action r) (accelerator r) (objectOf rows))
    by (unfold objectOf; now rewrite fold_left_app).
  rewrite E. clear E. revert P H. generalize (objectOf rows). intros o P H.
  unfold assign, accessor. rewrite Ha, H, P, String.eqb_refl.
  cbn [negb andb].
  destruct (accelerator r); cbn [own proto]; split; try reflexivity;
    exact P.
Qed.

End LoadFacts.

(** X23. [loadKeybinds] fills an empty object from the rows of the
    repository and then, for each action of the defaults, replaces by the
    default a binding that is missing or falsy, a binding that is the legacy
    default of the action, and for [toggleVisibility] the abandoned bindings
    Ctrl+Alt+Shift+H and Cmd+Alt+Shift+H; every other binding is read as it
    was, every other own property and the prototype are untouched.
    Afterwards each action of the defaults is bound, none to its legacy
    default.  When nothing is to be written the object is the stored one.
    The rows written hold each action once.  For rows none of which is
    named [__proto__], loading is stable: the rows [saveKeybinds] writes
    load to the same object, in the same order, with nothing to write.
    The own properties are listed as [for ... in] does: no name twice, and
    after a name that is no array index no array index, after an array
    index only greater ones.  A first row named [__proto__] adds no own
    property: an object or array it carries becomes the prototype, [null]
    removes the prototype, any other value is ignored. *)
Theorem X23_loading_key_bindings :
  forall (isMac : bool) (upsertKeybinds : list Shortcuts.Row -> option Error)
         (rows : list Shortcuts.Row),
    let stored := Shortcuts.objectOf rows in
    let out := Shortcuts.migrate isMac stored in
    let defaults := Shortcuts.getDefaultKeybinds isMac in
    let legacy := Shortcuts.getLegacyDefaultKeybinds isMac in
    (forall action,
        Js.has action defaults = true ->
        Shortcuts.read (fst out) action
        = let v := Shortcuts.read stored action in
          if negb (Js.truthy v) then Js.lookup action defaults
          else if Prefs.strictEq v (Js.lookup action legacy)
          then Js.lookup action defaults
          else if String.eqb action "toggleVisibility"
                  && (Prefs.strictEq v (JStr "Ctrl+Alt+Shift+H")
                      || Prefs.strictEq v (JStr "Cmd+Alt+Shift+H"))
          then Js.lookup action defaults
          else v)
    /\ (forall k,
          Js.has k defaults = false ->
          Shortcuts.read (fst out) k = Shortcuts.read stored k
          /\ Js.has k (Shortcuts.own (fst out))
             = Js.has k (Shortcuts.own stored)
          /\ Js.lookup k (Shortcuts.own (fst out))
             = Js.lookup k (Shortcuts.own stored))
    /\ Shortcuts.proto (fst out) = Shortcuts.proto stored
    /\ (forall action,
          Js.has action defaults = true ->
          Js.truthy (Shortcuts.read (fst out) action) = true
          /\ Prefs.strictEq (Shortcuts.read (fst out) action)
               (Js.lookup action legacy) = false)
    /\ (Prefs.strictEq (Shortcuts.read (fst out) "toggleVisibility")
          (JStr "Ctrl+Alt+Shift+H") = false
        /\ Prefs.strictEq (Shortcuts.read (fst out) "toggleVisibility")
             (JStr "Cmd+Alt+Shift+H") = false)
    /\ (snd out = false -> fst out = stored)
    /\ (forall answer result writes written,
          Shortcuts.loadKeybinds isMac upsertKeybinds answer
          = (result, writes) ->
          In written writes ->
          NoDup (map Shortcuts.action written)
          /\ forall keybinds, result = Ok keybinds ->
               written = Shortcuts.rowsOf keybinds)
    /\ (Shortcuts.plain rows = true ->
        Shortcuts.objectOf (Shortcuts.rowsOf (fst out)) = fst out
        /\ Shortcuts.migrate isMac
             (Shortcuts.objectOf (Shortcuts.rowsOf (fst out)))
           = (fst out, false))
    /\ (forall answer keybinds writes,
          match answer with
          | Ok (Some stored) => Shortcuts.plain stored = true
          | _ => True
          end ->
          Shortcuts.loadKeybinds isMac upsertKeybinds answer
          = (Ok keybinds, writes) ->
          Shortcuts.loadKeybinds isMac upsertKeybinds
            (Ok (Some (Shortcuts.rowsOf keybinds)))
          = (Ok keybinds, []))
    /\ (forall l1 k l2,
          map fst (Shortcuts.own (fst out)) = (l1 ++ k :: l2)%list ->
          ~ In k l2
          /\ (Shortcuts.arrayIndex k = None ->
              forall k', In k' l2 -> Shortcuts.arrayIndex k' = None)
          /\ (forall n k' m,
                Shortcuts.arrayIndex k = Some n -> In k' l2 ->
                Shortcuts.arrayIndex k' = Some m -> (n < m)%N))
    /\ (forall r,
          Shortcuts.plain rows = true ->
          Shortcuts.action r = "__proto__" ->
          Shortcuts.own (Shortcuts.objectOf (rows ++ [r])%list)
          = Shortcuts.own stored
          /\ Shortcuts.proto (Shortcuts.objectOf (rows ++ [r])%list)
             = match Shortcuts.accelerator r with
               | JObj _ | JArr _ _ =>
                   Shortcuts.Inherits (Shortcuts.accelerator r)
               | JNull => Shortcuts.NullPrototype
               | _ => Shortcuts.ObjectPrototype
               end).
Proof.
  intros isMac upsertKeybinds rows. cbv zeta.
  pose proof (ShortcutFacts.objectOf_canonical rows) as C.
  destruct (ShortcutFacts.migrate_own isMac (Shortcuts.objectOf rows))
    as (P & C' & K).
  assert (S : forall o action,
            Js.has action (Shortcuts.getDefaultKeybinds isMac) = true ->
            Shortcuts.settled isMac action
              (Shortcuts.read (fst (Shortcuts.migrate isMac o)) action)
            = true).
  { intros o action Ha. rewrite ShortcutFacts.migrate_read, Ha.
    apply ShortcutFacts.renewed_settled.
    now apply ShortcutFacts.has_actions. }
  split.
  { intros action Ha. now rewrite ShortcutFacts.migrate_read, Ha. }
  split.
  { intros k Hk. rewrite ShortcutFacts.migrate_read, Hk.
    destruct (K k Hk). now repeat split. }
  split; [exact P|].
  split.
  { intros action Ha. pose proof (S (Shortcuts.objectOf rows) action Ha) as H.
    unfold Shortcuts.settled in H.
    apply andb_true_iff in H. destruct H as [H _].
    apply andb_true_iff in H. destruct H as [H1 H2].
    apply negb_true_iff in H2. now split. }
  split.
  { assert (Ha : Js.has "toggleVisibility"
                   (Shortcuts.getDefaultKeybinds isMac) = true)
      by now destruct isMac.
    pose proof (S (Shortcuts.objectOf rows) "toggleVisibility" Ha) as H.
    unfold Shortcuts.settled in H.
    apply andb_true_iff in H. destruct H as [_ H].
    apply negb_true_iff in H. rewrite String.eqb_refl in H.
    unfold Shortcuts.abandoned in H. cbn [andb] in H.
    now apply orb_false_iff in H. }
  split.
  { intros H. unfold Shortcuts.migrate in *.
    now rewrite (ShortcutFacts.fold_flag isMac _ _ H). }
  assert (L : forall answer keybinds writes,
            Shortcuts.loadKeybinds isMac upsertKeybinds answer
            = (Ok keybinds, writes) ->
            (keybinds = Shortcuts.literally (Shortcuts.getDefaultKeybinds isMac)
             \/ exists stored,
                  answer = Ok (Some stored)
                  /\ keybinds
                     = fst (Shortcuts.migrate isMac
                              (Shortcuts.objectOf stored)))).
  { intros answer keybinds writes H. unfold Shortcuts.loadKeybinds in H.
    destruct answer as [[[|r rs]|]|e]; try discriminate H.
    - left. unfold Shortcuts.saveKeybinds in H. cbv zeta in H.
      destruct (upsertKeybinds _); [discriminate H|]. now injection H.
    - right. exists (r :: rs). split; [reflexivity|].
      destruct (Shortcuts.migrate isMac (Shortcuts.objectOf (r :: rs)))
        as [kb u].
      destruct u; [|now injection H].
      unfold Shortcuts.saveKeybinds in H. cbv zeta in H.
      destruct (upsertKeybinds _); [discriminate H|]. now injection H.
    - left. unfold Shortcuts.saveKeybinds in H. cbv zeta in H.
      destruct (upsertKeybinds _); [discriminate H|]. now injection H. }
  split.
  { intros answer result writes written H Hin.
    assert (W : forall o, Shortcuts.Canonical (Shortcuts.own o) ->
              forall r ws,
                Shortcuts.saveKeybinds upsertKeybinds o = (r, ws) ->
                ws = Shortcuts.rowsOf o
                /\ NoDup (map Shortcuts.action ws)).
    { intros o Co r ws Hs. unfold Shortcuts.saveKeybinds in Hs.
      cbv zeta in Hs. injection Hs as _ <-.
      split; [reflexivity|now apply LoadFacts.rows_distinct]. }
    unfold Shortcuts.loadKeybinds in H.
    destruct answer as [[[|r rs]|]|e].
    - destruct (Shortcuts.saveKeybinds upsertKeybinds _) as [[u|e] ws] eqn:E;
        injection H as <- <-; destruct Hin as [<-|[]];
        destruct (W (Shortcuts.literally (Shortcuts.getDefaultKeybinds isMac))
                    (LoadFacts.defaults_canonical isMac) _ _ E) as (-> & N);
        (split; [exact N|]); intros kb Hk; [|discriminate Hk];
        injection Hk as <-; reflexivity.
    - pose proof (ShortcutFacts.migrate_own isMac
                    (Shortcuts.objectOf (r :: rs))) as (_ & Cm & _).
      specialize (Cm (ShortcutFacts.objectOf_canonical (r :: rs))).
      destruct (Shortcuts.migrate isMac (Shortcuts.objectOf (r :: rs)))
        as [kb u].
      cbn [fst] in Cm. destruct u.
      + destruct (Shortcuts.saveKeybinds upsertKeybinds kb) as [[x|e] ws]
          eqn:E; injection H as <- <-; destruct Hin as [<-|[]];
          destruct (W _ Cm _ _ E) as (-> & N);
          (split; [exact N|]); intros kb' Hk; [|discriminate Hk];
          injection Hk as <-; reflexivity.
      + injection H as <- <-. destruct Hin.
    - destruct (Shortcuts.saveKeybinds upsertKeybinds _) as [[u|e] ws] eqn:E;
        injection H as <- <-; destruct Hin as [<-|[]];
        destruct (W (Shortcuts.literally (Shortcuts.getDefaultKeybinds isMac))
                    (LoadFacts.defaults_canonical isMac) _ _ E) as (-> & N);
        (split; [exact N|]); intros kb Hk; [|discriminate Hk];
        injection Hk as <-; reflexivity.
    - injection H as <- <-. destruct Hin. }
  assert (A : forall stored,
            Shortcuts.plain stored = true ->
            Shortcuts.objectOf
              (Shortcuts.rowsOf
                 (fst (Shortcuts.migrate isMac (Shortcuts.objectOf stored))))
            = fst (Shortcuts.migrate isMac (Shortcuts.objectOf stored))
            /\ Shortcuts.migrate isMac
                 (Shortcuts.objectOf
                    (Shortcuts.rowsOf
                       (fst (Shortcuts.migrate isMac
                               (Shortcuts.objectOf stored)))))
               = (fst (Shortcuts.migrate isMac (Shortcuts.objectOf stored)),
                  false)).
  { intros stored Hs.
    destruct (ShortcutFacts.objectOf_plain stored Hs) as (Hp & Hh).
    pose proof (ShortcutFacts.objectOf_canonical stored) as Cs.
    split.
    - destruct (ShortcutFacts.migrate_own isMac (Shortcuts.objectOf stored))
        as (P1 & C1 & K1).
      apply ShortcutFacts.objectOf_rowsOf; [congruence| |auto].
      destruct (K1 "__proto__") as (K2 & _); [now destruct isMac|].
      congruence.
    - now apply ShortcutFacts.migrate_again. }
  split; [apply A|].
  split; cycle 1.
  { split.
    - intros l1 k l2 E. apply (LoadFacts.ordered_listing l1 l2 k).
      rewrite <- E. exact (C' C).
    - intros r. apply LoadFacts.objectOf_proto. }
  intros answer keybinds writes Hplain H.
  assert (G : forall kb,
            Js.has "moveUp" (Shortcuts.own kb) = true ->
            Shortcuts.migrate isMac (Shortcuts.objectOf (Shortcuts.rowsOf kb))
            = (kb, false) ->
            Shortcuts.loadKeybinds isMac upsertKeybinds
              (Ok (Some (Shortcuts.rowsOf kb)))
            = (Ok kb, [])).
  { intros kb Hm Hk. unfold Shortcuts.loadKeybinds.
    destruct (Shortcuts.rowsOf kb) as [|r rs] eqn:E.
    - unfold Shortcuts.rowsOf in E.
      destruct (Shortcuts.own kb); [discriminate Hm|discriminate E].
    - now rewrite Hk. }
  destruct (L answer keybinds writes H) as [->|(stored & -> & ->)].
  - apply G; [now destruct isMac|apply LoadFacts.defaults_stable].
  - apply G; [|now apply A].
    assert (Ha : Js.has "moveUp" (Shortcuts.getDefaultKeybinds isMac) = true)
      by now destruct isMac.
    pose proof (S (Shortcuts.objectOf stored) "moveUp" Ha) as Hs.
    destruct (Js.has "moveUp"
                (Shortcuts.own
                   (fst (Shortcuts.migrate isMac (Shortcuts.objectOf stored)))))
      eqn:E; [reflexivity|].
    (* a binding that is not an own property was inherited; it is written
       back only if it is own, which the renewal of a plain object makes it *)
    exfalso.
    destruct (ShortcutFacts.objectOf_plain stored Hplain) as (Hp & _).
    destruct (ShortcutFacts.migrate_own isMac (Shortcuts.objectOf stored))
      as (P1 & _).
    unfold Shortcuts.settled, Shortcuts.read in Hs.
    rewrite E, P1, Hp in Hs. discriminate Hs.
Qed.

Lemma X23_witness :
  let out := Shortcuts.migrate false (Shortcuts.objectOf Shortcuts.someRows) in
  Shortcuts.migrate false (Shortcuts.objectOf (Shortcuts.rowsOf (fst out)))
  = (fst out, false)
  /\ Shortcuts.read (fst out) "scrollUp" = JStr "Alt+U"
  /\ Shortcuts.read (fst out) "toggleVisibility" = JStr "Ctrl+Alt+H"
  /\ Shortcuts.read
       (fst (Shortcuts.migrate false (Shortcuts.objectOf Shortcuts.oddRows)))
       "moveUp" = JStr "Alt+W"
  /\ map Shortcuts.action (Shortcuts.rowsOf (fst out))
     = ["7"; "nextStep"; "toggleVisibility"; "scrollUp"; "custom"; "moveUp";
        "moveDown"; "moveLeft"; "moveRight"; "toggleClickThrough";
        "toggleListen"; "toggleSettings"; "manualScreenshot";
        "previousResponse"; "nextResponse"; "scrollDown"].
Proof.
  cbv zeta.
  destruct (X23_loading_key_bindings false (fun _ => None) Shortcuts.someRows)
    as (R & _ & _ & _ & _ & _ & _ & H & _).
  split; [apply H; reflexivity|].
  split; [rewrite (R "scrollUp"); reflexivity|].
  split; [rewrite (R "toggleVisibility"); reflexivity|].
  destruct (X23_loading_key_bindings false (fun _ => None) Shortcuts.oddRows)
    as (G & _).
  split; [rewrite (G "moveUp"); reflexivity|reflexivity].
Defined.

(** ** Registering the global shortcuts *)

Module KeysFacts.
Import Shortcuts Keys.

(** What [loadKeybinds] returns binds every action of the defaults, and
    to a binding that loading leaves alone. *)
Lemma loaded_settled (isMac : bool) (upsert : list Row -> option Error)
  (answer : Result (option (list Row))) (keybinds : Obj)
  (writes : list (list Row)) (a : string) :
  loadKeybinds isMac upsert answer = (Ok keybinds, writes) ->
  Js.has a (getDefaultKeybinds isMac) = true ->
  settled isMac a (read keybinds a) = true.
Proof.
  intros H Ha.
  assert (D : settled isMac a (read (literally (getDefaultKeybinds isMac)) a)
              = true).
  { unfold read, literally. cbn [own proto]. rewrite Ha.
    apply ShortcutFacts.defaults_settled.
    now apply ShortcutFacts.has_actions. }
  assert (M : forall o, settled isMac a (read (fst (migrate isMac o)) a)
                        = true).
  { intros o. rewrite ShortcutFacts.migrate_read, Ha.
    apply ShortcutFacts.renewed_settled.
    now apply ShortcutFacts.has_actions. }
  unfold loadKeybinds in H.
  destruct answer as [[[|r rs]|]|e]; try discriminate H.
  - unfold saveKeybinds in H. cbv zeta in H.
    destruct (upsert _); [discriminate H|]. injection H as <- _. exact D.
  - specialize (M (objectOf (r :: rs))).
    destruct (migrate isMac (objectOf (r :: rs))) as [kb u].
    cbn [fst] in M.
    destruct u; [|injection H as <- _; exact M].
    unfold saveKeybinds in H. cbv zeta in H.
    destruct (upsert _); [discriminate H|]. injection H as <- _. exact M.
  - unfold saveKeybinds in H. cbv zeta in H.
    destruct (upsert _); [discriminate H|]. injection H as <- _. exact D.
Qed.

(** A binding that is set is listed by [for ... in]. *)
Lemma read_listed (keybinds : Obj) (a : string) :
  Js.truthy (read keybinds a) = true -> In a (forIn keybinds).
Proof.
  unfold read, forIn. intros H. apply in_or_app.
  destruct (Js.has a (own keybinds)) eqn:E.
  - left. now apply PrefsFacts.has_keys.
  - right. apply filter_In. rewrite E. split; [|reflexivity].
    destruct (proto keybinds) as [| |v]; try discriminate H.
    apply PrefsFacts.has_keys.
    destruct (Js.has a (Js.ownProps v)) eqn:E2; [reflexivity|].
    rewrite (PrefsFacts.lookup_absent _ _ E2) in H. discriminate H.
Qed.

Lemma grows_refl (s : State) : Grows s s [].
Proof.
  unfold Grows. rewrite app_nil_r. repeat split.
  exists []. rewrite app_nil_r. split; [reflexivity|apply incl_refl].
Qed.

Lemma grows_trans (s s1 s2 : State) (r1 r2 : list (JsVal * Callback)) :
  Grows s s1 r1 -> Grows s1 s2 r2 -> Grows s s2 (r1 ++ r2)%list.
Proof.
  intros (A1 & (t1 & B1 & I1) & C1 & D1 & E1)
         (A2 & (t2 & B2 & I2) & C2 & D2 & E2).
  unfold Grows. rewrite A2, A1, app_assoc. split; [reflexivity|].
  split.
  - exists (t1 ++ t2)%list. rewrite B2, B1, app_assoc.
    split; [reflexivity|].
    apply incl_app; [now apply incl_appl|now apply incl_appr].
  - repeat split; congruence.
Qed.

Lemma grows_one (s : State) (p : JsVal * Callback) (taken : bool) :
  Grows s (withRequest p taken s) [p].
Proof.
  unfold Grows, withRequest. cbn [requested registered allWindowVisibility
                                  saved visibilityRequests].
  split; [reflexivity|]. split; [|now repeat split].
  destruct taken.
  - exists [p]. split; [reflexivity|apply incl_refl].
  - exists []. rewrite app_nil_r. split; [reflexivity|].
    intros x [].
Qed.

Section Register.

Variable h : Host.

Lemma tryRequest_spec (p : JsVal * Callback) (s : State) :
  tryRequest h p s
  = (Ok tt,
     withRequest p
       match register h (registered s) (fst p) with
       | Taken => true
       | _ => false
       end s).
Proof.
  unfold tryRequest, Eff.tryCatch, request, Eff.ret.
  now destruct (register h (registered s) (fst p)).
Qed.

Lemma tryRequests (ps : list (JsVal * Callback)) (s : State) :
  exists s', Eff.forEach (tryRequest h) ps s = (Ok tt, s') /\ Grows s s' ps.
Proof.
  revert s. induction ps as [|p ps IH]; intros s.
  - exists s. split; [reflexivity|apply grows_refl].
  - cbn [Eff.forEach]. unfold Eff.bind. rewrite tryRequest_spec.
    destruct (IH (withRequest p
                    match register h (registered s) (fst p) with
                    | Taken => true
                    | _ => false
                    end s)) as (s' & E & G).
    exists s'. split; [exact E|].
    apply (grows_trans _ _ _ [p] ps (grows_one s p _) G).
Qed.

(** Requests outside [try]: they go through when none raises. *)
Lemma requests (ps : list (JsVal * Callback)) (s : State) :
  (forall regs p e, In p ps -> register h regs (fst p) <> Raised e) ->
  exists s', Eff.forEach (request h) ps s = (Ok tt, s') /\ Grows s s' ps.
Proof.
  revert s. induction ps as [|p ps IH]; intros s H.
  - exists s. split; [reflexivity|apply grows_refl].
  - cbn [Eff.forEach]. unfold Eff.bind, request at 1.
    assert (Hp : forall e, register h (registered s) (fst p) <> Raised e)
      by (intros e; apply H; now left).
    assert (Hr : forall regs q e, In q ps -> register h regs (fst q)
                                             <> Raised e)
      by (intros regs q e Hq; apply H; now right).
    destruct (register h (registered s) (fst p)) as [| |e] eqn:E.
    + destruct (IH (withRequest p true s) Hr) as (s' & E' & G).
      exists s'. split; [exact E'|].
      apply (grows_trans _ _ _ [p] ps (grows_one s p _) G).
    + destruct (IH (withRequest p false s) Hr) as (s' & E' & G).
      exists s'. split; [exact E'|].
      apply (grows_trans _ _ _ [p] ps (grows_one s p _) G).
    + now destruct (Hp e).
Qed.

Lemma configure_loop (keybinds : Obj) (keys : list string) (s : State) :
  exists s',
    Eff.forEach (configure h keybinds) keys s = (Ok tt, s')
    /\ Grows s s'
         (flat_map
            (fun a =>
               if Js.truthy (read keybinds a)
               then match callbackOf a with
                    | Some callback => [(read keybinds a, callback)]
                    | None => []
                    end
               else [])
            keys).
Proof.
  revert s. induction keys as [|a keys IH]; intros s.
  - exists s. split; [reflexivity|apply grows_refl].
  - cbn [Eff.forEach flat_map]. unfold Eff.bind, configure at 1. cbv zeta.
    destruct (Js.truthy (read keybinds a)); cbn [negb].
    + destruct (callbackOf a) as [callback|].
      * rewrite tryRequest_spec.
        destruct (IH (withRequest (read keybinds a, callback)
                        match register h (registered s)
                                (fst (read keybinds a, callback)) with
                        | Taken => true
                        | _ => false
                        end s)) as (s' & E & G).
        exists s'. split; [exact E|].
        apply (grows_trans _ _ _ [_] _ (grows_one s _ _) G).
      * unfold Eff.ret. apply IH.
    + unfold Eff.ret. apply IH.
Qed.

Lemma monitorKeys_spec (index : nat) (ds : list JsVal) :
  monitorKeys h index ds
  = map (fun id =>
           (JStr ((if isMac h then "Cmd" else "Ctrl") ++ "+Shift+"
                    ++ ofNat (fst id + 1)),
            MoveToDisplay (snd id)))
      (combine (seq index (List.length ds)) ds).
Proof.
  revert index. induction ds as [|d ds IH]; intros index; [reflexivity|].
  cbn [monitorKeys List.length seq combine map fst snd].
  now rewrite IH.
Qed.

(** A raise outside [try] ends the run: what is held was taken before. *)
Lemma requests_raise (before after : list (JsVal * Callback))
  (p : JsVal * Callback) (e : Error) (s : State) :
  (forall regs q e', In q before -> register h regs (fst q) <> Raised e') ->
  (forall regs, register h regs (fst p) = Raised e) ->
  exists s' taken,
    Eff.forEach (request h) (before ++ p :: after)%list s = (Throw e, s')
    /\ registered s' = (registered s ++ taken)%list
    /\ incl taken before
    /\ allWindowVisibility s' = allWindowVisibility s
    /\ saved s' = saved s
    /\ visibilityRequests s' = visibilityRequests s.
Proof.
  intros Hb Hp.
  destruct (requests before s Hb) as (s1 & E1 & (_ & (t & R & I) & A & B & C)).
  assert (F : forall (xs ys : list (JsVal * Callback)) s0 s2,
            Eff.forEach (request h) xs s0 = (Ok tt, s2) ->
            Eff.forEach (request h) (xs ++ ys)%list s0
            = Eff.forEach (request h) ys s2).
  { induction xs as [|x xs IH]; intros ys s0 s2 H.
    - cbn in H. unfold Eff.ret in H. now injection H as <-.
    - cbn [Eff.forEach app] in *. unfold Eff.bind in *.
      destruct (request h x s0) as [[u|e0] s3]; [|discriminate H].
      now apply IH. }
  rewrite (F _ _ _ _ E1).
  cbn [Eff.forEach]. unfold Eff.bind, request at 1. rewrite Hp.
  exists (withRequest p false s1), t.
  unfold withRequest. cbn [registered allWindowVisibility saved
                           visibilityRequests].
  repeat split; assumption.
Qed.

Lemma toggles_spec (keybinds : Obj) (s : State) :
  exists s',
    registerToggleVisibilityWithAliases h keybinds s = (Ok tt, s')
    /\ Grows s s'
         ((read keybinds "toggleVisibility", ToggleAllWindowsVisibility)
            :: if Prefs.strictEq
                    (JStr (if isMac h then "Cmd+" ++ backslash
                           else "Ctrl+" ++ backslash))
                    (read keybinds "toggleVisibility")
               then []
               else [(JStr (if isMac h then "Cmd+" ++ backslash
                            else "Ctrl+" ++ backslash),
                      ToggleAllWindowsVisibility)])%list
    /\ (register h (registered s) (read keybinds "toggleVisibility") = Taken ->
        In (read keybinds "toggleVisibility", ToggleAllWindowsVisibility)
          (registered s')).
Proof.
  unfold registerToggleVisibilityWithAliases, differ, explicitAlias.
  cbv zeta.
  destruct (Prefs.strictEq _ (read keybinds "toggleVisibility"));
    cbn [negb Eff.forEach]; unfold Eff.bind; rewrite !tryRequest_spec;
    unfold Eff.ret; eexists; (split; [reflexivity|]); split.
  - apply grows_one.
  - cbn [fst]. intros ->. unfold withRequest. cbn [registered].
    apply in_or_app. right. now left.
  - apply (grows_trans _ _ _ [_] [_] (grows_one s _ _) (grows_one _ _ _)).
  - cbn [fst]. intros ->. unfold withRequest at 2. cbn [registered].
    unfold withRequest at 1. cbn [registered].
    destruct (register h _ _); apply in_or_app;
      try (left; apply in_or_app); right; now left.
Qed.

(** Neither the flag nor the visibility requests change while the shortcuts
    are registered. *)
Lemma loop_keeps {A : Type} (f : A -> Eff.M State unit) (xs : list A) :
  (forall x s, allWindowVisibility (snd (f x s)) = allWindowVisibility s
               /\ visibilityRequests (snd (f x s)) = visibilityRequests s) ->
  forall s,
    allWindowVisibility (snd (Eff.forEach f xs s)) = allWindowVisibility s
    /\ visibilityRequests (snd (Eff.forEach f xs s)) = visibilityRequests s.
Proof.
  intros H. induction xs as [|x xs IH]; intros s; [now split|].
  cbn [Eff.forEach]. unfold Eff.bind.
  destruct (H x s) as (A1 & B1).
  destruct (f x s) as [[u|e] s1]; cbn [snd] in *.
  - destruct (IH s1) as (A2 & B2). split; congruence.
  - now split.
Qed.

Lemma request_keeps (p : JsVal * Callback) (s : State) :
  allWindowVisibility (snd (request h p s)) = allWindowVisibility s
  /\ visibilityRequests (snd (request h p s)) = visibilityRequests s.
Proof. unfold request. now destruct (register h _ _). Qed.

Lemma tryRequest_keeps (p : JsVal * Callback) (s : State) :
  allWindowVisibility (snd (tryRequest h p s)) = allWindowVisibility s
  /\ visibilityRequests (snd (tryRequest h p s)) = visibilityRequests s.
Proof. rewrite tryRequest_spec. now split. Qed.

Lemma configure_keeps (keybinds : Obj) (a : string) (s : State) :
  allWindowVisibility (snd (configure h keybinds a s)) = allWindowVisibility s
  /\ visibilityRequests (snd (configure h keybinds a s))
     = visibilityRequests s.
Proof.
  unfold configure. cbv zeta.
  destruct (negb _); [now split|].
  destruct (callbackOf a); [apply tryRequest_keeps|now split].
Qed.

Lemma toggles_keeps (keybinds : Obj) (s : State) :
  allWindowVisibility
    (snd (registerToggleVisibilityWithAliases h keybinds s))
  = allWindowVisibility s
  /\ visibilityRequests
       (snd (registerToggleVisibilityWithAliases h keybinds s))
     = visibilityRequests s.
Proof.
  unfold registerToggleVisibilityWithAliases. cbv zeta.
  apply loop_keeps. intros x s0. apply tryRequest_keeps.
Qed.

Lemma registerShortcuts_keeps (answer : Result (option (list Row)))
  (only : bool) (s : State) :
  allWindowVisibility (snd (registerShortcuts h answer only s))
  = allWindowVisibility s
  /\ visibilityRequests (snd (registerShortcuts h answer only s))
     = visibilityRequests s.
Proof.
  unfold registerShortcuts.
  destruct (windowPool h); cbn [negb]; [|now split].
  unfold Eff.bind, load, Eff.modify, tell.
  destruct (loadKeybinds _ _ answer) as [[keybinds|e] writes];
    cbv beta iota; [|now split].
  destruct (announce h); [now split|]. unfold Eff.ret. cbv beta iota.
  destruct only.
  - destruct (toggles_keeps keybinds (unregisterAll (withSaved writes s)))
      as (A & B). now rewrite A, B.
  - destruct (loop_keeps (request h) (hardcoded h) request_keeps
                (unregisterAll (withSaved writes s))) as (A & B).
    destruct (Eff.forEach (request h) (hardcoded h) _) as [[u|e] s1];
      cbn [snd] in *; [|now rewrite A, B].
    destruct (apikeyHeader h).
    + destruct (toggles_keeps keybinds s1) as (A1 & B1).
      now rewrite A1, B1, A, B.
    + destruct (loop_keeps (configure h keybinds) (forIn keybinds)
                  (configure_keeps keybinds) s1) as (A1 & B1).
      now rewrite A1, B1, A, B.
Qed.

(** What is held was taken by the host: [register] declining or raising
    leaves nothing behind. *)
Lemma loop_held {A : Type} (f : A -> Eff.M State unit) (xs : list A) :
  (forall x s, Held h s -> Held h (snd (f x s))) ->
  forall s, Held h s -> Held h (snd (Eff.forEach f xs s)).
Proof.
  intros H. induction xs as [|x xs IH]; intros s Hs; [exact Hs|].
  cbn [Eff.forEach]. unfold Eff.bind.
  specialize (H x s Hs).
  destruct (f x s) as [[u|e] s1]; cbn [snd] in *; [now apply IH|exact H].
Qed.

Lemma request_held (p : JsVal * Callback) (s : State) :
  Held h s -> Held h (snd (request h p s)).
Proof.
  intros Hs. unfold request.
  destruct (register h (registered s) (fst p)) eqn:E; cbn [snd];
    unfold Held, withRequest; cbn [registered]; try exact Hs.
  intros q Hq. apply in_app_or in Hq.
  destruct Hq as [Hq|[<-|[]]]; [now apply Hs|].
  now exists (registered s).
Qed.

Lemma tryRequest_held (p : JsVal * Callback) (s : State) :
  Held h s -> Held h (snd (tryRequest h p s)).
Proof.
  intros Hs. pose proof (request_held p s Hs) as H.
  unfold tryRequest, Eff.tryCatch, Eff.ret.
  now destruct (request h p s) as [[u|e] s1].
Qed.

Lemma configure_held (keybinds : Obj) (a : string) (s : State) :
  Held h s -> Held h (snd (configure h keybinds a s)).
Proof.
  intros Hs. unfold configure. cbv zeta.
  destruct (negb _); [exact Hs|].
  destruct (callbackOf a); [now apply tryRequest_held|exact Hs].
Qed.

Lemma toggles_held (keybinds : Obj) (s : State) :
  Held h s ->
  Held h (snd (registerToggleVisibilityWithAliases h keybinds s)).
Proof.
  unfold registerToggleVisibilityWithAliases. cbv zeta.
  apply loop_held. intros x s0. apply tryRequest_held.
Qed.

Lemma registerShortcuts_held (answer : Result (option (list Row)))
  (only : bool) (s : State) :
  Held h s -> Held h (snd (registerShortcuts h answer only s)).
Proof.
  intros Hs. unfold registerShortcuts.
  destruct (windowPool h); cbn [negb]; [|exact Hs].
  unfold Eff.bind, load, Eff.modify, tell.
  destruct (loadKeybinds _ _ answer) as [[keybinds|e] writes];
    cbv beta iota; [|exact Hs].
  assert (H0 : Held h (unregisterAll (withSaved writes s)))
    by (intros p []).
  destruct (announce h); [exact H0|]. unfold Eff.ret. cbv beta iota.
  destruct only; [now apply toggles_held|].
  pose proof (loop_held (request h) (hardcoded h) request_held _ H0) as H1.
  destruct (Eff.forEach (request h) (hardcoded h) _) as [[u|e] s1];
    cbn [snd] in *; [|exact H1].
  destruct (apikeyHeader h); [now apply toggles_held|].
  apply loop_held; [|exact H1].
  intros x s0. apply configure_held.
Qed.

(** The run once the key bindings are loaded and the windows told. *)
Lemma registerShortcuts_loaded (answer : Result (option (list Row)))
  (only : bool) (s : State) (keybinds : Obj) (writes : list (list Row)) :
  windowPool h = true ->
  loadKeybinds (isMac h) (upsertKeybinds h) answer = (Ok keybinds, writes) ->
  announce h = None ->
  registerShortcuts h answer only s
  = (if only then registerToggleVisibilityWithAliases h keybinds
     else
       Eff.bind (Eff.forEach (request h) (hardcoded h))
         (fun _ =>
            if apikeyHeader h
            then registerToggleVisibilityWithAliases h keybinds
            else Eff.forEach (configure h keybinds) (forIn keybinds)))
      (unregisterAll (withSaved writes s)).
Proof.
  intros Hp Hl Ha. unfold registerShortcuts. rewrite Hp. cbn [negb].
  unfold Eff.bind at 1. unfold load. rewrite Hl.
  unfold Eff.bind at 1. unfold Eff.modify.
  unfold Eff.bind at 1. unfold tell. rewrite Ha. unfold Eff.ret.
  now destruct only.
Qed.

End Register.
End KeysFacts.

Module KeysTable.
Import Shortcuts Keys.

Lemma callbackOf_table (a : string) (cb : Callback) :
  callbackOf a = Some cb <->
  In (a, cb)
    [("toggleVisibility", ToggleAllWindowsVisibility);
     ("nextStep", NextStep);
     ("scrollUp", ScrollVisibleWindows true);
     ("scrollDown", ScrollVisibleWindows false);
     ("moveUp", MoveStep "up");
     ("moveDown", MoveStep "down");
     ("moveLeft", MoveStep "left");
     ("moveRight", MoveStep "right");
     ("toggleClickThrough", ToggleClickThrough);
     ("toggleListen", ToggleListen);
     ("toggleSettings", ToggleSettings);
     ("manualScreenshot", ManualScreenshot);
     ("previousResponse", NavigatePreviousResponse);
     ("nextResponse", NavigateNextResponse)].
Proof.
  split.
  - unfold callbackOf.
    repeat match goal with
           | |- (if String.eqb a ?k then _ else _) = _ -> _ =>
               destruct (String.eqb_spec a k) as [->|_];
               [intros [= <-]; cbn [In]; tauto|]
           end.
    discriminate.
  - cbn [In]. intros H.
    repeat (destruct H as [H|H]; [injection H as <- <-; reflexivity|]).
    destruct H.
Qed.

Lemma table_defaults (isMac : bool) (a : string) (cb : Callback) :
  callbackOf a = Some cb -> Js.has a (getDefaultKeybinds isMac) = true.
Proof.
  intros H. apply callbackOf_table in H. cbn [In] in H.
  repeat (destruct H as [H|H];
          [injection H as <- _; now destruct isMac|]).
  destruct H.
Qed.

End KeysTable.

(** X24. [registerShortcuts] and [toggleAllWindowsVisibility], with a host
    whose [globalShortcut.register] may take a shortcut, decline it or
    raise.  Without a window pool nothing happens.  When loading the key
    bindings fails the failure is thrown on, and the shortcuts held and
    requested stay as they were.  Once the key bindings are loaded
    [toggleVisibility] is bound; when telling the windows raises, the run
    throws with no shortcut held.  Otherwise: registering the toggle only
    returns, whatever [register] does, having requested the toggle under
    its loaded binding and then, unless the binding is that one, under
    Cmd+\ on macOS and Ctrl+\ elsewhere; the shortcuts held are among
    these, and the one under the loaded binding is held when the host takes
    it as the first.  Registering everything requests first the display
    shortcuts Mod+Shift+1, Mod+Shift+2, ... (with more than one display) and
    Mod+Shift+Left, Mod+Shift+Right, outside any [try]: when one of them
    raises the run throws and holds only shortcuts requested before it;
    when none raises the run returns, what is held was requested, and after
    the fixed shortcuts come, with the ApiKey header, the toggle requests
    alone, and otherwise a request for each of the fourteen configurable
    actions under its loaded binding with its own callback, and no other
    request.  A shortcut is held only if the host has taken it: when every
    shortcut held before the run is such, so is every one held after it.
    One press of the toggle emits the opposite of the flag, and
    flips the flag exactly when registering returns; pressed while the
    windows are shown, with the key bindings loaded and the windows told, it
    returns with the flag off and only toggle shortcuts held. *)
Theorem X24_registering_shortcuts :
  forall (h : Keys.Host) (answer : Result (option (list Shortcuts.Row)))
         (s : Keys.State),
    let modifier := if Keys.isMac h then "Cmd" else "Ctrl" in
    let alias :=
      JStr (if Keys.isMac h then "Cmd+" ++ Shortcuts.backslash
            else "Ctrl+" ++ Shortcuts.backslash) in
    let toggles := fun keybinds =>
      ((Shortcuts.read keybinds "toggleVisibility",
        Keys.ToggleAllWindowsVisibility)
         :: if Prefs.strictEq alias
                 (Shortcuts.read keybinds "toggleVisibility")
            then []
            else [(alias, Keys.ToggleAllWindowsVisibility)])%list in
    let fixed :=
      ((if Nat.ltb 1 (List.length (Keys.displays h))
        then map (fun id =>
                    (JStr (modifier ++ "+Shift+" ++ ofNat (fst id + 1)),
                     Keys.MoveToDisplay (snd id)))
               (combine (seq 0 (List.length (Keys.displays h)))
                  (Keys.displays h))
        else [])
       ++ [(JStr (modifier ++ "+Shift+Left"), Keys.MoveToEdge "left");
           (JStr (modifier ++ "+Shift+Right"), Keys.MoveToEdge "right")])%list
    in
    let configurable :=
      [("toggleVisibility", Keys.ToggleAllWindowsVisibility);
       ("nextStep", Keys.NextStep);
       ("scrollUp", Keys.ScrollVisibleWindows true);
       ("scrollDown", Keys.ScrollVisibleWindows false);
       ("moveUp", Keys.MoveStep "up");
       ("moveDown", Keys.MoveStep "down");
       ("moveLeft", Keys.MoveStep "left");
       ("moveRight", Keys.MoveStep "right");
       ("toggleClickThrough", Keys.ToggleClickThrough);
       ("toggleListen", Keys.ToggleListen);
       ("toggleSettings", Keys.ToggleSettings);
       ("manualScreenshot", Keys.ManualScreenshot);
       ("previousResponse", Keys.NavigatePreviousResponse);
       ("nextResponse", Keys.NavigateNextResponse)] in
    (Keys.windowPool h = false ->
     forall only, Keys.registerShortcuts h answer only s = (Ok tt, s))
    /\ (Keys.windowPool h = true ->
        forall only e writes,
          Shortcuts.loadKeybinds (Keys.isMac h) (Keys.upsertKeybinds h) answer
          = (Throw e, writes) ->
          let out := Keys.registerShortcuts h answer only s in
          fst out = Throw e
          /\ Keys.registered (snd out) = Keys.registered s
          /\ Keys.requested (snd out) = Keys.requested s
          /\ Keys.saved (snd out) = (Keys.saved s ++ writes)%list)
    /\ (Keys.windowPool h = true ->
        forall keybinds writes,
          Shortcuts.loadKeybinds (Keys.isMac h) (Keys.upsertKeybinds h) answer
          = (Ok keybinds, writes) ->
          Js.truthy (Shortcuts.read keybinds "toggleVisibility") = true
          /\ (forall only e,
                Keys.announce h = Some e ->
                let out := Keys.registerShortcuts h answer only s in
                fst out = Throw e /\ Keys.registered (snd out) = [])
          /\ (Keys.announce h = None ->
              (let out := Keys.registerShortcuts h answer true s in
               fst out = Ok tt
               /\ Keys.requested (snd out) = toggles keybinds
               /\ incl (Keys.registered (snd out)) (toggles keybinds)
               /\ (Keys.register h []
                     (Shortcuts.read keybinds "toggleVisibility")
                   = Keys.Taken ->
                   In (Shortcuts.read keybinds "toggleVisibility",
                       Keys.ToggleAllWindowsVisibility)
                     (Keys.registered (snd out)))
               /\ Keys.saved (snd out) = (Keys.saved s ++ writes)%list)
              /\ (forall before p after e,
                    fixed = (before ++ p :: after)%list ->
                    (forall regs q e', In q before ->
                                       Keys.register h regs (fst q)
                                       <> Keys.Raised e') ->
                    (forall regs, Keys.register h regs (fst p)
                                  = Keys.Raised e) ->
                    let out := Keys.registerShortcuts h answer false s in
                    fst out = Throw e
                    /\ incl (Keys.registered (snd out)) before)
              /\ ((forall regs p e, In p fixed ->
                                    Keys.register h regs (fst p)
                                    <> Keys.Raised e) ->
                  let out := Keys.registerShortcuts h answer false s in
                  fst out = Ok tt
                  /\ incl (Keys.registered (snd out))
                       (Keys.requested (snd out))
                  /\ exists rest,
                       Keys.requested (snd out) = (fixed ++ rest)%list
                       /\ (Keys.apikeyHeader h = true ->
                           rest = toggles keybinds)
                       /\ (Keys.apikeyHeader h = false ->
                           (forall a cb,
                               In (a, cb) configurable ->
                               In (Shortcuts.read keybinds a, cb) rest)
                           /\ (forall accelerator cb,
                                 In (accelerator, cb) rest ->
                                 exists a,
                                   In (a, cb) configurable
                                   /\ accelerator = Shortcuts.read keybinds a
                                   /\ Js.truthy accelerator = true)))))
    /\ (forall only,
          (forall p, In p (Keys.registered s) ->
                     exists held, Keys.register h held (fst p) = Keys.Taken) ->
          forall p,
            In p (Keys.registered
                    (snd (Keys.registerShortcuts h answer only s))) ->
            exists held, Keys.register h held (fst p) = Keys.Taken)
    /\ (let out := Keys.toggleAllWindowsVisibility h answer s in
        Keys.visibilityRequests (snd out)
        = (Keys.visibilityRequests s
             ++ [negb (Keys.allWindowVisibility s)])%list
        /\ (fst out = Ok tt ->
            Keys.allWindowVisibility (snd out)
            = negb (Keys.allWindowVisibility s))
        /\ (forall e, fst out = Throw e ->
                      Keys.allWindowVisibility (snd out)
                      = Keys.allWindowVisibility s)
        /\ (Keys.windowPool h = true ->
            Keys.announce h = None ->
            Keys.allWindowVisibility s = true ->
            forall keybinds writes,
              Shortcuts.loadKeybinds (Keys.isMac h) (Keys.upsertKeybinds h)
                answer
              = (Ok keybinds, writes) ->
              fst out = Ok tt
              /\ Keys.allWindowVisibility (snd out) = false
              /\ Keys.requested (snd out) = toggles keybinds
              /\ incl (Keys.registered (snd out)) (toggles keybinds)
              /\ (Keys.register h []
                    (Shortcuts.read keybinds "toggleVisibility")
                  = Keys.Taken ->
                  In (Shortcuts.read keybinds "toggleVisibility",
                      Keys.ToggleAllWindowsVisibility)
                    (Keys.registered (snd out))))).
Proof.
  intros h answer s. cbv zeta.
  assert (Hfixed :
            Keys.hardcoded h
            = ((if Nat.ltb 1 (List.length (Keys.displays h))
                then map (fun id =>
                            (JStr ((if Keys.isMac h then "Cmd" else "Ctrl")
                                     ++ "+Shift+" ++ ofNat (fst id + 1)),
                             Keys.MoveToDisplay (snd id)))
                       (combine (seq 0 (List.length (Keys.displays h)))
                          (Keys.displays h))
                else [])
               ++ [(JStr ((if Keys.isMac h then "Cmd" else "Ctrl")
                            ++ "+Shift+Left"), Keys.MoveToEdge "left");
                   (JStr ((if Keys.isMac h then "Cmd" else "Ctrl")
                            ++ "+Shift+Right"), Keys.MoveToEdge "right")])%list).
  { unfold Keys.hardcoded. cbv zeta.
    now rewrite KeysFacts.monitorKeys_spec. }
  rewrite <- Hfixed.
  (* the run that registers the toggle only, from any state *)
  assert (T : forall keybinds writes s0,
            Keys.windowPool h = true ->
            Keys.announce h = None ->
            Shortcuts.loadKeybinds (Keys.isMac h) (Keys.upsertKeybinds h)
              answer = (Ok keybinds, writes) ->
            exists s',
              Keys.registerShortcuts h answer true s0 = (Ok tt, s')
              /\ Keys.Grows
                   (Keys.unregisterAll (Keys.withSaved writes s0)) s'
                   ((Shortcuts.read keybinds "toggleVisibility",
                     Keys.ToggleAllWindowsVisibility)
                      :: if Prefs.strictEq
                              (JStr (if Keys.isMac h
                                     then "Cmd+" ++ Shortcuts.backslash
                                     else "Ctrl+" ++ Shortcuts.backslash))
                              (Shortcuts.read keybinds "toggleVisibility")
                         then []
                         else [(JStr (if Keys.isMac h
                                      then "Cmd+" ++ Shortcuts.backslash
                                      else "Ctrl+" ++ Shortcuts.backslash),
                                Keys.ToggleAllWindowsVisibility)])%list
              /\ (Keys.register h []
                    (Shortcuts.read keybinds "toggleVisibility")
                  = Keys.Taken ->
                  In (Shortcuts.read keybinds "toggleVisibility",
                      Keys.ToggleAllWindowsVisibility)
                    (Keys.registered s'))).
  { intros keybinds writes s0 Hp Ha Hl.
    rewrite (KeysFacts.registerShortcuts_loaded h answer true s0 keybinds
               writes Hp Hl Ha).
    apply KeysFacts.toggles_spec. }
  split.
  { intros Hp only. unfold Keys.registerShortcuts. now rewrite Hp. }
  split.
  { intros Hp only e writes Hl.
    unfold Keys.registerShortcuts. rewrite Hp. cbn [negb].
    unfold Eff.bind, Keys.load. rewrite Hl. cbv beta iota.
    cbn [fst snd]. unfold Keys.withSaved.
    cbn [Keys.registered Keys.requested Keys.saved]. now repeat split. }
  split.
  { intros Hp keybinds writes Hl.
    split.
    { assert (Ha : Js.has "toggleVisibility"
                     (Shortcuts.getDefaultKeybinds (Keys.isMac h)) = true)
        by now destruct (Keys.isMac h).
      pose proof (KeysFacts.loaded_settled _ _ _ _ _ _ Hl Ha) as H.
      unfold Shortcuts.settled in H.
      apply andb_true_iff in H. destruct H as [H _].
      apply andb_true_iff in H. now destruct H. }
    split.
    { intros only e Ha. unfold Keys.registerShortcuts. rewrite Hp.
      cbn [negb]. unfold Eff.bind, Keys.load, Eff.modify, Keys.tell.
      rewrite Hl, Ha. cbv beta iota. unfold Eff.throw. now split. }
    intros Ha. split.
    { destruct (T keybinds writes s Hp Ha Hl)
        as (s' & E & (R & (t & G & I) & _ & Sv & _) & K).
      rewrite E. cbn [fst snd]. cbn [Keys.unregisterAll Keys.requested
                                     Keys.registered Keys.saved
                                     Keys.withSaved] in *.
      cbn [app] in *. split; [reflexivity|]. split; [exact R|].
      split; [now rewrite G|]. split; [exact K|exact Sv]. }
    split.
    { intros before p after e Hf Hb Hr.
      rewrite (KeysFacts.registerShortcuts_loaded h answer false s keybinds
                 writes Hp Hl Ha).
      cbv beta iota. unfold Eff.bind. rewrite Hf.
      destruct (KeysFacts.requests_raise h before after p e
                  (Keys.unregisterAll (Keys.withSaved writes s)) Hb Hr)
        as (s' & t & E & G & I & _).
      rewrite E. cbn [fst snd]. split; [reflexivity|].
      now rewrite G. }
    intros Hn.
    rewrite (KeysFacts.registerShortcuts_loaded h answer false s keybinds
               writes Hp Hl Ha).
    cbv beta iota. unfold Eff.bind.
    destruct (KeysFacts.requests h (Keys.hardcoded h)
                (Keys.unregisterAll (Keys.withSaved writes s)) Hn)
      as (s1 & E1 & G1).
    rewrite E1.
    destruct (Keys.apikeyHeader h).
    - destruct (KeysFacts.toggles_spec h keybinds s1) as (s2 & E2 & G2 & _).
      rewrite E2. cbn [fst snd].
      destruct (KeysFacts.grows_trans _ _ _ _ _ G1 G2)
        as (R & (t & G & I) & _).
      cbn [Keys.unregisterAll Keys.requested Keys.registered app] in *.
      split; [reflexivity|]. split; [now rewrite G, R|].
      eexists. split; [exact R|]. split; [reflexivity|discriminate].
    - destruct (KeysFacts.configure_loop h keybinds (Keys.forIn keybinds) s1)
        as (s2 & E2 & G2).
      rewrite E2. cbn [fst snd].
      destruct (KeysFacts.grows_trans _ _ _ _ _ G1 G2)
        as (R & (t & G & I) & _).
      cbn [Keys.unregisterAll Keys.requested Keys.registered app] in *.
      split; [reflexivity|]. split; [now rewrite G, R|].
      eexists. split; [exact R|]. split; [discriminate|].
      intros _. split.
      + intros a cb Hin. apply KeysTable.callbackOf_table in Hin.
        pose proof (KeysTable.table_defaults (Keys.isMac h) a cb Hin) as Hd.
        pose proof (KeysFacts.loaded_settled _ _ _ _ _ _ Hl Hd) as St.
        unfold Shortcuts.settled in St.
        apply andb_true_iff in St. destruct St as [St _].
        apply andb_true_iff in St. destruct St as [St _].
        apply in_flat_map. exists a.
        split; [now apply KeysFacts.read_listed|].
        rewrite St, Hin. now left.
      + intros accelerator cb Hin. apply in_flat_map in Hin.
        destruct Hin as (a & _ & Hin).
        destruct (Js.truthy (Shortcuts.read keybinds a)) eqn:Et;
          [|destruct Hin].
        destruct (Keys.callbackOf a) as [c|] eqn:Ec; [|destruct Hin].
        destruct Hin as [[= <- <-]|[]].
        exists a. split; [now apply KeysTable.callbackOf_table|].
        now split. }
  split.
  { intros only Hs. exact (KeysFacts.registerShortcuts_held h answer only s Hs). }
  pose proof (KeysFacts.registerShortcuts_keeps h answer
                (Keys.allWindowVisibility s)
                (Keys.emit (negb (Keys.allWindowVisibility s)) s))
    as (KA & KV).
  assert (U : Keys.toggleAllWindowsVisibility h answer s
              = match Keys.registerShortcuts h answer
                        (Keys.allWindowVisibility s)
                        (Keys.emit (negb (Keys.allWindowVisibility s)) s) with
                | (Ok _, s2) =>
                    (Ok tt,
                     Keys.withVisibility (negb (Keys.allWindowVisibility s2))
                       s2)
                | (Throw e, s2) => (Throw e, s2)
                end).
  { unfold Keys.toggleAllWindowsVisibility, Eff.bind, Eff.gets, Eff.modify.
    cbn [Keys.emit Keys.allWindowVisibility].
    now destruct (Keys.allWindowVisibility s). }
  rewrite U. clear U.
  cbn [Keys.emit Keys.allWindowVisibility Keys.visibilityRequests] in KA, KV.
  split.
  { destruct (Keys.registerShortcuts h answer _ _) as [[u|e] s2];
      cbn [fst snd] in *; [|exact KV].
    unfold Keys.withVisibility. cbn [Keys.visibilityRequests]. exact KV. }
  split.
  { destruct (Keys.registerShortcuts h answer _ _) as [[u|e] s2];
      cbn [fst snd] in *; [|discriminate].
    intros _. unfold Keys.withVisibility. cbn [Keys.allWindowVisibility].
    now rewrite KA. }
  split.
  { intros e. destruct (Keys.registerShortcuts h answer _ _) as [[u|e0] s2];
      cbn [fst snd] in *; [discriminate|]. intros _. exact KA. }
  intros Hp Ha Hv keybinds writes Hl. rewrite Hv in *.
  destruct (T keybinds writes (Keys.emit (negb true) s) Hp Ha Hl)
    as (s' & E & (R & (t & G & I) & _) & K).
  rewrite E in *. cbn [fst snd] in *. unfold Keys.withVisibility.
  cbn [Keys.unregisterAll Keys.requested Keys.registered Keys.saved
       Keys.withSaved Keys.allWindowVisibility app] in *.
  split; [reflexivity|]. split; [now rewrite KA|].
  split; [exact R|]. split; [now rewrite G|exact K].
Qed.

Lemma X24_witness :
  let out :=
    Keys.toggleAllWindowsVisibility Keys.desk
      (Ok (Some Shortcuts.someRows)) Keys.shown in
  let full :=
    Keys.registerShortcuts Keys.desk (Ok (Some Shortcuts.someRows)) false
      Keys.shown in
  fst out = Ok tt
  /\ Keys.allWindowVisibility (snd out) = false
  /\ In (JStr "Ctrl+Alt+H", Keys.ToggleAllWindowsVisibility)
       (Keys.registered (snd out))
  /\ fst full = Ok tt
  /\ incl (Keys.registered (snd full)) (Keys.requested (snd full)).
Proof.
  cbv zeta.
  destruct (X24_registering_shortcuts Keys.desk
              (Ok (Some Shortcuts.someRows)) Keys.shown)
    as (_ & _ & F & _ & _ & _ & _ & H).
  destruct (H eq_refl eq_refl eq_refl
              (fst (Shortcuts.migrate false
                      (Shortcuts.objectOf Shortcuts.someRows)))
              [Shortcuts.rowsOf
                 (fst (Shortcuts.migrate false
                         (Shortcuts.objectOf Shortcuts.someRows)))])
    as (A & B & _ & _ & K); [reflexivity|].
  split; [exact A|]. split; [exact B|].
  split; [apply K; reflexivity|].
  destruct (F eq_refl
              (fst (Shortcuts.migrate false
                      (Shortcuts.objectOf Shortcuts.someRows)))
              [Shortcuts.rowsOf
                 (fst (Shortcuts.migrate false
                         (Shortcuts.objectOf Shortcuts.someRows)))])
    as (_ & _ & G); [reflexivity|].
  destruct (G eq_refl) as (_ & _ & N).
  destruct N as (C & D & _).
  - intros regs p e Hin.
    cbv in Hin.
    repeat (destruct Hin as [Hin|Hin]; [subst p; cbv; discriminate|]).
    destruct Hin.
  - split; [exact C|exact D].
Defined.
